(* ===== verification/_CoqProject ===== *)
-Q . S2P
Prelude.v
Hoare.v
RustStd.v
Entropy.v
HostRandom.v
Wire.v
Base64.v
Pddb.v
Signal.v
Stores.v
Json.v
JsonLaws.v
World.v
Outgoing.v
Server.v
Send.v
SendSpec.v
SendLive.v
SendWorld.v
Peers.v
Races.v
Receive.v
ReceiveSpec.v
EndToEnd.v
WsServer.v
WsServerSpec.v
Wifi.v
WifiSpec.v
Keys.v
StoreTests.v
SendTests.v
OutgoingTests.v
Rest.v
Prekeys.v
Provision.v
ProvisionSpec.v
Account.v
AccountSpec.v
StoreEffect.v
SignalWs.v
Manager.v
ManagerSpec.v
ManagerLive.v
ManagerDemo.v
App.v
AppSpec.v
EffectSpec.v
System.v
AppDemo.v
SystemDemo.v
UnitTests.v
