(* ===== verification/Prelude.v ===== *)
(** * xous-signal-client: a model of the client and its correctness

    The program is a Signal client for the Xous operating system, written in
    Rust.  The application shell (main.rs, lib.rs) reads the user interface's
    messages one by one.  A device is linked to an account by scanning a QR code:
    the manager (manager.rs) opens a provisioning socket (manager/signal_ws.rs),
    hands it to a worker thread (manager/ws_server.rs), shows the code and waits
    for the worker's result, while an observer thread (manager/wifi_observer.rs,
    manager/cancellation.rs) interrupts the wait when the WiFi link is lost; the
    envelope is decrypted (manager/libsignal.rs) and the account linked
    (account.rs, manager/rest.rs, manager/prekeys.rs).  The device then sends
    messages over REST (manager/send.rs, manager/outgoing.rs) and receives them
    on an authenticated WebSocket (manager/main_ws.rs), keeping identities,
    sessions, pre-keys (manager/stores.rs) and conversation summaries
    (manager/peers.rs) in the PDDB, the operating system's key-value store.

    ** How the code is modelled

    A pure function is a function, a struct a record, an enum an inductive type.
    Code with effects is a computation [ST W E A] (this file): it maps a state
    to a result or error and a state, so an error keeps the effects that
    happened before it.  The state of the production code is [World P O]
    (World.v): the PDDB state, the outside (clock, entropy, network answers) and
    a log of the visible events.  The log makes the order of requests, sleeps,
    acknowledgements and user-interface calls part of the statements.
    [Vec<u8>] and [String] are lists of bytes, a [String] holding valid UTF-8;
    integers are [Z] with their bounds and wrap-around written out.

    Threads that run together are turns of one system.  The flags and watcher
    states that threads share are cells of a memory [Mem] (Wifi.v), addressed by
    index, so that a token and its handles are the same cell.  [Sys] (Manager.v)
    holds the worker of the provisioning socket with its queue beside the caller;
    a blocked caller lets the worker take turns, and the observer thread runs
    before each receive of the worker and around the calls that block.  A caller
    of a destroyed server gets an error; a caller of a server whose thread ended
    before its loop stays blocked, which is the error [Stuck].  A panic is an
    error of its own ([Panicked_main]) and ends the program.

    Code outside the repository is an interface: [Pddb] (Pddb.v), [Libsignal] and
    [Protocol] (Signal.v), [KeyOps], [Crypto] and [OsRng] (Keys.v), [WireFormat]
    for prost (Wire.v), [Base64], [SerdeJson] and [UrlLib] (Json.v), [Host] for
    ureq, clock and sleep and [WsHost] for the socket (World.v), [UrlHost]
    (Account.v), [XousServer] and [IpcBuffer] for the kernel's messages
    (WsServer.v), [ComRs], [NetHost] and [WifiHost] for the link (Wifi.v),
    [WsDial], [WsClosing] and [UrlMore] (SignalWs.v), [LinkHost] and [Modals]
    (Manager.v), [ChatLib] and [AppHost] (App.v), [Trng] (Entropy.v) and [Libc]
    (HostRandom.v).
    What the client relies on is a class of laws beside each one; every law class
    has an instance by concrete functions, and the witnesses of the theorems run
    the client on these instances.

    ** Files

    - Prelude.v, RustStd.v: results, the state and error computation, loops with
      fuel, bytes; the parts of Rust's standard library the client uses
      (decimal formatting and parsing, UTF-8, slicing, sort and dedup).
    - Hoare.v: weakest preconditions of computations, with a rule for each
      combinator and an invariant rule for loops.
    - Entropy.v: getrandom_xous.rs and the entry points and Xous backend of the
      vendored getrandom 0.2.  Buffers are filled with exactly the words drawn; the size limit.
    - HostRandom.v: the vendored getrandom 0.2 on a hosted Linux build (error.rs,
      lazy.rs, util_libc.rs, use_file.rs, linux_android_with_fallback.rs).  A request
      returns and fills its buffer however it is interrupted; threads that race for
      /dev/urandom open it once and after the pool is ready ([rng_system]).
    - Wire.v, Base64.v, Json.v, Pddb.v, Signal.v, Keys.v: the interfaces above.
      JsonLaws.v proves the text round trip the JSON interface promises.
    - Stores.v: manager/stores.rs.  Trust on first use, pre-key lifecycles, the
      one-use rule of last-resort Kyber keys, the session store as a refinement
      of a set of addresses.
    - World.v: the world and the production instances of the send path's traits.
    - Outgoing.v: manager/outgoing.rs.  Message contents, padding, the recipient
      and focus pointers.
    - Send.v: manager/send.rs.  SendSpec.v proves its theorems against [SendEnv],
      a class that states what the stores, the HTTP client and the runtime
      promise; SendWorld.v discharges the class for the production world.  Shown:
      the retry loop ends; a success means the server accepted a PUT that names
      each device once and never the sender and carries the content encrypted for
      each ([sealed]); effort is bounded; the 409 and 410
      recoveries do what the server asked and touch no other peer's sessions.
      Server.v is the server the tests of send.rs play against, a set of registered
      devices per account; SendLive.v shows that against it two attempts suffice.
    - Peers.v: manager/peers.rs.  The JSON round trip, unread rules, snippets,
      order of the list.
    - Receive.v and ReceiveSpec.v: manager/main_ws.rs and the URL of
      manager/signal_ws.rs.  Content is delivered as it was written; a
      sealed envelope needs an accepted certificate before it has any effect; each
      request is acknowledged once; the reconnect delay is bounded.
    - EndToEnd.v: the send path of one client and the receive path of another,
      joined by the server's relay ([relayed]) and by what libsignal promises of a
      session's two ends ([DecryptLaws]): what was sent is what is shown.
    - WsServer.v and WsServerSpec.v: manager/ws_server.rs, the worker thread.  Its
      turns are shown to follow a step relation ([wstep]); by induction on it no
      page is lost, a flap silences the socket, a result is a frame that was
      received, and a caller is answered by the deadline.
    - Wifi.v and WifiSpec.v: manager/wifi_observer.rs and manager/cancellation.rs.
      Cancellation is permanent under every step ([wifi_step]), a watcher reports
      every loss of the link exactly once, the wait for the link ends.
    - SignalWs.v: the rest of manager/signal_ws.rs, manager/config.rs and the enums
      of trust_mode.rs, link_state.rs and group_permission.rs.
    - Manager.v: manager.rs and the caller's side of ws_server.rs.  ManagerSpec.v
      shows that linking leaves no worker behind, retries once and only after a
      flap, and uses the envelope sent for its own QR code; ManagerLive.v that it
      ends; ManagerDemo.v runs it on a smooth and on a flapping link.
    - App.v, AppSpec.v and AppDemo.v: lib.rs, main.rs and api.rs.  At most one
      receive worker is started, a failed start is final, a post is echoed first.
    - Rest.v: manager/rest.rs and manager/account_attrs.rs.
    - Prekeys.v: manager/prekeys.rs and manager/prekey_replenish.rs.  Batches have
      fresh consecutive ids and are stored before they are uploaded.
    - Provision.v and ProvisionSpec.v: manager/libsignal.rs.  The provisioning
      envelope and the device name round trip, and authenticity of the envelope.
    - Account.v and AccountSpec.v: account.rs, account/service_environment.rs.
      [read] as a function of the stored dictionary, the defaults of [new],
      linking is all or nothing, and what a later [read] makes of a link.
    - StoreEffect.v and EffectSpec.v: the abstract specification [client_write] of
      all writes to the PDDB, and that every operation of the client refines it.
    - System.v and SystemDemo.v: the main loop, the receive worker and the
      replenishment as one step relation ([system_step]).  Every reachable store is
      well typed, one receive worker runs, a used Kyber key stays used.
      SystemDemo.v runs a device from the empty store to an answered message.
    - Races.v: two threads cut at each PDDB call, and the updates they lose.
    - StoreTests.v: bin/test_stores.rs, which passes on every lawful PDDB.
    - SendTests.v, OutgoingTests.v and UnitTests.v: the unit tests of the repository and
      tests/wifi_flap_recovery.rs, run on the model.

    ** Fuel and bounds

    The retry loop of send.rs runs with 4 turns ([MAX_ATTEMPTS] is 3);
    [submit_terminates] shows that this is always enough.  [show_u] has 20 digits,
    which hold every [u64]; [chunks] has the length of its input.  The worker and
    the session loop of main_ws.rs have no end of their own, so they are stated
    per turn and take a number of turns as an argument, and the message loop of
    main.rs runs over the messages received so far.  [receive_turns_follow_loop]
    shows that the turns of System.v are the runs of that loop.

    The worker of ws_server.rs runs until it is told to stop, so [worker_loop] and
    the callers in Manager.v take the number of its turns; a caller whose fuel runs
    out is [Stuck], never a result.  [link_settles] shows that from every state
    there is a number of turns from which on [link] gives one and the same result
    that is not [Stuck].  [wait_for_connection_ends] gives the fuel of the wait for
    the link, one turn per tick.  The fill loop and [get_rng_fd] of HostRandom.v take
    fuel because a call may be interrupted any number of times;
    [hosted_getrandom_total] shows that the length of the buffer, the interruptions
    still to come and ten are enough.  The WiFi dialogue of lib.rs repeats for as long
    as the user says yes and is [Stuck] when its fuel runs out.

    ** What is not modelled

    Logging, the hex and body dumps of the hosted build, and a failure of the
    random generator inside a key generation (the code panics).  [ws_close] is the
    whole of [SignalWS::close], taken to return; when it does is the subject of
    [close_returns_iff_flush_fails].  A lock is an atomic section.  The theorems of
    System.v take a turn of a thread as one step; finer interleavings are modelled
    for the store operations of Races.v only, where they break the guarantees of a
    single turn.  The dialogue dictionary is shared with the chat server and is
    not among the client's own ([CLIENT_DICTS]).  A text [t!(key)] is its key.  The 38 methods of manager.rs that are [todo!()] have no
    behaviour.  The server between two clients is a relation on what it relays, and
    libsignal's cryptography is its laws.  Of the vendored getrandom the platforms
    other than Xous and Linux are not compiled for this program.  main.rs before [SigChat::new] (heap limit, server name, menu) and
    after its loop (tear-down) are system calls.

    Of the tests, those that need real cryptography (known answers, lengths of
    signatures, whether a keystream advances), wall-clock time or sockets, those of
    accessors of libraries ([Url], [PreKeyBundle]), and those whose listener counts
    its own calls. *)

From stdpp Require Export base tactics list gmap countable strings.
From Stdlib Require Export ZArith Lia.
From Stdlib Require Strings.Byte.
From Stdlib Require Export Sorting.Sorted.
Export Corelib.Init.Byte.ByteSyntaxNotations.
Delimit Scope byte_scope with byte.

#[global] Set Default Goal Selector "!".

(** * Bytes and byte strings

    [Vec<u8>] and [String] are both lists of bytes: a Rust [String] is its
    UTF-8 encoding, [len] is a byte count and slicing is by byte offset. *)

Abbreviation byte := Corelib.Init.Byte.byte.
Abbreviation bytes := (list byte).

#[global] Instance byte_eq_dec : EqDecision byte := Byte.byte_eq_dec.
#[global] Instance byte_inhabited : Inhabited byte := populate Byte.x00.

#[global] Program Instance byte_countable : Countable byte :=
  inj_countable Byte.to_N Byte.of_N _.
Next Obligation. intros b. apply Byte.of_to_N. Qed.

(** Literals: ["abc"%bs] is the byte list of the source literal. *)
Inductive bstr := BStr (l : bytes).
Definition bstr_parse (l : bytes) : bstr := BStr l.
Definition bstr_print (b : bstr) : bytes := let 'BStr l := b in l.
Definition unB (b : bstr) : bytes := let 'BStr l := b in l.
Coercion unB : bstr >-> list.
Arguments unB !_ /.
Declare Scope bs_scope.
Delimit Scope bs_scope with bs.
String Notation bstr bstr_parse bstr_print : bs_scope.

(** The double quote, which a literal cannot hold. *)
Definition dq : bytes := [Byte.x22].

(** * Fixed-width integers

    A [u8], [u32], [u64] or [usize] is a [Z] with its range; wrap-around and
    saturation are written out where the source can meet them. *)

Definition u8_max : Z := 255.
Definition u32_max : Z := 4294967295.
Definition u64_max : Z := 18446744073709551615.

Definition in_u8 (z : Z) : Prop := (0 ≤ z ≤ u8_max)%Z.
Definition in_u32 (z : Z) : Prop := (0 ≤ z ≤ u32_max)%Z.
Definition in_u64 (z : Z) : Prop := (0 ≤ z ≤ u64_max)%Z.

(** [x.saturating_sub(y)] and [x.saturating_add(y)] on unsigned words. *)
Definition sat_sub (x y : Z) : Z := Z.max 0 (x - y).
Definition sat_add (maxv x y : Z) : Z := Z.min maxv (x + y).

(** [u8::try_from] on a wider unsigned word. *)
Definition u8_try_from (z : Z) : option Z :=
  if (0 <=? z)%Z && (z <=? u8_max)%Z then Some z else None.

Definition byteZ (b : byte) : Z := Z.of_N (Byte.to_N b).
Definition Zbyte (z : Z) : byte :=
  default Byte.x00 (Byte.of_N (Z.to_N (z mod 256))).

Lemma byteZ_range (b : byte) : (0 ≤ byteZ b < 256)%Z.
Proof. unfold byteZ. pose proof (Byte.to_N_bounded b). lia. Qed.

Lemma Zbyte_byteZ (b : byte) : Zbyte (byteZ b) = b.
Proof.
  unfold Zbyte. rewrite Z.mod_small by apply byteZ_range.
  unfold byteZ. by rewrite N2Z.id, Byte.of_to_N.
Qed.

Lemma byteZ_inj (a b : byte) : byteZ a = byteZ b → a = b.
Proof. intros H. by rewrite <- (Zbyte_byteZ a), H, Zbyte_byteZ. Qed.

Lemma byteZ_Zbyte (z : Z) : byteZ (Zbyte z) = (z mod 256)%Z.
Proof.
  pose proof (Z.mod_pos_bound z 256 ltac:(lia)) as Hb.
  unfold Zbyte. destruct (Byte.of_N _) as [b|] eqn:E; simpl.
  - apply Byte.to_of_N in E. unfold byteZ. rewrite E. by rewrite Z2N.id by lia.
  - apply Byte.of_N_None_iff in E. lia.
Qed.

Lemma byteZ_Zbyte_small (z : Z) : (0 ≤ z < 256)%Z → byteZ (Zbyte z) = z.
Proof. intros. rewrite byteZ_Zbyte. by apply Z.mod_small. Qed.

(** * Results and the state-and-error monad

    [result E A] is Rust's [Result<A, E>].  An operation that changes the world
    is [ST W E A := W → result E A * W]: the world after an error is the world
    at the point of the error, as in the source. *)

Inductive result (E A : Type) : Type :=
  | Ok (a : A)
  | Err (e : E).
Arguments Ok {E A} a.
Arguments Err {E A} e.

Definition is_ok {E A} (r : result E A) : bool :=
  match r with Ok _ => true | Err _ => false end.
Definition map_err {E F A} (f : E → F) (r : result E A) : result F A :=
  match r with Ok a => Ok a | Err e => Err (f e) end.
Definition ok_or {E A} (e : E) (o : option A) : result E A :=
  match o with Some a => Ok a | None => Err e end.
Definition ok {E A} (r : result E A) : option A :=
  match r with Ok a => Some a | Err _ => None end.

#[global] Instance result_ret {E} : MRet (result E) := λ A a, Ok a.
#[global] Instance result_bind {E} : MBind (result E) := λ A B f r,
  match r with Ok a => f a | Err e => Err e end.
#[global] Instance result_fmap {E} : FMap (result E) := λ A B f r,
  match r with Ok a => Ok (f a) | Err e => Err e end.

Definition ST (W E A : Type) : Type := W → result E A * W.

#[global] Instance ST_ret {W E} : MRet (ST W E) := λ A a w, (Ok a, w).
#[global] Instance ST_bind {W E} : MBind (ST W E) := λ A B f c w,
  match c w with
  | (Ok a, w') => f a w'
  | (Err e, w') => (Err e, w')
  end.

Section st_ops.
Context {W E : Type}.

(** [return Err(e)] *)
Definition throw {A} (e : E) : ST W E A := λ w, (Err e, w).
(** [pure_result?] *)
Definition lift {A} (r : result E A) : ST W E A := λ w, (r, w).
(** a read of the world *)
Definition gets {A} (f : W → A) : ST W E A := λ w, (Ok (f w), w).
(** an infallible update of the world *)
Definition modify (f : W → W) : ST W E unit := λ w, (Ok tt, f w).
(** [c.map_err(f)] for an effectful [c] with its own error type *)
Definition with_err {F A} (f : F → E) (c : ST W F A) : ST W E A :=
  λ w, let '(r, w') := c w in (map_err f r, w').
(** run [c] and hand its result over as a value ([match c { Ok.. Err.. }]) *)
Definition try {F A} (c : ST W F A) : ST W E (result F A) :=
  λ w, let '(r, w') := c w in (Ok r, w').

(** [for x in xs { body(x)?; }] *)
Fixpoint for_each {A} (body : A → ST W E unit) (xs : list A) : ST W E unit :=
  match xs with
  | [] => mret ()
  | x :: xs => body x;; for_each body xs
  end.

(** [for x in xs { out.push(body(x)?) }] *)
Fixpoint collect {A B} (body : A → ST W E B) (xs : list A) : ST W E (list B) :=
  match xs with
  | [] => mret []
  | x :: xs => y ← body x; ys ← collect body xs; mret (y :: ys)
  end.
End st_ops.

(** Taking a successful run apart. *)
Lemma bind_Ok {W E A B} (c : ST W E A) (f : A → ST W E B) w b w' :
  (c ≫= f) w = (Ok b, w') → ∃ a w1, c w = (Ok a, w1) ∧ f a w1 = (Ok b, w').
Proof.
  unfold mbind, ST_bind. destruct (c w) as [[a|e] w1]; [|done]. intros. by exists a, w1.
Qed.
Lemma result_bind_Ok {E A B} (r : result E A) (f : A → result E B) b :
  r ≫= f = Ok b → ∃ a, r = Ok a ∧ f a = Ok b.
Proof. destruct r as [a|e]; [|done]. intros. by exists a. Qed.
Lemma with_err_Ok {W E F A} (f : F → E) (c : ST W F A) w a w' :
  with_err f c w = (Ok a, w') → c w = (Ok a, w').
Proof. unfold with_err. destruct (c w) as [[]]; simpl; naive_solver. Qed.
Lemma lift_Ok {W E A} (r : result E A) (w w' : W) a : lift r w = (Ok a, w') → r = Ok a ∧ w' = w.
Proof. by intros [= <- <-]. Qed.
Lemma map_err_Ok {E F A} (f : E → F) (r : result E A) a : map_err f r = Ok a → r = Ok a.
Proof. destruct r; simpl; [|done]. by intros [= <-]. Qed.

(** [loop { .. }] with its mutable locals as a state: the body ends the loop
    with a value ([inr]) or an error, or goes round again ([inl]).  [None] is
    running out of fuel, never a result of the loop itself. *)
Fixpoint iter {S W E A} (fuel : nat) (body : S → ST W E (S + A)) (s : S) (w : W) :
    option (result E A * W) :=
  match fuel with
  | O => None
  | Datatypes.S fuel =>
      match body s w with
      | (Err e, w') => Some (Err e, w')
      | (Ok (inr a), w') => Some (Ok a, w')
      | (Ok (inl s'), w') => iter fuel body s' w'
      end
  end.

(** The loop run with [fuel]; [out] marks exhaustion, which the user of a
    bounded loop shows cannot happen. *)
Definition run_loop {S W E A} (fuel : nat) (out : E) (body : S → ST W E (S + A)) (s : S) :
    ST W E A :=
  λ w, default (Err out, w) (iter fuel body s w).

Lemma iter_mono {S W E A} (body : S → ST W E (S + A)) n m s w r :
  iter n body s w = Some r → n ≤ m → iter m body s w = Some r.
Proof.
  revert m s w; induction n as [|n IH]; simpl; intros m s w H Hle; [done|].
  destruct m as [|m]; [lia|]. simpl. destruct (body s w) as [[[s'|a]|e] w']; [|done|done].
  apply IH; [done|lia].
Qed.

(** [std::io::Error]: its kind and its text. *)
Inductive ErrorKind :=
  | NotFound | PermissionDenied | ConnectionRefused | ConnectionAborted
  | WouldBlock | TimedOut | Interrupted | InvalidInput | InvalidData | Other.
Record io_error := IoError { kind : ErrorKind; message : bytes }.

#[global] Instance ErrorKind_eq_dec : EqDecision ErrorKind.
Proof. solve_decision. Defined.
#[global] Instance io_error_eq_dec : EqDecision io_error.
Proof. solve_decision. Defined.
