(* ===== verification/Hoare.v ===== *)
(** Weakest preconditions for the state-and-error computations.

    [wp c Q R w]: from [w], [c] returns a value and a state that satisfy [Q], or
    fails with an error and a state that satisfy [R].  Every [ST] computation
    returns, so this is total correctness; a loop of unknown length is covered
    for every number of turns by [iter_inv]. *)

From S2P Require Import Prelude.

Definition wp {W E A} (c : ST W E A) (Q : A → W → Prop) (R : E → W → Prop) (w : W) : Prop :=
  match c w with (Ok a, w') => Q a w' | (Err e, w') => R e w' end.

Section rules.
Context {W E : Type}.
Implicit Types w : W.
Implicit Types R : E → W → Prop.

Lemma wp_ret {A} (a : A) (Q : A → W → Prop) R w : Q a w → wp (mret a) Q R w.
Proof. done. Qed.
Lemma wp_throw {A} (e : E) (Q : A → W → Prop) R w : R e w → wp (throw e) Q R w.
Proof. done. Qed.
Lemma wp_gets {A} (f : W → A) (Q : A → W → Prop) R w : Q (f w) w → wp (gets f) Q R w.
Proof. done. Qed.
Lemma wp_modify (f : W → W) (Q : () → W → Prop) R w : Q tt (f w) → wp (modify f) Q R w.
Proof. done. Qed.
Lemma wp_lift {A} (r : result E A) (Q : A → W → Prop) R w :
  match r with Ok a => Q a w | Err e => R e w end → wp (lift r) Q R w.
Proof. unfold wp, lift. by destruct r. Qed.
Lemma wp_bind {A B} (c : ST W E A) (f : A → ST W E B) (Q : B → W → Prop) R w :
  wp c (λ a, wp (f a) Q R) R w → wp (c ≫= f) Q R w.
Proof. unfold wp, mbind, ST_bind. by destruct (c w) as [[a|e] w']. Qed.
Lemma wp_mono {A} (c : ST W E A) (Q Q' : A → W → Prop) R R' w :
  wp c Q R w → (∀ a w', Q a w' → Q' a w') → (∀ e w', R e w' → R' e w') → wp c Q' R' w.
Proof. unfold wp. destruct (c w) as [[a|e] w']; eauto. Qed.
Lemma wp_try {F A} (c : ST W F A) (Q : result F A → W → Prop) R w :
  wp c (λ a, Q (Ok a)) (λ e, Q (Err e)) w → wp (try c) Q R w.
Proof. unfold wp, try. by destruct (c w) as [[a|e] w']. Qed.
Lemma wp_with_err {F A} (g : F → E) (c : ST W F A) (Q : A → W → Prop) R w :
  wp c Q (λ e, R (g e)) w → wp (with_err g c) Q R w.
Proof. unfold wp, with_err. by destruct (c w) as [[a|e] w']. Qed.
Lemma wp_eq {A} (c : ST W E A) (Q : A → W → Prop) R w a w' :
  c w = (Ok a, w') → wp c Q R w → Q a w'.
Proof. unfold wp. by intros ->. Qed.
Lemma wp_run {A} (c : ST W E A) (Q : A → W → Prop) R w :
  (∀ a w', c w = (Ok a, w') → Q a w') → (∀ e w', c w = (Err e, w') → R e w') → wp c Q R w.
Proof. unfold wp. destruct (c w) as [[a|e] w']; eauto. Qed.

Lemma wp_for_each {A} (body : A → ST W E ()) xs (I : list A → W → Prop) R w :
  I xs w →
  (∀ x xs' w', I (x :: xs') w' → wp (body x) (λ _, I xs') R w') →
  wp (for_each body xs) (λ _, I []) R w.
Proof.
  intros Hi Hb. revert w Hi. induction xs as [|x xs IH]; intros w Hi; [done|].
  apply wp_bind. eapply wp_mono; [by apply Hb| |done]. auto.
Qed.
End rules.

(** What holds before every turn of a loop holds after any number of them. *)
Lemma iter_inv {S W E A} (body : S → ST W E (S + A)) (I : S → W → Prop)
    (Q : A → W → Prop) (R : E → W → Prop) n s w :
  I s w →
  (∀ s w, I s w → wp (body s) (λ x w', match x with inl s' => I s' w' | inr a => Q a w' end) R w) →
  match iter n body s w with
  | Some (Ok a, w') => Q a w'
  | Some (Err e, w') => R e w'
  | None => True
  end.
Proof.
  intros Hi Hb. revert s w Hi. induction n as [|n IH]; intros s w Hi; simpl; [done|].
  pose proof (Hb s w Hi) as Ht. unfold wp in Ht.
  destruct (body s w) as [[[s'|a]|e] w']; [by apply IH|done..].
Qed.

(** One step of symbolic execution. *)
Ltac wp_step :=
  lazymatch goal with
  | |- wp (_ ≫= _) _ _ _ => apply wp_bind
  | |- wp (mret _) _ _ _ => apply wp_ret
  | |- wp (throw _) _ _ _ => apply wp_throw
  | |- wp (gets _) _ _ _ => apply wp_gets
  | |- wp (modify _) _ _ _ => apply wp_modify
  | |- wp (lift _) _ _ _ => apply wp_lift
  | |- wp (try _) _ _ _ => apply wp_try
  | |- wp (with_err _ _) _ _ _ => apply wp_with_err
  | |- wp (match ?x with _ => _ end) _ _ _ => destruct x eqn:?
  end.
Ltac wp_steps := repeat wp_step.
