(* ===== verification/RustStd.v ===== *)
(** The parts of Rust's standard library the client uses: substring search and
    slicing of byte strings, decimal formatting and parsing, UTF-8 validation
    and lossy decoding, [trim], and the sort and dedup of vectors.  Each is the
    documented behaviour of the [std] function named beside it. *)

From S2P Require Import Prelude.

(** * Substrings *)

(** [s.starts_with(p)] *)
Fixpoint starts_with (p s : bytes) : bool :=
  match p, s with
  | [], _ => true
  | _, [] => false
  | a :: p, b :: s => bool_decide (a = b) && starts_with p s
  end.

(** [s.strip_prefix(p)] *)
Definition strip_prefix (p s : bytes) : option bytes :=
  if starts_with p s then Some (drop (length p) s) else None.

(** [s.find(needle)]: the byte offset of the first occurrence. *)
Fixpoint find_sub (needle s : bytes) : option nat :=
  if starts_with needle s then Some 0
  else match s with
       | [] => None
       | _ :: s => S <$> find_sub needle s
       end.

(** [s.find(pred)]: the offset of the first byte satisfying [f]. *)
Fixpoint find_byte (f : byte → bool) (s : bytes) : option nat :=
  match s with
  | [] => None
  | b :: s => if f b then Some 0 else S <$> find_byte f s
  end.

Lemma starts_with_app (p s : bytes) : starts_with p (p ++ s) = true.
Proof. induction p as [|a p IH]; simpl; [by destruct s|]. by rewrite bool_decide_true. Qed.

Lemma starts_with_spec (p s : bytes) : starts_with p s = true ↔ ∃ r, s = p ++ r.
Proof.
  split; [|intros [r ->]; apply starts_with_app].
  revert s; induction p as [|a p IH]; intros s H; [by exists s|].
  destruct s as [|b s]; [done|]. simpl in H.
  apply andb_true_iff in H as [->%bool_decide_eq_true H].
  destruct (IH _ H) as [r ->]. by exists r.
Qed.

Lemma strip_prefix_Some (p s r : bytes) : strip_prefix p s = Some r ↔ s = p ++ r.
Proof.
  unfold strip_prefix. split.
  - destruct (starts_with p s) eqn:E; [|done]. intros [= <-].
    apply starts_with_spec in E as [q ->]. by rewrite drop_app_length.
  - intros ->. by rewrite starts_with_app, drop_app_length.
Qed.

Lemma find_sub_app_head (n s : bytes) : find_sub n (n ++ s) = Some 0.
Proof. pose proof (starts_with_app n s) as H. destruct (n ++ s); simpl; by rewrite H. Qed.

Lemma find_sub_Some (n s : bytes) i :
  find_sub n s = Some i → ∃ r, drop i s = n ++ r.
Proof.
  revert i; induction s as [|b s IH]; intros i; simpl.
  - destruct (starts_with n []) eqn:E; [|done]. intros [= <-].
    by apply starts_with_spec in E.
  - destruct (starts_with n (b :: s)) eqn:E.
    + intros [= <-]. by apply starts_with_spec in E.
    + intros (j & Hj & ->)%fmap_Some. simpl. by apply IH.
Qed.

Lemma find_byte_app_None (f : byte → bool) (p s : bytes) :
  forallb (λ b, negb (f b)) p = true →
  find_byte f (p ++ s) = (λ i, length p + i) <$> find_byte f s.
Proof.
  induction p as [|b p IH]; simpl; [by destruct (find_byte f s)|].
  intros (Hb & Hp)%andb_true_iff. apply negb_true_iff in Hb. rewrite Hb, (IH Hp).
  by destruct (find_byte f s).
Qed.

Lemma find_sub_skip (n s : bytes) b :
  starts_with n (b :: s) = false → find_sub n (b :: s) = S <$> find_sub n s.
Proof. intros E. by cbn [find_sub]; rewrite E. Qed.

Lemma find_sub_no_head x (n p s : bytes) :
  head n = Some x → x ∉ p → find_sub n (p ++ s) = (λ i, length p + i) <$> find_sub n s.
Proof.
  intros Hn. induction p as [|b p IH]; intros Hx; cbn [app length].
  - by destruct (find_sub _ s).
  - rewrite find_sub_skip; [rewrite IH by set_solver; by destruct (find_sub _ s)|].
    destruct n as [|y n]; [done|]. simplify_eq/=. by rewrite bool_decide_false by set_solver.
Qed.

(** * ASCII classes *)

Definition is_ascii_digit (b : byte) : bool :=
  (48 <=? byteZ b)%Z && (byteZ b <=? 57)%Z.
Definition is_ascii_hexdigit (b : byte) : bool :=
  is_ascii_digit b
  || ((65 <=? byteZ b)%Z && (byteZ b <=? 70)%Z)
  || ((97 <=? byteZ b)%Z && (byteZ b <=? 102)%Z).

(** * Decimal text *)

Definition digit_of (d : Z) : byte := Zbyte (48 + d).

Fixpoint show_aux (fuel : nat) (n : Z) (acc : bytes) : bytes :=
  match fuel with
  | O => acc
  | S fuel =>
      let acc := digit_of (n mod 10) :: acc in
      if (n / 10 =? 0)%Z then acc else show_aux fuel (n / 10) acc
  end.

(** [format!("{}", n)] for an unsigned [n]; twenty digits hold every [u64]. *)
Definition show_u (n : Z) : bytes := show_aux 20 n [].

(** [format!("{}", b)] *)
Definition show_bool (b : bool) : bytes := if b then "true"%bs else "false"%bs.

Fixpoint parse_digits (maxv acc : Z) (s : bytes) : option Z :=
  match s with
  | [] => Some acc
  | b :: s =>
      if is_ascii_digit b then
        let acc := (acc * 10 + (byteZ b - 48))%Z in
        if (acc <=? maxv)%Z then parse_digits maxv acc s else None
      else None
  end.

(** [s.parse::<uN>()]: an optional ['+'], at least one digit, no overflow. *)
Definition parse_uint (maxv : Z) (s : bytes) : option Z :=
  match s with
  | [] => None
  | b :: r =>
      if bool_decide (b = "+"%byte) then
        match r with [] => None | _ => parse_digits maxv 0 r end
      else parse_digits maxv 0 s
  end.

Definition parse_u32 : bytes → option Z := parse_uint u32_max.
Definition parse_u64 : bytes → option Z := parse_uint u64_max.

(** [Display] of the [ParseIntError] of an unsigned parse that failed: the
    first offending position decides. *)
Fixpoint digits_error (maxv acc : Z) (s : bytes) : bytes :=
  match s with
  | [] => []
  | b :: r =>
      if is_ascii_digit b then
        let acc := (acc * 10 + (byteZ b - 48))%Z in
        if (acc <=? maxv)%Z then digits_error maxv acc r
        else "number too large to fit in target type"%bs
      else "invalid digit found in string"%bs
  end.

Definition parse_int_error (maxv : Z) (s : bytes) : bytes :=
  match s with
  | [] => "cannot parse integer from empty string"%bs
  | [_] => digits_error maxv 0 s
  | b :: r => digits_error maxv 0 (if bool_decide (b = "+"%byte) then r else s)
  end.

(** [s.parse::<i64>()] *)
Definition parse_i64 (s : bytes) : option Z :=
  match s with
  | [] => None
  | b :: r =>
      if bool_decide (b = "-"%byte) then
        match r with
        | [] => None
        | _ => Z.opp <$> parse_digits 9223372036854775808 0 r
        end
      else parse_uint 9223372036854775807 s
  end.

(** [s.parse::<bool>()] *)
Definition parse_bool (s : bytes) : option bool :=
  if bool_decide (s = "true"%bs) then Some true
  else if bool_decide (s = "false"%bs) then Some false
  else None.

Lemma byteZ_digit_of (d : Z) : (0 ≤ d < 10)%Z → byteZ (digit_of d) = (48 + d)%Z.
Proof. intros. unfold digit_of. apply byteZ_Zbyte_small. lia. Qed.

Lemma is_ascii_digit_of (d : Z) : (0 ≤ d < 10)%Z → is_ascii_digit (digit_of d) = true.
Proof. intros. unfold is_ascii_digit. rewrite byteZ_digit_of by done. lia. Qed.

Lemma show_aux_digits fuel n acc :
  (0 ≤ n)%Z → forallb is_ascii_digit acc = true →
  forallb is_ascii_digit (show_aux fuel n acc) = true.
Proof.
  revert n acc; induction fuel as [|fuel IH]; intros n acc Hn Hacc; simpl; [done|].
  pose proof (Z.mod_pos_bound n 10 ltac:(lia)).
  assert (forallb is_ascii_digit (digit_of (n mod 10) :: acc) = true) as Hd.
  { simpl. by rewrite is_ascii_digit_of, Hacc. }
  destruct (n / 10 =? 0)%Z; [done|]. apply IH; [|done]. apply Z.div_pos; lia.
Qed.

Lemma show_u_digits n : (0 ≤ n)%Z → forallb is_ascii_digit (show_u n) = true.
Proof. intros. by apply show_aux_digits. Qed.

Lemma show_aux_cons fuel n acc : ∃ b r, show_aux (S fuel) n acc = b :: r.
Proof.
  revert n acc; induction fuel as [|fuel IH]; intros n acc.
  - simpl. destruct (n / 10 =? 0)%Z; eauto.
  - cbn [show_aux]. destruct (n / 10 =? 0)%Z; [eauto|]. apply IH.
Qed.

Lemma show_u_cons n : ∃ b r, show_u n = b :: r.
Proof. apply show_aux_cons. Qed.

(** Parsing the printed prefix from [a] is parsing [acc] from [a·10^k + n]. *)
Lemma parse_show_aux maxv fuel n acc a :
  (0 ≤ n < 10 ^ Z.of_nat fuel)%Z → (0 ≤ a)%Z → (0 < fuel)%nat →
  ∃ k, (n < 10 ^ Z.of_nat k)%Z ∧
    ((a * 10 ^ Z.of_nat k + n ≤ maxv)%Z →
     parse_digits maxv a (show_aux fuel n acc) =
     parse_digits maxv (a * 10 ^ Z.of_nat k + n) acc).
Proof.
  revert n acc a; induction fuel as [|fuel IH]; intros n acc a Hn Ha Hf; [lia|].
  pose proof (Z.div_mod n 10 ltac:(lia)) as Hdm.
  pose proof (Z.mod_pos_bound n 10 ltac:(lia)) as Hm.
  assert (∀ a' acc', (0 ≤ a')%Z → (a' * 10 + n mod 10 ≤ maxv)%Z →
    parse_digits maxv a' (digit_of (n mod 10) :: acc') =
    parse_digits maxv (a' * 10 + n mod 10) acc') as Hstep.
  { intros a' acc' Ha' Hle. cbn [parse_digits]. rewrite is_ascii_digit_of by done.
    rewrite byteZ_digit_of by done.
    replace (48 + n mod 10 - 48)%Z with (n mod 10)%Z by lia.
    by destruct (Z.leb_spec (a' * 10 + n mod 10) maxv); [|lia]. }
  simpl. destruct (Z.eqb_spec (n / 10) 0) as [E|E].
  - exists 1%nat. change (10 ^ Z.of_nat 1)%Z with 10%Z. split; [lia|].
    intros Hle. rewrite Hstep by lia. f_equal. lia.
  - assert (0 ≤ n / 10)%Z by (apply Z.div_pos; lia).
    assert (n / 10 < 10 ^ Z.of_nat fuel)%Z as Hn'.
    { apply Z.div_lt_upper_bound; [lia|].
      rewrite Nat2Z.inj_succ, Z.pow_succ_r in Hn by lia. lia. }
    destruct fuel as [|fuel]; [change (10 ^ Z.of_nat 0)%Z with 1%Z in Hn'; lia|].
    destruct (IH (n / 10)%Z (digit_of (n mod 10) :: acc) a) as (k & Hk & Hp); [lia..|].
    exists (S k). rewrite Nat2Z.inj_succ, Z.pow_succ_r by lia.
    assert (0 ≤ a * 10 ^ Z.of_nat k)%Z by (apply Z.mul_nonneg_nonneg; lia).
    split; [lia|]. intros Hle. rewrite Hp by lia. rewrite Hstep by lia. f_equal. lia.
Qed.

Lemma parse_digits_show maxv n :
  (0 ≤ n ≤ maxv)%Z → (n < 10 ^ 20)%Z → parse_digits maxv 0 (show_u n) = Some n.
Proof.
  intros Hn H20. destruct (parse_show_aux maxv 20 n [] 0) as (k & _ & Hp); [lia..|].
  unfold show_u. rewrite Hp by lia. simpl. f_equal; lia.
Qed.

Lemma digit_not_plus (b : byte) : is_ascii_digit b = true → b ≠ "+"%byte.
Proof. by intros H ->. Qed.

(** Printing then parsing an unsigned integer gives it back. *)
Lemma parse_uint_show maxv n :
  (0 ≤ n ≤ maxv)%Z → (n < 10 ^ 20)%Z → parse_uint maxv (show_u n) = Some n.
Proof.
  intros Hn H20. pose proof (show_u_digits n ltac:(lia)) as Hd.
  pose proof (parse_digits_show maxv n Hn H20) as Hp.
  destruct (show_u_cons n) as (b & r & E). rewrite E in *. simpl in Hd.
  apply andb_true_iff in Hd as [Hb _]. unfold parse_uint.
  by rewrite bool_decide_false by by apply digit_not_plus.
Qed.

Lemma parse_u32_show n : in_u32 n → parse_u32 (show_u n) = Some n.
Proof. unfold in_u32, u32_max. intros. apply parse_uint_show; unfold u32_max; lia. Qed.

Lemma parse_u64_show n : in_u64 n → parse_u64 (show_u n) = Some n.
Proof. unfold in_u64, u64_max. intros. apply parse_uint_show; unfold u64_max; lia. Qed.

Lemma parse_digits_range maxv acc s n :
  (0 ≤ acc ≤ maxv)%Z → parse_digits maxv acc s = Some n → (0 ≤ n ≤ maxv)%Z.
Proof.
  revert acc; induction s as [|b s IH]; simpl; intros acc Hacc; [by intros [= <-]|].
  destruct (is_ascii_digit b) eqn:Hd; [|done].
  unfold is_ascii_digit in Hd. destruct (Z.leb_spec (acc * 10 + (byteZ b - 48)) maxv); [|done].
  apply IH. lia.
Qed.

Lemma parse_u32_range s n : parse_u32 s = Some n → in_u32 n.
Proof.
  unfold parse_u32, parse_uint, in_u32, u32_max.
  destruct s as [|b r]; [done|]. case_bool_decide.
  - destruct r; [done|]. by apply parse_digits_range.
  - by apply parse_digits_range.
Qed.

Lemma show_u_inj n m : in_u64 n → in_u64 m → show_u n = show_u m → n = m.
Proof.
  intros Hn Hm E. pose proof (parse_u64_show n Hn) as H.
  rewrite E, parse_u64_show in H by done. by simplify_eq.
Qed.

(** * UTF-8 *)

(** The lead byte of a scalar: how many continuation bytes follow and the range
    the first of them must lie in. *)
Definition utf8_lead (b : byte) : option (nat * Z * Z) :=
  let z := byteZ b in
  if (z <? 128)%Z then Some (0%nat, 128%Z, 191%Z)
  else if (194 <=? z)%Z && (z <=? 223)%Z then Some (1%nat, 128%Z, 191%Z)
  else if (z =? 224)%Z then Some (2%nat, 160%Z, 191%Z)
  else if (225 <=? z)%Z && (z <=? 236)%Z then Some (2%nat, 128%Z, 191%Z)
  else if (z =? 237)%Z then Some (2%nat, 128%Z, 159%Z)
  else if (238 <=? z)%Z && (z <=? 239)%Z then Some (2%nat, 128%Z, 191%Z)
  else if (z =? 240)%Z then Some (3%nat, 144%Z, 191%Z)
  else if (241 <=? z)%Z && (z <=? 243)%Z then Some (3%nat, 128%Z, 191%Z)
  else if (z =? 244)%Z then Some (3%nat, 128%Z, 143%Z)
  else None.

Definition in_range (lo hi : Z) (b : byte) : bool :=
  (lo <=? byteZ b)%Z && (byteZ b <=? hi)%Z.

(** Validation with [k] continuation bytes still due, the next in [lo..hi]. *)
Fixpoint utf8_run (k : nat) (lo hi : Z) (s : bytes) : bool :=
  match s with
  | [] => Nat.eqb k 0
  | b :: s =>
      match k with
      | O => match utf8_lead b with
             | Some (k, lo, hi) => utf8_run k lo hi s
             | None => false
             end
      | S k => in_range lo hi b && utf8_run k 128 191 s
      end
  end.

Definition utf8_valid (s : bytes) : bool := utf8_run 0 128 191 s.

(** [String::from_utf8(v).ok()] *)
Definition from_utf8 (s : bytes) : option bytes :=
  if utf8_valid s then Some s else None.

(** U+FFFD *)
Definition replacement : bytes := [Byte.xef; Byte.xbf; Byte.xbd].

(** [String::from_utf8_lossy]: every maximal ill-formed subsequence becomes one
    U+FFFD; [pend] holds the bytes of the scalar being read. *)
Fixpoint lossy_run (k : nat) (lo hi : Z) (pend s : bytes) : bytes :=
  match s with
  | [] => match k with O => [] | S _ => replacement end
  | b :: s =>
      let start :=
        match utf8_lead b with
        | Some (O, _, _) => b :: lossy_run 0 128 191 [] s
        | Some (k, lo, hi) => lossy_run k lo hi [b] s
        | None => replacement ++ lossy_run 0 128 191 [] s
        end in
      match k with
      | O => start
      | S O => if in_range lo hi b
               then pend ++ [b] ++ lossy_run 0 128 191 [] s
               else replacement ++ start
      | S k => if in_range lo hi b
               then lossy_run k 128 191 (pend ++ [b]) s
               else replacement ++ start
      end
  end.

Definition from_utf8_lossy (s : bytes) : bytes := lossy_run 0 128 191 [] s.

Lemma lossy_run_valid k lo hi pend s :
  utf8_run k lo hi s = true →
  lossy_run k lo hi pend s = match k with O => s | S _ => pend ++ s end.
Proof.
  revert k lo hi pend; induction s as [|b s IH]; intros k lo hi pend H; simpl in *.
  - by destruct k.
  - destruct k as [|[|k]]; simpl.
    + destruct (utf8_lead b) as [[[[|k'] lo'] hi']|]; [| |done].
      * f_equal. rewrite (IH 0 128%Z 191%Z []); [done|]. clear IH.
        by destruct s.
      * by rewrite IH.
    + apply andb_true_iff in H as [-> H]. by rewrite (IH 0 128%Z 191%Z []).
    + apply andb_true_iff in H as [-> H].
      rewrite (IH (S k) 128%Z 191%Z (pend ++ [b])) by done. by rewrite <- app_assoc.
Qed.

(** Lossy decoding of valid UTF-8 is the identity. *)
Lemma from_utf8_lossy_valid s : utf8_valid s = true → from_utf8_lossy s = s.
Proof. apply (lossy_run_valid 0 128 191 [] s). Qed.

Lemma from_utf8_Some s t : from_utf8 s = Some t ↔ s = t ∧ utf8_valid s = true.
Proof. unfold from_utf8. destruct (utf8_valid s); naive_solver. Qed.

Lemma utf8_run_app k lo hi s t :
  utf8_run k lo hi s = true → utf8_valid t = true → utf8_run k lo hi (s ++ t) = true.
Proof.
  revert k lo hi; induction s as [|b s IH]; intros k lo hi Hs Ht; simpl in *.
  - apply Nat.eqb_eq in Hs as ->. by destruct t.
  - destruct k as [|k].
    + destruct (utf8_lead b) as [[[? ?] ?]|]; [by apply IH|done].
    + apply andb_true_iff in Hs as [-> Hs]. by apply IH.
Qed.

Lemma utf8_valid_app s t :
  utf8_valid s = true → utf8_valid t = true → utf8_valid (s ++ t) = true.
Proof. apply utf8_run_app. Qed.

(** [s.is_char_boundary(i)] *)
Definition is_continuation (b : byte) : bool := in_range 128 191 b.
Definition is_char_boundary (s : bytes) (i : nat) : bool :=
  if Nat.eqb i 0 then true
  else if Nat.eqb i (length s) then true
  else match s !! i with
       | Some b => negb (is_continuation b)
       | None => false
       end.

(** [&s[..i]]: [None] is the panic of a slice off a character boundary. *)
Definition slice_to (s : bytes) (i : nat) : option bytes :=
  if is_char_boundary s i then Some (take i s) else None.

Lemma utf8_lead_cont b k lo hi :
  utf8_lead b = Some (k, lo, hi) → (128 ≤ lo)%Z ∧ (hi ≤ 191)%Z.
Proof. unfold utf8_lead. intros. repeat case_match; simplify_eq; lia. Qed.

(** Cutting a valid string before a byte that is not a continuation byte leaves
    a valid string. *)
Lemma utf8_run_take k lo hi s i :
  (128 ≤ lo)%Z → (hi ≤ 191)%Z → utf8_run k lo hi s = true →
  (∃ b, s !! i = Some b ∧ is_continuation b = false) →
  utf8_run k lo hi (take i s) = true.
Proof.
  revert k lo hi i; induction s as [|b s IH]; intros k lo hi i Hlo Hhi Hs (c & Hc & Hcont);
    [done|].
  destruct i as [|i]; simpl in *.
  - simplify_eq. destruct k as [|k]; [done|]. exfalso.
    apply andb_true_iff in Hs as [Hr _]. unfold is_continuation, in_range in *. lia.
  - destruct k as [|k].
    + destruct (utf8_lead b) as [[[k' lo'] hi']|] eqn:E; [|done].
      apply utf8_lead_cont in E. apply IH; naive_solver.
    + apply andb_true_iff in Hs as [-> Hs]. simpl. apply IH; naive_solver.
Qed.

Lemma slice_to_valid s i t :
  utf8_valid s = true → slice_to s i = Some t → utf8_valid t = true.
Proof.
  unfold slice_to, is_char_boundary. intros Hs.
  destruct (Nat.eqb_spec i 0) as [->|]; [by intros [= <-]|].
  destruct (Nat.eqb_spec i (length s)) as [->|]; [intros [= <-]; by rewrite take_ge|].
  destruct (s !! i) as [b|] eqn:E; [|done].
  destruct (is_continuation b) eqn:Hc; [done|]. intros [= <-].
  apply utf8_run_take; naive_solver.
Qed.

Lemma ascii_utf8_valid s : forallb (λ b, (byteZ b <? 128)%Z) s = true → utf8_valid s = true.
Proof.
  unfold utf8_valid. induction s as [|b s IH]; simpl; [done|].
  intros [Hb Hs]%andb_true_iff. unfold utf8_lead. rewrite Hb. by apply IH.
Qed.

Lemma show_u_utf8 n : (0 ≤ n)%Z → utf8_valid (show_u n) = true.
Proof.
  intros Hn. apply ascii_utf8_valid, forallb_forall. intros b Hb.
  pose proof (show_u_digits n Hn) as Hd. rewrite forallb_forall in Hd. apply Hd in Hb.
  unfold is_ascii_digit in Hb. lia.
Qed.

Lemma utf8_run_0 lo hi s : utf8_run 0 lo hi s = utf8_run 0 128 191 s.
Proof. by destruct s. Qed.
Lemma utf8_run_ascii p s :
  forallb (λ x, byteZ x <? 128)%Z p = true → utf8_run 0 128 191 (p ++ s) = utf8_run 0 128 191 s.
Proof.
  induction p as [|b p IH]; cbn [forallb app]; [done|]. intros [Hb Hp]%andb_true_iff.
  cbn [utf8_run]. unfold utf8_lead. rewrite Hb. by apply IH.
Qed.

(** An escape [f] that maps ASCII to ASCII and keeps the other bytes. *)
Section escape.
Variable f : byte → bytes.
Hypothesis f_ascii : ∀ b, (byteZ b < 128)%Z → forallb (λ x, byteZ x <? 128)%Z (f b) = true.
Hypothesis f_high : ∀ b, (128 ≤ byteZ b)%Z → f b = [b].

Lemma utf8_run_escape k lo hi s :
  utf8_run k lo hi s = true → k = 0 ∨ (128 ≤ lo)%Z → utf8_run k lo hi (concat (f <$> s)) = true.
Proof.
  revert k lo hi; induction s as [|b s IH]; intros k lo hi; [done|]. cbn [fmap list_fmap concat].
  destruct k as [|k]; cbn [utf8_run].
  - intros Hr _. destruct (Z.lt_ge_cases (byteZ b) 128) as [Hb|Hb].
    + assert (utf8_lead b = Some (0, 128%Z, 191%Z)) as El.
      { unfold utf8_lead. by rewrite (proj2 (Z.ltb_lt _ _) Hb). }
      rewrite El in Hr. apply (IH 0 128%Z 191%Z) in Hr; [|by left].
      rewrite utf8_run_0, utf8_run_ascii; [done|by apply f_ascii].
    + rewrite f_high by done. cbn [app utf8_run].
      destruct (utf8_lead b) as [[[k lo'] hi']|] eqn:El; [|done]. apply IH; [done|].
      apply utf8_lead_cont in El as [? _]. by right.
  - intros [Hin Hr]%andb_true_iff [|Hlo]; [done|].
    unfold in_range in Hin. rewrite f_high by lia. cbn [app utf8_run].
    apply andb_true_iff. split; [unfold in_range; lia|]. apply IH; [done|right; lia].
Qed.
Lemma utf8_escaped s : utf8_valid s = true → utf8_valid (concat (f <$> s)) = true.
Proof. intros Hs. apply utf8_run_escape; [done|by left]. Qed.
End escape.

(** * [trim] *)

(** Length of the [White_Space] character at the front of [s], 0 if none. *)
Definition ws_front (s : bytes) : nat :=
  match byteZ <$> take 3 s with
  | a :: r =>
      if ((9 <=? a) && (a <=? 13) || (a =? 32))%Z then 1
      else match r with
           | b :: r =>
               if ((a =? 194) && ((b =? 133) || (b =? 160)))%Z then 2
               else match r with
                    | c :: _ =>
                        if ((a =? 225) && (b =? 154) && (c =? 128)
                            || (a =? 226) && (b =? 128) &&
                               ((128 <=? c) && (c <=? 138)
                                || (c =? 168) || (c =? 169) || (c =? 175))
                            || (a =? 226) && (b =? 129) && (c =? 159)
                            || (a =? 227) && (b =? 128) && (c =? 128))%Z then 3
                        else 0
                    | [] => 0
                    end
           | [] => 0
           end
  | [] => 0
  end.

Fixpoint trim_start_aux (fuel : nat) (s : bytes) : bytes :=
  match fuel with
  | O => s
  | S fuel => match ws_front s with
              | O => s
              | n => trim_start_aux fuel (drop n s)
              end
  end.
Definition trim_start (s : bytes) : bytes := trim_start_aux (length s) s.

(** Length of the [White_Space] character at the back of [s]. *)
Definition ws_back (s : bytes) : nat :=
  let n := length s in
  if Nat.eqb (ws_front (drop (n - 1) s)) 1 && Nat.ltb 0 n then 1
  else if Nat.eqb (ws_front (drop (n - 2) s)) 2 && Nat.ltb 1 n then 2
  else if Nat.eqb (ws_front (drop (n - 3) s)) 3 && Nat.ltb 2 n then 3
  else 0.

Fixpoint trim_end_aux (fuel : nat) (s : bytes) : bytes :=
  match fuel with
  | O => s
  | S fuel => match ws_back s with
              | O => s
              | n => trim_end_aux fuel (take (length s - n) s)
              end
  end.

(** [s.trim()] *)
Definition trim (s : bytes) : bytes :=
  let s := trim_start s in trim_end_aux (length s) s.

(** A printable ASCII byte: never part of a white-space character. *)
Definition is_graphic (b : byte) : bool := in_range 33 126 b.

Lemma ws_front_graphic b s : is_graphic b = true → ws_front (b :: s) = 0.
Proof.
  unfold is_graphic, in_range. intros Hb. unfold ws_front. cbn [take fmap list_fmap].
  repeat case_match; simplify_list_eq; try done; lia.
Qed.

Lemma ws_back_graphic s : Forall (λ b, is_graphic b = true) s → ws_back s = 0.
Proof.
  intros Hs. unfold ws_back.
  assert (∀ k, ws_front (drop k s) = 0) as Hf.
  { intros k. destruct (drop k s) as [|b r] eqn:E; [done|]. apply ws_front_graphic.
    eapply (Forall_drop _ k) in Hs. rewrite E in Hs. by apply Forall_inv in Hs. }
  by rewrite !Hf.
Qed.

Lemma trim_graphic s : Forall (λ b, is_graphic b = true) s → trim s = s.
Proof.
  intros Hs. unfold trim.
  assert (trim_start s = s) as ->.
  { unfold trim_start. destruct s as [|b r]; [done|]. simpl.
    rewrite ws_front_graphic; [done|]. by apply Forall_inv in Hs. }
  destruct (length s); [done|]. simpl. by rewrite ws_back_graphic.
Qed.

Lemma digits_graphic s :
  forallb is_ascii_digit s = true → Forall (λ b, is_graphic b = true) s.
Proof.
  induction s as [|b s IH]; simpl; [constructor|]. intros [Hb Hs]%andb_true_iff.
  constructor; [|by apply IH]. unfold is_ascii_digit, is_graphic, in_range in *. lia.
Qed.

(** * Vectors *)

(** [v.sort_unstable(); v.dedup()] on words: the sort of distinct-by-value
    words has one outcome, so insertion order does not matter. *)
Fixpoint insert_sorted (x : Z) (l : list Z) : list Z :=
  match l with
  | [] => [x]
  | y :: l' => if (x <=? y)%Z then x :: l else y :: insert_sorted x l'
  end.
Definition sort_unstable (l : list Z) : list Z := foldr insert_sorted [] l.

Fixpoint dedup (l : list Z) : list Z :=
  match l with
  | [] => []
  | x :: l' => match l' with
               | [] => [x]
               | y :: _ => if (x =? y)%Z then dedup l' else x :: dedup l'
               end
  end.

(** [v.sort_by(|a, b| b.key.cmp(&a.key))]: stable, descending by [key]. *)
Section sort_desc.
Context {A : Type} (key : A → Z).
Fixpoint insert_desc (x : A) (l : list A) : list A :=
  match l with
  | [] => [x]
  | y :: l' => if (key y <=? key x)%Z then x :: l else y :: insert_desc x l'
  end.
Definition sort_by_desc (l : list A) : list A := foldr insert_desc [] l.

Lemma insert_desc_perm x l : insert_desc x l ≡ₚ x :: l.
Proof.
  induction l as [|y l IH]; simpl; [done|]. case_match; [done|].
  rewrite IH. apply Permutation_swap.
Qed.
Lemma sort_by_desc_perm l : sort_by_desc l ≡ₚ l.
Proof. induction l as [|x l IH]; simpl; [done|]. by rewrite insert_desc_perm, IH. Qed.

Abbreviation desc := (λ x y, (key y ≤ key x)%Z).
Lemma insert_desc_sorted x l : StronglySorted desc l → StronglySorted desc (insert_desc x l).
Proof.
  induction 1 as [|y l Hs IH Hy]; simpl; [repeat constructor|].
  destruct (Z.leb_spec (key y) (key x)).
  - constructor; [by constructor|]. constructor; [lia|].
    eapply Forall_impl; [exact Hy|]. simpl. lia.
  - constructor; [done|]. rewrite insert_desc_perm. constructor; [lia|done].
Qed.
Lemma sort_by_desc_sorted l : StronglySorted desc (sort_by_desc l).
Proof. induction l; simpl; [constructor|by apply insert_desc_sorted]. Qed.
End sort_desc.

Lemma insert_sorted_perm x l : insert_sorted x l ≡ₚ x :: l.
Proof.
  induction l as [|y l IH]; simpl; [done|]. case_match; [done|].
  rewrite IH. apply Permutation_swap.
Qed.
Lemma sort_unstable_perm l : sort_unstable l ≡ₚ l.
Proof. induction l as [|x l IH]; simpl; [done|]. by rewrite insert_sorted_perm, IH. Qed.

Lemma insert_sorted_sorted x l :
  StronglySorted Z.le l → StronglySorted Z.le (insert_sorted x l).
Proof.
  induction 1 as [|y l Hs IH Hy]; simpl; [repeat constructor|].
  destruct (Z.leb_spec x y).
  - constructor; [by constructor|]. constructor; [lia|].
    eapply Forall_impl; [exact Hy|]. simpl. lia.
  - constructor; [done|]. rewrite insert_sorted_perm. constructor; [lia|done].
Qed.
Lemma sort_unstable_sorted l : StronglySorted Z.le (sort_unstable l).
Proof. induction l; simpl; [constructor|by apply insert_sorted_sorted]. Qed.

Lemma dedup_cons2 x y l :
  dedup (x :: y :: l) = if (x =? y)%Z then dedup (y :: l) else x :: dedup (y :: l).
Proof. done. Qed.

Lemma elem_of_dedup z l : z ∈ dedup l ↔ z ∈ l.
Proof.
  induction l as [|x l IH]; [done|]. destruct l as [|y l]; [done|].
  rewrite dedup_cons2. destruct (Z.eqb_spec x y) as [->|]; set_solver.
Qed.

(** After [sort] and [dedup] the vector is strictly increasing. *)
Lemma dedup_sorted l : StronglySorted Z.le l → StronglySorted Z.lt (dedup l).
Proof.
  induction l as [|x l IH]; [constructor|].
  intros [Hs Hx]%StronglySorted_inv. destruct l as [|y l]; [repeat constructor|].
  rewrite dedup_cons2. destruct (Z.eqb_spec x y) as [->|Hne]; [by apply IH|].
  constructor; [by apply IH|]. rewrite Forall_forall. intros z Hz.
  rewrite elem_of_dedup in Hz. rewrite Forall_forall in Hx.
  pose proof (Hx z Hz). pose proof (Hx y ltac:(set_solver)).
  apply StronglySorted_inv in Hs as [_ Hy]. rewrite Forall_forall in Hy.
  apply elem_of_cons in Hz as [->|Hz]; [lia|]. specialize (Hy z Hz). lia.
Qed.

Lemma StronglySorted_lt_NoDup (l : list Z) : StronglySorted Z.lt l → NoDup l.
Proof.
  induction 1 as [|x l _ IH Hx]; [constructor|]. constructor; [|done].
  rewrite Forall_forall in Hx. intros Hin. specialize (Hx x Hin). lia.
Qed.

(** A separator that does not occur after its last use splits uniquely. *)
Lemma app_sep_inj {A} (sep : A) x y s t :
  sep ∉ s → sep ∉ t → x ++ sep :: s = y ++ sep :: t → x = y ∧ s = t.
Proof.
  revert y; induction x as [|a x IH]; intros [|b y] Hs Ht E; simplify_eq/=.
  - done.
  - exfalso. apply Hs. set_solver.
  - exfalso. apply Ht. set_solver.
  - match goal with H : _ ++ _ = _ ++ _ |- _ => apply IH in H; [|done..] end. naive_solver.
Qed.

Lemma digits_no_byte (b : byte) s :
  forallb is_ascii_digit s = true → is_ascii_digit b = false → b ∉ s.
Proof.
  intros Hs Hb Hin. rewrite forallb_forall in Hs.
  apply list_elem_of_In, Hs in Hin. congruence.
Qed.

Lemma app_sep_inj_l {A} (sep : A) s t x y :
  sep ∉ s → sep ∉ t → s ++ sep :: x = t ++ sep :: y → s = t ∧ x = y.
Proof.
  revert t; induction s as [|a s IH]; intros [|b t] Hs Ht E; simplify_eq/=.
  - done.
  - exfalso. apply Ht. set_solver.
  - exfalso. apply Hs. set_solver.
  - match goal with H : _ ++ _ = _ ++ _ |- _ => apply IH in H; [|set_solver..] end. naive_solver.
Qed.

(** [format!("{s:?}")] needs the Unicode tables of the standard library; only
    log texts use it. *)
Class StrDebug := { debug_str : bytes → bytes }.
#[export] Instance plain_debug : StrDebug := {| debug_str s := dq ++ s ++ dq |}.

Lemma StronglySorted_filter {A} (R : A → A → Prop) (Q : A → Prop) `{!∀ x, Decision (Q x)} l :
  StronglySorted R l → StronglySorted R (filter Q l).
Proof.
  induction 1 as [|x l Hs IH Hf]; [constructor|]. rewrite filter_cons.
  case_decide; [|done]. constructor; [done|]. rewrite Forall_forall in *.
  intros y [_ Hy]%list_elem_of_filter. by apply Hf.
Qed.
