(* ===== verification/Entropy.v ===== *)
(** Entropy (getrandom_xous.rs, imports/getrandom-02/src/xous.rs).

    Both backends ask the TRNG server: a scalar message returns one or two words,
    a memory message fills a page of 1020 words.  The words are 32 bits wide, the
    byte order is little-endian.  A failed call is a panic.

    The theorems: a buffer is filled with exactly the bytes of the words drawn, in
    order, with one request for each eight bytes; the backend of getrandom 0.2
    fills up to 4080 bytes and panics beyond. *)

From S2P Require Import Prelude Hoare RustStd.

Inductive panicked := Panicked.

Class Trng (O : Type) := {
  trng_connect : O → bool * O;                          (** [request_connection_blocking] *)
  get_trng : Z → O → option (Z * Z) * O;                (** [GetTrng]: the words of a [Scalar2] *)
  fill_trng : nat → O → option (list Z * nat) * O;      (** [FillTrng]: the page and its [len] *)
}.
(** Words are 32 bits; the page keeps its size. *)
Class TrngLaws (O : Type) `{Trng O} := {
  get_trng_range c o lo hi o' : get_trng c o = (Some (lo, hi), o') → in_u32 lo ∧ in_u32 hi;
  fill_trng_page n o data len o' : fill_trng n o = (Some (data, len), o') → length data = 1020;
}.

(** [to_ne_bytes] of an [n]-byte integer *)
Definition ne_bytes (n : nat) (z : Z) : bytes := (λ i, Zbyte (z ≫ (8 * Z.of_nat i))) <$> seq 0 n.
Definition words_bytes (ws : list Z) : bytes := concat (ne_bytes 4 <$> ws).

Section entropy.
Context {O : Type} `{Trng O}.

(** The outside, and whether [TRNG_CONN] is set. *)
Record trng_state := MkTrng { t_conn : bool; t_out : O }.
Abbreviation M := (ST trng_state panicked).
Definition ask {A} (f : O → option A * O) : M A := λ s,
  let '(a, o) := f (t_out s) in (ok_or Panicked a, MkTrng (t_conn s) o).

Definition ensure_trng_conn : M () := λ s,
  if t_conn s then (Ok tt, s)
  else let '(b, o) := trng_connect (t_out s) in
       if (b : bool) then (Ok tt, MkTrng true o) else (Err Panicked, MkTrng false o).
Definition next_u32 : M Z := w ← ask (get_trng 1); mret (w.1 mod (u32_max + 1))%Z.
Definition next_u64 : M Z := w ← ask (get_trng 2); mret (Z.lor w.1 (w.2 ≪ 32)).

(** The loop over eight-byte chunks; [fuel] bounds their number. *)
Fixpoint fill_chunks (fuel left : nat) : M bytes :=
  match fuel with
  | S fuel =>
      if bool_decide (8 ≤ left) then
        w ← next_u64;
        rest ← fill_chunks fuel (left - 8);
        mret (ne_bytes 8 w ++ rest)
      else if bool_decide (4 < left) then w ← next_u64; mret (take left (ne_bytes 8 w))
      else if bool_decide (0 < left) then w ← next_u32; mret (take left (ne_bytes 4 w))
      else mret []
  | 0 => mret []
  end.
Definition fill_from_trng (len : nat) : M bytes := fill_chunks (S len) len.

(** getrandom 0.3 *)
Definition getrandom_v03_custom (len : nat) : M bytes :=
  if bool_decide (len = 0) then mret [] else ensure_trng_conn;; fill_from_trng len.

(** getrandom 0.2 *)
Definition TRNG_WORDS : nat := 1020.
Definition fill_bytes_via_next (len : nat) : M bytes := fill_chunks (S len) len.
(** [fill_buf] for [n] words: both assertions, and the copy *)
Definition fill_buf (n : nat) : M (list Z) :=
  if bool_decide (n ≤ TRNG_WORDS) then
    page ← ask (fill_trng n);
    if bool_decide (page.2 = n) then
      if bool_decide (length page.1 < n) then throw Panicked else mret (take n page.1)
    else throw Panicked
  else throw Panicked.
(** the remainder: the page is read back without looking at its [len] *)
Definition fill_remainder (len : nat) : M bytes :=
  let words := if bool_decide (len mod 4 = 0) then len / 4 else 1 + len / 4 in
  page ← ask (fill_trng words);
  let ret_u8 := words_bytes page.1 in
  if bool_decide (length ret_u8 < len) then throw Panicked else mret (take len ret_u8).
Definition fill_bytes (len : nat) : M bytes :=
  if bool_decide (len < 64) then fill_bytes_via_next len
  else
    chunks ← collect (λ _, ws ← fill_buf (4096 / 4); mret (words_bytes ws)) (seq 0 (len / 4096));
    rest ← (if bool_decide (len mod 4096 ≠ 0) then fill_remainder (len mod 4096) else mret []);
    mret (concat chunks ++ rest).
Definition getrandom_inner (len : nat) : M bytes :=
  if bool_decide (len = 0) then mret [] else ensure_trng_conn;; fill_bytes len.

(** The crate's entry points (lib.rs); the slice that [getrandom_uninit] returns is the
    filled [dest]. *)
Definition getrandom_uninit (len : nat) : M bytes :=
  if bool_decide (len ≠ 0) then getrandom_inner len else mret [].
Definition getrandom (len : nat) : M bytes := getrandom_uninit len.

(** * Specification *)

(** The requests for [len] bytes, and the words they return. *)
Definition requests (len : nat) : list Z :=
  replicate (len / 8) 2%Z ++
  (if bool_decide (4 < len mod 8) then [2%Z] else if bool_decide (0 < len mod 8) then [1%Z] else []).
Fixpoint gather (reqs : list Z) : M (list Z) :=
  match reqs with
  | [] => mret []
  | c :: reqs =>
      w ← ask (get_trng c);
      ws ← gather reqs;
      mret ((if (c =? 2)%Z then [w.1; w.2] else [w.1]) ++ ws)
  end.

Lemma ne_bytes_length n z : length (ne_bytes n z) = n.
Proof. unfold ne_bytes. by rewrite length_fmap, length_seq. Qed.
Lemma words_bytes_length ws : length (words_bytes ws) = 4 * length ws.
Proof.
  induction ws as [|w ws IH]; [done|]. unfold words_bytes in *. cbn [fmap list_fmap concat].
  rewrite length_app, ne_bytes_length, IH. simpl. lia.
Qed.
Lemma words_bytes_cons w ws : words_bytes (w :: ws) = ne_bytes 4 w ++ words_bytes ws.
Proof. done. Qed.
(** Two words make one [u64]. *)
Lemma ne_bytes_pair lo hi : in_u32 lo → ne_bytes 8 (Z.lor lo (hi ≪ 32)) = ne_bytes 4 lo ++ ne_bytes 4 hi.
Proof.
  intros [Hlo Hlo'].
  assert (∀ i z, (0 ≤ i)%Z → ((z ≫ i) mod 256 = Z.land (z ≫ i) (Z.ones 8))%Z) as Hland.
  { intros i z Hi. rewrite Z.land_ones by done. done. }
  assert (∀ i, (0 ≤ i ≤ 24)%Z → Zbyte (Z.lor lo (hi ≪ 32) ≫ i) = Zbyte (lo ≫ i)) as Hlow.
  { intros i Hi. unfold Zbyte. rewrite !Hland by lia. do 3 f_equal. apply Z.bits_inj'. intros n Hn.
    rewrite !Z.land_spec, !Z.shiftr_spec, Z.lor_spec by lia.
    destruct (decide (n < 8)%Z).
    - rewrite (Z.shiftl_spec_low hi) by lia. by rewrite orb_false_r.
    - rewrite Z.ones_spec_high by lia. by rewrite !andb_false_r. }
  assert (∀ i, (0 ≤ i)%Z → (Z.lor lo (hi ≪ 32) ≫ (32 + i) = hi ≫ i)%Z) as Hhigh.
  { intros i Hi. rewrite Z.shiftr_lor. rewrite <- !Z.shiftr_shiftr by lia.
    rewrite (Z.shiftr_div_pow2 lo 32) by lia. rewrite (Z.div_small lo) by (unfold u32_max in *; lia).
    rewrite Z.shiftr_0_l. rewrite Z.shiftr_shiftl_l by lia. by rewrite Z.shiftl_0_r. }
  unfold ne_bytes. cbn [fmap list_fmap seq app]. rewrite !Hlow by lia.
  do 4 f_equal.
  rewrite <- (Hhigh (8 * Z.of_nat 0)%Z), <- (Hhigh (8 * Z.of_nat 1)%Z), <- (Hhigh (8 * Z.of_nat 2)%Z),
    <- (Hhigh (8 * Z.of_nat 3)%Z) by lia. done.
Qed.

Lemma requests_step l : requests (8 + l) = 2%Z :: requests l.
Proof.
  unfold requests. replace ((8 + l) / 8) with (S (l / 8)).
  - replace ((8 + l) mod 8) with (l mod 8); [done|]. rewrite <- (Nat.Div0.mod_add l 1 8). f_equal. lia.
  - pose proof (Nat.div_add_l 1 8 l ltac:(lia)) as E. replace (1 * 8 + l) with (8 + l) in E by lia. lia.
Qed.
Lemma requests_small l : l < 8 →
  requests l = if bool_decide (4 < l) then [2%Z] else if bool_decide (0 < l) then [1%Z] else [].
Proof. intros Hl. unfold requests. by rewrite Nat.div_small, Nat.mod_small by lia. Qed.

Context `{!TrngLaws O}.
Lemma ask_u64 s :
  match ask (get_trng 2) s with
  | (Ok w, s') => next_u64 s = (Ok (Z.lor w.1 (w.2 ≪ 32)), s') ∧ in_u32 w.1 ∧ in_u32 w.2
  | (Err e, s') => next_u64 s = (Err e, s')
  end.
Proof.
  unfold next_u64, mbind, ST_bind. destruct (ask (get_trng 2) s) as [[[lo hi]|e] s'] eqn:E; [|done].
  split; [done|]. unfold ask in E. destruct (get_trng 2 (t_out s)) as [[w|] o] eqn:Eg; [|done].
  injection E as -> _. by eapply get_trng_range.
Qed.
Lemma ask_u32 s :
  match ask (get_trng 1) s with
  | (Ok w, s') => next_u32 s = (Ok w.1, s')
  | (Err e, s') => next_u32 s = (Err e, s')
  end.
Proof.
  unfold next_u32, mbind, ST_bind. destruct (ask (get_trng 1) s) as [[[lo hi]|e] s'] eqn:E; [|done].
  unfold ask in E. destruct (get_trng 1 (t_out s)) as [[w|] o] eqn:Eg; [|done]. injection E as -> _.
  destruct (get_trng_range _ _ _ _ _ Eg) as [[Hl Hl'] _]. unfold mret, ST_ret. simpl.
  by rewrite Z.mod_small by lia.
Qed.

Lemma take_words_pair l lo hi ws :
  take (8 + l) (words_bytes (lo :: hi :: ws)) = ne_bytes 4 lo ++ ne_bytes 4 hi ++ take l (words_bytes ws).
Proof.
  rewrite !words_bytes_cons, app_assoc.
  assert (length (ne_bytes 4 lo ++ ne_bytes 4 hi) = 8) as Hl by by rewrite length_app, !ne_bytes_length.
  rewrite <- Hl at 1. rewrite take_app_add. by rewrite <- app_assoc.
Qed.
Lemma fill_chunks_spec fuel left s :
  left < fuel →
  fill_chunks fuel left s = (ws ← gather (requests left); mret (take left (words_bytes ws))) s.
Proof.
  revert left s. induction fuel as [|fuel IH]; intros left s Hf; [lia|]. cbn [fill_chunks].
  pose proof (ask_u64 s) as H64. pose proof (ask_u32 s) as H32.
  case_bool_decide as H8.
  - destruct (Nat.le_exists_sub _ _ H8) as (l & -> & _). rewrite Nat.add_comm, requests_step.
    replace (8 + l - 8) with l by lia. cbn [gather].
    unfold mbind, ST_bind in *. destruct (ask (get_trng 2) s) as [[[lo hi]|e] s1]; [|by rewrite H64].
    destruct H64 as (-> & Hlo & Hhi). rewrite IH by lia.
    destruct (gather (requests l) s1) as [[ws|e] s2]; [|done]. simpl fst. simpl snd.
    unfold mret, ST_ret. do 2 f_equal. cbn [Z.eqb Pos.eqb app].
    rewrite take_words_pair, ne_bytes_pair by done. by rewrite <- app_assoc.
  - rewrite requests_small by lia. unfold mbind, ST_bind, mret, ST_ret in *.
    case_bool_decide as H4; [|case_bool_decide as H0]; cbn [gather]; unfold mbind, ST_bind, mret, ST_ret.
    + destruct (ask (get_trng 2) s) as [[[lo hi]|e] s1]; [|by rewrite H64].
      destruct H64 as (-> & Hlo & Hhi). simpl fst. simpl snd. cbn [Z.eqb Pos.eqb app].
      rewrite ne_bytes_pair by done. unfold words_bytes. cbn [fmap list_fmap concat].
      by rewrite app_nil_r.
    + destruct (ask (get_trng 1) s) as [[[lo hi]|e] s1]; [|by rewrite H32].
      rewrite H32. simpl fst. cbn [Z.eqb Pos.eqb app]. unfold words_bytes. cbn [fmap list_fmap concat].
      by rewrite app_nil_r.
    + by replace left with 0 by lia.
Qed.

(** C40: entropy is used whole and in order.  The getrandom 0.3 backend asks the
    TRNG for two words per eight bytes and for one or two more for the rest; the
    buffer is exactly the first bytes of the words in the order they came. *)
Theorem fill_from_trng_exact len (s : trng_state) :
  fill_from_trng len s = (ws ← gather (requests len); mret (take len (words_bytes ws))) s.
Proof. apply fill_chunks_spec. lia. Qed.

(** ** The bound of getrandom 0.2 *)

(** A TRNG server that answers. *)
Class TrngUp : Prop := {
  connect_up o : (trng_connect o).1 = true;
  get_up c o : is_Some (get_trng c o).1;
  fill_up n o : n ≤ TRNG_WORDS → ∃ data, (fill_trng n o).1 = Some (data, n);
}.
Context `{!TrngUp}.

Lemma gather_up reqs s :
  ∃ ws s', gather reqs s = (Ok ws, s') ∧
    length ws = sum_list_with (λ c, if (c =? 2)%Z then 2 else 1) reqs.
Proof.
  revert s. induction reqs as [|c reqs IH]; intros s; [by exists [], s|]. cbn [gather].
  unfold mbind, ST_bind, ask. pose proof (get_up c (t_out s)) as [w Hw].
  destruct (get_trng c (t_out s)) as [x o]. simpl in Hw. subst x. simpl.
  destruct (IH (MkTrng (t_conn s) o)) as (ws & s' & -> & Hl). eexists _, s'. split; [done|].
  rewrite length_app, Hl. by destruct (c =? 2)%Z.
Qed.
Lemma sum_replicate {A} n (c : A) k : sum_list_with k (replicate n c) = n * k c.
Proof. induction n as [|n IH]; simpl; [done|]. rewrite IH. lia. Qed.
Lemma fill_chunks_up len s :
  ∃ bs s', fill_chunks (S len) len s = (Ok bs, s') ∧ length bs = len.
Proof.
  rewrite fill_chunks_spec by lia. unfold mbind, ST_bind.
  destruct (gather_up (requests len) s) as (ws & s' & -> & Hl). eexists _, s'. split; [done|].
  rewrite length_take, words_bytes_length, Hl. unfold requests.
  rewrite sum_list_with_app, sum_replicate.
  pose proof (Nat.div_mod_eq len 8) as Hd. pose proof (Nat.mod_upper_bound len 8 ltac:(lia)) as Hm.
  revert Hd Hm. generalize (len / 8), (len mod 8). intros q m Hd Hm.
  repeat case_bool_decide; simpl; lia.
Qed.
Lemma remainder_up len s :
  len ≤ 4080 → ∃ bs s', fill_remainder len s = (Ok bs, s') ∧ length bs = len.
Proof.
  intros Hlen. unfold fill_remainder, mbind, ST_bind, ask. set (n := if bool_decide _ then _ else _).
  assert (n ≤ TRNG_WORDS) as Hn.
  { unfold n, TRNG_WORDS. pose proof (Nat.div_mod_eq len 4). pose proof (Nat.mod_upper_bound len 4 ltac:(lia)).
    case_bool_decide; lia. }
  destruct (fill_up n (t_out s) Hn) as [data Hd].
  destruct (fill_trng n (t_out s)) as [x o] eqn:E. simpl in Hd. subst x. apply fill_trng_page in E. simpl.
  rewrite words_bytes_length, E, bool_decide_false by lia. eexists _, _. split; [done|].
  rewrite length_take, words_bytes_length, E. lia.
Qed.
Lemma remainder_panics len s : 4080 < len → ∃ s', fill_remainder len s = (Err Panicked, s').
Proof.
  intros Hlen. unfold fill_remainder, mbind, ST_bind, ask. set (n := if bool_decide _ then _ else _).
  destruct (fill_trng n (t_out s)) as [[[data len']|] o] eqn:E; simpl; [|by eexists].
  apply fill_trng_page in E. rewrite words_bytes_length, E, bool_decide_true by lia. by eexists.
Qed.

(** Large requests for entropy crash.  With a TRNG server that answers, the
    getrandom 0.2 backend fills every buffer of up to 4080 bytes completely, and
    panics on every larger one: a full 4096-byte chunk is more than the page of
    1020 words, and so is the remainder of 4081 to 4095 bytes. *)
Theorem getrandom_inner_limit len (s : trng_state) :
  if bool_decide (len ≤ 4080)
  then ∃ bs s', getrandom_inner len s = (Ok bs, s') ∧ length bs = len
  else ∃ s', getrandom_inner len s = (Err Panicked, s').
Proof.
  unfold getrandom_inner. destruct (decide (len = 0)) as [->|Hnz]; [by eexists [], s|].
  rewrite (bool_decide_false (len = 0)) by done.
  assert (∃ s1, ensure_trng_conn s = (Ok tt, s1)) as [s1 Hc].
  { unfold ensure_trng_conn. destruct (t_conn s); [by eexists|]. pose proof (connect_up (t_out s)) as Hu.
    destruct (trng_connect (t_out s)) as [b o]. simpl in Hu. subst b. by eexists. }
  assert ((ensure_trng_conn;; fill_bytes len) s = fill_bytes len s1) as ->.
  { unfold mbind, ST_bind. by rewrite Hc. }
  unfold fill_bytes. destruct (decide (len < 64)) as [H64|H64].
  { rewrite (bool_decide_true (len ≤ 4080)), (bool_decide_true (len < 64)) by lia. apply fill_chunks_up. }
  rewrite (bool_decide_false (len < 64)) by lia. destruct (decide (len < 4096)) as [Hsmall|Hbig].
  - rewrite (Nat.div_small len 4096), (Nat.mod_small len 4096) by lia. rewrite (bool_decide_true (len ≠ 0)) by done.
    unfold mbind, ST_bind. simpl. case_bool_decide as Hle.
    + destruct (remainder_up len s1 Hle) as (bs & s2 & -> & Hl). by eexists _, _.
    + destruct (remainder_panics len s1 ltac:(lia)) as (s2 & ->). by eexists.
  - rewrite (bool_decide_false (len ≤ 4080)) by lia. assert (∃ k, len / 4096 = S k) as [k ->].
    { pose proof (Nat.div_str_pos len 4096) as Hpos. specialize (Hpos ltac:(lia)).
      destruct (len / 4096); [lia|by eexists]. }
    by eexists.
Qed.

(** The entry points add nothing, and make no request for an empty buffer. *)
Lemma getrandom_is_inner len (s : trng_state) :
  getrandom len s = getrandom_inner len s ∧ getrandom 0 s = (Ok [], s).
Proof.
  split; [|done]. unfold getrandom, getrandom_uninit. destruct (decide (len = 0)) as [->|Hne]; [done|].
  by rewrite bool_decide_true.
Qed.
End entropy.

(** * At a counting TRNG *)

Module ToyTrng.
#[global] Instance counter : Trng Z := {|
  trng_connect o := (true, o);
  get_trng c o := (Some (o mod 4294967296, (o + 1) mod 4294967296)%Z, (o + 2)%Z);
  fill_trng n o := (Some (replicate 1020 (o mod 4294967296)%Z, n), (o + 1)%Z);
|}.
#[global] Instance counter_laws : TrngLaws Z.
Proof.
  split.
  - intros c o lo hi o' [= <- <- _]. unfold in_u32, u32_max.
    pose proof (Z.mod_pos_bound o 4294967296 ltac:(lia)).
    pose proof (Z.mod_pos_bound (o + 1) 4294967296 ltac:(lia)). lia.
  - intros n o data len o' [= <- _ _]. reflexivity.
Qed.
#[global] Instance counter_up : TrngUp (O := Z).
Proof. split; simpl; eauto. Qed.
End ToyTrng.
Import ToyTrng.

Lemma fill_from_trng_exact_witness :
  fill_from_trng 13 (MkTrng true 7%Z) =
  (ws ← gather (requests 13); mret (take 13 (words_bytes ws))) (MkTrng true 7%Z).
Proof. apply (fill_from_trng_exact 13 (MkTrng true 7%Z)). Defined.
Lemma getrandom_inner_limit_witness :
  ∃ s', getrandom_inner 4096 (MkTrng false 7%Z) = (Err Panicked, s').
Proof. apply (getrandom_inner_limit 4096 (MkTrng false 7%Z)). Defined.
