(* ===== verification/HostRandom.v ===== *)
(** Entropy on the hosted build (imports/getrandom-02/src on Linux: error.rs, lazy.rs,
    util_libc.rs, linux_android_with_fallback.rs, use_file.rs).

    Off the device the client runs as a Linux process and its random numbers come from
    getrandom(2), or from /dev/urandom where the kernel has no such call.  libc is the
    parameter [Libc]: each call returns its result and the [errno] it set, which is local
    to the thread.  A buffer is the list of the bytes written so far.

    The descriptor of /dev/urandom is shared by all threads and opened under a mutex after
    a first look without it.  [rng_step] is one step of a thread through [get_rng_fd], a
    libc call or an access to a shared cell; [rng_system] interleaves the steps of any
    number of threads.  In every state they reach the device was opened at most once, and
    not before the pool was ready, every caller that returned has that descriptor, and the
    threads do not block each other.  [sys_fill_exact] fills the whole buffer, and goes
    round more often than there are bytes only when it is interrupted. *)

From S2P Require Import Prelude RustStd.

(** * error.rs

    [Error] is a non-zero [u32]: an [errno], an internal code or a custom one. *)
Definition Error : Type := Z.
Definition INTERNAL_START : Z := 2147483648.
Definition CUSTOM_START : Z := 3221225472.
Definition internal_error (n : Z) : Error := (INTERNAL_START + n)%Z.
Definition UNSUPPORTED : Error := internal_error 0.
Definition ERRNO_NOT_POSITIVE : Error := internal_error 1.
Definition UNEXPECTED : Error := internal_error 2.
Definition IOS_SEC_RANDOM : Error := internal_error 3.
Definition WINDOWS_RTL_GEN_RANDOM : Error := internal_error 4.
Definition FAILED_RDRAND : Error := internal_error 5.
Definition NO_RDRAND : Error := internal_error 6.
Definition WEB_CRYPTO : Error := internal_error 7.
Definition WEB_GET_RANDOM_VALUES : Error := internal_error 8.
Definition VXWORKS_RAND_SECURE : Error := internal_error 11.
Definition NODE_CRYPTO : Error := internal_error 12.
Definition NODE_RANDOM_FILL_SYNC : Error := internal_error 13.
Definition NODE_ES_MODULE : Error := internal_error 14.

Definition raw_os_error (e : Error) : option Z :=
  if (e <? INTERNAL_START)%Z then Some e else None.

Definition internal_descs : list (Error * bytes) :=
  [(UNSUPPORTED, "getrandom: this target is not supported"%bs : bytes);
   (ERRNO_NOT_POSITIVE, "errno: did not return a positive value"%bs : bytes);
   (UNEXPECTED, "unexpected situation"%bs : bytes);
   (IOS_SEC_RANDOM, "SecRandomCopyBytes: iOS Security framework failure"%bs : bytes);
   (WINDOWS_RTL_GEN_RANDOM, "RtlGenRandom: Windows system function failure"%bs : bytes);
   (FAILED_RDRAND, "RDRAND: failed multiple times: CPU issue likely"%bs : bytes);
   (NO_RDRAND, "RDRAND: instruction not supported"%bs : bytes);
   (WEB_CRYPTO, "Web Crypto API is unavailable"%bs : bytes);
   (WEB_GET_RANDOM_VALUES, "Calling Web API crypto.getRandomValues failed"%bs : bytes);
   (VXWORKS_RAND_SECURE, "randSecure: VxWorks RNG module is not initialized"%bs : bytes);
   (NODE_CRYPTO, "Node.js crypto CommonJS module is unavailable"%bs : bytes);
   (NODE_RANDOM_FILL_SYNC, "Calling Node.js API crypto.randomFillSync failed"%bs : bytes);
   (NODE_ES_MODULE, "Node.js ES modules are not directly supported, see https://docs.rs/getrandom#nodejs-es-module-support"%bs : bytes)].
Definition internal_desc (e : Error) : option bytes :=
  snd <$> (snd <$> list_find (λ d, d.1 = e) internal_descs).

(** [strerror_r(errno, buf, 128)]: the buffer after a call that returned 0. *)
Section display.
Context `{StrDebug}.
Variable strerror_r : Z → option bytes.

Definition os_err (errno : Z) : option bytes :=
  buf ← strerror_r errno;
  let idx := default (length buf) (find_byte (λ b, bool_decide (b = Byte.x00)) buf) in
  from_utf8 (take idx buf).
(** [impl Display for Error] *)
Definition Error_fmt (e : Error) : bytes :=
  match raw_os_error e with
  | Some errno => match os_err errno with
                  | Some err => err
                  | None => "OS Error: "%bs ++ show_u errno
                  end
  | None => match internal_desc e with
            | Some desc => desc
            | None => "Unknown Error: "%bs ++ show_u e
            end
  end.
(** [impl Debug for Error] *)
Definition debug_fields (fields : list (bytes * bytes)) : bytes :=
  "Error { "%bs ++ concat (imap (λ i f, (if bool_decide (i = 0) then [] else ", "%bs : bytes) ++ f.1 ++ ": "%bs ++ f.2) fields) ++ " }"%bs.
Definition Error_debug (e : Error) : bytes :=
  debug_fields
    match raw_os_error e with
    | Some errno =>
        ("os_error"%bs : bytes, show_u errno) ::
        match os_err errno with Some err => [("description"%bs : bytes, debug_str err)] | None => [] end
    | None =>
        match internal_desc e with
        | Some desc => [("internal_code"%bs : bytes, show_u e); ("description"%bs : bytes, debug_str desc)]
        | None => [("unknown_code"%bs : bytes, show_u e)]
        end
    end.
End display.

(** * libc *)
Class Libc (O : Type) := {
  libc_getrandom : nat → O → Z * bytes * Z * O;    (** length; result, bytes written, [errno] *)
  libc_read : Z → nat → O → Z * bytes * Z * O;
  libc_open : bytes → O → Z * Z * O;
  libc_poll : Z → O → Z * Z * O;
  libc_close : Z → O → O;
}.
(** A positive result is the number of bytes written; a descriptor is a [c_int]. *)
Class LibcLaws (O : Type) `{Libc O} := {
  getrandom_wrote n o r ws e o' : libc_getrandom n o = (r, ws, e, o') → (0 < r)%Z → length ws = Z.to_nat r;
  read_wrote fd n o r ws e o' : libc_read fd n o = (r, ws, e, o') → (0 < r)%Z → length ws = Z.to_nat r;
  open_c_int p o r e o' : libc_open p o = (r, e, o') → (r ≤ 2147483647)%Z;
}.

Definition EPERM : Z := 1.
Definition EINTR : Z := 4.
Definition EAGAIN : Z := 11.
Definition ENOSYS : Z := 38.

(** * util_libc.rs *)
Definition last_os_error (errno : Z) : Error := if (0 <? errno)%Z then errno else ERRNO_NOT_POSITIVE.

Inductive rng_event :=
  | EvFill (res : Z) (ws : bytes) (errno : Z)
  | EvOpen (path : bytes) (fd errno : Z)
  | EvPoll (res errno : Z)
  | EvClose (fd : Z).

Definition USIZE_MAX : Z := u64_max.
Definition UNINIT : Z := USIZE_MAX.
Definition FD_UNINIT : Z := USIZE_MAX.
Definition FILE_PATH : bytes := "/dev/urandom"%bs.
Definition RANDOM_PATH : bytes := "/dev/random"%bs.

Section host.
Context {O : Type} `{Libc O}.

(** The statics [HAS_GETRANDOM], [FD] and [MUTEX] (with the thread that holds it), the
    system and a log of the calls. *)
Record shared := MkShared {
  g_has : Z;
  g_fd : Z;
  g_mutex : option nat;
  g_os : O;
  g_log : list rng_event;
}.
Definition set_has (v : Z) (g : shared) : shared := MkShared v (g_fd g) (g_mutex g) (g_os g) (g_log g).
Definition set_fd (v : Z) (g : shared) : shared := MkShared (g_has g) v (g_mutex g) (g_os g) (g_log g).
Definition set_mutex (m : option nat) (g : shared) : shared := MkShared (g_has g) (g_fd g) m (g_os g) (g_log g).
Definition called (o : O) (e : rng_event) (g : shared) : shared :=
  MkShared (g_has g) (g_fd g) (g_mutex g) o (g_log g ++ [e]).

Abbreviation M := (ST shared Error).
Definition sys_call (f : nat → O → Z * bytes * Z * O) (n : nat) : M (Z * bytes * Z) := λ g,
  let '(res, ws, errno, o) := f n (g_os g) in (Ok (res, ws, errno), called o (EvFill res ws errno) g).

(** One turn of [while !buf.is_empty()]: the bytes left, and those written. *)
Definition fill_turn (sys_fill : nat → O → Z * bytes * Z * O) (buf : nat * bytes) : M ((nat * bytes) + bytes) :=
  let '(room, filled) := buf in
  if bool_decide (room = 0) then mret (inr filled)
  else
    '(res, ws, errno) ← sys_call sys_fill room;
    if (0 <? res)%Z then
      if (res <=? Z.of_nat room)%Z then mret (inl (room - Z.to_nat res, filled ++ take (Z.to_nat res) ws))
      else throw UNEXPECTED
    else if (res =? -1)%Z then
      let err := last_os_error errno in
      if bool_decide (raw_os_error err = Some EINTR) then mret (inl (room, filled)) else throw err
    else throw UNEXPECTED.
Definition sys_fill_exact (fuel len : nat) (sys_fill : nat → O → Z * bytes * Z * O) (g : shared) :
    option (result Error bytes * shared) :=
  iter fuel (fill_turn sys_fill) (len, []) g.

(** * lazy.rs, for the static [HAS_GETRANDOM] *)
Definition LazyUsize_unsync_init (init : M Z) : M Z :=
  val ← gets g_has;
  if (val =? UNINIT)%Z then val ← init; modify (set_has val);; mret val
  else mret val.
Definition LazyBool_unsync_init (init : M bool) : M bool :=
  v ← LazyUsize_unsync_init (b ← init; mret (Z.b2z b));
  mret (negb (v =? 0)%Z).

(** * use_file.rs *)

(** Where a thread is in [get_rng_fd]; [Unlock] is the drop of the guard. *)
Inductive pc :=
  | Start
  | Lock
  | Recheck
  | OpenRandom
  | Poll (fd : Z)
  | CloseRandom (fd : Z) (r : result Error ())
  | OpenUrandom
  | StoreFd (fd : Z)
  | Unlock (r : result Error Z)
  | Done (r : result Error Z).

#[global] Instance pc_eq_dec : EqDecision pc.
Proof.
  assert (∀ A, EqDecision A → EqDecision (result Error A)) as Hr by (intros A HA; solve_decision).
  solve_decision.
Defined.

Definition get_fd (g : shared) : option Z := if (g_fd g =? FD_UNINIT)%Z then None else Some (g_fd g).
(** One call of [open] in [open_readonly]: a descriptor, another try, or an error. *)
Definition open_readonly (path : bytes) (opened : Z → pc) (again : pc) (g : shared) : pc * shared :=
  let '(fd, errno, o) := libc_open path (g_os g) in
  let err := last_os_error errno in
  (if (0 <=? fd)%Z then opened fd
   else if bool_decide (raw_os_error err = Some EINTR) then again else Unlock (Err err),
   called o (EvOpen path fd errno) g).
(** [wait_until_rng_ready]: the poll of /dev/random and the drop of its guard. *)
Definition poll_ready (fd : Z) (g : shared) : pc * shared :=
  let '(res, errno, o) := libc_poll fd (g_os g) in
  let err := last_os_error errno in
  (if (0 <=? res)%Z then CloseRandom fd (Ok tt)
   else if bool_decide (raw_os_error err = Some EINTR) || bool_decide (raw_os_error err = Some EAGAIN)
   then Poll fd else CloseRandom fd (Err err),
   called o (EvPoll res errno) g).

(** A step of thread [tid]; [None] while it waits for the mutex, and at its end. *)
Definition rng_step (tid : nat) (p : pc) (g : shared) : option (pc * shared) :=
  match p with
  | Start => Some (match get_fd g with Some fd => Done (Ok fd) | None => Lock end, g)
  | Lock => match g_mutex g with None => Some (Recheck, set_mutex (Some tid) g) | Some _ => None end
  | Recheck => Some (match get_fd g with Some fd => Unlock (Ok fd) | None => OpenRandom end, g)
  | OpenRandom => Some (open_readonly RANDOM_PATH Poll OpenRandom g)
  | Poll fd => Some (poll_ready fd g)
  | CloseRandom fd r =>
      Some (match r with Ok _ => OpenUrandom | Err e => Unlock (Err e) end,
            called (libc_close fd (g_os g)) (EvClose fd) g)
  | OpenUrandom => Some (open_readonly FILE_PATH StoreFd OpenUrandom g)
  | StoreFd fd => Some (Unlock (Ok fd), set_fd fd g)
  | Unlock r => Some (Done r, set_mutex None g)
  | Done _ => None
  end.

(** The thread on its own. *)
Fixpoint run_thread (fuel tid : nat) (p : pc) (g : shared) : option (result Error Z * shared) :=
  match p, fuel with
  | Done r, _ => Some (r, g)
  | _, 0 => None
  | _, S fuel => '(p, g) ← rng_step tid p g; run_thread fuel tid p g
  end.
Definition get_rng_fd (fuel : nat) : shared → option (result Error Z * shared) := run_thread fuel 0 Start.
Definition use_file_getrandom_inner (fuel len : nat) (g : shared) : option (result Error bytes * shared) :=
  '(r, g) ← get_rng_fd fuel g;
  match r with
  | Ok fd => sys_fill_exact fuel len (libc_read fd) g
  | Err e => Some (Err e, g)
  end.

(** * linux_android_with_fallback.rs *)
Definition is_getrandom_available : M bool :=
  '(res, _, errno) ← sys_call libc_getrandom 0;
  if (res <? 0)%Z then
    match raw_os_error (last_os_error errno) with
    | Some e => mret (negb (e =? ENOSYS)%Z && negb (e =? EPERM)%Z)
    | None => mret true
    end
  else mret true.
Definition linux_getrandom_inner (fuel len : nat) (g : shared) : option (result Error bytes * shared) :=
  match LazyBool_unsync_init is_getrandom_available g with
  | (Ok has, g) => if (has : bool) then sys_fill_exact fuel len libc_getrandom g
                   else use_file_getrandom_inner fuel len g
  | (Err e, g) => Some (Err e, g)
  end.

(** Any number of threads. *)
Definition rng_system (s s' : list pc * shared) : Prop :=
  ∃ i p p' g', s.1 !! i = Some p ∧ rng_step i p s.2 = Some (p', g') ∧ s' = (<[i := p']> s.1, g').
End host.

(** * Filling a buffer *)

(** The bytes the system wrote in a log of calls. *)
Definition written (e : rng_event) : bytes :=
  match e with EvFill res ws _ => if (0 <? res)%Z then ws else [] | _ => [] end.
Definition delivered (l : list rng_event) : bytes := concat (written <$> l).

(** Signals are finite: [patience] bounds the calls that will still be interrupted. *)
Class LibcPatience (O : Type) `{Libc O} := {
  patience : O → nat;
  getrandom_patience n o r ws e o' : libc_getrandom n o = (r, ws, e, o') →
    patience o' + (if bool_decide (r = -1 ∧ e = EINTR)%Z then 1 else 0) ≤ patience o;
  read_patience fd n o r ws e o' : libc_read fd n o = (r, ws, e, o') →
    patience o' + (if bool_decide (r = -1 ∧ e = EINTR)%Z then 1 else 0) ≤ patience o;
  open_patience p o r e o' : libc_open p o = (r, e, o') →
    patience o' + (if bool_decide (r < 0 ∧ e = EINTR)%Z then 1 else 0) ≤ patience o;
  poll_patience fd o r e o' : libc_poll fd o = (r, e, o') →
    patience o' + (if bool_decide (r < 0 ∧ (e = EINTR ∨ e = EAGAIN))%Z then 1 else 0) ≤ patience o;
  close_patience fd o : patience (libc_close fd o) ≤ patience o;
}.

Lemma os_error_errno errno n :
  (0 < n < INTERNAL_START)%Z → raw_os_error (last_os_error errno) = Some n ↔ errno = n.
Proof.
  intros Hn. unfold raw_os_error, last_os_error, ERRNO_NOT_POSITIVE, internal_error, INTERNAL_START in *.
  destruct (Z.ltb_spec 0 errno); [|split; [done|lia]].
  destruct (Z.ltb_spec errno 2147483648); split; intros; simplify_eq; lia || done.
Qed.

Section filling.
Context {O : Type} `{LibcPatience O}.
Implicit Types g : shared (O := O).

Section fill.
Variable sys_fill : nat → O → Z * bytes * Z * O.
Hypothesis wrote : ∀ n o r ws e o', sys_fill n o = (r, ws, e, o') → (0 < r)%Z → length ws = Z.to_nat r.
Hypothesis patient : ∀ n o r ws e o', sys_fill n o = (r, ws, e, o') →
  patience o' + (if bool_decide (r = -1 ∧ e = EINTR)%Z then 1 else 0) ≤ patience o.

Lemma fill_loop fuel room filled g :
  room + patience (g_os g) < fuel →
  ∃ r g' l, iter fuel (fill_turn sys_fill) (room, filled) g = Some (r, g') ∧
    g_log g' = g_log g ++ l ∧ g_mutex g' = g_mutex g ∧ patience (g_os g') ≤ patience (g_os g) ∧
    match r with
    | Ok bs => bs = filled ++ delivered l ∧ length (delivered l) = room
    | Err e => raw_os_error e ≠ Some EINTR
    end.
Proof.
  revert room filled g. induction fuel as [|fuel IH]; intros room filled g Hf; [lia|].
  cbn [iter]. unfold fill_turn at 1. case_bool_decide as Hroom.
  { exists (Ok filled), g, []. subst room. by rewrite !app_nil_r. }
  unfold sys_call, mbind, ST_bind. destruct (sys_fill room (g_os g)) as [[[res ws] errno] o] eqn:Es.
  pose proof (patient _ _ _ _ _ _ Es) as Hp. set (g1 := called o _ g).
  assert (∀ e, raw_os_error e ≠ Some EINTR → ∃ r g' l, Some (Err (A := bytes) e, g1) = Some (r, g') ∧
    g_log g' = g_log g ++ l ∧ g_mutex g' = g_mutex g ∧ patience (g_os g') ≤ patience (g_os g) ∧
    match r with Ok bs => bs = filled ++ delivered l ∧ length (delivered l) = room
    | Err e => raw_os_error e ≠ Some EINTR end) as Hend.
  { intros e He. eexists _, g1, _. split_and!; [done..|simpl; lia|done]. }
  destruct (Z.ltb_spec 0 res).
  - destruct (Z.leb_spec res (Z.of_nat room)); [|by apply Hend].
    pose proof (wrote _ _ _ _ _ _ Es ltac:(lia)) as Hw.
    destruct (IH (room - Z.to_nat res) (filled ++ take (Z.to_nat res) ws) g1)
      as (r & g' & l & E & Hl & Hm & Hpp & Hr); [simpl; lia|].
    exists r, g', (EvFill res ws errno :: l). split_and!; [exact E|by rewrite Hl; simpl; rewrite <- app_assoc|done|simpl in Hpp; lia|].
    destruct r as [bs|e]; [|done]. destruct Hr as [-> Hlen].
    unfold delivered in *. cbn [fmap list_fmap concat written].
    rewrite (proj2 (Z.ltb_lt 0 res)), take_ge, <- app_assoc, length_app by lia. split; [done|lia].
  - destruct (Z.eqb_spec res (-1)); [|by apply Hend].
    destruct (decide (raw_os_error (last_os_error errno) = Some EINTR)) as [He|He];
      [rewrite bool_decide_true by done|rewrite bool_decide_false by done; by apply Hend].
    apply os_error_errno in He as ->; [|by vm_compute].
    rewrite bool_decide_true in Hp by done.
    destruct (IH room filled g1) as (r & g' & l & E & Hl & Hm & Hpp & Hr); [simpl; lia|].
    exists r, g', (EvFill res ws EINTR :: l).
    split_and!; [exact E|by rewrite Hl; simpl; rewrite <- app_assoc|done|simpl in Hpp; lia|].
    destruct r as [bs|?]; [|done]. unfold delivered in *. cbn [fmap list_fmap concat written].
    by rewrite (proj2 (Z.ltb_ge 0 res)) by lia.
Qed.
End fill.

(** ** One thread *)

(** How far a thread is from its end. *)
Definition rank (p : pc) : nat :=
  match p with
  | Start => 9 | Lock => 8 | Recheck => 7 | OpenRandom => 6 | Poll _ => 5 | CloseRandom _ _ => 4
  | OpenUrandom => 3 | StoreFd _ => 2 | Unlock _ => 1 | Done _ => 0
  end.
(** It holds the mutex, and its error is not an interruption. *)
Definition critical (p : pc) : bool := match p with Start | Lock | Done _ => false | _ => true end.
Definition not_eintr (p : pc) : Prop :=
  match p with
  | CloseRandom _ (Err e) | Unlock (Err e) | Done (Err e) => raw_os_error e ≠ Some EINTR
  | _ => True
  end.
Definition alone (tid : nat) (p : pc) g : Prop :=
  g_mutex g = (if critical p then Some tid else None) ∧ not_eintr p.

Lemma open_step path opened again g :
  (∀ fd, rank (opened fd) < rank again) → 1 < rank again →
  (∀ fd, not_eintr (opened fd)) → not_eintr again →
  let '(p, g') := open_readonly path opened again g in
  rank p + patience (g_os g') < rank again + patience (g_os g) ∧ not_eintr p ∧
  g_mutex g' = g_mutex g ∧ (critical p = true ∨ (∃ fd, p = opened fd) ∨ p = again).
Proof.
  intros Hr H1 Hn Ha. unfold open_readonly. destruct (libc_open path (g_os g)) as [[fd errno] o] eqn:Eo.
  pose proof (open_patience _ _ _ _ _ Eo) as Hp. simpl. destruct (Z.leb_spec 0 fd).
  { specialize (Hr fd). split_and!; [lia|done|done|eauto]. }
  destruct (decide (raw_os_error (last_os_error errno) = Some EINTR)) as [He|He].
  - rewrite bool_decide_true by done. apply os_error_errno in He as ->; [|by vm_compute].
    rewrite bool_decide_true in Hp by (split; [lia|done]). split_and!; [lia|done|done|eauto].
  - rewrite bool_decide_false by done. simpl. split_and!; [lia|done|done|eauto].
Qed.

Lemma poll_step fd g :
  let '(p, g') := poll_ready fd g in
  rank p + patience (g_os g') < 5 + patience (g_os g) ∧ not_eintr p ∧ g_mutex g' = g_mutex g ∧
  critical p = true.
Proof.
  unfold poll_ready. destruct (libc_poll fd (g_os g)) as [[res errno] o] eqn:Eo.
  pose proof (poll_patience _ _ _ _ _ Eo) as Hp. simpl. destruct (Z.leb_spec 0 res).
  { simpl. split_and!; [lia|done..]. }
  destruct (decide (raw_os_error (last_os_error errno) = Some EINTR ∨
                    raw_os_error (last_os_error errno) = Some EAGAIN)) as [He|He].
  - assert (bool_decide (raw_os_error (last_os_error errno) = Some EINTR) ||
            bool_decide (raw_os_error (last_os_error errno) = Some EAGAIN) = true) as ->.
    { by destruct He as [-> | ->]. }
    rewrite bool_decide_true in Hp; [simpl; split_and!; [lia|done..]|].
    split; [lia|]. destruct He as [He|He]; apply os_error_errno in He; auto; by vm_compute.
  - rewrite !bool_decide_false by tauto. simpl. split_and!; [lia|tauto|done|done].
Qed.

(** A thread that is alone comes closer to its end with every step. *)
Lemma alone_step tid p g :
  alone tid p g → (∃ r, p = Done r) ∨
  ∃ p' g', rng_step tid p g = Some (p', g') ∧ alone tid p' g' ∧
    rank p' + patience (g_os g') < rank p + patience (g_os g).
Proof.
  intros [Hm He]. destruct p as [| | | |fd|fd r| |fd|r|r]; [right|right|right|right|right|right|right|right|right|left; eauto].
  - simpl. unfold get_fd. destruct (_ =? _)%Z; eexists _, _; split; [done|split; [done|simpl; lia]|done|split; [done|simpl; lia]].
  - simpl in *. rewrite Hm. eexists _, _. split; [done|]. split; [done|simpl; lia].
  - simpl. unfold get_fd. destruct (_ =? _)%Z; eexists _, _; split; [done|split; [done|simpl; lia]|done|split; [done|simpl; lia]].
  - pose proof (open_step RANDOM_PATH Poll OpenRandom g) as Hs. simpl. destruct (open_readonly _ _ _ _) as [p' g'].
    destruct Hs as (Hr & Hn & Hm' & Hc); [simpl; lia..|done|done|]. exists p', g'. split; [done|].
    split; [|exact Hr]. split; [|done]. rewrite Hm'. by destruct Hc as [-> |[[? ->]| ->]].
  - pose proof (poll_step fd g) as Hs. simpl. destruct (poll_ready fd g) as [p' g'].
    destruct Hs as (Hr & Hn & Hm' & Hc). exists p', g'. split; [done|]. split; [|exact Hr].
    split; [|done]. by rewrite Hm', Hc.
  - pose proof (close_patience fd (g_os g)). simpl. destruct r as [[]|e]; eexists _, _; (split; [done|]);
      (split; [done|simpl; lia]).
  - pose proof (open_step FILE_PATH StoreFd OpenUrandom g) as Hs. simpl. destruct (open_readonly _ _ _ _) as [p' g'].
    destruct Hs as (Hr & Hn & Hm' & Hc); [simpl; lia..|done|done|]. exists p', g'. split; [done|].
    split; [|exact Hr]. split; [|done]. rewrite Hm'. by destruct Hc as [-> |[[? ->]| ->]].
  - simpl. eexists _, _. split; [done|]. split; [done|simpl; lia].
  - simpl. eexists _, _. split; [done|]. split; [done|simpl; lia].
Qed.

Lemma run_alone fuel tid p g :
  alone tid p g → rank p + patience (g_os g) ≤ fuel →
  ∃ r g', run_thread fuel tid p g = Some (r, g') ∧ g_mutex g' = None ∧
    patience (g_os g') ≤ rank p + patience (g_os g) ∧ not_eintr (Done r).
Proof.
  revert p g. induction fuel as [|fuel IH]; intros p g Ha Hf;
    (destruct (alone_step tid p g Ha) as [[r ->]|(p' & g' & Es & Ha' & Hlt)];
      [destruct Ha; by eexists r, g|]); [lia|].
  destruct (IH p' g' Ha' ltac:(lia)) as (r & g2 & E & Hm & Hp & He).
  exists r, g2. split_and!; [|done|lia|done].
  destruct p as [| | | |?|?? | |?|?|?]; [..|by simpl in Es]; cbn [run_thread]; rewrite Es; exact E.
Qed.

Context `{!LibcLaws O}.
(** C37: random bytes on the hosted build.  When signals are finite, a request returns on
    both paths, with getrandom(2) and with /dev/urandom, however the calls are interrupted:
    [Ok] only with exactly as many bytes as were asked for, an error never because of an
    interruption; and the mutex is free again. *)
Theorem hosted_getrandom_total fuel len g :
  g_mutex g = None → len + patience (g_os g) + 9 < fuel →
  ∃ r g', linux_getrandom_inner fuel len g = Some (r, g') ∧ g_mutex g' = None ∧
    match r with
    | Ok bs => length bs = len
    | Err e => raw_os_error e ≠ Some EINTR
    end.
Proof.
  intros Hm Hf.
  assert (∃ has g1, LazyBool_unsync_init is_getrandom_available g = (Ok has, g1) ∧
    g_mutex g1 = None ∧ patience (g_os g1) ≤ patience (g_os g)) as (has & g1 & E1 & Hm1 & Hp1).
  { unfold LazyBool_unsync_init, LazyUsize_unsync_init, is_getrandom_available, sys_call, gets, modify,
      mbind, ST_bind, mret, ST_ret.
    destruct (_ =? UNINIT)%Z; [|by eexists _, _].
    destruct (libc_getrandom 0 (g_os g)) as [[[res ws] errno] o] eqn:Es.
    pose proof (getrandom_patience _ _ _ _ _ _ Es) as Hp. destruct (res <? 0)%Z; [destruct (raw_os_error _)|];
      eexists _, _; (split; [done|]); simpl; (split; [done|lia]). }
  assert (∀ sf g2, g_mutex g2 = None → len + patience (g_os g2) < fuel →
    (∀ n o r ws e o', sf n o = (r, ws, e, o') → (0 < r)%Z → length ws = Z.to_nat r) →
    (∀ n o r ws e o', sf n o = (r, ws, e, o') →
      patience o' + (if bool_decide (r = -1 ∧ e = EINTR)%Z then 1 else 0) ≤ patience o) →
    ∃ r g', sys_fill_exact fuel len sf g2 = Some (r, g') ∧ g_mutex g' = None ∧
      match r with Ok bs => length bs = len | Err e => raw_os_error e ≠ Some EINTR end) as Hfill.
  { intros sf g2 Hm2 Hf2 Hw Hp. destruct (fill_loop sf Hw Hp fuel len [] g2 Hf2) as (r & g' & l & E & _ & Hm' & _ & Hr).
    exists r, g'. split_and!; [done|congruence|]. by destruct r as [bs|e]; [destruct Hr as [-> ?]|]. }
  unfold linux_getrandom_inner. rewrite E1. destruct has.
  - apply Hfill; [done|lia|apply getrandom_wrote|apply getrandom_patience].
  - unfold use_file_getrandom_inner, get_rng_fd.
    destruct (run_alone fuel 0 Start g1) as (r & g2 & -> & Hm2 & Hp2 & Hn); [by split|simpl; lia|].
    cbn [mbind option_bind]. destruct r as [fd|e]; [|by exists (Err e), g2].
    simpl in Hp2. apply Hfill; [done|lia|apply read_wrote|apply read_patience].
Qed.
End filling.

(** * Many threads *)
Section threads.
Context {O : Type} `{LibcLaws O}.
Implicit Types (g : shared (O := O)) (ts : list pc).

(** Successful opens of a device, closed descriptors, and the sign that the pool is ready. *)
Definition opened_as (path : bytes) (e : rng_event) : option Z :=
  match e with EvOpen p fd _ => if bool_decide (p = path) && (0 <=? fd)%Z then Some fd else None | _ => None end.
Definition opens (path : bytes) (l : list rng_event) : list Z := omap (opened_as path) l.
Definition closes (l : list rng_event) : list Z := omap (λ e, match e with EvClose fd => Some fd | _ => None end) l.
Definition ready (e : rng_event) : Prop := match e with EvPoll res _ => (0 ≤ res)%Z | _ => False end.
(** Every successful open of /dev/urandom comes after a successful poll. *)
Definition ready_first (l : list rng_event) : Prop :=
  ∀ l1 e l2, l = l1 ++ e :: l2 → opened_as FILE_PATH e ≠ None → Exists ready l1.

Lemma opens_app path l l' : opens path (l ++ l') = opens path l ++ opens path l'.
Proof. apply omap_app. Qed.
Lemma closes_app l l' : closes (l ++ l') = closes l ++ closes l'.
Proof. apply omap_app. Qed.
Lemma ready_first_snoc l e :
  ready_first l → (opened_as FILE_PATH e ≠ None → Exists ready l) → ready_first (l ++ [e]).
Proof.
  intros Hl He l1 x l2 Heq. destruct l2 as [|y l2 _] using rev_ind.
  - apply app_inj_tail in Heq as [-> ->]. done.
  - rewrite app_comm_cons, app_assoc in Heq. apply app_inj_tail in Heq as [-> _]. by apply (Hl l1 x l2).
Qed.

(** What the log and the shared descriptor are while the holder of the mutex, if there
    is one, is at [h]. *)
Definition fresh (h : option pc) : bool :=
  match h with
  | Some (OpenRandom | Poll _ | CloseRandom _ _ | OpenUrandom | StoreFd _) => true
  | _ => false
  end.
Definition polled (h : option pc) : bool :=
  match h with Some (CloseRandom _ (Ok _) | OpenUrandom | StoreFd _) => true | _ => false end.
Definition pending (h : option pc) : option Z := match h with Some (StoreFd fd) => Some fd | _ => None end.
Definition borrowed (h : option pc) : list Z :=
  match h with Some (Poll fd | CloseRandom fd _) => [fd] | _ => [] end.
Definition descriptor (fd : Z) : Prop := (0 ≤ fd < FD_UNINIT)%Z.

Record log_ok (h : option pc) g : Prop := {
  lo_fresh : fresh h = true → g_fd g = FD_UNINIT;
  lo_opens : opens FILE_PATH (g_log g) =
    match pending h with
    | Some fd => [fd]
    | None => if (g_fd g =? FD_UNINIT)%Z then [] else [g_fd g]
    end;
  lo_store : ∀ fd, pending h = Some fd → descriptor fd;
  lo_polled : polled h = true → Exists ready (g_log g);
  lo_ready : ready_first (g_log g);
  lo_closed : opens RANDOM_PATH (g_log g) = closes (g_log g) ++ borrowed h;
}.
(** The descriptor a thread has come to hold. *)
Definition has_fd (p : pc) : option Z :=
  match p with Unlock (Ok fd) | Done (Ok fd) => Some fd | _ => None end.
Definition fd_ok (p : pc) g : Prop := ∀ fd, has_fd p = Some fd → g_fd g = fd ∧ fd ≠ FD_UNINIT.

Lemma log_ok_called h h' g o e :
  log_ok h g → opened_as FILE_PATH e = pending h' → pending h = None →
  (fresh h' = true → fresh h = true) → (∀ fd, pending h' = Some fd → descriptor fd ∧ fresh h = true) →
  (polled h' = true → polled h = true ∨ ready e) → (pending h' ≠ None → polled h = true) →
  borrowed h ++ opens RANDOM_PATH [e] = borrowed h' ∧ closes [e] = [] ∨
    opens RANDOM_PATH [e] = [] ∧ closes [e] = borrowed h ∧ borrowed h' = [] →
  log_ok h' (called o e g).
Proof.
  intros [] He Hs Hf Hd Hp Hpp Hc. constructor; simpl.
  - auto.
  - rewrite opens_app, lo_opens0, Hs. unfold opens at 1. simpl. rewrite He.
    destruct (pending h') as [fd|] eqn:Eh; [|by rewrite app_nil_r].
    rewrite lo_fresh0 by (by eapply Hd). by rewrite Z.eqb_refl.
  - intros fd Hfd. by eapply Hd.
  - intros Hp'. apply Exists_app. destruct (Hp Hp') as [?|?]; [left; auto|right; by constructor].
  - apply ready_first_snoc; [done|]. rewrite He. auto.
  - rewrite opens_app, closes_app, lo_closed0.
    destruct Hc as [[<- ->]|(-> & -> & ->)]; [by rewrite app_nil_r, <- app_assoc|by rewrite !app_nil_r].
Qed.
Lemma log_ok_move h h' g :
  log_ok h g → pending h = None → pending h' = None → (fresh h' = true → g_fd g = FD_UNINIT) →
  (polled h' = true → polled h = true) → borrowed h' = borrowed h → log_ok h' g.
Proof.
  intros [] Hs Hs' Hf Hp Hb. constructor; [done| |by rewrite Hs'|auto|done|by rewrite Hb].
  by rewrite Hs', lo_opens0, Hs.
Qed.
Lemma log_ok_mutex h m g : log_ok h g → log_ok h (set_mutex m g).
Proof. by intros []; constructor. Qed.

Lemma get_fd_Some g fd : get_fd g = Some fd → g_fd g = fd ∧ fd ≠ FD_UNINIT.
Proof. unfold get_fd. destruct (Z.eqb_spec (g_fd g) FD_UNINIT); [done|]. by intros [= <-]. Qed.
Lemma get_fd_None g : get_fd g = None → g_fd g = FD_UNINIT.
Proof. unfold get_fd. by destruct (Z.eqb_spec (g_fd g) FD_UNINIT). Qed.

(** The holder of the mutex after its step. *)
Definition holding (p : pc) : option pc := if critical p then Some p else None.
Definition stepped (p : pc) g (s : pc * shared) : Prop :=
  log_ok (holding s.1) s.2 ∧ fd_ok s.1 s.2 ∧ (g_fd s.2 = g_fd g ∨ g_fd g = FD_UNINIT) ∧
  g_mutex s.2 = if critical s.1 then g_mutex g else None.

Lemma open_random_ok g : log_ok (Some OpenRandom) g → stepped OpenRandom g (open_readonly RANDOM_PATH Poll OpenRandom g).
Proof.
  intros Hl. unfold open_readonly. destruct (libc_open RANDOM_PATH (g_os g)) as [[fd errno] o].
  assert (opened_as FILE_PATH (EvOpen RANDOM_PATH fd errno) = None) as He by done.
  unfold stepped. simpl. destruct (Z.leb_spec 0 fd); [|case_bool_decide]; (split_and!; [|done|by left|done]);
    (eapply log_ok_called; [exact Hl|exact He|done|done|done|done|done|]); left;
    unfold opens, closes, opened_as; simpl; destruct (Z.leb_spec 0 fd); done || lia.
Qed.
Lemma poll_ok fd g : log_ok (Some (Poll fd)) g → stepped (Poll fd) g (poll_ready fd g).
Proof.
  intros Hl. unfold poll_ready. destruct (libc_poll fd (g_os g)) as [[res errno] o].
  unfold stepped. simpl. destruct (Z.leb_spec 0 res); [|destruct (_ || _)]; (split_and!; [|done|by left|done]);
    (eapply log_ok_called; [exact Hl|done|done|done|done|auto|done|by left]).
Qed.
Lemma open_urandom_ok g : log_ok (Some OpenUrandom) g → stepped OpenUrandom g (open_readonly FILE_PATH StoreFd OpenUrandom g).
Proof.
  intros Hl. unfold open_readonly. destruct (libc_open FILE_PATH (g_os g)) as [[fd errno] o] eqn:Eo.
  apply open_c_int in Eo. unfold stepped. simpl.
  destruct (Z.leb_spec 0 fd); [|case_bool_decide]; (split_and!; [|done|by left|done]);
    (eapply log_ok_called; [exact Hl| |done|done| |auto|done|by left]);
    unfold opened_as; rewrite ?bool_decide_true by done; simpl; destruct (Z.leb_spec 0 fd); try done || lia.
  intros ? [= <-]. split; [|done]. unfold descriptor, FD_UNINIT, USIZE_MAX, u64_max. lia.
Qed.

Lemma holder_step tid p g s :
  critical p = true → rng_step tid p g = Some s → log_ok (Some p) g → fd_ok p g → stepped p g s.
Proof.
  intros Hc Hs Hl Hfd. destruct p as [| | | |fd|fd r| |fd|r|r]; try done; simpl in Hs; injection Hs as <-.
  - unfold stepped. simpl. destruct (get_fd g) as [fd|] eqn:E; simpl.
    + apply get_fd_Some in E. split_and!; [|by intros ? [= <-]|by left|done].
      by eapply log_ok_move; [exact Hl|..].
    + apply get_fd_None in E. split_and!; [|done|by left|done]. by eapply log_ok_move; [exact Hl|..].
  - by apply open_random_ok.
  - by apply poll_ok.
  - unfold stepped. simpl. destruct r as [[]|e]; simpl; (split_and!; [|done|by left|done]);
      (eapply log_ok_called; [exact Hl|done|done|done|done|auto|done|by right]).
  - by apply open_urandom_ok.
  - destruct (lo_store _ _ Hl fd eq_refl) as [Hd1 Hd2].
    assert (fd ≠ FD_UNINIT) as Hne by lia.
    unfold stepped. simpl. split_and!; [|by intros ? [= <-]|right; by apply (lo_fresh _ _ Hl)|done].
    destruct Hl. constructor; try done. simpl. rewrite lo_opens0. simpl.
    by destruct (Z.eqb_spec fd FD_UNINIT).
  - unfold stepped. simpl. split_and!; [|by destruct r|by left|done].
    by eapply log_ok_mutex, log_ok_move; [exact Hl|..].
Qed.

(** What holds of all threads together. *)
Record sys_ok (s : list pc * shared (O := O)) : Prop := {
  so_crit : ∀ i p, s.1 !! i = Some p → critical p = true ↔ g_mutex s.2 = Some i;
  so_holder : ∀ i, g_mutex s.2 = Some i → is_Some (s.1 !! i);
  so_fd : ∀ i p, s.1 !! i = Some p → fd_ok p s.2;
  so_log : log_ok (g_mutex s.2 ≫= λ i, s.1 !! i) s.2;
}.

Lemma fd_ok_step p g g' : fd_ok p g → g_fd g' = g_fd g ∨ g_fd g = FD_UNINIT → fd_ok p g'.
Proof. intros Hp [E|E] fd Hfd; destruct (Hp fd Hfd) as [? ?]; [by rewrite E|congruence]. Qed.

(** A thread outside the critical section leaves the shared cells alone. *)
Lemma outside_step i p g p' g' ts :
  sys_ok (ts, g) → ts !! i = Some p → critical p = false → p ≠ Lock → rng_step i p g = Some (p', g') →
  sys_ok (<[i := p']> ts, g').
Proof.
  intros [Hc Hh Hf Hl] Hi Hp Hnl Hs. destruct p; try done. injection Hs as <- <-. simpl in *.
  set (p' := match get_fd g with Some fd => Done (Ok fd) | None => Lock end).
  assert (critical p' = false) as Hp' by (subst p'; by destruct (get_fd g)).
  assert (g_mutex g ≠ Some i) as Hm by (intros Hm; by apply (Hc i Start) in Hm).
  assert (i < length ts) as Hlt by by eapply lookup_lt_Some.
  constructor; simpl.
  - intros j q Hj. destruct (decide (j = i)) as [->|Hne].
    + rewrite list_lookup_insert_eq in Hj by done. injection Hj as <-. by rewrite Hp'.
    + rewrite list_lookup_insert_ne in Hj by done. by apply Hc.
  - intros j Hj. apply lookup_lt_is_Some. rewrite length_insert. by apply lookup_lt_is_Some, Hh.
  - intros j q Hj. destruct (decide (j = i)) as [->|Hne].
    + rewrite list_lookup_insert_eq in Hj by done. injection Hj as <-. subst p'.
      destruct (get_fd g) as [fd|] eqn:E; [|done]. apply get_fd_Some in E. by intros ? [= <-].
    + rewrite list_lookup_insert_ne in Hj by done. by eapply Hf.
  - destruct (g_mutex g) as [j|] eqn:E; [|done]. simpl in *. by rewrite list_lookup_insert_ne by congruence.
Qed.

Lemma lock_step i g p' g' ts :
  sys_ok (ts, g) → ts !! i = Some Lock → rng_step i Lock g = Some (p', g') → sys_ok (<[i := p']> ts, g').
Proof.
  intros [Hc Hh Hf Hl] Hi Hs. simpl in *. destruct (g_mutex g) eqn:Em; [done|]. injection Hs as <- <-.
  assert (i < length ts) as Hlt by by eapply lookup_lt_Some.
  constructor; simpl.
  - intros j q Hj. destruct (decide (j = i)) as [->|Hne].
    + rewrite list_lookup_insert_eq in Hj by done. by injection Hj as <-.
    + rewrite list_lookup_insert_ne in Hj by done. rewrite (Hc j q Hj). split; [done|congruence].
  - intros j [= <-]. by rewrite list_lookup_insert_eq.
  - intros j q Hj. destruct (decide (j = i)) as [->|Hne].
    + rewrite list_lookup_insert_eq in Hj by done. by injection Hj as <-.
    + rewrite list_lookup_insert_ne in Hj by done. by eapply (Hf j).
  - rewrite list_lookup_insert_eq by done. by eapply log_ok_mutex, log_ok_move; [exact Hl|..].
Qed.

Lemma inside_step i p g p' g' ts :
  sys_ok (ts, g) → ts !! i = Some p → critical p = true → rng_step i p g = Some (p', g') →
  sys_ok (<[i := p']> ts, g').
Proof.
  intros [Hc Hh Hf Hl] Hi Hp Hs. simpl in *. pose proof (proj1 (Hc i p Hi) Hp) as Hm.
  rewrite Hm in Hl. simpl in Hl. rewrite Hi in Hl.
  destruct (holder_step i p g (p', g') Hp Hs Hl (Hf i p Hi)) as (Hl' & Hf' & Hg & Hm'). simpl in *.
  assert (i < length ts) as Hlt by by eapply lookup_lt_Some.
  rewrite Hm in Hm'. constructor; simpl.
  - intros j q Hj. destruct (decide (j = i)) as [->|Hne].
    + rewrite list_lookup_insert_eq in Hj by done. injection Hj as <-. rewrite Hm'. by destruct (critical p').
    + rewrite list_lookup_insert_ne in Hj by done. rewrite (Hc j q Hj), Hm, Hm'.
      destruct (critical p'); split; congruence.
  - intros j. rewrite Hm'. destruct (critical p'); [|done]. intros [= <-]. by rewrite list_lookup_insert_eq.
  - intros j q Hj. destruct (decide (j = i)) as [->|Hne].
    + rewrite list_lookup_insert_eq in Hj by done. by injection Hj as <-.
    + rewrite list_lookup_insert_ne in Hj by done. eapply fd_ok_step; [by eapply Hf|done].
  - rewrite Hm'. unfold holding in Hl'. destruct (critical p'); simpl in *; [|done].
    by rewrite list_lookup_insert_eq.
Qed.

Lemma system_ok s s' : rtc rng_system s s' → sys_ok s → sys_ok s'.
Proof.
  induction 1 as [|s s1 s2 Hs _ IH]; [done|]. intros Hok. apply IH. destruct s as [ts g].
  destruct Hs as (i & p & p' & g' & Hi & Hs & ->). simpl in *.
  destruct (critical p) eqn:Hp; [by eapply inside_step|].
  destruct (decide (p = Lock)) as [->|]; [by eapply lock_step|by eapply outside_step].
Qed.

(** The threads before any has called, whatever the system. *)
Definition rng_start (n : nat) (has : Z) (o : O) : list pc * shared :=
  (replicate n Start, MkShared has FD_UNINIT None o []).
Lemma start_ok n has o : sys_ok (rng_start n has o).
Proof.
  constructor; simpl; [| done | |].
  - intros i p [-> _]%lookup_replicate. done.
  - intros i p [-> _]%lookup_replicate. done.
  - constructor; try done. intros l1 e l2 Heq. by destruct l1.
Qed.

(** Somebody can go on: the mutex is free, or held by a thread that runs. *)
Lemma system_progress s : sys_ok s → (∀ i p, s.1 !! i = Some p → ∃ r, p = Done r) ∨ ∃ s', rng_system s s'.
Proof.
  destruct s as [ts g]. intros [Hc Hh Hf Hl]. simpl in *.
  assert (∀ i p, ts !! i = Some p → p ≠ Lock → (∀ r, p ≠ Done r) → ∃ s', rng_system (ts, g) s') as Hgo.
  { intros i p Hi Hnl Hnd. assert (∃ x, rng_step i p g = Some x) as [[p' g'] Hs].
    { destruct p; simpl; eauto; [done|by destruct (Hnd r)]. }
    eexists. by exists i, p, p', g'. }
  destruct (g_mutex g) as [i|] eqn:Em.
  { destruct (Hh i eq_refl) as [p Hi]. pose proof (proj2 (Hc i p Hi) eq_refl) as Hp.
    right. by eapply (Hgo i p); [|destruct p..]. }
  destruct (decide (Forall (λ p, critical p = false ∧ p ≠ Start ∧ p ≠ Lock) ts)) as [Hall|Hex].
  - left. intros i p Hi. rewrite Forall_lookup in Hall. destruct (Hall i p Hi) as (? & ? & ?). destruct p; eauto; done.
  - right. apply not_Forall_Exists in Hex; [|apply _]. apply Exists_exists in Hex as (p & Hin & Hp).
    apply list_elem_of_lookup in Hin as [i Hi]. destruct (decide (p = Lock)) as [->|Hne].
    + eexists. exists i, Lock, Recheck, (set_mutex (Some i) g). split_and!; [done|simpl; by rewrite Em|done].
    + apply (Hgo i p Hi Hne). intros r ->. by apply Hp.
Qed.

(** C36: the device is opened once.  However many threads ask for random bytes at once and
    however their steps interleave, /dev/urandom is opened at most once, and only after a
    poll has found the pool ready; every thread that returned successfully has its
    descriptor; once all have returned the mutex is free and every descriptor of
    /dev/random is closed; and until then some thread can go on. *)
Theorem rng_fd_opened_once n has o ts g :
  rtc rng_system (rng_start n has o) (ts, g) →
  length (opens FILE_PATH (g_log g)) ≤ 1 ∧ ready_first (g_log g) ∧
  (∀ i fd, ts !! i = Some (Done (Ok fd)) → opens FILE_PATH (g_log g) = [fd]) ∧
  ((∀ i p, ts !! i = Some p → ∃ r, p = Done r) ∧ g_mutex g = None ∧
     opens RANDOM_PATH (g_log g) = closes (g_log g) ∨
   ∃ s', rng_system (ts, g) s').
Proof.
  intros Hr. pose proof (system_ok _ _ Hr (start_ok n has o)) as Hok.
  pose proof (system_progress _ Hok) as Hpr. destruct Hok as [Hc Hh Hf Hl]. simpl in *.
  split_and!.
  - rewrite (lo_opens _ _ Hl). destruct (pending _); [done|]. destruct (_ =? _)%Z; simpl; lia.
  - apply (lo_ready _ _ Hl).
  - intros i fd Hi. destruct (Hf i _ Hi fd eq_refl) as [Hfd Hne]. rewrite (lo_opens _ _ Hl).
    destruct (pending _) as [fd'|] eqn:Ep.
    { exfalso. apply Hne. rewrite <- Hfd. apply (lo_fresh _ _ Hl).
      by destruct (_ ≫= _) as [[]|]. }
    rewrite Hfd. by destruct (Z.eqb_spec fd FD_UNINIT).
  - destruct Hpr as [Hdone|?]; [left|by right].
    assert (g_mutex g = None) as Hm.
    { destruct (g_mutex g) as [i|] eqn:Em; [|done]. destruct (Hh i eq_refl) as [p Hi].
      pose proof (proj2 (Hc i p Hi) eq_refl) as Hp. by destruct (Hdone i p Hi) as [r ->]. }
    split_and!; [done|done|]. rewrite Hm in Hl. rewrite (lo_closed _ _ Hl). apply app_nil_r.
Qed.
End threads.

(** * A small system

    [signals] calls will be interrupted; getrandom(2) may be missing; a call writes one
    byte; /dev/random is descriptor 7 and /dev/urandom 8. *)
Record kernel := MkKernel { signals : nat; has_call : bool }.
Definition interruptible {A} (i : A) (f : A) (k : kernel) : A * kernel :=
  match signals k with S n => (i, MkKernel n (has_call k)) | 0 => (f, k) end.
Definition one_byte (n : nat) : Z * bytes * Z := if bool_decide (n = 0) then (0%Z, [], 0%Z) else (1%Z, [Byte.x2a], 0%Z).
#[global] Instance kernel_libc : Libc kernel := {|
  libc_getrandom n k := if has_call k then interruptible (-1, [], EINTR)%Z (one_byte n) k
                        else ((-1)%Z, [], ENOSYS, k);
  libc_read fd n k := interruptible (-1, [], EINTR)%Z (one_byte n) k;
  libc_open p k := interruptible (-1, EINTR)%Z ((if bool_decide (p = FILE_PATH) then 8 else 7)%Z, 0%Z) k;
  libc_poll fd k := interruptible (-1, EAGAIN)%Z (1%Z, 0%Z) k;
  libc_close fd k := k;
|}.
#[global] Instance kernel_laws : LibcLaws kernel.
Proof.
  constructor; unfold libc_getrandom, libc_read, libc_open, kernel_libc, interruptible, one_byte; intros until o';
    repeat case_match; intros; simplify_eq; done || lia.
Qed.
#[global] Instance kernel_patience : LibcPatience kernel.
Proof.
  refine {| patience := signals |}; unfold libc_getrandom, libc_read, libc_open, libc_poll, kernel_libc, interruptible, one_byte; intros;
    [..|done]; repeat case_match; simplify_eq/=; rewrite ?bool_decide_false by (unfold EINTR, EAGAIN, ENOSYS; lia); try lia;
    case_bool_decide; lia.
Defined.

Definition fresh_kernel (signals : nat) (has : bool) : shared := MkShared UNINIT FD_UNINIT None (MkKernel signals has) [].
(** Without the call, and with a signal in the way, four bytes come from the device. *)
Example from_device :
  (λ r, r.1) <$> linux_getrandom_inner 20 4 (fresh_kernel 3 false) = Some (Ok (replicate 4 Byte.x2a)).
Proof. by vm_compute. Qed.
Lemma hosted_getrandom_total_witness :
  ∃ r g', linux_getrandom_inner 20 4 (fresh_kernel 3 false) = Some (r, g') ∧ g_mutex g' = None ∧
    match r with Ok bs => length bs = 4 | Err e => raw_os_error e ≠ Some EINTR end.
Proof. apply (hosted_getrandom_total 20 4 (fresh_kernel 3 false)); [done|simpl; lia]. Defined.

(** The steps of a schedule. *)
Definition sched_step (s : list pc * shared (O := kernel)) (i : nat) : list pc * shared :=
  match s.1 !! i ≫= λ p, rng_step i p s.2 with Some (p', g') => (<[i := p']> s.1, g') | None => s end.
Lemma sched_rtc sched s : rtc rng_system s (foldl sched_step s sched).
Proof.
  revert s. induction sched as [|i sched IH]; intros s; [done|]. simpl.
  etrans; [|apply IH]. unfold sched_step. destruct (s.1 !! i) as [p|] eqn:Hi; [|done]. simpl.
  destruct (rng_step i p s.2) as [[p' g']|] eqn:Hs; [|done]. apply rtc_once. by exists i, p, p', g'.
Qed.
(** Both look before either locks; the second waits, then finds the descriptor. *)
Definition two_callers : list pc * shared :=
  foldl sched_step (rng_start 2 UNINIT (MkKernel 1 false)) (0 :: 1 :: concat (replicate 12 [0; 1])).
Lemma rng_fd_opened_once_witness :
  two_callers.1 = [Done (Ok 8%Z); Done (Ok 8%Z)] ∧
  length (opens FILE_PATH (g_log two_callers.2)) ≤ 1 ∧ ready_first (g_log two_callers.2) ∧
  (∀ i fd, two_callers.1 !! i = Some (Done (Ok fd)) → opens FILE_PATH (g_log two_callers.2) = [fd]) ∧
  ((∀ i p, two_callers.1 !! i = Some p → ∃ r, p = Done r) ∧ g_mutex two_callers.2 = None ∧
     opens RANDOM_PATH (g_log two_callers.2) = closes (g_log two_callers.2) ∨
   ∃ s', rng_system two_callers s').
Proof.
  split; [by vm_compute|].
  apply (rng_fd_opened_once 2 UNINIT (MkKernel 1 false) two_callers.1 two_callers.2).
  rewrite <- surjective_pairing. apply sched_rtc.
Defined.

(** Errors tell where they come from: an [errno] is given back, an internal code has a
    description, and the text of any other names its code. *)
Lemma error_classes (strerror_r : Z → option bytes) e :
  (raw_os_error e = Some e ∧ (e < INTERNAL_START)%Z) ∨
  raw_os_error e = None ∧ (Error_fmt strerror_r e = "Unknown Error: "%bs ++ show_u e ∨
    ∃ d, (e, d) ∈ internal_descs ∧ Error_fmt strerror_r e = d).
Proof.
  unfold Error_fmt, raw_os_error, internal_desc. destruct (Z.ltb_spec e INTERNAL_START); [by left|right].
  split; [done|]. destruct (list_find _ internal_descs) as [[i [e' d]]|] eqn:Ef; simpl; [right|by left].
  apply list_find_Some in Ef as (Hi & Heq & _). simpl in Heq. subst e'. exists d.
  split; [|done]. by eapply list_elem_of_lookup_2.
Qed.
