(* ===== verification/Wire.v ===== *)
(** The protobuf wire layer under the inline [prost::Message] structs.

    [prost] is a dependency, so its codec is an interface: [WireFormat] turns a
    list of numbered fields into bytes and back, and [WireFormatLaws] states the
    documented round trip.  The derive attributes of the source ([tag = "7"],
    [string, optional]) are modelled on top of it by the component files, with
    the merge rules of the format: a later scalar replaces an earlier one,
    unknown tags are skipped, a wrong wire type or a non-UTF-8 string is a
    decode error.  [proto_wire] is the varint/tag-length-value encoding itself
    and discharges the laws, so every theorem stated over the interface can be
    evaluated. *)

From S2P Require Import Prelude RustStd.

Inductive wire :=
  | WVarint (v : Z)
  | WFixed64 (b : bytes)
  | WLen (b : bytes)
  | WFixed32 (b : bytes).
Abbreviation field := (Z * wire)%type.

#[global] Instance wire_eq_dec : EqDecision wire.
Proof. solve_decision. Defined.

Definition wire_wf (w : wire) : Prop :=
  match w with
  | WVarint v => in_u64 v
  | WFixed64 b => length b = 8
  | WLen b => in_u64 (Z.of_nat (length b))
  | WFixed32 b => length b = 4
  end.
Definition field_wf (f : field) : Prop :=
  (1 ≤ f.1 < 2 ^ 29)%Z ∧ wire_wf f.2.

(** Key and length prefix take at most ten bytes each. *)
Definition field_size (f : field) : nat :=
  20 + match f.2 with WVarint _ => 0 | WFixed64 b | WFixed32 b | WLen b => length b end.
Definition fields_size (fs : list field) : nat := sum_list (field_size <$> fs).

Class WireFormat := {
  pb_encode : list field → bytes;
  pb_decode : bytes → option (list field);
}.
Class WireFormatLaws `{WireFormat} := {
  pb_decode_encode fs : Forall field_wf fs → pb_decode (pb_encode fs) = Some fs;
  pb_encode_size fs : length (pb_encode fs) ≤ fields_size fs;
}.

(** * Typed fields *)

Section typed.
Context `{WireFormat}.

(** [Option<String>], [Option<Vec<u8>>], [Option<uN>], [Option<i32>],
    [Option<bool>] and nested messages when encoding: absent is no field. *)
Definition put_len (tag : Z) (o : option bytes) : list field :=
  match o with Some b => [(tag, WLen b)] | None => [] end.
Definition put_varint (tag : Z) (o : option Z) : list field :=
  match o with Some v => [(tag, WVarint v)] | None => [] end.
(** an [int32] is sign-extended to 64 bits before it is written *)
Definition put_i32 (tag : Z) (o : option Z) : list field :=
  put_varint tag ((λ v, v mod 2 ^ 64)%Z <$> o).

(** The value a field of each type takes from the wire, [None] on a decode
    error. *)
Definition get_string (w : wire) : option bytes :=
  match w with WLen b => from_utf8 b | _ => None end.
Definition get_bytes (w : wire) : option bytes :=
  match w with WLen b => Some b | _ => None end.
Definition get_u64 (w : wire) : option Z :=
  match w with WVarint v => Some v | _ => None end.
Definition get_u32 (w : wire) : option Z :=
  match w with WVarint v => Some (v mod 2 ^ 32)%Z | _ => None end.
Definition get_i32 (w : wire) : option Z :=
  match w with
  | WVarint v =>
      let u := (v mod 2 ^ 32)%Z in
      Some (if (u <? 2 ^ 31)%Z then u else u - 2 ^ 32)%Z
  | _ => None
  end.
Definition get_bool (w : wire) : option bool :=
  match w with WVarint v => Some (negb (v =? 0)%Z) | _ => None end.

(** [Message::merge]: fold the fields of [bs] into [a]. *)
Fixpoint merge_fields {A} (step : A → field → option A) (a : A) (fs : list field) :
    option A :=
  match fs with
  | [] => Some a
  | f :: fs => a ← step a f; merge_fields step a fs
  end.
Definition merge {A} (step : A → field → option A) (a : A) (bs : bytes) : option A :=
  fs ← pb_decode bs; merge_fields step a fs.

(** The value of an optional scalar field with tag [t] after all of [fs]: the
    last one, [None] (an error) when one of them has the wrong form. *)
Definition opt_field {A} (t : Z) (get : wire → option A) (fs : list field) :
    option (option A) :=
  merge_fields (λ old f, if (f.1 =? t)%Z then Some <$> get f.2 else Some old) None fs.

(** A nested message field: merged into the value already there. *)
Definition get_message {A} (step : A → field → option A) (dflt : A)
    (old : option A) (w : wire) : option A :=
  match w with WLen b => merge step (default dflt old) b | _ => None end.
End typed.

Section laws.
Context `{WireFormatLaws}.

Lemma merge_encode {A} (step : A → field → option A) a fs :
  Forall field_wf fs → merge step a (pb_encode fs) = merge_fields step a fs.
Proof. intros Hfs. unfold merge. by rewrite pb_decode_encode. Qed.
End laws.

(** * The concrete format *)

Module Proto.

(** Base-128 varint, least significant group first, at most ten bytes. *)
Fixpoint varint_encode (fuel : nat) (n : Z) : bytes :=
  match fuel with
  | O => []
  | S fuel =>
      if (n <? 128)%Z then [Zbyte n]
      else Zbyte (128 + n mod 128) :: varint_encode fuel (n / 128)
  end.

Fixpoint varint_decode (fuel : nat) (s : bytes) : option (Z * bytes) :=
  match fuel, s with
  | S fuel, b :: s =>
      let v := byteZ b in
      if (v <? 128)%Z then
        if Nat.eqb fuel 0 && (1 <? v)%Z then None else Some (v, s)
      else '(r, s') ← varint_decode fuel s; Some ((v - 128) + 128 * r, s')%Z
  | _, _ => None
  end.

Definition wire_type (w : wire) : Z :=
  match w with WVarint _ => 0 | WFixed64 _ => 1 | WLen _ => 2 | WFixed32 _ => 5 end.
Definition put (n : Z) : bytes := varint_encode 10 n.
Definition take_varint (s : bytes) : option (Z * bytes) := varint_decode 10 s.
Definition take_n (n : Z) (s : bytes) : option (bytes * bytes) :=
  if (n <=? Z.of_nat (length s))%Z
  then Some (take (Z.to_nat n) s, drop (Z.to_nat n) s) else None.

Definition encode_field (f : field) : bytes :=
  put (f.1 * 8 + wire_type f.2) ++
  match f.2 with
  | WVarint v => put v
  | WFixed64 b | WFixed32 b => b
  | WLen b => put (Z.of_nat (length b)) ++ b
  end.

Definition decode_field (s : bytes) : option (field * bytes) :=
  '(key, s) ← take_varint s;
  let tag := (key / 8)%Z in
  if (tag <? 1)%Z || (2 ^ 29 <=? tag)%Z then None
  else match (key mod 8)%Z with
       | 0%Z => '(v, s) ← take_varint s; Some ((tag, WVarint v), s)
       | 1%Z => '(b, s) ← take_n 8 s; Some ((tag, WFixed64 b), s)
       | 2%Z => '(n, s) ← take_varint s; '(b, s) ← take_n n s; Some ((tag, WLen b), s)
       | 5%Z => '(b, s) ← take_n 4 s; Some ((tag, WFixed32 b), s)
       | _ => None
       end.

Fixpoint decode_fields (fuel : nat) (s : bytes) : option (list field) :=
  match s with
  | [] => Some []
  | _ => match fuel with
         | O => None
         | S fuel => '(f, s) ← decode_field s; fs ← decode_fields fuel s; Some (f :: fs)
         end
  end.

Definition encode (fs : list field) : bytes := concat (encode_field <$> fs).
Definition decode (s : bytes) : option (list field) := decode_fields (length s) s.

Lemma varint_decode_cons fuel b s :
  varint_decode (S fuel) (b :: s) =
  if (byteZ b <? 128)%Z then
    if Nat.eqb fuel 0 && (1 <? byteZ b)%Z then None else Some (byteZ b, s)
  else '(r, s') ← varint_decode fuel s; Some ((byteZ b - 128) + 128 * r, s')%Z.
Proof. done. Qed.

Lemma varint_encode_S fuel n :
  varint_encode (S fuel) n =
  if (n <? 128)%Z then [Zbyte n]
  else Zbyte (128 + n mod 128) :: varint_encode fuel (n / 128).
Proof. done. Qed.

Lemma varint_decode_encode fuel n r :
  (0 ≤ n < 2 * 128 ^ Z.of_nat fuel)%Z →
  varint_decode (S fuel) (varint_encode (S fuel) n ++ r) = Some (n, r).
Proof.
  revert n; induction fuel as [|fuel IH]; intros n Hn.
  - change (128 ^ Z.of_nat 0)%Z with 1%Z in Hn. rewrite varint_encode_S.
    destruct (Z.ltb_spec n 128); [|lia]. cbn [app]. rewrite varint_decode_cons.
    rewrite byteZ_Zbyte_small by lia. destruct (Z.ltb_spec n 128); [|lia].
    by destruct (Z.ltb_spec 1 n); [lia|].
  - rewrite Nat2Z.inj_succ, Z.pow_succ_r in Hn by lia. rewrite varint_encode_S.
    destruct (Z.ltb_spec n 128).
    + cbn [app]. rewrite varint_decode_cons, byteZ_Zbyte_small by lia.
      by destruct (Z.ltb_spec n 128); [|lia].
    + pose proof (Z.mod_pos_bound n 128 ltac:(lia)).
      pose proof (Z.div_mod n 128 ltac:(lia)).
      assert (0 ≤ n / 128 < 2 * 128 ^ Z.of_nat fuel)%Z as Hq.
      { split; [apply Z.div_pos; lia|]. apply Z.div_lt_upper_bound; lia. }
      rewrite <- app_comm_cons, varint_decode_cons, byteZ_Zbyte_small by lia.
      destruct (Z.ltb_spec (128 + n mod 128) 128); [lia|].
      rewrite (IH _ Hq). simpl. do 2 f_equal. lia.
Qed.

Lemma take_varint_put n r : in_u64 n → take_varint (put n ++ r) = Some (n, r).
Proof.
  unfold in_u64, u64_max. intros. apply (varint_decode_encode 9).
  change (2 * 128 ^ Z.of_nat 9)%Z with 18446744073709551616%Z. lia.
Qed.

Lemma take_n_app n b r : n = Z.of_nat (length b) → take_n n (b ++ r) = Some (b, r).
Proof.
  intros ->. unfold take_n. rewrite length_app.
  destruct (Z.leb_spec (Z.of_nat (length b)) (Z.of_nat (length b + length r))); [|lia].
  by rewrite Nat2Z.id, take_app_length, drop_app_length.
Qed.

Lemma decode_encode_field f r : field_wf f → decode_field (encode_field f ++ r) = Some (f, r).
Proof.
  destruct f as [tag w]. intros [Ht Hw]. simpl in *.
  unfold decode_field, encode_field. cbn [fst snd]. rewrite <- app_assoc.
  assert (0 ≤ wire_type w < 8)%Z by (destruct w; simpl; lia).
  rewrite take_varint_put by (unfold in_u64, u64_max; lia). cbn [mbind option_bind].
  assert ((tag * 8 + wire_type w) / 8 = tag)%Z as ->.
  { rewrite Z.div_add_l by lia. rewrite Z.div_small by lia. lia. }
  assert ((tag * 8 + wire_type w) mod 8 = wire_type w)%Z as ->.
  { rewrite Z.add_comm, Z.mod_add by lia. by apply Z.mod_small. }
  destruct (Z.ltb_spec tag 1); [lia|]. destruct (Z.leb_spec (2 ^ 29) tag); [lia|].
  destruct w as [v|b|b|b]; cbn [wire_type orb wire_wf] in *.
  - by rewrite take_varint_put.
  - by rewrite take_n_app by (rewrite Hw; done).
  - rewrite <- app_assoc, take_varint_put by done. cbn [mbind option_bind].
    by rewrite take_n_app.
  - by rewrite take_n_app by (rewrite Hw; done).
Qed.

Lemma encode_field_cons f : ∃ b s, encode_field f = b :: s.
Proof.
  unfold encode_field, put. cbn [varint_encode]. case_match; simpl; eauto.
Qed.

Lemma decode_fields_encode fs fuel :
  Forall field_wf fs → length (encode fs) ≤ fuel →
  decode_fields fuel (encode fs) = Some fs.
Proof.
  intros Hfs. revert fuel; induction Hfs as [|f fs Hf Hfs IH]; intros fuel Hl.
  - by destruct fuel.
  - unfold encode in *. cbn [fmap list_fmap concat] in *.
    pose proof (decode_encode_field f (concat (encode_field <$> fs)) Hf) as Hd.
    destruct (encode_field_cons f) as (b & s & E). rewrite E in *. simpl in Hl.
    destruct fuel as [|fuel]; [lia|]. cbn [app decode_fields] in *. rewrite Hd.
    cbn [mbind option_bind]. rewrite IH; [done|]. rewrite length_app in Hl. lia.
Qed.

Lemma decode_encode fs : Forall field_wf fs → decode (encode fs) = Some fs.
Proof. intros. by apply decode_fields_encode. Qed.

Lemma varint_size fuel n : length (varint_encode fuel n) ≤ fuel.
Proof.
  revert n; induction fuel as [|fuel IH]; intros n; simpl; [done|].
  case_match; simpl; [lia|]. pose proof (IH (n / 128)%Z). lia.
Qed.

Lemma encode_size fs : length (encode fs) ≤ fields_size fs.
Proof.
  unfold encode, fields_size. induction fs as [|[t w] fs IH]; cbn [fmap list_fmap concat sum_list];
    [done|].
  assert (length (encode_field (t, w)) ≤ field_size (t, w)) as Hf.
  { unfold encode_field, field_size, put. cbn [fst snd]. rewrite length_app.
    pose proof (varint_size 10 (t * 8 + wire_type w)).
    destruct w; rewrite ?length_app;
      try (pose proof (varint_size 10 v)); try (pose proof (varint_size 10 (Z.of_nat (length b))));
      lia. }
  rewrite length_app. by apply Nat.add_le_mono.
Qed.
End Proto.

#[global] Instance proto_wire : WireFormat :=
  {| pb_encode := Proto.encode; pb_decode := Proto.decode |}.
#[global] Instance proto_wire_laws : WireFormatLaws.
Proof. constructor; [apply Proto.decode_encode|apply Proto.encode_size]. Qed.

(** Field well-formedness of the encoders' output. *)
Lemma put_len_wf tag o :
  (1 ≤ tag < 2 ^ 29)%Z → (∀ b, o = Some b → in_u64 (Z.of_nat (length b))) →
  Forall field_wf (put_len tag o).
Proof. intros Ht Ho. destruct o as [b|]; repeat constructor; simpl; auto; try lia; apply Ho; done. Qed.

Lemma put_varint_wf tag o :
  (1 ≤ tag < 2 ^ 29)%Z → (∀ v, o = Some v → in_u64 v) → Forall field_wf (put_varint tag o).
Proof. intros Ht Ho. destruct o as [v|]; repeat constructor; simpl; try lia; apply Ho; done. Qed.
