(* ===== verification/Base64.v ===== *)
(** Base64 engines.  The [base64] crate is a dependency: [Base64] is its
    interface with the engines the client names, and [Base64Laws] what the
    client relies on, the round trips and the alphabet.  [Rfc4648] implements
    the engines and discharges the laws. *)

From S2P Require Import Prelude RustStd.

(** [general_purpose::{STANDARD, STANDARD_NO_PAD, URL_SAFE_NO_PAD}] and the
    padding-indifferent [PERMISSIVE] engine of [send.rs]. *)
Inductive engine := STANDARD | STANDARD_NO_PAD | URL_SAFE_NO_PAD | PERMISSIVE.

#[global] Instance engine_eq_dec : EqDecision engine.
Proof. solve_decision. Defined.

(** A byte of one of the alphabets, or padding. *)
Definition is_b64_byte (b : byte) : bool :=
  let z := byteZ b in
  ((65 <=? z) && (z <=? 90) || (97 <=? z) && (z <=? 122) || (48 <=? z) && (z <=? 57)
   || (z =? 43) || (z =? 47) || (z =? 45) || (z =? 95) || (z =? 61))%Z.

Class Base64 := {
  b64_encode : engine → bytes → bytes;
  b64_decode : engine → bytes → option bytes;
  (** [Display] of the [DecodeError] for an input that does not decode *)
  b64_error : engine → bytes → bytes;
}.
Class Base64Laws `{Base64} := {
  b64_decode_encode e x : b64_decode e (b64_encode e x) = Some x;
  b64_permissive_padded x : b64_decode PERMISSIVE (b64_encode STANDARD x) = Some x;
  b64_permissive_unpadded x : b64_decode PERMISSIVE (b64_encode STANDARD_NO_PAD x) = Some x;
  b64_alphabet e x : Forall (λ b, is_b64_byte b = true) (b64_encode e x);
}.

Section laws.
Context `{Base64Laws}.
Lemma b64_encode_inj e x y : b64_encode e x = b64_encode e y → x = y.
Proof.
  intros E. pose proof (b64_decode_encode e x) as Hx.
  rewrite E, b64_decode_encode in Hx. by simplify_eq.
Qed.
End laws.

Module Rfc4648.

Definition url (e : engine) : bool := bool_decide (e = URL_SAFE_NO_PAD).
Definition padded (e : engine) : bool := bool_decide (e = STANDARD ∨ e = PERMISSIVE).

Definition char_of (u : bool) (i : Z) : byte :=
  if (i <? 26)%Z then Zbyte (65 + i)
  else if (i <? 52)%Z then Zbyte (97 + (i - 26))
  else if (i <? 62)%Z then Zbyte (48 + (i - 52))
  else if (i =? 62)%Z then (if u then "-"%byte else "+"%byte)
  else (if u then "_"%byte else "/"%byte).

Definition index_of (u : bool) (b : byte) : option Z :=
  let z := byteZ b in
  if (65 <=? z)%Z && (z <=? 90)%Z then Some (z - 65)%Z
  else if (97 <=? z)%Z && (z <=? 122)%Z then Some (z - 97 + 26)%Z
  else if (48 <=? z)%Z && (z <=? 57)%Z then Some (z - 48 + 52)%Z
  else if (z =? if u then 45 else 43)%Z then Some 62%Z
  else if (z =? if u then 95 else 47)%Z then Some 63%Z
  else None.

(** The sextets of the input, without padding. *)
Fixpoint sextets (x : bytes) : list Z :=
  match x with
  | [] => []
  | [a] => let n := (byteZ a * 16)%Z in [n / 64; n mod 64]%Z
  | [a; b] =>
      let n := ((byteZ a * 256 + byteZ b) * 4)%Z in
      [n / 4096; n / 64 mod 64; n mod 64]%Z
  | a :: b :: c :: x =>
      let n := (byteZ a * 65536 + byteZ b * 256 + byteZ c)%Z in
      [n / 262144; n / 4096 mod 64; n / 64 mod 64; n mod 64]%Z ++ sextets x
  end.

Definition pad_of (x : bytes) : bytes :=
  match (length x mod 3)%nat with
  | 1 => ["="; "="]%byte
  | 2 => ["="]%byte
  | _ => []
  end.

Definition encode (e : engine) (x : bytes) : bytes :=
  (char_of (url e) <$> sextets x) ++ (if padded e then pad_of x else []).

(** Undo [sextets]; the unused low bits of a short group must be zero. *)
Fixpoint octets (l : list Z) : option bytes :=
  match l with
  | [] => Some []
  | [_] => None
  | [i; j] =>
      let n := (i * 64 + j)%Z in
      if (n mod 16 =? 0)%Z then Some [Zbyte (n / 16)] else None
  | [i; j; k] =>
      let n := (i * 4096 + j * 64 + k)%Z in
      if (n mod 4 =? 0)%Z then Some [Zbyte (n / 1024); Zbyte (n / 4)] else None
  | i :: j :: k :: m :: l =>
      let n := (i * 262144 + j * 4096 + k * 64 + m)%Z in
      r ← octets l; Some (Zbyte (n / 65536) :: Zbyte (n / 256) :: Zbyte n :: r)
  end.

(** Split the trailing padding off. *)
Fixpoint split_pad (s : bytes) : bytes * bytes :=
  match s with
  | [] => ([], [])
  | b :: r => if bool_decide (b = "="%byte) then ([], s)
              else let '(x, p) := split_pad r in (b :: x, p)
  end.

Definition pad_ok (e : engine) (body pad : bytes) : bool :=
  let canonical := bool_decide (pad = replicate ((4 - length body mod 4) mod 4) "="%byte) in
  match e with
  | STANDARD => canonical
  | STANDARD_NO_PAD | URL_SAFE_NO_PAD => bool_decide (pad = [])
  | PERMISSIVE => canonical || bool_decide (pad = [])
  end.

Definition decode (e : engine) (s : bytes) : option bytes :=
  let '(body, pad) := split_pad s in
  if pad_ok e body pad then
    l ← mapM (index_of (url e)) body; octets l
  else None.

Lemma char_index u i : (0 ≤ i < 64)%Z → index_of u (char_of u i) = Some i.
Proof.
  intros Hi. unfold char_of, index_of.
  repeat (case_match; try lia); rewrite ?byteZ_Zbyte_small in * by lia;
    repeat match goal with H : context [byteZ _] |- _ => vm_compute in H end;
    try (f_equal; lia); try lia; destruct u; simplify_eq/=; try (f_equal; lia); try lia.
Qed.

Lemma char_alphabet u i : (0 ≤ i < 64)%Z →
  is_b64_byte (char_of u i) = true ∧ char_of u i ≠ "="%byte.
Proof.
  intros Hi. unfold char_of, is_b64_byte.
  assert (∀ z, (0 ≤ z < 256)%Z → z ≠ 61%Z → Zbyte z ≠ "="%byte) as Hne.
  { intros z Hz Hn E. apply (f_equal byteZ) in E.
    rewrite byteZ_Zbyte_small in E by done. by apply Hn. }
  repeat case_match; rewrite ?byteZ_Zbyte_small by lia; split; try lia;
    try (apply Hne; lia); by vm_compute.
Qed.

Lemma bytes3_ind (P : bytes → Prop) :
  P [] → (∀ a, P [a]) → (∀ a b, P [a; b]) →
  (∀ a b c x, P x → P (a :: b :: c :: x)) → ∀ x, P x.
Proof.
  intros H0 H1 H2 H3 x. enough (∀ n x, length x ≤ n → P x) as H by eauto.
  clear x. intros n. induction n as [|n IH]; intros x Hx.
  - destruct x; [done|simpl in Hx; lia].
  - destruct x as [|a [|b [|c x]]]; [done..|]. apply H3, IH. simpl in Hx. lia.
Qed.

Lemma mod64_range n : (0 ≤ n mod 64 < 64)%Z.
Proof. apply Z.mod_pos_bound. lia. Qed.

Lemma div_range n d : (0 < d)%Z → (0 ≤ n < d * 64)%Z → (0 ≤ n / d < 64)%Z.
Proof. intros. split; [apply Z.div_pos|apply Z.div_lt_upper_bound]; lia. Qed.

Lemma sextets_range x : Forall (λ i, 0 ≤ i < 64)%Z (sextets x).
Proof.
  induction x as [|a|a b|a b c x IH] using bytes3_ind; cbn [sextets app].
  - constructor.
  - pose proof (byteZ_range a).
    repeat constructor; first [apply mod64_range|apply div_range; lia].
  - pose proof (byteZ_range a). pose proof (byteZ_range b).
    repeat constructor; first [apply mod64_range|apply div_range; lia].
  - pose proof (byteZ_range a). pose proof (byteZ_range b). pose proof (byteZ_range c).
    repeat apply Forall_cons_2; [..|done]; first [apply mod64_range|apply div_range; lia].
Qed.

Lemma octets_sextets x : octets (sextets x) = Some x.
Proof.
  induction x as [|a|a b|a b c x IH] using bytes3_ind; [done|..].
  - pose proof (byteZ_range a). cbn [sextets octets].
    set (n := (byteZ a * 16)%Z).
    pose proof (Z.div_mod n 64 ltac:(lia)) as E.
    replace (n / 64 * 64 + n mod 64)%Z with (byteZ a * 16)%Z by lia.
    rewrite Z.mod_mul, Z.div_mul, Zbyte_byteZ by lia. done.
  - pose proof (byteZ_range a). pose proof (byteZ_range b). cbn [sextets octets].
    set (n := ((byteZ a * 256 + byteZ b) * 4)%Z).
    assert (n / 4096 * 4096 + n / 64 mod 64 * 64 + n mod 64 = n)%Z as ->.
    { replace 4096%Z with (64 * 64)%Z by lia. rewrite <- Z.div_div by lia.
      pose proof (Z.div_mod n 64 ltac:(lia)). pose proof (Z.div_mod (n / 64) 64 ltac:(lia)). lia. }
    unfold n. rewrite Z.mod_mul, Z.div_mul by lia. cbn [Z.eqb].
    replace 1024%Z with (4 * 256)%Z by lia. rewrite <- Z.div_div, Z.div_mul by lia.
    rewrite Z.div_add_l, (Z.div_small (byteZ b)), Z.add_0_r, Zbyte_byteZ by lia.
    do 3 f_equal. apply byteZ_inj. rewrite byteZ_Zbyte, Z.add_comm, Z.mod_add by lia.
    rewrite Z.mod_small by lia. done.
  - pose proof (byteZ_range a). pose proof (byteZ_range b). pose proof (byteZ_range c).
    cbn [sextets octets app].
    set (n := (byteZ a * 65536 + byteZ b * 256 + byteZ c)%Z).
    assert (n / 262144 * 262144 + n / 4096 mod 64 * 4096 + n / 64 mod 64 * 64 + n mod 64 = n)%Z
      as ->.
    { replace 262144%Z with (64 * (64 * 64))%Z by lia. replace 4096%Z with (64 * 64)%Z by lia.
      rewrite <- !Z.div_div by lia. pose proof (Z.div_mod n 64 ltac:(lia)).
      pose proof (Z.div_mod (n / 64) 64 ltac:(lia)).
      pose proof (Z.div_mod (n / 64 / 64) 64 ltac:(lia)). lia. }
    rewrite IH. simpl. unfold n.
    assert ((byteZ a * 65536 + byteZ b * 256 + byteZ c) / 65536 = byteZ a)%Z as ->.
    { replace (byteZ a * 65536 + byteZ b * 256 + byteZ c)%Z
        with (byteZ a * 65536 + (byteZ b * 256 + byteZ c))%Z by lia.
      rewrite Z.div_add_l, Z.div_small by lia. lia. }
    rewrite Zbyte_byteZ. do 2 f_equal. f_equal.
    + apply byteZ_inj. rewrite byteZ_Zbyte.
      replace (byteZ a * 65536 + byteZ b * 256 + byteZ c)%Z
        with ((byteZ a * 256 + byteZ b) * 256 + byteZ c)%Z by lia.
      rewrite Z.div_add_l, (Z.div_small (byteZ c)), Z.add_0_r by lia.
      rewrite Z.add_comm, Z.mod_add by lia. by rewrite Z.mod_small by lia.
    + f_equal. apply byteZ_inj. rewrite byteZ_Zbyte.
      replace (byteZ a * 65536 + byteZ b * 256 + byteZ c)%Z
        with (byteZ c + (byteZ a * 256 + byteZ b) * 256)%Z by lia.
      rewrite Z.mod_add by lia. by rewrite Z.mod_small by lia.
Qed.

Lemma mapM_char_index u l :
  Forall (λ i, 0 ≤ i < 64)%Z l → mapM (index_of u) (char_of u <$> l) = Some l.
Proof.
  induction 1 as [|i l Hi Hl IH]; [done|]. cbn [fmap list_fmap mapM].
  by rewrite (char_index u i Hi), IH.
Qed.

Lemma split_pad_app s p :
  Forall (λ b, b ≠ "="%byte) s → Forall (λ b, b = "="%byte) p →
  split_pad (s ++ p) = (s, p).
Proof.
  intros Hs Hp. induction Hs as [|b s Hb Hs IH]; simpl.
  - by destruct Hp as [|b p -> Hp].
  - by rewrite bool_decide_false, IH.
Qed.

Lemma pad_of_length x :
  pad_of x = replicate ((4 - length (sextets x) mod 4) mod 4) "="%byte.
Proof.
  induction x as [|a|a b|a b c x IH] using bytes3_ind; [done..|].
  unfold pad_of. replace (length (a :: b :: c :: x)) with (length x + 1 * 3)%nat
    by (simpl; lia). rewrite Nat.Div0.mod_add. fold (pad_of x). rewrite IH.
  cbn [sextets]. rewrite length_app. simpl (length [_; _; _; _]).
  replace (4 + length (sextets x))%nat with (length (sextets x) + 1 * 4)%nat by lia.
  by rewrite Nat.Div0.mod_add.
Qed.

(** The common core of the three round trips. *)
Lemma decode_sextets e u (pad : bytes) x :
  url e = u → pad_ok e (char_of u <$> sextets x) pad = true → Forall (λ b, b = "="%byte) pad →
  decode e ((char_of u <$> sextets x) ++ pad) = Some x.
Proof.
  intros <- Hok Hpad. unfold decode. rewrite split_pad_app; [|apply Forall_fmap|done].
  - rewrite Hok, mapM_char_index by apply sextets_range. apply octets_sextets.
  - eapply Forall_impl; [apply sextets_range|]. intros i Hi. by apply char_alphabet.
Qed.

Lemma pad_of_eq x : Forall (λ b, b = "="%byte) (pad_of x).
Proof. unfold pad_of. repeat case_match; repeat constructor. Qed.

Lemma pad_ok_of e x : padded e = true → pad_ok e (char_of (url e) <$> sextets x) (pad_of x) = true.
Proof.
  intros He. unfold pad_ok. rewrite length_fmap, <- pad_of_length.
  destruct e; rewrite ?bool_decide_true by done; done.
Qed.
End Rfc4648.

#[global] Instance rfc4648 : Base64 :=
  {| b64_encode := Rfc4648.encode; b64_decode := Rfc4648.decode;
     b64_error _ _ := "Invalid input"%bs |}.

#[global] Instance rfc4648_laws : Base64Laws.
Proof.
  constructor; simpl; unfold Rfc4648.encode.
  - intros e x. destruct (Rfc4648.padded e) eqn:E; apply Rfc4648.decode_sextets;
      auto using Rfc4648.pad_of_eq, Rfc4648.pad_ok_of; by destruct e.
  - intros x. apply Rfc4648.decode_sextets; [done| |apply Rfc4648.pad_of_eq].
    apply (Rfc4648.pad_ok_of PERMISSIVE); done.
  - intros x. apply Rfc4648.decode_sextets; [done| |constructor].
    simpl. by rewrite orb_true_r.
  - intros e x. apply Forall_app. split.
    + apply Forall_fmap. eapply Forall_impl; [apply Rfc4648.sextets_range|].
      intros i Hi. by apply Rfc4648.char_alphabet.
    + case_match; [|constructor]. eapply Forall_impl; [apply Rfc4648.pad_of_eq|].
      by intros b ->.
Qed.

Example encode_man : b64_encode STANDARD "Man"%bs = "TWFu"%bs.
Proof. by vm_compute. Qed.
Example encode_ma : b64_encode STANDARD "Ma"%bs = "TWE="%bs.
Proof. by vm_compute. Qed.
