(* ===== verification/Pddb.v ===== *)
(** The PDDB key-value service and the read and write sequences built on it.

    PDDB is a Xous service outside this repository.  [Pddb] is the part of its
    API the client calls, over an abstract state [P]; [PddbLaws] is the
    documented behaviour on a mounted, healthy device: keys live in
    dictionaries, a fresh handle reads from offset 0, and a write is
    {e positional}: it overwrites the head of the old value and does not
    truncate (see the comment on [Account::set_new] in account.rs).  [flash]
    is a finite map and discharges the laws. *)

From S2P Require Import Prelude RustStd.

Class Pddb (P : Type) := {
  (** [pddb.get(dict, key, None, true, create, None, None)] *)
  pddb_get : bytes → bytes → bool → ST P io_error ();
  (** [handle.read_to_end(&mut buf)] and [handle.read(&mut [0; n])] *)
  pddb_read_to_end : bytes → bytes → ST P io_error bytes;
  pddb_read : nat → bytes → bytes → ST P io_error bytes;
  (** [handle.write(data)] and [handle.write_all(data)] on a fresh handle *)
  pddb_write : bytes → bytes → bytes → ST P io_error nat;
  pddb_write_all : bytes → bytes → bytes → ST P io_error ();
  pddb_delete_key : bytes → bytes → ST P io_error ();
  pddb_delete_dict : bytes → ST P io_error ();
  pddb_list_keys : bytes → ST P io_error (list bytes);
  pddb_sync : ST P io_error ();
}.

(** What a write of [data] at offset 0 leaves of a value. *)
Definition overlay (data old : bytes) : bytes := data ++ drop (length data) old.

Definition is_err {A} (k : ErrorKind) (r : result io_error A) : Prop :=
  ∃ e, r = Err e ∧ kind e = k.

Class PddbLaws (P : Type) `{Pddb P} := {
  contents : P → gmap (bytes * bytes) bytes;
  get_law d k c p : ∃ r p', pddb_get d k c p = (r, p') ∧
    match contents p !! (d, k), c with
    | Some _, _ => r = Ok tt ∧ contents p' = contents p
    | None, true => r = Ok tt ∧ contents p' = <[(d, k) := []]> (contents p)
    | None, false => is_err NotFound r ∧ contents p' = contents p
    end;
  read_to_end_law d k p v : contents p !! (d, k) = Some v →
    ∃ p', pddb_read_to_end d k p = (Ok v, p') ∧ contents p' = contents p;
  read_law n d k p v : contents p !! (d, k) = Some v →
    ∃ p', pddb_read n d k p = (Ok (take n v), p') ∧ contents p' = contents p;
  write_law d k data p v : contents p !! (d, k) = Some v →
    ∃ p', pddb_write d k data p = (Ok (length data), p') ∧
      contents p' = <[(d, k) := overlay data v]> (contents p);
  write_all_law d k data p v : contents p !! (d, k) = Some v →
    ∃ p', pddb_write_all d k data p = (Ok tt, p') ∧
      contents p' = <[(d, k) := overlay data v]> (contents p);
  delete_key_law d k p : ∃ r p', pddb_delete_key d k p = (r, p') ∧
    contents p' = delete (d, k) (contents p) ∧
    match contents p !! (d, k) with Some _ => r = Ok tt | None => is_err NotFound r end;
  delete_dict_law d p : ∃ r p', pddb_delete_dict d p = (r, p') ∧
    contents p' = filter (λ kv, kv.1.1 ≠ d) (contents p) ∧
    ((∃ k v, contents p !! (d, k) = Some v) → r = Ok tt);
  list_keys_law d p : ∃ r p', pddb_list_keys d p = (r, p') ∧
    contents p' = contents p ∧
    match r with
    | Ok ks => NoDup ks ∧ ∀ k, k ∈ ks ↔ is_Some (contents p !! (d, k))
    | Err _ => ∀ k, contents p !! (d, k) = None
    end;
  sync_law p : ∃ p', pddb_sync p = (Ok tt, p') ∧ contents p' = contents p;
}.

Section helpers.
Context {P : Type} `{Pddb P}.

(** [c.ok();]: run for effect, drop the result. *)
Definition ignore {E F A} (c : ST P F A) : ST P E () :=
  λ p, (Ok tt, (c p).2).

(** [pddb_read_binary]: open without creating, read to the end. *)
Definition pddb_read_binary (dict key : bytes) : ST P io_error bytes :=
  pddb_get dict key false;;
  pddb_read_to_end dict key.

(** [pddb_write_binary]: delete, re-create, write, sync. *)
Definition pddb_write_binary (dict key data : bytes) : ST P io_error () :=
  ignore (pddb_delete_key dict key);;
  pddb_get dict key true;;
  pddb_write_all dict key data;;
  ignore pddb_sync.

(** The same sequence with the caller's [map_err] on the open and the write. *)
Definition pddb_overwrite {E} (on_get on_write : io_error → E)
    (dict key data : bytes) : ST P E () :=
  ignore (pddb_delete_key dict key);;
  with_err on_get (pddb_get dict key true);;
  with_err on_write (pddb_write_all dict key data);;
  ignore pddb_sync.

(** [pddb_get_string]: absent, unreadable and non-UTF-8 are all [None]. *)
Definition pddb_get_string {E} (dict key : bytes) : ST P E (option bytes) := λ p,
  match pddb_get dict key false p with
  | (Ok _, p) => match pddb_read_to_end dict key p with
                 | (Ok buf, p) => (Ok (from_utf8 buf), p)
                 | (Err _, p) => (Ok None, p)
                 end
  | (Err _, p) => (Ok None, p)
  end.

End helpers.

Section laws.
Context {P : Type} `{PddbLaws P}.
Implicit Types p : P.

(** [c] started in [p] returns [r] and leaves the key-value contents [m]. *)
Definition runs {E A} (c : ST P E A) p (r : result E A) (m : gmap (bytes * bytes) bytes) :
    Prop := ∃ p', c p = (r, p') ∧ contents p' = m.

Lemma runs_ret {E A} (a : A) p m :
  contents p = m → runs (mret (M := ST P E) a) p (Ok a) m.
Proof. intros <-. by exists p. Qed.
Lemma runs_lift {E A} (r : result E A) p m : contents p = m → runs (lift r) p r m.
Proof. intros <-. by exists p. Qed.
Lemma runs_throw {E A} (e : E) p m : contents p = m → runs (A := A) (throw e) p (Err e) m.
Proof. intros <-. by exists p. Qed.
Lemma runs_bind {E A B} (c : ST P E A) (f : A → ST P E B) p a m r m' :
  runs c p (Ok a) m → (∀ p1, contents p1 = m → runs (f a) p1 r m') →
  runs (c ≫= f) p r m'.
Proof.
  intros (p1 & E1 & Hm) Hf. destruct (Hf p1 Hm) as (p2 & E2 & Hm2).
  exists p2. split; [|done]. unfold mbind, ST_bind. by rewrite E1.
Qed.
Lemma runs_bind_err {E A B} (c : ST P E A) (f : A → ST P E B) p e m :
  runs c p (Err e) m → runs (c ≫= f) p (Err e) m.
Proof.
  intros (p1 & E1 & Hm). exists p1. split; [|done]. unfold mbind, ST_bind. by rewrite E1.
Qed.
Lemma runs_try {E F A} (c : ST P F A) p r m : runs c p r m → runs (E := E) (try c) p (Ok r) m.
Proof. intros (p1 & E1 & Hm). exists p1. unfold try. by rewrite E1. Qed.
Lemma runs_with_err {E F A} (f : F → E) (c : ST P F A) p r m :
  runs c p r m → runs (with_err f c) p (map_err f r) m.
Proof. intros (p1 & E1 & Hm). exists p1. unfold with_err. by rewrite E1. Qed.

Lemma read_binary_spec d k p :
  ∃ r p', pddb_read_binary d k p = (r, p') ∧ contents p' = contents p ∧
    match contents p !! (d, k) with Some v => r = Ok v | None => is_err NotFound r end.
Proof.
  unfold pddb_read_binary, mbind, ST_bind.
  destruct (get_law d k false p) as (r & p1 & -> & Hg).
  destruct (contents p !! (d, k)) as [v|] eqn:E.
  - destruct Hg as [-> Hc]. rewrite <- Hc in E.
    destruct (read_to_end_law d k p1 v E) as (p2 & -> & Hc2).
    eexists _, _. split; [done|]. split; [congruence|done].
  - destruct Hg as [(e & -> & He) Hc]. eexists _, _. split; [done|]. split; [done|].
    by exists e.
Qed.

Lemma overlay_nil data : overlay data [] = data.
Proof. unfold overlay. by rewrite drop_nil, app_nil_r. Qed.

Lemma get_create_spec d k p :
  ∃ p', pddb_get d k true p = (Ok tt, p') ∧
    contents p' = match contents p !! (d, k) with
                  | Some _ => contents p
                  | None => <[(d, k) := []]> (contents p)
                  end.
Proof.
  destruct (get_law d k true p) as (r & p1 & -> & Hg). exists p1.
  destruct (contents p !! (d, k)); by destruct Hg as [-> ->].
Qed.

Lemma overwrite_spec {E} (f g : io_error → E) d k data p :
  ∃ p', pddb_overwrite f g d k data p = (Ok tt, p') ∧
    contents p' = <[(d, k) := data]> (contents p).
Proof.
  unfold pddb_overwrite, ignore, with_err, mbind, ST_bind.
  destruct (delete_key_law d k p) as (r & p1 & -> & Hc1 & _). simpl.
  destruct (get_create_spec d k p1) as (p2 & -> & Hc2).
  rewrite Hc1, lookup_delete_eq in Hc2. simpl.
  destruct (write_all_law d k data p2 []) as (p3 & -> & Hc3).
  { by rewrite Hc2, lookup_insert_eq. }
  destruct (sync_law p3) as (p4 & -> & Hc4). exists p4. split; [done|].
  rewrite Hc4, Hc3, Hc2, overlay_nil, insert_insert_eq. apply insert_delete_eq.
Qed.

Lemma write_binary_overwrite d k data p :
  pddb_write_binary d k data p = pddb_overwrite id id d k data p.
Proof.
  unfold pddb_write_binary, pddb_overwrite, ignore, with_err, mbind, ST_bind.
  destruct (pddb_get d k true _) as [[[]|e] p1]; [|done]. simpl.
  by destruct (pddb_write_all d k data p1) as [[[]|e] p2].
Qed.

Lemma write_binary_spec d k data p :
  ∃ p', pddb_write_binary d k data p = (Ok tt, p') ∧
    contents p' = <[(d, k) := data]> (contents p).
Proof. rewrite write_binary_overwrite. apply overwrite_spec. Qed.

Lemma get_string_spec {E} d k p :
  ∃ p', pddb_get_string (E := E) d k p = (Ok (contents p !! (d, k) ≫= from_utf8), p') ∧
    contents p' = contents p.
Proof.
  unfold pddb_get_string. destruct (get_law d k false p) as (r & p1 & -> & Hg).
  destruct (contents p !! (d, k)) as [v|] eqn:E0.
  - destruct Hg as [-> Hc]. rewrite <- Hc in E0.
    destruct (read_to_end_law d k p1 v E0) as (p2 & -> & Hc2).
    exists p2. split; [done|congruence].
  - destruct Hg as [(e & -> & _) Hc]. by exists p1.
Qed.
End laws.

(** * A device in memory *)

Abbreviation flash := (gmap (bytes * bytes) bytes).

Definition flash_not_found {A} : result io_error A := Err (IoError NotFound "key not found"%bs).

#[global] Instance flash_pddb : Pddb flash := {|
  pddb_get d k c p :=
    match p !! (d, k) with
    | Some _ => (Ok tt, p)
    | None => if c then (Ok tt, <[(d, k) := []]> p) else (flash_not_found, p)
    end;
  pddb_read_to_end d k p :=
    (match p !! (d, k) with Some v => Ok v | None => flash_not_found end, p);
  pddb_read n d k p :=
    (match p !! (d, k) with Some v => Ok (take n v) | None => flash_not_found end, p);
  pddb_write d k data p :=
    match p !! (d, k) with
    | Some v => (Ok (length data), <[(d, k) := overlay data v]> p)
    | None => (flash_not_found, p)
    end;
  pddb_write_all d k data p :=
    match p !! (d, k) with
    | Some v => (Ok tt, <[(d, k) := overlay data v]> p)
    | None => (flash_not_found, p)
    end;
  pddb_delete_key d k p :=
    (match p !! (d, k) with Some _ => Ok tt | None => flash_not_found end, delete (d, k) p);
  pddb_delete_dict d p := (Ok tt, filter (λ kv, kv.1.1 ≠ d) p);
  pddb_list_keys d p :=
    (Ok (snd <$> filter (λ dk, dk.1 = d) (fst <$> map_to_list p)), p);
  pddb_sync p := (Ok tt, p);
|}.

#[global] Instance flash_pddb_laws : PddbLaws flash.
Proof.
  refine {| contents := λ p, p |}; simpl.
  - intros d k c p. eexists _, _. split; [apply surjective_pairing|].
    destruct (p !! (d, k)); [done|]. destruct c; [done|]. split; [|done]. by eexists.
  - intros d k p v E. rewrite E. eauto.
  - intros n d k p v E. rewrite E. eauto.
  - intros d k data p v E. rewrite E. eauto.
  - intros d k data p v E. rewrite E. eauto.
  - intros d k p. eexists _, _. split; [done|]. split; [done|].
    destruct (p !! (d, k)); [done|]. by eexists.
  - intros d p. eexists _, _. done.
  - intros d p. eexists _, _. split; [done|]. split; [done|].
    pose proof (NoDup_fst_map_to_list p) as Hnd. split.
    + eapply (NoDup_fmap_2_strong snd); [|by apply NoDup_filter].
      intros [d1 k1] [d2 k2] H1 H2 ?. rewrite list_elem_of_filter in H1, H2. naive_solver.
    + intros k. rewrite list_elem_of_fmap. split.
      * intros ([d' k'] & -> & [Hd Hin]%list_elem_of_filter). simpl in Hd. subst d'.
        apply list_elem_of_fmap in Hin as ([dk v] & E & Hin). simpl in *. subst dk.
        apply elem_of_map_to_list in Hin. eauto.
      * intros [v Hv]. exists (d, k). split; [done|]. apply list_elem_of_filter.
        split; [done|]. apply list_elem_of_fmap. exists ((d, k), v). split; [done|].
        by apply elem_of_map_to_list.
  - intros p. eexists. done.
Defined.
