(* ===== verification/Signal.v ===== *)
(** The libsignal interface.

    libsignal-protocol is a dependency.  [Libsignal] names the data types and
    pure functions the client uses of it, the store traits it declares are
    classes over the state [W] a store lives in ([SessionStore],
    [IdentityKeyStore], ...), and [Protocol] is its stateful API, polymorphic in
    the stores exactly as the Rust functions are generic in them.
    [ProtocolLaws] is what the client relies on: the API reaches the world only
    through the store methods it is handed, at the address it is called with
    (so every relation these methods preserve is preserved), and a
    [process_prekey_bundle] that succeeds has stored a session.
    [Toy] is a small concrete library that discharges the laws. *)

From S2P Require Import Prelude RustStd.

(** [ProtocolAddress]: a service id and a [DeviceId]. *)
Record ProtocolAddress := Addr { addr_name : bytes; addr_device : Z }.

#[global] Instance ProtocolAddress_eq_dec : EqDecision ProtocolAddress.
Proof. solve_decision. Defined.

Inductive SignalProtocolError :=
  | InvalidState (func msg : bytes)
  | InvalidPreKeyId
  | InvalidSignedPreKeyId
  | InvalidKyberPreKeyId
  | SessionNotFound (addr : ProtocolAddress)
  | UntrustedIdentity (addr : ProtocolAddress)
  | LibError (text : bytes).

Inductive Direction := Sending | Receiving.
Inductive IdentityChange := NewOrUnchanged | ReplacedExisting.

(** [enum CiphertextMessage]: the variant and its serialized form. *)
Inductive CiphertextMessage :=
  | SignalMessage (serialized : bytes)
  | PreKeySignalMessage (serialized : bytes)
  | SenderKeyMessage (serialized : bytes)
  | PlaintextContent (serialized : bytes).

Inductive CiphertextMessageType := Whisper | PreKey | SenderKey | Plaintext.

(** [T::serialize] and [T::deserialize] of a record or key type. *)
Class Codec (T : Type) := {
  serialize : T → result SignalProtocolError bytes;
  deserialize : bytes → result SignalProtocolError T;
}.
Class CodecLaws (T : Type) `{Codec T} :=
  deserialize_serialize (t : T) b : serialize t = Ok b → deserialize b = Ok t.

Class Libsignal := {
  IdentityKey : Type;
  IdentityKey_eq_dec :: EqDecision IdentityKey;
  identity_serialize : IdentityKey → bytes;
  identity_decode : bytes → result SignalProtocolError IdentityKey;
  PublicKey : Type;
  public_serialize : PublicKey → bytes;
  public_deserialize : bytes → result SignalProtocolError PublicKey;
  PrivateKey : Type;
  private_deserialize : bytes → result SignalProtocolError PrivateKey;
  kem_PublicKey : Type;
  kem_deserialize : bytes → result SignalProtocolError kem_PublicKey;
  PreKeyRecord : Type;
  PreKeyRecord_codec :: Codec PreKeyRecord;
  SignedPreKeyRecord : Type;
  SignedPreKeyRecord_codec :: Codec SignedPreKeyRecord;
  KyberPreKeyRecord : Type;
  KyberPreKeyRecord_codec :: Codec KyberPreKeyRecord;
  SessionRecord : Type;
  SessionRecord_codec :: Codec SessionRecord;
  remote_registration_id : SessionRecord → result SignalProtocolError Z;
  PreKeyBundle : Type;
  PreKeyBundle_new : Z → Z → option (Z * PublicKey) → Z → PublicKey → bytes →
    Z → kem_PublicKey → bytes → IdentityKey → result SignalProtocolError PreKeyBundle;
  (** [DeviceId::new] on a [u8], and [Debug] of its error *)
  DeviceId_new : Z → result bytes Z;
  (** [{e:?}] and [{e}] *)
  debug_err : SignalProtocolError → bytes;
  show_err : SignalProtocolError → bytes;
}.

Class LibsignalLaws `{Libsignal} := {
  identity_decode_serialize k : identity_decode (identity_serialize k) = Ok k;
  public_deserialize_serialize k : public_deserialize (public_serialize k) = Ok k;
  PreKeyRecord_laws :: CodecLaws PreKeyRecord;
  SignedPreKeyRecord_laws :: CodecLaws SignedPreKeyRecord;
  KyberPreKeyRecord_laws :: CodecLaws KyberPreKeyRecord;
  SessionRecord_laws :: CodecLaws SessionRecord;
  DeviceId_new_range d d' : DeviceId_new d = Ok d' ↔ d' = d ∧ (1 ≤ d ≤ 127)%Z;
  (** a [u32] *)
  remote_registration_range r n : remote_registration_id r = Ok n → in_u32 n;
}.

(** * The store traits *)
Section traits.
Context `{Libsignal}.

Class SessionStore (W : Type) := {
  load_session : ProtocolAddress → ST W SignalProtocolError (option SessionRecord);
  store_session : ProtocolAddress → SessionRecord → ST W SignalProtocolError ();
}.
Class IdentityKeyStore (W : Type) := {
  get_identity_key_pair : ST W SignalProtocolError (IdentityKey * PrivateKey);
  get_local_registration_id : ST W SignalProtocolError Z;
  save_identity : ProtocolAddress → IdentityKey → ST W SignalProtocolError IdentityChange;
  is_trusted_identity :
    ProtocolAddress → IdentityKey → Direction → ST W SignalProtocolError bool;
  get_identity : ProtocolAddress → ST W SignalProtocolError (option IdentityKey);
}.
Class PreKeyStore (W : Type) := {
  get_pre_key : Z → ST W SignalProtocolError PreKeyRecord;
  save_pre_key : Z → PreKeyRecord → ST W SignalProtocolError ();
  remove_pre_key : Z → ST W SignalProtocolError ();
}.
Class SignedPreKeyStore (W : Type) := {
  get_signed_pre_key : Z → ST W SignalProtocolError SignedPreKeyRecord;
  save_signed_pre_key : Z → SignedPreKeyRecord → ST W SignalProtocolError ();
}.
Class KyberPreKeyStore (W : Type) := {
  get_kyber_pre_key : Z → ST W SignalProtocolError KyberPreKeyRecord;
  save_kyber_pre_key : Z → KyberPreKeyRecord → ST W SignalProtocolError ();
  mark_kyber_pre_key_used : Z → Z → PublicKey → ST W SignalProtocolError ();
}.

(** [R] relates the state before each call of the methods to the state after. *)
Definition preserved {W E A} (R : W → W → Prop) (c : ST W E A) : Prop :=
  ∀ w, R w (c w).2.

Definition session_calls {W} `{!SessionStore W} (R : W → W → Prop) (a : ProtocolAddress) :=
  preserved R (load_session a) ∧ ∀ r, preserved R (store_session a r).
Definition identity_calls {W} `{!IdentityKeyStore W} (R : W → W → Prop)
    (a : ProtocolAddress) :=
  preserved R get_identity_key_pair ∧ preserved R get_local_registration_id ∧
  (∀ k, preserved R (save_identity a k)) ∧
  (∀ k d, preserved R (is_trusted_identity a k d)) ∧ preserved R (get_identity a).
Definition prekey_calls {W} `{!PreKeyStore W, !SignedPreKeyStore W, !KyberPreKeyStore W}
    (R : W → W → Prop) :=
  (∀ i, preserved R (get_pre_key i)) ∧ (∀ i, preserved R (remove_pre_key i)) ∧
  (∀ i, preserved R (get_signed_pre_key i)) ∧ (∀ i, preserved R (get_kyber_pre_key i)) ∧
  (∀ i j k, preserved R (mark_kyber_pre_key_used i j k)).
End traits.

(** * The stateful API

    [rng] is the entropy the call draws, [now] a [SystemTime]. *)
Class Protocol `{Libsignal} := {
  message_encrypt {W} `{!SessionStore W, !IdentityKeyStore W} :
    bytes → ProtocolAddress → ProtocolAddress → Z → bytes →
    ST W SignalProtocolError CiphertextMessage;
  process_prekey_bundle {W} `{!SessionStore W, !IdentityKeyStore W} :
    ProtocolAddress → PreKeyBundle → Z → bytes → ST W SignalProtocolError ();
  message_decrypt_prekey {W} `{!SessionStore W, !IdentityKeyStore W, !PreKeyStore W,
      !SignedPreKeyStore W, !KyberPreKeyStore W} :
    bytes → ProtocolAddress → ProtocolAddress → bytes → ST W SignalProtocolError bytes;
  message_decrypt_signal {W} `{!SessionStore W, !IdentityKeyStore W} :
    bytes → ProtocolAddress → bytes → ST W SignalProtocolError bytes;
  (** [PreKeySignalMessage::try_from] and [SignalMessage::try_from]: the parsed
      message is kept as its serialized form *)
  prekey_message_try_from : bytes → result SignalProtocolError bytes;
  signal_message_try_from : bytes → result SignalProtocolError bytes;
  (** sealed sender *)
  SenderCertificate : Type;
  USMC : Type;
  sealed_sender_decrypt_to_usmc {W} `{!IdentityKeyStore W} :
    bytes → ST W SignalProtocolError USMC;
  usmc_sender : USMC → result SignalProtocolError SenderCertificate;
  usmc_msg_type : USMC → result SignalProtocolError CiphertextMessageType;
  usmc_contents : USMC → result SignalProtocolError bytes;
  validate_with_trust_roots :
    SenderCertificate → list PublicKey → Z → result SignalProtocolError bool;
  sender_uuid : SenderCertificate → result SignalProtocolError bytes;
  sender_device_id : SenderCertificate → result SignalProtocolError Z;
}.

Class ProtocolLaws `{Protocol} := {
  encrypt_frame {W} `{!SessionStore W, !IdentityKeyStore W} (R : W → W → Prop) m a l t g :
    PreOrder R → session_calls R a → identity_calls R a →
    preserved R (message_encrypt m a l t g);
  process_frame {W} `{!SessionStore W, !IdentityKeyStore W} (R : W → W → Prop) a b t g :
    PreOrder R → session_calls R a → identity_calls R a →
    preserved R (process_prekey_bundle a b t g);
  process_stores {W} `{!SessionStore W, !IdentityKeyStore W} (Q : W → Prop) a b t g w w' :
    process_prekey_bundle a b t g w = (Ok tt, w') →
    (∀ r w w', store_session a r w = (Ok tt, w') → Q w') →
    identity_calls (λ w w', Q w → Q w') a → Q w';
  decrypt_prekey_frame {W} `{!SessionStore W, !IdentityKeyStore W, !PreKeyStore W,
      !SignedPreKeyStore W, !KyberPreKeyStore W} (R : W → W → Prop) m a l g :
    PreOrder R → session_calls R a → identity_calls R a → prekey_calls R →
    preserved R (message_decrypt_prekey m a l g);
  decrypt_signal_frame {W} `{!SessionStore W, !IdentityKeyStore W} (R : W → W → Prop) m a g :
    PreOrder R → session_calls R a → identity_calls R a →
    preserved R (message_decrypt_signal m a g);
  sealed_sender_frame {W} `{!IdentityKeyStore W} (R : W → W → Prop) c :
    PreOrder R → preserved R get_identity_key_pair →
    preserved R (sealed_sender_decrypt_to_usmc c);
}.

Section frames.
Context {W : Type} (R : W → W → Prop) {HR : PreOrder R}.

Lemma preserved_ret {E A} (a : A) : preserved R (mret (M := ST W E) a).
Proof. intros w. reflexivity. Qed.
Lemma preserved_throw {E A} (e : E) : preserved R (throw (A := A) e).
Proof. intros w. reflexivity. Qed.
Lemma preserved_lift {E A} (r : result E A) : preserved R (lift r).
Proof. intros w. reflexivity. Qed.
Lemma preserved_bind {E A B} (c : ST W E A) (f : A → ST W E B) :
  preserved R c → (∀ a, preserved R (f a)) → preserved R (c ≫= f).
Proof.
  intros Hc Hf w. specialize (Hc w). unfold mbind, ST_bind.
  destruct (c w) as [[a|e] w']; simpl in *; [|done]. etrans; [done|apply Hf].
Qed.
Lemma preserved_with_err {E F A} (f : F → E) (c : ST W F A) :
  preserved R c → preserved R (with_err f c).
Proof. intros Hc w. specialize (Hc w). unfold with_err. by destruct (c w). Qed.
Lemma preserved_try {E F A} (c : ST W F A) :
  preserved R c → preserved R (try (E := E) c).
Proof. intros Hc w. specialize (Hc w). unfold try. by destruct (c w). Qed.
Lemma preserved_gets {E A} (f : W → A) : preserved R (gets (E := E) f).
Proof. intros w. reflexivity. Qed.
Lemma preserved_modify {E} (f : W → W) : (∀ w, R w (f w)) → preserved R (modify (E := E) f).
Proof. intros Hf w. apply Hf. Qed.
Lemma preserved_for_each {E A} (body : A → ST W E ()) xs :
  (∀ x, preserved R (body x)) → preserved R (for_each body xs).
Proof.
  intros Hb. induction xs; simpl; [apply preserved_ret|].
  apply preserved_bind; auto.
Qed.
Lemma preserved_collect {E A B} (body : A → ST W E B) xs :
  (∀ x, preserved R (body x)) → preserved R (collect body xs).
Proof.
  intros Hb. induction xs; simpl; [apply preserved_ret|].
  apply preserved_bind; [auto|]. intros. apply preserved_bind; [auto|].
  intros. apply preserved_ret.
Qed.
End frames.

Create HintDb frame discriminated.
#[export] Hint Resolve preserved_ret preserved_throw preserved_lift preserved_bind
  preserved_with_err preserved_try preserved_gets preserved_for_each preserved_collect : frame.

(** * A concrete library

    Keys and records are byte strings behind a tag byte, a session record
    starts with the peer's registration id, and a message travels in clear.
    It exercises the store methods in the order libsignal does. *)
Module Toy.
Definition tag_enc (t : byte) (b : bytes) : bytes := t :: b.
Definition tag_dec (t : byte) (b : bytes) : result SignalProtocolError bytes :=
  match b with
  | t' :: r => if bool_decide (t' = t) then Ok r else Err (LibError "bad key type"%bs)
  | [] => Err (LibError "no key type identifier"%bs)
  end.
Lemma tag_dec_enc t b : tag_dec t (tag_enc t b) = Ok b.
Proof. simpl. by rewrite bool_decide_true. Qed.

Definition codec (t : byte) : Codec bytes :=
  {| serialize r := Ok (tag_enc t r); deserialize := tag_dec t |}.
Lemma codec_laws t : CodecLaws (H := codec t) bytes.
Proof. intros r b [= <-]. apply tag_dec_enc. Qed.

#[global] Instance libsignal : Libsignal := {|
  IdentityKey := bytes;
  identity_serialize := tag_enc Byte.x05;
  identity_decode := tag_dec Byte.x05;
  PublicKey := bytes;
  public_serialize := tag_enc Byte.x05;
  public_deserialize := tag_dec Byte.x05;
  PrivateKey := bytes;
  private_deserialize := tag_dec Byte.x05;
  kem_PublicKey := bytes;
  kem_deserialize := tag_dec Byte.x08;
  PreKeyRecord := bytes; PreKeyRecord_codec := codec Byte.x0a;
  SignedPreKeyRecord := bytes; SignedPreKeyRecord_codec := codec Byte.x0a;
  KyberPreKeyRecord := bytes; KyberPreKeyRecord_codec := codec Byte.x0a;
  SessionRecord := bytes; SessionRecord_codec := codec Byte.x0a;
  remote_registration_id r :=
    match r with b :: _ => Ok (byteZ b) | [] => Err (LibError "no session state"%bs) end;
  PreKeyBundle := Z * bytes;
  PreKeyBundle_new reg _ _ _ _ _ _ _ _ ik := Ok (reg, ik);
  DeviceId_new d :=
    if (1 <=? d)%Z && (d <=? 127)%Z then Ok d else Err ("InvalidDeviceId"%bs : bytes);
  debug_err _ := "error"%bs;
  show_err _ := "error"%bs;
|}.

#[global] Instance libsignal_laws : LibsignalLaws.
Proof.
  constructor; try apply codec_laws; try (intros; apply tag_dec_enc).
  - intros d d'. simpl. destruct (Z.leb_spec 1 d), (Z.leb_spec d 127); simpl; naive_solver lia.
  - intros [|b r] n; simpl; [done|]. intros [= <-]. unfold in_u32, u32_max.
    pose proof (byteZ_range b). lia.
Qed.

Section api.
Context {W : Type} `{!SessionStore W, !IdentityKeyStore W}.

Definition encrypt (m : bytes) (a l : ProtocolAddress) (t : Z) (g : bytes) :
    ST W SignalProtocolError CiphertextMessage :=
  s ← load_session a;
  match s with
  | None => throw (SessionNotFound a)
  | Some r => store_session a r;; mret (SignalMessage m)
  end.

Definition process (a : ProtocolAddress) (b : PreKeyBundle) (t : Z) (g : bytes) :
    ST W SignalProtocolError () :=
  trusted ← is_trusted_identity a b.2 Sending;
  if (trusted : bool) then
    save_identity a b.2;;
    store_session a [Zbyte b.1]
  else throw (UntrustedIdentity a).

Definition decrypt_signal (m : bytes) (a : ProtocolAddress) (g : bytes) :
    ST W SignalProtocolError bytes :=
  s ← load_session a;
  match s with
  | None => throw (SessionNotFound a)
  | Some r => store_session a r;; mret m
  end.

Context `{!PreKeyStore W, !SignedPreKeyStore W, !KyberPreKeyStore W}.
Definition decrypt_prekey (m : bytes) (a l : ProtocolAddress) (g : bytes) :
    ST W SignalProtocolError bytes :=
  get_identity_key_pair;;
  match m with
  | i :: body =>
      remove_pre_key (byteZ i);;
      store_session a [i];; mret body
  | [] => throw (LibError "empty"%bs)
  end.
End api.

(** Sealed sender: a flag (certificate valid), a type, the contents. *)
Definition msg_type (b : byte) : CiphertextMessageType :=
  if bool_decide (b = Byte.x03) then PreKey
  else if bool_decide (b = Byte.x02) then Whisper else SenderKey.

#[global] Instance protocol : Protocol := {|
  message_encrypt W _ _ := encrypt;
  process_prekey_bundle W _ _ := process;
  message_decrypt_prekey W _ _ _ _ _ := decrypt_prekey;
  message_decrypt_signal W _ _ := decrypt_signal;
  prekey_message_try_from b := Ok b;
  signal_message_try_from b := Ok b;
  SenderCertificate := bool;
  USMC := bool * CiphertextMessageType * bytes;
  sealed_sender_decrypt_to_usmc W _ c :=
    get_identity_key_pair;;
    match c with
    | f :: t :: r => mret (bool_decide (f = Byte.x01), msg_type t, r)
    | _ => throw (LibError "short"%bs)
    end;
  usmc_sender u := Ok u.1.1;
  usmc_msg_type u := Ok u.1.2;
  usmc_contents u := Ok u.2;
  validate_with_trust_roots c roots _ := Ok (c && bool_decide (roots ≠ []));
  sender_uuid _ := Ok ("alice"%bs : bytes);
  sender_device_id _ := Ok 1%Z;
|}.

#[global] Instance protocol_laws : ProtocolLaws.
Proof.
  constructor; simpl.
  - intros W S I R m a l t g HR [Hl Hs] _. unfold encrypt.
    apply preserved_bind; [done|done|]. intros [r|]; auto with frame.
  - intros W S I R a b t g HR [Hl Hs] (? & ? & Hsave & Ht & ?). unfold process.
    apply preserved_bind; [done|done|]. intros []; auto with frame.
  - intros W S I Q a b t g w w' Hrun Hst _. unfold process, mbind, ST_bind in Hrun.
    repeat case_match; naive_solver.
  - intros W S I P SP K R m a l g HR [Hl Hs] (Hp & _) (? & Hr & _). unfold decrypt_prekey.
    apply preserved_bind; [done|done|]. intros _. destruct m; auto 10 with frame.
  - intros W S I R m a g HR [Hl Hs] _. unfold decrypt_signal.
    apply preserved_bind; [done|done|]. intros [r|]; auto with frame.
  - intros W I R c HR Hp. apply preserved_bind; [done|done|].
    intros _. destruct c as [|? [|? ?]]; auto with frame.
Qed.
End Toy.
