(* ===== verification/Stores.v ===== *)
(** The PDDB-backed libsignal stores (manager/stores.rs).

    Each store is the record of dictionaries it was opened with; each trait
    method is a definition over the PDDB state.  The theorems give the
    trust-on-first-use behaviour of the identity store, the save/get/remove laws
    of the pre-key stores, the one-use rule of the last-resort Kyber key, and
    that [device_ids_for] is exactly the set of stored sessions of a peer. *)

From S2P Require Import Prelude RustStd Base64 Pddb Signal.

Definition ACCOUNT_DICT : bytes := "sigchat.account"%bs.
Definition IDENTITY_DICT : bytes := "sigchat.identity"%bs.
Definition PREKEY_DICT : bytes := "sigchat.prekey"%bs.
Definition SIGNED_PREKEY_DICT : bytes := "sigchat.signed_prekey"%bs.
Definition KYBER_PREKEY_DICT : bytes := "sigchat.kyber_prekey"%bs.
Definition SESSION_DICT : bytes := "sigchat.session"%bs.

(** [format!("{}.{}", address.name(), address.device_id())] *)
Definition address_key (a : ProtocolAddress) : bytes :=
  addr_name a ++ "."%bs ++ show_u (addr_device a).

Definition io_err_to_signal (context : bytes) (e : io_error) : SignalProtocolError :=
  InvalidState "pddb"%bs (context ++ ": "%bs ++ message e).

Record PddbIdentityStore := { account_dict : bytes; identity_dict : bytes }.
Record PddbPreKeyStore := { prekey_dict : bytes }.
Record PddbSignedPreKeyStore := { signed_dict : bytes }.
Record PddbKyberPreKeyStore := { kyber_dict : bytes }.
Record PddbSessionStore := { session_dict : bytes }.

Section stores.
Context `{Libsignal, Base64} {P : Type} `{Pddb P}.
Abbreviation SignalResult := (ST P SignalProtocolError).

(** One [read] into a 256-byte buffer. *)
Definition read_account_string {E} (dict key : bytes) : ST P E (option bytes) := λ p,
  match pddb_get dict key false p with
  | (Ok _, p) => match pddb_read 256 dict key p with
                 | (Ok buf, p) => (Ok (from_utf8 buf), p)
                 | (Err _, p) => (Ok None, p)
                 end
  | (Err _, p) => (Ok None, p)
  end.

(** [match pddb_read_binary(..)]: the bytes, or [None] when the key is absent. *)
Definition read_record (context dict key : bytes) : SignalResult (option bytes) :=
  r ← try (pddb_read_binary dict key);
  match r with
  | Ok buf => mret (Some buf)
  | Err e => if bool_decide (kind e = NotFound) then mret None
             else throw (io_err_to_signal context e)
  end.

Definition write_record (context dict key data : bytes) : SignalResult () :=
  with_err (io_err_to_signal context) (pddb_write_binary dict key data).

(** ** Identity store *)
Definition Identity_get_identity_key_pair (self : PddbIdentityStore) :
    SignalResult (IdentityKey * PrivateKey) :=
  let not_found := InvalidState "pddb"%bs "aci identity key not found"%bs in
  priv ← read_account_string (account_dict self) "aci.identity.private"%bs;
  priv_b64 ← lift (ok_or not_found priv);
  pub ← read_account_string (account_dict self) "aci.identity.public"%bs;
  pub_b64 ← lift (ok_or not_found pub);
  priv_bytes ← lift (ok_or
    (InvalidState "pddb"%bs ("priv base64: "%bs ++ b64_error URL_SAFE_NO_PAD (trim priv_b64)))
    (b64_decode URL_SAFE_NO_PAD (trim priv_b64)));
  pub_bytes ← lift (ok_or
    (InvalidState "pddb"%bs ("pub base64: "%bs ++ b64_error URL_SAFE_NO_PAD (trim pub_b64)))
    (b64_decode URL_SAFE_NO_PAD (trim pub_b64)));
  private_key ← lift (private_deserialize priv_bytes);
  identity_key ← lift (identity_decode pub_bytes);
  mret (identity_key, private_key).

Definition Identity_get_local_registration_id (self : PddbIdentityStore) : SignalResult Z :=
  s ← read_account_string (account_dict self) "registration_id"%bs;
  lift (ok_or (InvalidState "pddb"%bs "registration_id not found"%bs)
          (s ≫= λ s, parse_u32 (trim s))).

Definition Identity_save_identity (self : PddbIdentityStore) (address : ProtocolAddress)
    (identity : IdentityKey) : SignalResult IdentityChange :=
  let key := address_key address in
  let write := write_record "write failed"%bs (identity_dict self) key
                 (identity_serialize identity) in
  existing ← read_record "read failed"%bs (identity_dict self) key;
  match existing with
  | Some existing_bytes =>
      match identity_decode existing_bytes with
      | Ok existing =>
          if decide (existing = identity) then mret NewOrUnchanged
          else write;; mret ReplacedExisting
      | Err _ => write;; mret ReplacedExisting
      end
  | None => write;; mret NewOrUnchanged
  end.

Definition Identity_is_trusted_identity (self : PddbIdentityStore)
    (address : ProtocolAddress) (identity : IdentityKey) (_direction : Direction) :
    SignalResult bool :=
  existing ← read_record "read failed"%bs (identity_dict self) (address_key address);
  match existing with
  | Some existing_bytes =>
      existing ← lift (identity_decode existing_bytes);
      mret (bool_decide (existing = identity))
  | None => mret true
  end.

Definition Identity_get_identity (self : PddbIdentityStore) (address : ProtocolAddress) :
    SignalResult (option IdentityKey) :=
  existing ← read_record "read failed"%bs (identity_dict self) (address_key address);
  match existing with
  | Some buf => k ← lift (identity_decode buf); mret (Some k)
  | None => mret None
  end.

(** ** Pre-key stores *)
Definition PreKey_get_pre_key (self : PddbPreKeyStore) (id : Z) : SignalResult PreKeyRecord :=
  r ← read_record "read failed"%bs (prekey_dict self) (show_u id);
  match r with Some buf => lift (deserialize buf) | None => throw InvalidPreKeyId end.

Definition PreKey_save_pre_key (self : PddbPreKeyStore) (id : Z) (record : PreKeyRecord) :
    SignalResult () :=
  buf ← lift (map_err
    (λ e, InvalidState "pddb"%bs ("serialize failed: "%bs ++ show_err e)) (serialize record));
  write_record "write failed"%bs (prekey_dict self) (show_u id) buf.

Definition PreKey_remove_pre_key (self : PddbPreKeyStore) (id : Z) : SignalResult () :=
  r ← try (pddb_delete_key (prekey_dict self) (show_u id));
  match r with
  | Ok _ => mret ()
  | Err e => if bool_decide (kind e = NotFound) then mret ()
             else throw (io_err_to_signal "delete failed"%bs e)
  end.

Definition SignedPreKey_get_signed_pre_key (self : PddbSignedPreKeyStore) (id : Z) :
    SignalResult SignedPreKeyRecord :=
  r ← read_record "read failed"%bs (signed_dict self) (show_u id);
  match r with Some buf => lift (deserialize buf) | None => throw InvalidSignedPreKeyId end.

Definition SignedPreKey_save_signed_pre_key (self : PddbSignedPreKeyStore) (id : Z)
    (record : SignedPreKeyRecord) : SignalResult () :=
  buf ← lift (serialize record);
  write_record "write failed"%bs (signed_dict self) (show_u id) buf.

Definition KyberPreKey_get_kyber_pre_key (self : PddbKyberPreKeyStore) (id : Z) :
    SignalResult KyberPreKeyRecord :=
  r ← read_record "read failed"%bs (kyber_dict self) (show_u id);
  match r with Some buf => lift (deserialize buf) | None => throw InvalidKyberPreKeyId end.

Definition KyberPreKey_save_kyber_pre_key (self : PddbKyberPreKeyStore) (id : Z)
    (record : KyberPreKeyRecord) : SignalResult () :=
  buf ← lift (serialize record);
  write_record "write failed"%bs (kyber_dict self) (show_u id) buf.

Definition dedup_key (kyber_id ec_id : Z) (base_key : PublicKey) : bytes :=
  "used:"%bs ++ show_u kyber_id ++ ":"%bs ++ show_u ec_id ++ ":"%bs ++
    b64_encode URL_SAFE_NO_PAD (public_serialize base_key).

Definition KyberPreKey_mark_kyber_pre_key_used (self : PddbKyberPreKeyStore)
    (kyber_id ec_id : Z) (base_key : PublicKey) : SignalResult () :=
  let key := dedup_key kyber_id ec_id base_key in
  r ← read_record "mark used: read failed"%bs (kyber_dict self) key;
  match r with
  | Some _ => throw InvalidKyberPreKeyId
  | None => write_record "mark used: write failed"%bs (kyber_dict self) key [Byte.x01]
  end.

(** ** Session store *)
Definition Session_delete_session {E} (self : PddbSessionStore) (address : ProtocolAddress) :
    ST P E () :=
  ignore (pddb_delete_key (session_dict self) (address_key address)).

Definition parse_device_key (recipient_uuid k : bytes) : option Z :=
  strip_prefix (recipient_uuid ++ "."%bs) k ≫= parse_u32.

Definition Session_device_ids_for {E} (self : PddbSessionStore) (recipient_uuid : bytes) :
    ST P E (list Z) :=
  keys ← try (pddb_list_keys (session_dict self));
  match keys with
  | Err _ => mret []
  | Ok keys => mret (dedup (sort_unstable (omap (parse_device_key recipient_uuid) keys)))
  end.

Definition Session_load_session (self : PddbSessionStore) (address : ProtocolAddress) :
    SignalResult (option SessionRecord) :=
  r ← read_record "read failed"%bs (session_dict self) (address_key address);
  match r with
  | Some buf => s ← lift (deserialize buf); mret (Some s)
  | None => mret None
  end.

Definition Session_store_session (self : PddbSessionStore) (address : ProtocolAddress)
    (record : SessionRecord) : SignalResult () :=
  buf ← lift (serialize record);
  write_record "write failed"%bs (session_dict self) (address_key address) buf.
End stores.

(** * Keys *)

Lemma key_ne (d k k' : bytes) : k ≠ k' → (d, k) ≠ (d, k').
Proof. congruence. Qed.

Lemma show_u_no_dot n : (0 ≤ n)%Z → "."%byte ∉ show_u n.
Proof. intros. by apply digits_no_byte; [apply show_u_digits|]. Qed.

Definition addr_ok (a : ProtocolAddress) : Prop := in_u32 (addr_device a).

Lemma address_key_inj a b :
  addr_ok a → addr_ok b → address_key a = address_key b → a = b.
Proof.
  destruct a as [n d], b as [n' d']. unfold addr_ok, address_key, in_u32, u32_max; simpl.
  intros Hd Hd' E. apply app_sep_inj in E as [-> E]; try (apply show_u_no_dot; lia).
  f_equal. apply show_u_inj; [unfold in_u64, u64_max; lia..|done].
Qed.

Lemma show_u_32_inj n m : in_u32 n → in_u32 m → show_u n = show_u m → n = m.
Proof.
  unfold in_u32, u32_max. intros. apply show_u_inj; [unfold in_u64, u64_max; lia..|done].
Qed.

Lemma parse_device_key_address n d :
  in_u32 d → parse_device_key n (address_key (Addr n d)) = Some d.
Proof.
  intros Hd. unfold parse_device_key.
  assert (strip_prefix (n ++ "."%bs) (address_key (Addr n d)) = Some (show_u d)) as ->.
  { apply strip_prefix_Some. unfold address_key. by rewrite <- app_assoc. }
  by apply parse_u32_show.
Qed.

Lemma parse_u32_no_dot s d : parse_u32 s = Some d → "."%byte ∉ s.
Proof.
  assert (∀ m a t n, parse_digits m a t = Some n → "."%byte ∉ t) as Hdig.
  { intros m a t. revert a. induction t as [|b t IH]; simpl; intros a n E; [set_solver|].
    destruct (is_ascii_digit b) eqn:Hb; [|done]. case_match; [|done].
    apply IH in E. intros [<-|?]%elem_of_cons; done. }
  unfold parse_u32, parse_uint. intros E. destruct s as [|b s]; [done|].
  destruct (bool_decide (b = "+"%byte)) eqn:Hb.
  - apply bool_decide_eq_true in Hb as ->. destruct s; [done|].
    apply Hdig in E. intros [?|?]%elem_of_cons; done.
  - by eapply Hdig.
Qed.

Section spec.
Context `{LibsignalLaws, Base64Laws} {P : Type} `{PddbLaws P}.
Implicit Types p : P.

Lemma read_record_spec ctx d k p :
  runs (read_record ctx d k) p (Ok (contents p !! (d, k))) (contents p).
Proof.
  destruct (read_binary_spec d k p) as (r & p1 & E & Hc & Hr).
  eapply runs_bind; [apply runs_try; by exists p1|]. intros p2 Hp2.
  destruct (contents p !! (d, k)); [subst r; by apply runs_ret|].
  destruct Hr as (e & -> & He). rewrite bool_decide_true by done. by apply runs_ret.
Qed.

Lemma write_record_spec ctx d k v p :
  runs (write_record ctx d k v) p (Ok ()) (<[(d, k) := v]> (contents p)).
Proof.
  destruct (write_binary_spec d k v p) as (p1 & E & Hc).
  apply (runs_with_err _ _ _ (Ok tt)). by exists p1.
Qed.

(** Saving a record: nothing is written when it does not serialize. *)
Lemma save_record_runs {A} `{Codec A} ctx d k (r : A) p :
  runs (buf ← lift (serialize r); write_record ctx d k buf) p ((λ _, ()) <$> serialize r)
    (match serialize r with Ok b => <[(d, k) := b]> (contents p) | Err _ => contents p end).
Proof.
  destruct (serialize r) as [b|e].
  - eapply runs_bind; [by apply runs_lift|]. intros p1 <-. apply write_record_spec.
  - eapply runs_bind_err. by apply runs_lift.
Qed.

(** ** Identity store *)

(** The abstract state of the identity store: the key pinned at an address. *)
Definition pinned (self : PddbIdentityStore) p (a : ProtocolAddress) :
    option (result SignalProtocolError IdentityKey) :=
  identity_decode <$> contents p !! (identity_dict self, address_key a).

Definition trusted (o : option (result SignalProtocolError IdentityKey)) (k : IdentityKey) :
    result SignalProtocolError bool :=
  match o with
  | None => Ok true
  | Some (Ok k0) => Ok (bool_decide (k0 = k))
  | Some (Err e) => Err e
  end.

Lemma is_trusted_spec self a k dir p :
  runs (Identity_is_trusted_identity self a k dir) p (trusted (pinned self p a) k) (contents p).
Proof.
  eapply runs_bind; [apply read_record_spec|]. intros p1 Hp1.
  unfold pinned. destruct (contents p !! _) as [b|]; [|by apply runs_ret]. simpl.
  destruct (identity_decode b) as [k0|e] eqn:E.
  - eapply runs_bind; [by apply runs_lift|]. intros. by apply runs_ret.
  - eapply runs_bind_err. by apply runs_lift.
Qed.

Definition saved (o : option (result SignalProtocolError IdentityKey)) (k : IdentityKey) :
    IdentityChange :=
  match o with
  | None => NewOrUnchanged
  | Some (Ok k0) => if decide (k0 = k) then NewOrUnchanged else ReplacedExisting
  | Some (Err _) => ReplacedExisting
  end.

Lemma save_identity_runs self a k p :
  runs (Identity_save_identity self a k) p (Ok (saved (pinned self p a) k))
    (match pinned self p a with
     | Some (Ok k0) => if decide (k0 = k) then contents p
                       else <[(identity_dict self, address_key a) := identity_serialize k]>
                              (contents p)
     | _ => <[(identity_dict self, address_key a) := identity_serialize k]> (contents p)
     end).
Proof.
  assert (∀ p1 (c : IdentityChange), contents p1 = contents p →
    runs (write_record "write failed"%bs (identity_dict self) (address_key a)
      (identity_serialize k);; mret c) p1 (Ok c)
      (<[(identity_dict self, address_key a) := identity_serialize k]> (contents p))) as Hwr.
  { intros p1 c <-. eapply runs_bind; [apply write_record_spec|]. intros. by apply runs_ret. }
  eapply runs_bind; [apply read_record_spec|]. intros p1 Hp1. unfold pinned.
  destruct (contents p !! _) as [b|]; simpl; [|by apply Hwr].
  destruct (identity_decode b) as [k0|e]; [|by apply Hwr].
  simpl. destruct (decide (k0 = k)); [by apply runs_ret|by apply Hwr].
Qed.

Lemma save_identity_spec self a k p :
  ∃ p', Identity_save_identity self a k p = (Ok (saved (pinned self p a) k), p') ∧
    pinned self p' a = Some (Ok k) ∧
    ∀ dk, dk ≠ (identity_dict self, address_key a) → contents p' !! dk = contents p !! dk.
Proof.
  destruct (save_identity_runs self a k p) as (p' & E & Hm). exists p'. split; [done|].
  assert (∀ k0, contents p' = <[(identity_dict self, address_key a) := identity_serialize k]> k0
    → k0 = contents p → pinned self p' a = Some (Ok k) ∧
      ∀ dk, dk ≠ (identity_dict self, address_key a) → contents p' !! dk = contents p !! dk)
    as Hins.
  { intros m E' ->. unfold pinned. rewrite E', lookup_insert_eq. simpl.
    rewrite identity_decode_serialize. split; [done|]. intros. by rewrite lookup_insert_ne. }
  destruct (pinned self p a) as [[k0|e]|] eqn:Hp; [|by eapply Hins..].
  destruct (decide (k0 = k)) as [->|]; [|by eapply Hins].
  split; [|intros; by rewrite Hm]. unfold pinned in *. by rewrite Hm.
Qed.

(** C23: trust on first use.  An address with no pinned key trusts any key.
    [save_identity] reports whether it replaced a different key, and from then
    on the address trusts exactly the saved key, in both directions, while
    the verdict for every other address is what it was. *)
Theorem identity_tofu self a k p :
  addr_ok a →
  (contents p !! (identity_dict self, address_key a) = None →
    ∀ k' dir, runs (Identity_is_trusted_identity self a k' dir) p (Ok true) (contents p)) ∧
  ∃ p', Identity_save_identity self a k p = (Ok (saved (pinned self p a) k), p') ∧
    (∀ k' dir, runs (Identity_is_trusted_identity self a k' dir) p'
       (Ok (bool_decide (k = k'))) (contents p')) ∧
    (∀ b k' dir, addr_ok b → b ≠ a →
       (Identity_is_trusted_identity self b k' dir p').1 =
       (Identity_is_trusted_identity self b k' dir p).1).
Proof.
  intros Ha. split.
  { intros Hn k' dir. pose proof (is_trusted_spec self a k' dir p) as Ht.
    unfold pinned in Ht. by rewrite Hn in Ht. }
  destruct (save_identity_spec self a k p) as (p' & E & Hpin & Hother).
  exists p'. split; [done|]. split.
  - intros k' dir. pose proof (is_trusted_spec self a k' dir p') as Ht. by rewrite Hpin in Ht.
  - intros b k' dir Hb Hne.
    destruct (is_trusted_spec self b k' dir p') as (? & -> & _).
    destruct (is_trusted_spec self b k' dir p) as (? & -> & _). simpl.
    unfold pinned. rewrite Hother; [done|]. intros [= Hk].
    by apply Hne, address_key_inj.
Qed.

(** ** Pre-key store *)
Lemma get_pre_key_spec self id p :
  runs (PreKey_get_pre_key self id) p
    (match contents p !! (prekey_dict self, show_u id) with
     | Some b => deserialize b | None => Err InvalidPreKeyId end) (contents p).
Proof.
  eapply runs_bind; [apply read_record_spec|]. intros p1 Hp1.
  case_match; [by apply runs_lift|by apply runs_throw].
Qed.

Lemma save_pre_key_spec self id r b p :
  serialize r = Ok b →
  runs (PreKey_save_pre_key self id r) p (Ok ())
    (<[(prekey_dict self, show_u id) := b]> (contents p)).
Proof.
  intros Hb. unfold PreKey_save_pre_key. rewrite Hb.
  eapply runs_bind; [by apply runs_lift|]. intros p1 <-. apply write_record_spec.
Qed.

Lemma remove_pre_key_spec self id p :
  runs (PreKey_remove_pre_key self id) p (Ok ())
    (delete (prekey_dict self, show_u id) (contents p)).
Proof.
  destruct (delete_key_law (prekey_dict self) (show_u id) p) as (r & p1 & E & Hc & Hr).
  eapply runs_bind; [apply runs_try; by exists p1|]. intros p2 Hp2.
  destruct (contents p !! _); [subst r; apply runs_ret; congruence|].
  destruct Hr as (e & -> & He). rewrite bool_decide_true by done. apply runs_ret. congruence.
Qed.

(** The one-time pre-key life cycle.  After [save_pre_key] the id returns
    the record and other ids return what they did; after [remove_pre_key] it
    returns [InvalidPreKeyId], and removing it again succeeds. *)
Theorem pre_key_lifecycle self id r b p :
  in_u32 id → serialize r = Ok b →
  ∃ p1 p2, PreKey_save_pre_key self id r p = (Ok (), p1) ∧
    (PreKey_get_pre_key self id p1).1 = Ok r ∧
    (∀ j, in_u32 j → j ≠ id →
      (PreKey_get_pre_key self j p1).1 = (PreKey_get_pre_key self j p).1) ∧
    PreKey_remove_pre_key self id p1 = (Ok (), p2) ∧
    (PreKey_get_pre_key self id p2).1 = Err InvalidPreKeyId ∧
    (PreKey_remove_pre_key self id p2).1 = Ok ().
Proof.
  intros Hid Hb. destruct (save_pre_key_spec self id r b p Hb) as (p1 & E1 & Hc1).
  destruct (remove_pre_key_spec self id p1) as (p2 & E2 & Hc2).
  exists p1, p2. repeat split; try done.
  - destruct (get_pre_key_spec self id p1) as (? & -> & _).
    rewrite Hc1, lookup_insert_eq. by apply deserialize_serialize.
  - intros j Hj Hne. destruct (get_pre_key_spec self j p1) as (? & -> & _).
    destruct (get_pre_key_spec self j p) as (? & -> & _). simpl.
    rewrite Hc1, lookup_insert_ne; [done|]. intros [= E]. apply show_u_32_inj in E; auto.
  - destruct (get_pre_key_spec self id p2) as (? & -> & _). by rewrite Hc2, lookup_delete_eq.
  - by destruct (remove_pre_key_spec self id p2) as (? & -> & _).
Qed.

(** ** Kyber store *)
Lemma public_serialize_inj k k' : public_serialize k = public_serialize k' → k = k'.
Proof.
  intros E. pose proof (public_deserialize_serialize k) as Hk.
  rewrite E, public_deserialize_serialize in Hk. congruence.
Qed.

Lemma dedup_key_inj i e k i' e' k' :
  in_u32 i → in_u32 e → in_u32 i' → in_u32 e' →
  dedup_key i e k = dedup_key i' e' k' → (i, e, k) = (i', e', k').
Proof.
  assert (∀ n, in_u32 n → ":"%byte ∉ show_u n) as Hc.
  { intros n Hn. apply digits_no_byte; [apply show_u_digits, Hn|done]. }
  intros Hi He Hi' He' E. unfold dedup_key in E. apply (inj (app _)) in E.
  apply app_sep_inj_l in E as [E1 E]; [|by apply Hc..].
  apply app_sep_inj_l in E as [E2 E]; [|by apply Hc..].
  apply b64_encode_inj, public_serialize_inj in E.
  apply show_u_32_inj in E1; [|done..]. apply show_u_32_inj in E2; [|done..]. congruence.
Qed.

Lemma dedup_key_not_id i e k j : in_u32 j → dedup_key i e k ≠ show_u j.
Proof.
  intros Hj E. pose proof (show_u_digits j ltac:(apply Hj)) as Hd. by rewrite <- E in Hd.
Qed.

Lemma mark_used_spec self i e k p :
  match contents p !! (kyber_dict self, dedup_key i e k) with
  | Some _ => runs (KyberPreKey_mark_kyber_pre_key_used self i e k) p
                (Err InvalidKyberPreKeyId) (contents p)
  | None => runs (KyberPreKey_mark_kyber_pre_key_used self i e k) p (Ok ())
              (<[(kyber_dict self, dedup_key i e k) := [Byte.x01]]> (contents p))
  end.
Proof.
  case_match eqn:E; (eapply runs_bind; [apply read_record_spec|]); intros p1 Hp1; rewrite E.
  - by apply runs_throw.
  - rewrite <- Hp1. apply write_record_spec.
Qed.

Lemma get_signed_pre_key_spec self id p :
  runs (SignedPreKey_get_signed_pre_key self id) p
    (match contents p !! (signed_dict self, show_u id) with
     | Some b => deserialize b | None => Err InvalidSignedPreKeyId end) (contents p).
Proof.
  eapply runs_bind; [apply read_record_spec|]. intros p1 Hp1.
  case_match; [by apply runs_lift|by apply runs_throw].
Qed.

Lemma get_kyber_spec self id p :
  runs (KyberPreKey_get_kyber_pre_key self id) p
    (match contents p !! (kyber_dict self, show_u id) with
     | Some b => deserialize b | None => Err InvalidKyberPreKeyId end) (contents p).
Proof.
  eapply runs_bind; [apply read_record_spec|]. intros p1 Hp1.
  case_match; [by apply runs_lift|by apply runs_throw].
Qed.

(** C21: the last-resort Kyber rule.  Marking a fresh (kyber id, EC id, base
    key) tuple succeeds; marking it a second time is rejected with
    [InvalidKyberPreKeyId]; a tuple that differs in any component is not
    affected; and the key itself is still served. *)
Theorem kyber_reuse_rejected self i e k p :
  in_u32 i → in_u32 e →
  contents p !! (kyber_dict self, dedup_key i e k) = None →
  ∃ p1, KyberPreKey_mark_kyber_pre_key_used self i e k p = (Ok (), p1) ∧
    (KyberPreKey_mark_kyber_pre_key_used self i e k p1).1 = Err InvalidKyberPreKeyId ∧
    (∀ i' e' k', in_u32 i' → in_u32 e' → (i', e', k') ≠ (i, e, k) →
       (KyberPreKey_mark_kyber_pre_key_used self i' e' k' p1).1 =
       (KyberPreKey_mark_kyber_pre_key_used self i' e' k' p).1) ∧
    (∀ j, in_u32 j →
       (KyberPreKey_get_kyber_pre_key self j p1).1 = (KyberPreKey_get_kyber_pre_key self j p).1).
Proof.
  intros Hi He Hnone. pose proof (mark_used_spec self i e k p) as Hm1. rewrite Hnone in Hm1.
  destruct Hm1 as (p1 & E1 & Hc1). exists p1. split; [done|]. split; [|split].
  - pose proof (mark_used_spec self i e k p1) as Hm2. rewrite Hc1, lookup_insert_eq in Hm2.
    by destruct Hm2 as (? & -> & _).
  - intros i' e' k' Hi' He' Hne.
    pose proof (mark_used_spec self i' e' k' p1) as Hm2.
    pose proof (mark_used_spec self i' e' k' p) as Hm3.
    rewrite Hc1, lookup_insert_ne in Hm2.
    2: { apply key_ne. intros E. by apply Hne, eq_sym, dedup_key_inj. }
    case_match; destruct Hm2 as (? & -> & _), Hm3 as (? & -> & _); done.
  - intros j Hj. destruct (get_kyber_spec self j p1) as (? & -> & _).
    destruct (get_kyber_spec self j p) as (? & -> & _). simpl.
    rewrite Hc1, lookup_insert_ne; [done|]. apply key_ne. by apply dedup_key_not_id.
Qed.

(** ** Session store *)

(** Every key of the session dictionary was made by [address_key]. *)
Definition sessions_wf (self : PddbSessionStore) p : Prop :=
  ∀ k, is_Some (contents p !! (session_dict self, k)) → ∃ a, addr_ok a ∧ k = address_key a.

(** The abstract state: which addresses have a session. *)
Definition has_session (self : PddbSessionStore) p (a : ProtocolAddress) : Prop :=
  addr_ok a ∧ is_Some (contents p !! (session_dict self, address_key a)).

Lemma parse_device_key_wf n k d :
  (∃ a, addr_ok a ∧ k = address_key a) →
  parse_device_key n k = Some d ↔ in_u32 d ∧ k = address_key (Addr n d).
Proof.
  intros ([n' d'] & Ha & ->). split.
  - unfold parse_device_key. intros (s & Hs & Hp)%bind_Some.
    apply strip_prefix_Some in Hs. unfold address_key in Hs. simpl in Hs.
    rewrite <- app_assoc in Hs. simpl in Hs.
    apply app_sep_inj in Hs as [-> <-]; [|apply show_u_no_dot, Ha|by eapply parse_u32_no_dot].
    rewrite parse_u32_show in Hp by apply Ha. by simplify_eq.
  - intros [Hd ->]. by apply parse_device_key_address.
Qed.

Lemma device_ids_for_runs {E} self name p :
  sessions_wf self p →
  ∃ l, runs (E := E) (Session_device_ids_for self name) p (Ok l) (contents p) ∧
    StronglySorted Z.lt l ∧ ∀ d, d ∈ l ↔ has_session self p (Addr name d).
Proof.
  intros Hwf. destruct (list_keys_law (session_dict self) p) as (r & p1 & E1 & Hc & Hr).
  destruct r as [ks|e].
  - destruct Hr as [_ Hks].
    exists (dedup (sort_unstable (omap (parse_device_key name) ks))). split; [|split].
    + eapply runs_bind; [apply runs_try; by exists p1|]. intros. apply runs_ret. congruence.
    + apply dedup_sorted, sort_unstable_sorted.
    + intros d. rewrite elem_of_dedup, sort_unstable_perm, list_elem_of_omap.
      unfold has_session. simpl. split.
      * intros (k & Hk & Hp). apply Hks in Hk.
        apply parse_device_key_wf in Hp as [Hd ->]; eauto.
      * intros [Hd Hk]. exists (address_key (Addr name d)). split; [by apply Hks|].
        by apply parse_device_key_address.
  - exists []. split; [|split; [constructor|]].
    + eapply runs_bind; [apply runs_try; by exists p1|]. intros. apply runs_ret. congruence.
    + intros d. split; [by intros ?%elem_of_nil|]. intros [_ [v Hv]]. by rewrite Hr in Hv.
Qed.

Lemma load_session_runs self a p :
  runs (Session_load_session self a) p
    (match contents p !! (session_dict self, address_key a) with
     | Some b => Some <$> deserialize b | None => Ok None end) (contents p).
Proof.
  eapply runs_bind; [apply read_record_spec|]. intros p1 Hp1.
  destruct (contents p !! _) as [b|]; [|by apply runs_ret].
  destruct (deserialize b) as [s|e] eqn:E.
  - eapply runs_bind; [by apply runs_lift|]. intros. by apply runs_ret.
  - eapply runs_bind_err. by apply runs_lift.
Qed.

Lemma store_session_runs self a r p :
  runs (Session_store_session self a r) p
    (match serialize r with Ok _ => Ok () | Err e => Err e end)
    (match serialize r with
     | Ok b => <[(session_dict self, address_key a) := b]> (contents p)
     | Err _ => contents p
     end).
Proof.
  unfold Session_store_session. destruct (serialize r) as [b|e].
  - eapply runs_bind; [by apply runs_lift|]. intros p1 <-. apply write_record_spec.
  - eapply runs_bind_err. by apply runs_lift.
Qed.

Lemma delete_session_runs {E} self a p :
  runs (E := E) (Session_delete_session self a) p (Ok ())
    (delete (session_dict self, address_key a) (contents p)).
Proof.
  destruct (delete_key_law (session_dict self) (address_key a) p) as (r & p1 & E1 & Hc & _).
  exists p1. unfold Session_delete_session, ignore. by rewrite E1.
Qed.

Lemma insert_session self a b p p' :
  addr_ok a → contents p' = <[(session_dict self, address_key a) := b]> (contents p) →
  (sessions_wf self p → sessions_wf self p') ∧
  ∀ c, has_session self p' c ↔ has_session self p c ∨ c = a.
Proof.
  intros Ha E. split.
  - intros Hwf k Hk. rewrite E in Hk. destruct (decide (k = address_key a)) as [->|Hne].
    + by exists a.
    + rewrite lookup_insert_ne in Hk by (apply key_ne; auto). by apply Hwf.
  - intros c. unfold has_session. rewrite E. destruct (decide (c = a)) as [->|Hne].
    + rewrite lookup_insert_eq. naive_solver.
    + split.
      * intros [Hc Hk]. rewrite lookup_insert_ne in Hk; [by left|].
        apply key_ne. intros ?%address_key_inj; auto.
      * intros [[Hc Hk]|]; [|done]. split; [done|]. rewrite lookup_insert_ne; [done|].
        apply key_ne. intros ?%address_key_inj; auto.
Qed.

Lemma delete_session self a p p' :
  addr_ok a → contents p' = delete (session_dict self, address_key a) (contents p) →
  (sessions_wf self p → sessions_wf self p') ∧
  ∀ c, has_session self p' c ↔ has_session self p c ∧ c ≠ a.
Proof.
  intros Ha E. split.
  - intros Hwf k Hk. rewrite E in Hk. apply Hwf. destruct Hk as [v Hv].
    apply lookup_delete_Some in Hv as [_ Hv]. by exists v.
  - intros c. unfold has_session. rewrite E. split.
    + intros [Hc [v [Hne Hv]%lookup_delete_Some]]. split; [by eauto|]. by intros ->.
    + intros [[Hc Hk] Hne]. split; [done|]. rewrite lookup_delete_ne; [done|].
      apply key_ne. intros ?%address_key_inj; auto.
Qed.

(** C24: the session store refines a set of addresses.  [device_ids_for] lists,
    strictly increasing, exactly the devices of the peer that have a session;
    [store_session] adds its address (and [load_session] then returns the
    record); [delete_session] removes its address and no other. *)
Theorem session_store_refines self p :
  sessions_wf self p →
  (∀ name, ∃ l, runs (E := SignalProtocolError) (Session_device_ids_for self name) p (Ok l) (contents p) ∧
     StronglySorted Z.lt l ∧ ∀ d, d ∈ l ↔ has_session self p (Addr name d)) ∧
  (∀ a r b, addr_ok a → serialize r = Ok b →
     ∃ p', Session_store_session self a r p = (Ok (), p') ∧ sessions_wf self p' ∧
       (∀ c, has_session self p' c ↔ has_session self p c ∨ c = a) ∧
       (Session_load_session self a p').1 = Ok (Some r)) ∧
  (∀ a, addr_ok a →
     ∃ p', Session_delete_session (E := SignalProtocolError) self a p = (Ok (), p') ∧ sessions_wf self p' ∧
       (∀ c, has_session self p' c ↔ has_session self p c ∧ c ≠ a) ∧
       (Session_load_session self a p').1 = Ok None).
Proof.
  intros Hwf. split; [|split].
  - intros name. by apply device_ids_for_runs.
  - intros a r b Ha Hb. destruct (store_session_runs self a r p) as (p' & E & Hc).
    rewrite Hb in E, Hc. exists p'. split; [done|].
    destruct (insert_session self a b p p' Ha Hc) as [Hwf' Hiff].
    split; [auto|]. split; [done|].
    destruct (load_session_runs self a p') as (? & -> & _).
    rewrite Hc, lookup_insert_eq. simpl. by rewrite (deserialize_serialize r b).
  - intros a Ha. destruct (delete_session_runs (E := SignalProtocolError) self a p)
      as (p' & E & Hc).
    exists p'. split; [done|]. destruct (delete_session self a p p' Ha Hc) as [Hwf' Hiff].
    split; [auto|]. split; [done|].
    destruct (load_session_runs self a p') as (? & -> & _). by rewrite Hc, lookup_delete_eq.
Qed.
End spec.

(** * The theorems at a concrete device *)

Definition demo_addr : ProtocolAddress := Addr "bob"%bs 1.
Definition demo_key : @IdentityKey Toy.libsignal := [Byte.x01].
Definition demo_record : @PreKeyRecord Toy.libsignal := [Byte.x02].
Definition demo_base : @PublicKey Toy.libsignal := [Byte.x09].
Definition demo_ids : PddbIdentityStore :=
  {| account_dict := ACCOUNT_DICT; identity_dict := IDENTITY_DICT |}.

Lemma identity_tofu_witness :
  (contents (∅ : flash) !! (identity_dict demo_ids, address_key demo_addr) = None →
    ∀ k' dir, runs (Identity_is_trusted_identity demo_ids demo_addr k' dir) (∅ : flash) (Ok true)
      (contents (∅ : flash))) ∧
  ∃ p' : flash, Identity_save_identity demo_ids demo_addr demo_key ∅ =
      (Ok (saved (pinned demo_ids (∅ : flash) demo_addr) demo_key), p') ∧
    (∀ k' dir, runs (Identity_is_trusted_identity demo_ids demo_addr k' dir) p'
       (Ok (bool_decide (demo_key = k'))) (contents p')) ∧
    (∀ b k' dir, addr_ok b → b ≠ demo_addr →
       (Identity_is_trusted_identity demo_ids b k' dir p').1 =
       (Identity_is_trusted_identity demo_ids b k' dir (∅ : flash)).1).
Proof. apply (identity_tofu demo_ids demo_addr demo_key (∅ : flash)). by vm_compute. Defined.

Definition demo_prekeys : PddbPreKeyStore := {| prekey_dict := PREKEY_DICT |}.

Lemma pre_key_lifecycle_witness :
  ∃ p1 p2 : flash, PreKey_save_pre_key demo_prekeys 7 demo_record ∅ = (Ok (), p1) ∧
    (PreKey_get_pre_key demo_prekeys 7 p1).1 = Ok demo_record ∧
    (∀ j, in_u32 j → j ≠ 7%Z →
      (PreKey_get_pre_key demo_prekeys j p1).1 = (PreKey_get_pre_key demo_prekeys j (∅ : flash)).1) ∧
    PreKey_remove_pre_key demo_prekeys 7 p1 = (Ok (), p2) ∧
    (PreKey_get_pre_key demo_prekeys 7 p2).1 = Err InvalidPreKeyId ∧
    (PreKey_remove_pre_key demo_prekeys 7 p2).1 = Ok ().
Proof.
  apply (pre_key_lifecycle demo_prekeys 7 demo_record [Byte.x0a; Byte.x02]
    (∅ : flash)); [by vm_compute|reflexivity].
Defined.

Definition demo_kyber : PddbKyberPreKeyStore := {| kyber_dict := KYBER_PREKEY_DICT |}.

Lemma kyber_reuse_rejected_witness :
  ∃ p1 : flash, KyberPreKey_mark_kyber_pre_key_used demo_kyber 1 2 demo_base ∅
      = (Ok (), p1) ∧
    (KyberPreKey_mark_kyber_pre_key_used demo_kyber 1 2 demo_base p1).1
      = Err InvalidKyberPreKeyId ∧
    (∀ i' e' k', in_u32 i' → in_u32 e' → (i', e', k') ≠ (1%Z, 2%Z, demo_base) →
       (KyberPreKey_mark_kyber_pre_key_used demo_kyber i' e' k' p1).1 =
       (KyberPreKey_mark_kyber_pre_key_used demo_kyber i' e' k' (∅ : flash)).1) ∧
    (∀ j, in_u32 j → (KyberPreKey_get_kyber_pre_key demo_kyber j p1).1 =
       (KyberPreKey_get_kyber_pre_key demo_kyber j (∅ : flash)).1).
Proof.
  apply (kyber_reuse_rejected demo_kyber 1 2 demo_base (∅ : flash));
    [by vm_compute..|reflexivity].
Defined.

Definition demo_session_store : PddbSessionStore := {| session_dict := SESSION_DICT |}.

Lemma session_store_refines_witness :
  (∀ name, ∃ l, runs (E := SignalProtocolError) (Session_device_ids_for demo_session_store name)
      (∅ : flash) (Ok l) (contents (∅ : flash)) ∧
     StronglySorted Z.lt l ∧ ∀ d, d ∈ l ↔ has_session demo_session_store (∅ : flash) (Addr name d)) ∧
  (∀ a (r : @SessionRecord Toy.libsignal) b, addr_ok a → serialize r = Ok b →
     ∃ p' : flash, Session_store_session demo_session_store a r ∅ = (Ok (), p') ∧
       sessions_wf demo_session_store p' ∧
       (∀ c, has_session demo_session_store p' c ↔
          has_session demo_session_store (∅ : flash) c ∨ c = a) ∧
       (Session_load_session demo_session_store a p').1 = Ok (Some r)) ∧
  (∀ a, addr_ok a →
     ∃ p' : flash, Session_delete_session (E := SignalProtocolError) demo_session_store a ∅
         = (Ok (), p') ∧ sessions_wf demo_session_store p' ∧
       (∀ c, has_session demo_session_store p' c ↔
          has_session demo_session_store (∅ : flash) c ∧ c ≠ a) ∧
       (Session_load_session demo_session_store a p').1 = Ok None).
Proof.
  apply (session_store_refines demo_session_store (∅ : flash)).
  intros k [v Hv]. change ((∅ : flash) !! (SESSION_DICT, k) = Some v) in Hv.
  by rewrite lookup_empty in Hv.
Defined.
