(* ===== verification/Json.v ===== *)
(** JSON and URLs.

    [serde_json] and [url] are dependencies.  [SerdeJson] is their text layer
    (a document to bytes and back); what [#[derive(Serialize, Deserialize)]]
    generates for a struct of the client is written out with the combinators
    below: unknown fields are skipped, a duplicate or a missing field without a
    default is an error, a struct is also accepted as an array of its fields in
    order.  [JsonText] is a concrete text layer. *)

From S2P Require Import Prelude RustStd.

#[local] Set Warnings "-register-all".

Inductive json :=
  | JNull
  | JBool (b : bool)
  | JInt (z : Z)
  | JFloat (text : bytes)
  | JStr (s : bytes)
  | JArr (l : list json)
  | JObj (l : list (bytes * json)).

Class SerdeJson := {
  to_vec : json → result bytes bytes;
  from_slice : bytes → option json;
  (** the text of the error when [bs] does not deserialize as type [ty] *)
  json_error : bytes → bytes → bytes;
}.

Class UrlLib := {
  Url : Type;
  url_parse : bytes → result bytes Url;
  set_path : bytes → Url → Url;
  set_query : option bytes → Url → Url;
  as_str : Url → bytes;
}.

(** * What the derive macros generate *)
Section derive.
Context `{SerdeJson}.

Fixpoint lookup_field (key : bytes) (l : list (bytes * json)) : option (option json) :=
  match l with
  | [] => Some None
  | (k, v) :: l =>
      r ← lookup_field key l;
      if bool_decide (k = key) then
        match r with None => Some (Some v) | Some _ => None end
      else Some r
  end.

(** The fields [keys] of a struct, [None] where one is absent. *)
Definition struct_fields (keys : list bytes) (j : json) : option (list (option json)) :=
  match j with
  | JObj l => mapM (λ k, lookup_field k l) keys
  | JArr l => if bool_decide (length l ≤ length keys)
              then Some ((Some <$> l) ++ replicate (length keys - length l) None)
              else None
  | _ => None
  end.

Definition de_uint (maxv : Z) (j : json) : option Z :=
  match j with
  | JInt z => if (0 <=? z)%Z && (z <=? maxv)%Z then Some z else None
  | _ => None
  end.
Definition de_u32 : json → option Z := de_uint u32_max.
Definition de_string (j : json) : option bytes :=
  match j with JStr s => Some s | _ => None end.
Definition de_vec {A} (f : json → option A) (j : json) : option (list A) :=
  match j with JArr l => mapM f l | _ => None end.
Definition de_option {A} (f : json → option A) (j : json) : option (option A) :=
  match j with JNull => Some None | _ => Some <$> f j end.

(** A required field, and one with [#[serde(default)]]. *)
Definition required {A} (f : json → option A) (o : option json) : option A := o ≫= f.
Definition or_default {A} (d : A) (f : json → option A) (o : option json) : option A :=
  match o with None => Some d | Some j => f j end.

(** [serde_json::from_slice::<T>(bs)] *)
Definition from_slice_as {T} (ty : bytes) (f : json → option T) (bs : bytes) :
    result bytes T :=
  ok_or (json_error ty bs) (from_slice bs ≫= f).
End derive.

(** The depth of the documents the text layer below prints (serde_json refuses 128
    levels, the client's documents have at most five). *)
Definition JSON_DEPTH : nat := 64.

(** * A concrete text layer *)
Module JsonText.
Definition q : byte := Byte.x22.

Fixpoint esc (s : bytes) : bytes :=
  match s with
  | [] => []
  | b :: s =>
      if bool_decide (b = q ∨ b = Byte.x5c) then Byte.x5c :: b :: esc s
      else b :: esc s
  end.

Fixpoint print (fuel : nat) (j : json) : bytes :=
  match fuel with
  | O => []
  | S fuel =>
      let sep {A} (f : A → bytes) (l : list A) :=
        match l with
        | [] => []
        | x :: l => f x ++ concat ((λ y, ","%bs ++ f y) <$> l)
        end in
      match j with
      | JNull => "null"%bs
      | JBool b => show_bool b
      | JInt z => if (z <? 0)%Z then "-"%bs ++ show_u (- z) else show_u z
      | JFloat t => t
      | JStr s => q :: esc s ++ [q]
      | JArr l => "["%bs ++ sep (print fuel) l ++ "]"%bs
      | JObj l => "{"%bs ++ sep (λ kv, (q :: esc kv.1 ++ [q]) ++ ":"%bs ++ print fuel kv.2) l
                    ++ "}"%bs
      end
  end.

Fixpoint skip (s : bytes) : bytes :=
  match s with
  | b :: r => if bool_decide (b ∈ [Byte.x20; Byte.x09; Byte.x0a; Byte.x0d]) then skip r else s
  | [] => []
  end.

(** The rest of a string literal after its opening quote. *)
Fixpoint string_lit (s : bytes) : option (bytes * bytes) :=
  match s with
  | [] => None
  | b :: r =>
      if bool_decide (b = q) then Some ([], r)
      else if bool_decide (b = Byte.x5c) then
        match r with
        | c :: r' => '(x, rest) ← string_lit r'; Some (c :: x, rest)
        | [] => None
        end
      else '(x, rest) ← string_lit r; Some (b :: x, rest)
  end.

Fixpoint digits (s : bytes) : bytes * bytes :=
  match s with
  | b :: r => if is_ascii_digit b then let '(x, y) := digits r in (b :: x, y) else ([], s)
  | [] => ([], [])
  end.

Definition number (s : bytes) : option (json * bytes) :=
  let '(neg, s) := match s with
                   | b :: r => if bool_decide (b = "-"%byte) then (true, r) else (false, s)
                   | [] => (false, s)
                   end in
  let '(d, rest) := digits s in
  match parse_uint u64_max d with
  | Some z => Some (JInt (if (neg : bool) then - z else z)%Z, rest)
  | None => None
  end.

Fixpoint parse (fuel : nat) (s : bytes) {struct fuel} : option (json * bytes) :=
  match fuel with
  | O => None
  | S fuel =>
      let s := skip s in
      match strip_prefix "null"%bs s, strip_prefix "true"%bs s, strip_prefix "false"%bs s with
      | Some r, _, _ => Some (JNull, r)
      | _, Some r, _ => Some (JBool true, r)
      | _, _, Some r => Some (JBool false, r)
      | _, _, _ =>
          match s with
          | [] => None
          | b :: r =>
              if bool_decide (b = q) then
                '(x, rest) ← string_lit r; Some (JStr x, rest)
              else if bool_decide (b = "["%byte) then
                match strip_prefix "]"%bs (skip r) with
                | Some rest => Some (JArr [], rest)
                | None => '(l, rest) ← items fuel r; Some (JArr l, rest)
                end
              else if bool_decide (b = "{"%byte) then
                match strip_prefix "}"%bs (skip r) with
                | Some rest => Some (JObj [], rest)
                | None => '(l, rest) ← members fuel r; Some (JObj l, rest)
                end
              else number s
          end
      end
  end
with items (fuel : nat) (s : bytes) {struct fuel} : option (list json * bytes) :=
  match fuel with
  | O => None
  | S fuel =>
      '(v, rest) ← parse fuel s;
      match strip_prefix ","%bs (skip rest), strip_prefix "]"%bs (skip rest) with
      | Some rest, _ => '(l, rest) ← items fuel rest; Some (v :: l, rest)
      | None, Some rest => Some ([v], rest)
      | None, None => None
      end
  end
with members (fuel : nat) (s : bytes) {struct fuel} : option (list (bytes * json) * bytes) :=
  match fuel with
  | O => None
  | S fuel =>
      match strip_prefix [q] (skip s) with
      | None => None
      | Some r =>
          '(k, rest) ← string_lit r;
          rest ← strip_prefix ":"%bs (skip rest);
          '(v, rest) ← parse fuel rest;
          match strip_prefix ","%bs (skip rest), strip_prefix "}"%bs (skip rest) with
          | Some rest, _ => '(l, rest) ← members fuel rest; Some ((k, v) :: l, rest)
          | None, Some rest => Some ([(k, v)], rest)
          | None, None => None
          end
      end
  end.

#[global] Instance serde : SerdeJson := {|
  to_vec j := Ok (print JSON_DEPTH j);
  from_slice s := match parse (S (length s)) s with
                  | Some (j, rest) => if bool_decide (skip rest = []) then Some j else None
                  | None => None
                  end;
  json_error ty _ := ty;
|}.

Example parse_mismatch_body :
  from_slice [Byte.x7b; q; Byte.x61; q; Byte.x3a; Byte.x5b; Byte.x31; Byte.x2c; Byte.x32;
              Byte.x5d; Byte.x7d] = Some (JObj [("a"%bs : bytes, JArr [JInt 1; JInt 2])]).
Proof. by vm_compute. Qed.

(** [https://host] with a path. *)
#[global] Instance url : UrlLib := {|
  Url := bytes * bytes;
  url_parse s := if bool_decide (s = "https://chat."%bs) then Err ("empty host"%bs : bytes)
                 else Ok (s, "/"%bs : bytes);
  set_path p u := (u.1, p);
  set_query q u := (u.1, u.2 ++ match q with Some q => "?"%bs ++ q | None => [] end);
  as_str u := u.1 ++ u.2;
|}.
End JsonText.
