(* ===== verification/JsonLaws.v ===== *)
(** JSON text round trips.

    What the client relies on of serde_json's text layer: a document it prints parses
    back to itself.  [json_ok n] says which documents: depth at most [n] (serde_json
    refuses 128 levels), integers in [u64], strings in UTF-8 and no floats.
    [JsonText] satisfies the law. *)

From S2P Require Import Prelude RustStd Json.

Fixpoint json_ok (n : nat) (j : json) : Prop :=
  match n with
  | O => False
  | S n =>
      match j with
      | JNull | JBool _ => True
      | JInt z => in_u64 z
      | JFloat _ => False
      | JStr s => utf8_valid s = true
      | JArr l => Forall (json_ok n) l
      | JObj l => Forall (λ kv, utf8_valid kv.1 = true ∧ json_ok n kv.2) l
      end
  end.

Class SerdeJsonLaws `{SerdeJson} := {
  to_vec_total j : json_ok JSON_DEPTH j → ∃ bs, to_vec j = Ok bs;
  from_slice_to_vec j bs : json_ok JSON_DEPTH j → to_vec j = Ok bs → from_slice bs = Some j;
  to_vec_utf8 j bs : json_ok JSON_DEPTH j → to_vec j = Ok bs → utf8_valid bs = true;
}.

Lemma strip_prefix_ne (b c : byte) p s : c ≠ b → strip_prefix (c :: p) (b :: s) = None.
Proof.
  intros Hne. destruct (strip_prefix (c :: p) (b :: s)) as [r|] eqn:E; [|done].
  apply strip_prefix_Some in E. by injection E.
Qed.
Lemma strip_prefix_app p s : strip_prefix p (p ++ s) = Some s.
Proof. by apply strip_prefix_Some. Qed.

(** * The concrete text layer *)
Module JsonTextLaws.
Import JsonText.

Lemma string_lit_esc s rest : string_lit (esc s ++ q :: rest) = Some (s, rest).
Proof.
  induction s as [|b s IH]; [done|]. cbn [esc]. destruct (decide (b = q ∨ b = Byte.x5c)) as [Hb|Hb].
  - rewrite bool_decide_true by done. cbn [app string_lit]. simpl. rewrite IH. done.
  - rewrite bool_decide_false by done. cbn [app string_lit].
    rewrite !bool_decide_false by tauto. rewrite IH. done.
Qed.

(** What may follow a number. *)
Definition stops (s : bytes) : Prop :=
  match s with b :: _ => is_ascii_digit b = false | [] => True end.
Lemma digits_app d s : forallb is_ascii_digit d = true → stops s → digits (d ++ s) = (d, s).
Proof.
  induction d as [|b d IH]; cbn [app forallb].
  - intros _. destruct s as [|b s]; [done|]. cbn [stops digits]. by intros ->.
  - intros [Hb Hd]%andb_true_iff Hs. cbn [digits]. by rewrite Hb, IH.
Qed.

Definition plain_head (b : byte) : Prop :=
  b ∉ [Byte.x20; Byte.x09; Byte.x0a; Byte.x0d].
Lemma skip_plain b s : plain_head b → skip (b :: s) = b :: s.
Proof. intros Hb. cbn [skip]. by rewrite bool_decide_false. Qed.
Lemma digit_plain b : is_ascii_digit b = true → plain_head b ∧ b ≠ "n"%byte ∧ b ≠ "t"%byte ∧
  b ≠ "f"%byte ∧ b ≠ q ∧ b ≠ "["%byte ∧ b ≠ "{"%byte ∧ b ≠ "-"%byte ∧ b ≠ "]"%byte ∧ b ≠ "}"%byte.
Proof.
  unfold plain_head. intros Hb. split_and!; [|intros ->; done..].
  intros Hin. repeat (apply elem_of_cons in Hin as [->|Hin]; [done|]). by apply elem_of_nil in Hin.
Qed.

Lemma parse_other f b s :
  plain_head b → b ≠ "n"%byte → b ≠ "t"%byte → b ≠ "f"%byte →
  parse (S f) (b :: s) =
    if bool_decide (b = q) then '(x, rest) ← string_lit s; Some (JStr x, rest)
    else if bool_decide (b = "["%byte) then
      match strip_prefix "]"%bs (skip s) with
      | Some rest => Some (JArr [], rest)
      | None => '(l, rest) ← items f s; Some (JArr l, rest)
      end
    else if bool_decide (b = "{"%byte) then
      match strip_prefix "}"%bs (skip s) with
      | Some rest => Some (JObj [], rest)
      | None => '(l, rest) ← members f s; Some (JObj l, rest)
      end
    else number (b :: s).
Proof.
  intros Hp Hn Ht Hf. cbn [parse]. rewrite skip_plain by done.
  assert (strip_prefix "null"%bs (b :: s) = None) as -> by (apply strip_prefix_ne; congruence).
  assert (strip_prefix "true"%bs (b :: s) = None) as -> by (apply strip_prefix_ne; congruence).
  by assert (strip_prefix "false"%bs (b :: s) = None) as -> by (apply strip_prefix_ne; congruence).
Qed.

Lemma parse_int f z rest :
  in_u64 z → stops rest → parse (S f) (show_u z ++ rest) = Some (JInt z, rest).
Proof.
  intros Hz Hs. destruct (show_u_cons z) as (b & r & E).
  assert (forallb is_ascii_digit (show_u z) = true) as Hd by (apply show_u_digits; apply Hz).
  assert (is_ascii_digit b = true) as Hb by (rewrite E in Hd; by apply andb_true_iff in Hd as [? _]).
  destruct (digit_plain b Hb) as (? & ? & ? & ? & ? & ? & ? & ? & ? & ?). rewrite E. cbn [app].
  rewrite parse_other, !bool_decide_false by done. unfold number. rewrite bool_decide_false by done.
  change (b :: r ++ rest) with ((b :: r) ++ rest). rewrite <- E, digits_app by done.
  rewrite parse_uint_show; [done|exact Hz|]. unfold in_u64, u64_max in Hz. lia.
Qed.

(** Every printed document starts with a byte that is not white space and closes
    nothing. *)
Lemma print_head n j : json_ok n j → ∃ b r, print n j = b :: r ∧ plain_head b ∧
  b ≠ "]"%byte ∧ b ≠ "}"%byte.
Proof.
  assert (∀ b : byte, bool_decide (b ∉ [Byte.x20; Byte.x09; Byte.x0a; Byte.x0d]) = true → plain_head b)
    as Hpl by (intros b Hb; by apply bool_decide_eq_true in Hb).
  destruct n as [|n]; [done|]. destruct j as [|b|z|t|s|l|l]; cbn [json_ok print]; intros Hj.
  - eexists _, _. split; [reflexivity|]. split; [apply Hpl; reflexivity|done].
  - destruct b; (eexists _, _; split; [reflexivity|]; split; [apply Hpl; reflexivity|done]).
  - destruct (Z.ltb_spec z 0); [unfold in_u64 in Hj; lia|].
    destruct (show_u_cons z) as (b & r & E). rewrite E. exists b, r. split; [done|].
    assert (is_ascii_digit b = true) as Hb.
    { pose proof (show_u_digits z ltac:(apply Hj)) as Hd. rewrite E in Hd.
      by apply andb_true_iff in Hd as [? _]. }
    by destruct (digit_plain b Hb) as (? & ? & ? & ? & ? & ? & ? & ? & ? & ?).
  - done.
  - eexists _, _. split; [reflexivity|]. split; [apply Hpl; reflexivity|done].
  - eexists _, _. split; [reflexivity|]. split; [apply Hpl; reflexivity|done].
  - eexists _, _. split; [reflexivity|]. split; [apply Hpl; reflexivity|done].
Qed.
Lemma print_skip n j rest : json_ok n j → skip (print n j ++ rest) = print n j ++ rest.
Proof. intros Hj. destruct (print_head n j Hj) as (b & r & -> & Hp & _). by apply skip_plain. Qed.
Lemma print_open n j c rest :
  json_ok n j → c = "]"%byte ∨ c = "}"%byte → strip_prefix [c] (print n j ++ rest) = None.
Proof.
  intros Hj Hc. destruct (print_head n j Hj) as (b & r & -> & _ & H1 & H2). apply strip_prefix_ne.
  by destruct Hc as [->| ->].
Qed.

(** Separated printing. *)
Definition tail {A} (f : A → bytes) (l : list A) : bytes := concat ((λ y, ","%bs ++ f y) <$> l).
Definition field (n : nat) (kv : bytes * json) : bytes := (q :: esc kv.1 ++ [q]) ++ ":"%bs ++ print n kv.2.
Lemma tail_stops {A} (f : A → bytes) l c rest :
  is_ascii_digit c = false → stops (tail f l ++ c :: rest).
Proof. by destruct l. Qed.

(** The parser's [fuel] covers the printed text. *)
Definition reads (n : nat) : Prop := ∀ j fuel rest, json_ok n j → stops rest →
  length (print n j) ≤ fuel → parse fuel (print n j ++ rest) = Some (j, rest).

Lemma sep_comma rest : strip_prefix ","%bs (skip (","%bs ++ rest)) = Some rest.
Proof. by apply strip_prefix_Some. Qed.
Lemma sep_colon rest : strip_prefix ":"%bs (skip (":"%byte :: rest)) = Some rest.
Proof. by apply strip_prefix_Some. Qed.
Lemma sep_close rest :
  strip_prefix ","%bs (skip ("]"%byte :: rest)) = None ∧
  strip_prefix "]"%bs (skip ("]"%byte :: rest)) = Some rest ∧
  strip_prefix ","%bs (skip ("}"%byte :: rest)) = None ∧
  strip_prefix "}"%bs (skip ("}"%byte :: rest)) = Some rest.
Proof. split_and!; [done|by apply strip_prefix_Some|done|by apply strip_prefix_Some]. Qed.

Lemma items_print n l x fuel rest :
  reads n → json_ok n x → Forall (json_ok n) l →
  length (print n x ++ tail (print n) l) < fuel →
  items fuel (print n x ++ tail (print n) l ++ "]"%byte :: rest) = Some (x :: l, rest).
Proof.
  intros IHn. revert x fuel. induction l as [|y l IH]; intros x fuel Hx Hl Hf;
    (destruct fuel as [|fuel]; [simpl in Hf; lia|]); rewrite length_app in Hf; cbn [items].
  - cbn [tail fmap list_fmap concat app] in *. rewrite IHn by (done || lia). cbn [mbind option_bind].
    by destruct (sep_close rest) as (-> & -> & _).
  - apply Forall_cons in Hl as [Hy Hl]. unfold tail in *. cbn [fmap list_fmap concat] in *.
    rewrite <- !app_assoc. rewrite IHn; [|done|done|lia]. cbn [mbind option_bind].
    rewrite sep_comma. rewrite IH; [done..|].
    rewrite length_app. rewrite !length_app in Hf. change (length ","%bs) with 1 in Hf. unfold tail. lia.
Qed.
Lemma field_open n kv rest :
  strip_prefix [q] (skip (field n kv ++ rest)) = Some (esc kv.1 ++ q :: ":"%byte :: print n kv.2 ++ rest).
Proof.
  unfold field. cbn [app]. rewrite skip_plain.
  - rewrite <- !app_assoc. by apply strip_prefix_Some.
  - intros Hin. by apply (bool_decide_pack _) in Hin.
Qed.
Lemma length_field n kv : length (print n kv.2) < length (field n kv).
Proof. unfold field. rewrite !length_app. cbn [length]. lia. Qed.
Lemma members_print n l x fuel rest :
  reads n → json_ok n x.2 → Forall (λ kv, json_ok n kv.2) l →
  length (field n x ++ tail (field n) l) < fuel →
  members fuel (field n x ++ tail (field n) l ++ "}"%byte :: rest) = Some (x :: l, rest).
Proof.
  intros IHn. revert x fuel. induction l as [|y l IH]; intros x fuel Hx Hl Hf;
    (destruct fuel as [|fuel]; [simpl in Hf; lia|]); rewrite length_app in Hf; cbn [members];
    pose proof (length_field n x); rewrite field_open, string_lit_esc; cbn [mbind option_bind];
    rewrite sep_colon;
    cbn [mbind option_bind].
  - cbn [tail fmap list_fmap concat app] in *. rewrite IHn by (done || lia). cbn [mbind option_bind].
    destruct (sep_close rest) as (_ & _ & -> & ->). by destruct x.
  - apply Forall_cons in Hl as [Hy Hl]. unfold tail in *. cbn [fmap list_fmap concat] in *.
    rewrite <- !app_assoc. rewrite IHn; [|done|done|lia]. cbn [mbind option_bind].
    rewrite sep_comma. rewrite IH; [by destruct x|done..|].
    rewrite length_app. rewrite !length_app in Hf. change (length ","%bs) with 1 in Hf. unfold tail. lia.
Qed.

Lemma parse_print n : reads n.
Proof.
  induction n as [|n IH]; [by intros j ? ? []|]. intros j fuel rest Hj Hs Hf.
  destruct fuel as [|fuel].
  { destruct (print_head (S n) j Hj) as (b & r & E & _). rewrite E in Hf. simpl in Hf. lia. }
  destruct j as [|b|z|t|s|l|l]; cbn [json_ok] in Hj.
  - done.
  - by destruct b.
  - cbn [print]. destruct (Z.ltb_spec z 0); [unfold in_u64 in Hj; lia|]. by apply parse_int.
  - done.
  - change (print (S n) (JStr s)) with (q :: esc s ++ [q]). cbn [app]. rewrite <- app_assoc. cbn [app].
    rewrite parse_other by (done || intros Hin; by apply (bool_decide_pack _) in Hin).
    rewrite bool_decide_true by done. by rewrite string_lit_esc.
  - destruct l as [|x l]; [done|]. apply Forall_cons in Hj as [Hx Hl].
    change (print (S n) (JArr (x :: l))) with ("["%byte :: (print n x ++ tail (print n) l) ++ "]"%bs) in *.
    cbn [app]. rewrite <- !app_assoc.
    rewrite parse_other by (done || intros Hin; by apply (bool_decide_pack _) in Hin).
    rewrite bool_decide_false, bool_decide_true by done.
    rewrite print_skip by done. rewrite (print_open n x "]"%byte) by auto.
    change ("]"%bs ++ rest) with ("]"%byte :: rest). rewrite items_print; [done..|].
    cbn [length] in Hf. rewrite (length_app (_ ++ _)) in Hf. change (length "]"%bs) with 1 in Hf. lia.
  - destruct l as [|x l]; [done|]. apply Forall_cons in Hj as [[_ Hx] Hl].
    change (print (S n) (JObj (x :: l))) with ("{"%byte :: (field n x ++ tail (field n) l) ++ "}"%bs) in *.
    cbn [app]. rewrite <- !app_assoc.
    rewrite parse_other by (done || intros Hin; by apply (bool_decide_pack _) in Hin).
    rewrite !bool_decide_false, bool_decide_true by done.
    assert (strip_prefix "}"%bs (skip (field n x ++ tail (field n) l ++ "}"%bs ++ rest)) = None) as ->.
    { unfold field at 1. cbn [app]. rewrite skip_plain; [by apply strip_prefix_ne|].
      intros Hin; by apply (bool_decide_pack _) in Hin. }
    change ("}"%bs ++ rest) with ("}"%byte :: rest). rewrite members_print; [done|done|done| |].
    + eapply Forall_impl; [exact Hl|]. by intros kv [_ ?].
    + cbn [length] in Hf. rewrite (length_app (_ ++ _)) in Hf. change (length "}"%bs) with 1 in Hf. lia.
Qed.

(** ** UTF-8 *)
Definition esc_char (b : byte) : bytes :=
  if bool_decide (b = q ∨ b = Byte.x5c) then [Byte.x5c; b] else [b].
Lemma esc_concat s : esc s = concat (esc_char <$> s).
Proof.
  induction s as [|b s IH]; [done|]. cbn [esc fmap list_fmap concat]. rewrite IH. unfold esc_char.
  by case_bool_decide.
Qed.
Lemma esc_utf8 s : utf8_valid s = true → utf8_valid (esc s) = true.
Proof.
  rewrite esc_concat. apply utf8_escaped; intros b Hb; destruct b; try reflexivity; by vm_compute in Hb.
Qed.
Lemma lit_utf8 s : utf8_valid s = true → utf8_valid (q :: esc s ++ [q]) = true.
Proof.
  intros Hs. apply (utf8_valid_app [q]); [done|]. apply utf8_valid_app; [by apply esc_utf8|done].
Qed.
Lemma tail_utf8 {A} (f : A → bytes) l :
  Forall (λ x, utf8_valid (f x) = true) l → utf8_valid (tail f l) = true.
Proof.
  unfold tail. induction 1 as [|x l Hx _ IH]; [done|]. cbn [fmap list_fmap concat].
  rewrite <- app_assoc. apply utf8_valid_app; [done|]. by apply utf8_valid_app.
Qed.
Lemma print_utf8 n j : json_ok n j → utf8_valid (print n j) = true.
Proof.
  revert j; induction n as [|n IH]; intros j Hj; [done|].
  destruct j as [|b|z|t|s|l|l]; cbn [json_ok] in Hj.
  - done.
  - by destruct b.
  - cbn [print]. destruct (Z.ltb_spec z 0); [unfold in_u64 in Hj; lia|]. by apply show_u_utf8.
  - done.
  - by apply lit_utf8.
  - destruct l as [|x l]; [done|]. apply Forall_cons in Hj as [Hx Hl].
    change (print (S n) (JArr (x :: l))) with ("["%bs ++ (print n x ++ tail (print n) l) ++ "]"%bs).
    apply utf8_valid_app; [done|]. apply utf8_valid_app; [|done].
    apply utf8_valid_app; [by apply IH|]. apply tail_utf8. by eapply Forall_impl.
  - assert (∀ kv, utf8_valid kv.1 = true ∧ json_ok n kv.2 → utf8_valid (field n kv) = true) as Hfield.
    { intros kv [Hk Hv]. apply utf8_valid_app; [by apply lit_utf8|].
      apply utf8_valid_app; [done|by apply IH]. }
    destruct l as [|x l]; [done|]. apply Forall_cons in Hj as [Hx Hl].
    change (print (S n) (JObj (x :: l))) with ("{"%bs ++ (field n x ++ tail (field n) l) ++ "}"%bs).
    apply utf8_valid_app; [done|]. apply utf8_valid_app; [|done].
    apply utf8_valid_app; [by apply Hfield|]. apply tail_utf8. eapply Forall_impl; [done|]. apply Hfield.
Qed.

Lemma parse_printed n j : json_ok n j → parse (S (length (print n j))) (print n j) = Some (j, []).
Proof.
  intros Hj. rewrite <- (app_nil_r (print n j)) at 2. apply parse_print; [done|done|lia].
Qed.
Lemma print_from_slice n j bs : json_ok n j → bs = print n j → from_slice bs = Some j.
Proof. intros Hj ->. unfold from_slice, serde. by rewrite parse_printed. Qed.
Lemma printed_is j bs : to_vec j = Ok bs → bs = print JSON_DEPTH j.
Proof.
  unfold to_vec, serde. generalize (print JSON_DEPTH j). intros t Ht. by injection Ht.
Qed.

#[global] Instance serde_laws : SerdeJsonLaws.
Proof.
  constructor.
  - intros j _. by eexists.
  - intros j bs Hj Hbs. apply (print_from_slice JSON_DEPTH); [exact Hj|]. by apply printed_is.
  - intros j bs Hj Hbs. rewrite (printed_is j bs Hbs). by apply print_utf8.
Qed.
End JsonTextLaws.
