(* ===== verification/World.v ===== *)
(** The world the client runs in.

    A component's effects are on three things: the PDDB state [P], the outside
    [O] (clock, entropy, network), and the log of what the client did that the
    outside or the user can see.  [Host] is the operating system and network
    interface over [O]; [World P O] puts the three together.  The traits the
    send path is generic in ([HttpClient], the session enumerator and deleter,
    the sleeper) are classes over the world, with production instances here and
    in the component files. *)

From S2P Require Import Prelude RustStd Base64 Pddb Signal Stores.

(** [ureq]: a request, and what [send_bytes] or [call] returns.  The body is
    what reading the response stream to its end yields. *)
Record http_request := {
  req_method : bytes;
  req_url : bytes;
  req_headers : list (bytes * bytes);
  req_body : option bytes;
}.

Inductive ureq_result :=
  | UreqOk (status : Z) (body : result io_error bytes)
  | UreqStatus (code : Z) (body : result io_error bytes)
  | UreqTransport (text : bytes).

Record HttpResponse := { status : Z; body : bytes }.

#[global] Instance http_request_eq_dec : EqDecision http_request.
Proof. solve_decision. Defined.

(** What the user interface is asked to do. *)
Inductive ui_event :=
  | PostAdd (author : bytes) (ts : Z) (text : bytes)
  | DialogueSet (dict : bytes) (key : option bytes)
  | Redraw
  | Notification (text : bytes)
  | StatusText (text : bytes)
  | BusyState (busy : bool)
  | AuthorRight (author : bytes)
  | Help.

(** [tungstenite]: messages and the errors the client tells apart. *)
Inductive ws_message :=
  | Text (t : bytes)
  | Binary (b : bytes)
  | Ping (b : bytes)
  | Pong (b : bytes)
  | Close
  | Frame.
Inductive ws_error :=
  | WsIo (e : io_error)
  | WsOther (text : bytes).

Inductive event :=
  | EvHttp (r : http_request) (a : ureq_result)
  | EvSleep (ms : Z)
  | EvUi (u : ui_event)
  | EvWsSend (m : ws_message)
  | EvWsClose.

Class Host (O : Type) := {
  instant_now : O → Z * O;
  system_now : O → Z * O;
  os_entropy : O → bytes * O;
  host_sleep : Z → O → O;
  ureq_call : http_request → O → ureq_result * O;
  env_var : bytes → O → option bytes;
}.

(** A WebSocket connection of [SignalWS] and the tick timer. *)
Class WsHost (O : Type) := {
  ws_connect : bytes → bytes → O → result io_error () * O;
  ws_set_read_timeout : option Z → O → result io_error () * O;
  ws_send : ws_message → O → result ws_error () * O;
  ws_read : O → result ws_error ws_message * O;
  ws_close : O → O;
  ticktimer_new : O → bool * O;
  elapsed_ms : O → Z * O;
}.

Record World (P O : Type) := MkWorld { w_pddb : P; w_out : O; w_log : list event }.
Arguments MkWorld {P O}.
Arguments w_pddb {P O}.
Arguments w_out {P O}.
Arguments w_log {P O}.

(** [read_to_vec] and [ureq_response_to_http] (send.rs) *)
Definition read_to_vec (r : result io_error bytes) : result io_error bytes :=
  buf ← r; Ok (take (Z.to_nat 1000000) buf).
Definition ureq_response_to_http (resp : ureq_result) : result io_error HttpResponse :=
  match resp with
  | UreqOk s r | UreqStatus s r => b ← read_to_vec r; Ok {| status := s; body := b |}
  | UreqTransport e => Err (IoError Other ("transport: "%bs ++ e))
  end.

(** The requests [UreqHttpClient] makes. *)
Definition put_request (url auth body : bytes) : http_request :=
  {| req_method := "PUT"%bs; req_url := url;
     req_headers := [("Authorization"%bs : bytes, auth);
                     ("Content-Type"%bs : bytes, "application/json"%bs : bytes)];
     req_body := Some body |}.
Definition get_request (url auth : bytes) : http_request :=
  {| req_method := "GET"%bs; req_url := url;
     req_headers := [("Authorization"%bs : bytes, auth);
                     ("Accept"%bs : bytes, "application/json"%bs : bytes)];
     req_body := None |}.

Section world.
Context {P O : Type}.

Definition on_pddb {E A} (c : ST P E A) : ST (World P O) E A := λ w,
  let '(r, p) := c (w_pddb w) in (r, MkWorld p (w_out w) (w_log w)).
Definition on_out {E A} (f : O → A * O) : ST (World P O) E A := λ w,
  let '(a, o) := f (w_out w) in (Ok a, MkWorld (w_pddb w) o (w_log w)).
Definition emit {E} (e : event) : ST (World P O) E () := λ w,
  (Ok tt, MkWorld (w_pddb w) (w_out w) (w_log w ++ [e])).

Context `{Host O}.

Definition now_instant {E} : ST (World P O) E Z := on_out instant_now.
Definition now_system {E} : ST (World P O) E Z := on_out system_now.
Definition draw_entropy {E} : ST (World P O) E bytes := on_out os_entropy.
Definition env {E} (key : bytes) : ST (World P O) E (option bytes) :=
  gets (λ w, env_var key (w_out w)).
Definition sleep_ms {E} (ms : Z) : ST (World P O) E () :=
  on_out (λ o, (tt, host_sleep ms o));; emit (EvSleep ms).
Definition exchange {E} (r : http_request) : ST (World P O) E ureq_result :=
  a ← on_out (ureq_call r);
  emit (EvHttp r a);;
  mret a.

(** ** UreqHttpClient (send.rs) *)

Definition ureq_put_json (url auth body : bytes) : ST (World P O) io_error HttpResponse :=
  resp ← exchange (put_request url auth body);
  lift (ureq_response_to_http resp).

Definition ureq_get_json (url auth : bytes) : ST (World P O) io_error HttpResponse :=
  resp ← exchange (get_request url auth);
  lift (ureq_response_to_http resp).
End world.

(** * The traits of the send path *)

Class HttpClient (W : Type) := {
  put_json : bytes → bytes → bytes → ST W io_error HttpResponse;
  get_json : bytes → bytes → ST W io_error HttpResponse;
}.
Class DeviceSessionEnum (W : Type) := { device_ids_for {E} : bytes → ST W E (list Z) }.
Class SessionDeleter (W : Type) := { delete_at {E} : ProtocolAddress → ST W E () }.
(** [Instant::now], [SystemTime::now], [OsRng], the [sleeper] closure. *)
Class Runtime (W : Type) := {
  now {E} : ST W E Z;
  system_time {E} : ST W E Z;
  os_rng {E} : ST W E bytes;
  sleeper {E} : Z → ST W E ();
}.

Section production.
Context `{Libsignal, Base64} {P O : Type} `{Pddb P, Host O}.
Abbreviation W := (World P O).

Definition identity_store : PddbIdentityStore :=
  {| account_dict := ACCOUNT_DICT; identity_dict := IDENTITY_DICT |}.
Definition pre_key_store : PddbPreKeyStore := {| prekey_dict := PREKEY_DICT |}.
Definition signed_pre_key_store : PddbSignedPreKeyStore :=
  {| signed_dict := SIGNED_PREKEY_DICT |}.
Definition kyber_pre_key_store : PddbKyberPreKeyStore := {| kyber_dict := KYBER_PREKEY_DICT |}.
Definition session_store : PddbSessionStore := {| session_dict := SESSION_DICT |}.

#[global] Instance world_identity : IdentityKeyStore W := {|
  get_identity_key_pair := on_pddb (Identity_get_identity_key_pair identity_store);
  get_local_registration_id := on_pddb (Identity_get_local_registration_id identity_store);
  save_identity a k := on_pddb (Identity_save_identity identity_store a k);
  is_trusted_identity a k d := on_pddb (Identity_is_trusted_identity identity_store a k d);
  get_identity a := on_pddb (Identity_get_identity identity_store a);
|}.
#[global] Instance world_prekeys : PreKeyStore W := {|
  get_pre_key i := on_pddb (PreKey_get_pre_key pre_key_store i);
  save_pre_key i r := on_pddb (PreKey_save_pre_key pre_key_store i r);
  remove_pre_key i := on_pddb (PreKey_remove_pre_key pre_key_store i);
|}.
#[global] Instance world_signed : SignedPreKeyStore W := {|
  get_signed_pre_key i := on_pddb (SignedPreKey_get_signed_pre_key signed_pre_key_store i);
  save_signed_pre_key i r :=
    on_pddb (SignedPreKey_save_signed_pre_key signed_pre_key_store i r);
|}.
#[global] Instance world_kyber : KyberPreKeyStore W := {|
  get_kyber_pre_key i := on_pddb (KyberPreKey_get_kyber_pre_key kyber_pre_key_store i);
  save_kyber_pre_key i r := on_pddb (KyberPreKey_save_kyber_pre_key kyber_pre_key_store i r);
  mark_kyber_pre_key_used i j k :=
    on_pddb (KyberPreKey_mark_kyber_pre_key_used kyber_pre_key_store i j k);
|}.
#[global] Instance world_sessions : SessionStore W := {|
  load_session a := on_pddb (Session_load_session session_store a);
  store_session a r := on_pddb (Session_store_session session_store a r);
|}.
#[global] Instance world_enum : DeviceSessionEnum W :=
  {| device_ids_for E name := on_pddb (Session_device_ids_for session_store name) |}.
#[global] Instance world_deleter : SessionDeleter W :=
  {| delete_at E a := on_pddb (ignore (pddb_delete_key SESSION_DICT (address_key a))) |}.
#[global] Instance world_http : HttpClient W :=
  {| put_json := ureq_put_json; get_json := ureq_get_json |}.
#[global] Instance world_runtime : Runtime W :=
  {| now E := now_instant; system_time E := now_system; os_rng E := draw_entropy;
     sleeper E := sleep_ms |}.
End production.

(** * Running in the world

    [c] started in [w] returns [r], leaves the key-value contents [m] and adds
    the events [l] to the log. *)
Section world_runs.
Context {P O : Type} `{PddbLaws P}.
Implicit Types w : World P O.

Definition wruns {E A} (c : ST (World P O) E A) w (r : result E A)
    (m : gmap (bytes * bytes) bytes) (l : list event) : Prop :=
  ∃ w', c w = (r, w') ∧ contents (w_pddb w') = m ∧ w_log w' = w_log w ++ l.

Lemma wruns_ret {E A} (a : A) w m :
  contents (w_pddb w) = m → wruns (mret (M := ST _ E) a) w (Ok a) m [].
Proof. intros <-. exists w. by rewrite app_nil_r. Qed.
Lemma wruns_lift {E A} (r : result E A) w m :
  contents (w_pddb w) = m → wruns (lift r) w r m [].
Proof. intros <-. exists w. by rewrite app_nil_r. Qed.
Lemma wruns_throw {E A} (e : E) w m :
  contents (w_pddb w) = m → wruns (A := A) (throw e) w (Err e) m [].
Proof. intros <-. exists w. by rewrite app_nil_r. Qed.
Lemma wruns_bind {E A B} (c : ST _ E A) (f : A → ST _ E B) w a m l r m' l' :
  wruns c w (Ok a) m l →
  (∀ w1, contents (w_pddb w1) = m → wruns (f a) w1 r m' l') →
  wruns (c ≫= f) w r m' (l ++ l').
Proof.
  intros (w1 & E1 & Hm & Hl) Hf. destruct (Hf w1 Hm) as (w2 & E2 & Hm2 & Hl2).
  exists w2. split; [|split; [done|]].
  - unfold mbind, ST_bind. by rewrite E1.
  - by rewrite Hl2, Hl, app_assoc.
Qed.
(** the same after a step that logs nothing *)
Lemma wruns_then {E A B} (c : ST _ E A) (f : A → ST _ E B) w a m r m' l' :
  wruns c w (Ok a) m [] →
  (∀ w1, contents (w_pddb w1) = m → wruns (f a) w1 r m' l') →
  wruns (c ≫= f) w r m' l'.
Proof. intros H1 H2. apply (wruns_bind c f w a m [] r m' l' H1 H2). Qed.
(** the same before a step that logs nothing *)
Lemma wruns_last {E A B} (c : ST _ E A) (f : A → ST _ E B) w a m l r m' :
  wruns c w (Ok a) m l →
  (∀ w1, contents (w_pddb w1) = m → wruns (f a) w1 r m' []) →
  wruns (c ≫= f) w r m' l.
Proof. intros H1 H2. rewrite <- (app_nil_r l). eapply wruns_bind; eauto. Qed.
(** the same at the world the first step reached *)
Lemma wruns_step {E A B} (c : ST _ E A) (f : A → ST _ E B) w a w1 l r m' l' :
  c w = (Ok a, w1) → w_log w1 = w_log w ++ l → wruns (f a) w1 r m' l' →
  wruns (c ≫= f) w r m' (l ++ l').
Proof.
  intros E1 Hl (w2 & E2 & Hm2 & Hl2). exists w2. split; [|split; [done|]].
  - unfold mbind, ST_bind. by rewrite E1.
  - by rewrite Hl2, Hl, app_assoc.
Qed.
Lemma wruns_bind_err {E A B} (c : ST _ E A) (f : A → ST _ E B) w e m l :
  wruns c w (Err e) m l → wruns (c ≫= f) w (Err e) m l.
Proof.
  intros (w1 & E1 & Hm & Hl). exists w1. split; [|done]. unfold mbind, ST_bind. by rewrite E1.
Qed.
Lemma wruns_try {E F A} (c : ST _ F A) w r m l :
  wruns c w r m l → wruns (E := E) (try c) w (Ok r) m l.
Proof. intros (w1 & E1 & Hm). exists w1. unfold try. by rewrite E1. Qed.
Lemma wruns_with_err {E F A} (f : F → E) (c : ST _ F A) w r m l :
  wruns c w r m l → wruns (with_err f c) w (map_err f r) m l.
Proof. intros (w1 & E1 & Hm). exists w1. unfold with_err. by rewrite E1. Qed.
Lemma wruns_pddb {E A} (c : ST P E A) w r m :
  runs c (w_pddb w) r m → wruns (on_pddb c) w r m [].
Proof.
  intros (p & E1 & Hm). unfold wruns, on_pddb. rewrite E1.
  eexists. split; [done|]. simpl. by rewrite app_nil_r.
Qed.
Lemma wruns_out {E A} (f : O → A * O) w m :
  contents (w_pddb w) = m → wruns (E := E) (on_out f) w (Ok (f (w_out w)).1) m [].
Proof.
  intros <-. unfold wruns, on_out. destruct (f (w_out w)) as [a o].
  eexists. split; [done|]. simpl. by rewrite app_nil_r.
Qed.
Lemma wruns_exchange `{Host O} {E} (q : http_request) w m :
  contents (w_pddb w) = m →
  wruns (E := E) (exchange q) w (Ok (ureq_call q (w_out w)).1) m
    [EvHttp q (ureq_call q (w_out w)).1].
Proof.
  intros <-. unfold wruns, exchange, on_out, emit, mbind, ST_bind.
  destruct (ureq_call q (w_out w)) as [a o]. by eexists.
Qed.
End world_runs.
