(* ===== verification/Outgoing.v ===== *)
(** Outgoing message construction (manager/outgoing.rs).

    The inline [prost] structs with their tags, the padding layer, the two
    content builders, encryption of padded content for one device through
    abstract stores, and the persisted recipient pointers with their
    hand-written JSON. *)

From S2P Require Import Prelude RustStd Wire Base64 Pddb Signal Stores World.

Definition DIALOGUE_DICT : bytes := "sigchat.dialogue"%bs.
Definition DEFAULT_PEER_KEY : bytes := "default.peer"%bs.
Definition FOCUSED_PEER_KEY : bytes := "current.peer"%bs.
Definition ACI_SERVICE_ID_KEY : bytes := "aci.service_id"%bs.
Definition DEVICE_ID_KEY : bytes := "device_id"%bs.

Definition ENVELOPE_CIPHERTEXT : Z := 1.
Definition ENVELOPE_PREKEY_BUNDLE : Z := 3.

(** * Wire structs *)

Record DataMessageProto := { dm_body : option bytes; dm_timestamp : option Z }.
Record SentMessageProto := {
  sent_timestamp : option Z;
  sent_message : option DataMessageProto;
  sent_destination_service_id : option bytes;
}.
Record SyncMessageProto := { sync_sent : option SentMessageProto }.
Record ContentProto := {
  content_data_message : option DataMessageProto;
  content_sync_message : option SyncMessageProto;
}.

Section encode.
Context `{WireFormat}.

Definition DataMessage_fields (m : DataMessageProto) : list field :=
  put_len 1 (dm_body m) ++ put_varint 7 (dm_timestamp m).
Definition Sent_fields (m : SentMessageProto) : list field :=
  put_varint 2 (sent_timestamp m) ++
  put_len 3 ((λ d, pb_encode (DataMessage_fields d)) <$> sent_message m) ++
  put_len 7 (sent_destination_service_id m).
Definition Sync_fields (m : SyncMessageProto) : list field :=
  put_len 1 ((λ s, pb_encode (Sent_fields s)) <$> sync_sent m).
Definition Content_fields (m : ContentProto) : list field :=
  put_len 1 ((λ d, pb_encode (DataMessage_fields d)) <$> content_data_message m) ++
  put_len 2 ((λ s, pb_encode (Sync_fields s)) <$> content_sync_message m).
Definition Content_encode (m : ContentProto) : bytes := pb_encode (Content_fields m).
End encode.

(** * Padding *)

(** [content.push(0x80); while content.len() % 160 != 0 { content.push(0) }] *)
Fixpoint pad_zeros (fuel : nat) (content : bytes) : bytes :=
  match fuel with
  | O => content
  | S fuel => if bool_decide (length content mod 160 = 0) then content
              else pad_zeros fuel (content ++ [Byte.x00])
  end.
Definition signal_pad (content : bytes) : bytes :=
  pad_zeros 160 (content ++ [Byte.x80]).

Section builders.
Context `{WireFormat}.

Definition build_padded_data_message_content (plaintext_body : bytes) (timestamp_ms : Z) :
    bytes :=
  let dm := {| dm_body := Some plaintext_body; dm_timestamp := Some timestamp_ms |} in
  let content := {| content_data_message := Some dm; content_sync_message := None |} in
  signal_pad (Content_encode content).

Definition build_padded_sync_transcript_content (recipient_uuid plaintext_body : bytes)
    (timestamp_ms : Z) : bytes :=
  let inner_dm := {| dm_body := Some plaintext_body; dm_timestamp := Some timestamp_ms |} in
  let sent := {| sent_timestamp := Some timestamp_ms;
                 sent_message := Some inner_dm;
                 sent_destination_service_id := Some recipient_uuid |} in
  let sync := {| sync_sent := Some sent |} in
  let content := {| content_data_message := None; content_sync_message := Some sync |} in
  signal_pad (Content_encode content).
End builders.

(** * Encryption for one device *)

Record EncryptedMessage := {
  ciphertext_bytes : bytes;
  ciphertext_type : Z;
  destination_device_id : Z;
  destination_registration_id : Z;
  timestamp_ms : Z;
}.

Inductive OutgoingError :=
  | OPddb (s : bytes)
  | NoRecipient
  | NoLocalAccount (s : bytes)
  | SessionLoad (s : bytes)
  | NoSession
  | RegistrationId (s : bytes)
  | Encrypt (s : bytes)
  | UnsupportedCiphertextType (s : bytes)
  | BadDeviceId (d : Z).

(** [impl Display for OutgoingError] *)
Definition OutgoingError_fmt (e : OutgoingError) : bytes :=
  match e with
  | OPddb s => "pddb: "%bs ++ s
  | NoRecipient => "no current recipient (no peer has messaged us yet)"%bs
  | NoLocalAccount s => "local account: "%bs ++ s
  | SessionLoad s => "session load: "%bs ++ s
  | NoSession => "no session for recipient"%bs
  | RegistrationId s => "registration_id: "%bs ++ s
  | Encrypt s => "encrypt: "%bs ++ s
  | UnsupportedCiphertextType s => "unsupported ciphertext type: "%bs ++ s
  | BadDeviceId d => "device_id "%bs ++ show_u d ++ " out of range (1..=127)"%bs
  end.

Section encrypt.
Context `{Protocol, WireFormat} {W : Type} `{!SessionStore W, !IdentityKeyStore W, Runtime W}.

Definition encrypt_padded_for_recipient (padded_content : bytes) (timestamp_ms : Z)
    (recipient_addr local_addr : ProtocolAddress) : ST W OutgoingError EncryptedMessage :=
  loaded ← with_err (λ e, SessionLoad (debug_err e)) (load_session recipient_addr);
  session_record ← lift (ok_or NoSession loaded);
  dest_reg_id ← lift (map_err (λ e, RegistrationId (debug_err e))
                        (remote_registration_id session_record));
  system_now ← system_time;
  rng ← os_rng;
  ciphertext_message ← with_err (λ e, Encrypt (debug_err e))
    (message_encrypt padded_content recipient_addr local_addr system_now rng);
  '(bs, ty) ← match ciphertext_message with
              | SignalMessage msg => mret (msg, ENVELOPE_CIPHERTEXT)
              | PreKeySignalMessage msg => mret (msg, ENVELOPE_PREKEY_BUNDLE)
              | SenderKeyMessage _ => throw (UnsupportedCiphertextType "SenderKey"%bs)
              | PlaintextContent _ => throw (UnsupportedCiphertextType "Plaintext"%bs)
              end;
  mret {| ciphertext_bytes := bs; ciphertext_type := ty;
          destination_device_id := addr_device recipient_addr;
          destination_registration_id := dest_reg_id;
          timestamp_ms := timestamp_ms |}.

Definition build_encrypted_message_with_stores (plaintext_body : bytes) (timestamp_ms : Z)
    (recipient_addr local_addr : ProtocolAddress) : ST W OutgoingError EncryptedMessage :=
  encrypt_padded_for_recipient (build_padded_data_message_content plaintext_body timestamp_ms)
    timestamp_ms recipient_addr local_addr.
End encrypt.

(** * Recipient pointers *)

(** [extract_string_field(s, key)]: the text between the quoted key, colon and
    opening quote, and the next quote. *)
Definition extract_string_field (s key : bytes) : option bytes :=
  let needle := dq ++ key ++ dq ++ ":"%bs ++ dq in
  i ← find_sub needle s;
  let rest := drop (i + length needle) s in
  e ← find_byte (λ b, bool_decide (b = Byte.x22)) rest;
  Some (take e rest).

Definition extract_number_field (s key : bytes) : option bytes :=
  let needle := dq ++ key ++ dq ++ ":"%bs in
  i ← find_sub needle s;
  let rest := drop (i + length needle) s in
  let e := default (length rest) (find_byte (λ b, negb (is_ascii_digit b)) rest) in
  Some (take e rest).

(** The [format!] of [set_current_recipient] and [set_focused_peer]. *)
Definition peer_json (a : ProtocolAddress) : bytes :=
  "{"%bs ++ dq ++ "uuid"%bs ++ dq ++ ":"%bs ++ dq ++ addr_name a ++ dq ++ ","%bs ++
  dq ++ "device_id"%bs ++ dq ++ ":"%bs ++ show_u (addr_device a) ++ "}"%bs.

Section recipients.
Context `{Libsignal}.

Definition parse_peer_json (s : bytes) : result OutgoingError ProtocolAddress :=
  uuid ← ok_or (OPddb "peer json: uuid missing"%bs) (extract_string_field s "uuid"%bs);
  dev_str ← ok_or (OPddb "peer json: device_id missing"%bs)
              (extract_number_field s "device_id"%bs);
  dev_id ← ok_or (OPddb ("peer json: device_id parse: "%bs ++ parse_int_error u32_max dev_str))
             (parse_u32 dev_str);
  if (dev_id =? 0)%Z || (127 <? dev_id)%Z then Err (BadDeviceId dev_id)
  else dev ← map_err (λ e, OPddb ("DeviceId: "%bs ++ e)) (DeviceId_new dev_id);
       Ok (Addr uuid dev).

Context `{StrDebug}.
Definition parse_demo_peer (uuid : bytes) (device_id_str : option bytes) :
    result bytes ProtocolAddress :=
  let char_ok (i : nat) (c : byte) : bool :=
    if bool_decide (i ∈ [8; 13; 18; 23]) then bool_decide (c = "-"%byte)
    else is_ascii_hexdigit c in
  if negb (bool_decide (length uuid = 36)) || negb (forallb id (imap char_ok uuid)) then
    Err ("not a valid hyphenated UUID: "%bs ++ debug_str uuid)
  else
    device_id ← match device_id_str with
                | Some s => ok_or ("device_id parse: "%bs ++ parse_int_error u32_max s)
                              (parse_u32 s)
                | None => Ok 1%Z
                end;
    if (device_id =? 0)%Z || (127 <? device_id)%Z then
      Err ("device_id out of range (1..=127): "%bs ++ show_u device_id)
    else dev ← map_err (λ e, "DeviceId: "%bs ++ e) (DeviceId_new device_id);
         Ok (Addr uuid dev).

Context {P : Type} `{Pddb P}.

Definition set_peer (key : bytes) (addr : ProtocolAddress) : ST P OutgoingError () :=
  pddb_overwrite (λ e, OPddb ("get: "%bs ++ message e)) (λ e, OPddb ("write: "%bs ++ message e))
    DIALOGUE_DICT key (peer_json addr).
Definition set_current_recipient (remote_addr : ProtocolAddress) : ST P OutgoingError () :=
  set_peer DEFAULT_PEER_KEY remote_addr.
Definition set_focused_peer (addr : ProtocolAddress) : ST P OutgoingError () :=
  set_peer FOCUSED_PEER_KEY addr.

Definition current_recipient : ST P OutgoingError ProtocolAddress :=
  focused ← pddb_get_string DIALOGUE_DICT FOCUSED_PEER_KEY;
  match focused with
  | Some raw => lift (parse_peer_json raw)
  | None =>
      dflt ← pddb_get_string DIALOGUE_DICT DEFAULT_PEER_KEY;
      raw ← lift (ok_or NoRecipient dflt);
      lift (parse_peer_json raw)
  end.

Definition focused_peer_uuid {E} : ST P E (option bytes) :=
  raw ← pddb_get_string DIALOGUE_DICT FOCUSED_PEER_KEY;
  mret (raw ≫= λ raw, extract_string_field raw "uuid"%bs).

Definition local_protocol_address : ST P OutgoingError ProtocolAddress :=
  aci ← pddb_get_string ACCOUNT_DICT ACI_SERVICE_ID_KEY;
  aci ← lift (ok_or (NoLocalAccount "aci.service_id missing"%bs) aci);
  dev_str ← pddb_get_string ACCOUNT_DICT DEVICE_ID_KEY;
  dev_str ← lift (ok_or (NoLocalAccount "device_id missing"%bs) dev_str);
  dev_id ← lift (ok_or (NoLocalAccount ("device_id parse: "%bs ++ parse_int_error u32_max dev_str))
                   (parse_u32 dev_str));
  if (dev_id =? 0)%Z || (127 <? dev_id)%Z then throw (BadDeviceId dev_id)
  else dev ← lift (map_err (λ e, NoLocalAccount ("DeviceId: "%bs ++ e)) (DeviceId_new dev_id));
       mret (Addr aci dev).

Context {O : Type} `{Host O}.
Definition seed_demo_recipient_from_env : ST (World P O) OutgoingError bool :=
  uuid_env ← env "XSC_DEMO_PEER_UUID"%bs;
  match uuid_env with
  | Some ((_ :: _) as uuid) =>
      dev_env ← env "XSC_DEMO_PEER_DEVICE_ID"%bs;
      match parse_demo_peer uuid dev_env with
      | Err reason => mret false
      | Ok addr =>
          current ← try (on_pddb current_recipient);
          if is_ok current then mret false
          else on_pddb (set_current_recipient addr);; mret true
      end
  | _ => mret false
  end.
End recipients.

Section production.
Context `{Protocol, WireFormat, Base64} {P O : Type} `{Pddb P, Host O}.

Definition build_encrypted_message (plaintext_body : bytes) (timestamp_ms : Z)
    (recipient_addr : ProtocolAddress) : ST (World P O) OutgoingError EncryptedMessage :=
  local_addr ← on_pddb local_protocol_address;
  build_encrypted_message_with_stores plaintext_body timestamp_ms recipient_addr local_addr.
End production.

(** * Properties *)

Lemma pad_zeros_spec fuel c :
  160 - length c mod 160 ≤ fuel ∨ length c mod 160 = 0 →
  ∃ n, pad_zeros fuel c = c ++ replicate n Byte.x00 ∧
       length (pad_zeros fuel c) mod 160 = 0 ∧ n < 160.
Proof.
  assert (∀ k, k < 160 → ∀ fuel c, k ≤ fuel → length c mod 160 = (160 - k) mod 160 →
    pad_zeros fuel c = c ++ replicate k Byte.x00) as Hk.
  { induction k as [|k IH]; intros Hlt fuel' c' Hf Hc.
    - rewrite Nat.sub_0_r in Hc. change (160 mod 160) with 0 in Hc.
      cbn [replicate]. rewrite app_nil_r.
      destruct fuel'; cbn [pad_zeros]; [done|]. by rewrite bool_decide_true.
    - destruct fuel' as [|fuel']; [lia|]. cbn [pad_zeros].
      rewrite (Nat.mod_small (160 - S k)) in Hc by lia.
      rewrite bool_decide_false by lia. rewrite IH; [|lia|lia|].
      + by rewrite <- app_assoc.
      + rewrite length_app, Nat.Div0.add_mod, Hc. cbn [length].
        destruct k as [|k]; [done|]. change (1 mod 160) with 1.
        rewrite (Nat.mod_small (160 - S k)) by lia. rewrite Nat.mod_small; lia. }
  pose proof (Nat.mod_upper_bound (length c) 160 ltac:(lia)) as Hb.
  intros Hf. set (r := length c mod 160) in *.
  destruct (decide (r = 0)) as [E|Hne].
  - exists 0. rewrite (Hk 0); [|lia..|].
    + rewrite length_app, Nat.Div0.add_mod. fold r. rewrite E. simpl. split; [done|]. split; [done|lia].
    + fold r. rewrite E. done.
  - exists (160 - r). rewrite (Hk (160 - r)); [|lia..|].
    + split; [done|]. split; [|lia].
      rewrite length_app, length_replicate, Nat.Div0.add_mod. fold r.
      rewrite (Nat.mod_small (160 - r)) by lia.
      replace (r + (160 - r)) with 160 by lia. done.
    + fold r. replace (160 - (160 - r)) with r by lia. by rewrite (Nat.mod_small r) by lia.
Qed.

Lemma signal_pad_shape c :
  ∃ n, n < 160 ∧ signal_pad c = c ++ Byte.x80 :: replicate n Byte.x00 ∧
       length (signal_pad c) mod 160 = 0.
Proof.
  destruct (pad_zeros_spec 160 (c ++ [Byte.x80])) as (n & E & Hm & Hn); [left; lia|].
  exists n. split; [done|]. split; [|done]. unfold signal_pad. by rewrite E, <- app_assoc.
Qed.

(** An address the hand-written JSON can carry. *)
Definition peer_ok (a : ProtocolAddress) : Prop :=
  (Byte.x22 ∉ addr_name a) ∧ utf8_valid (addr_name a) = true ∧ (1 ≤ addr_device a ≤ 127)%Z.

Lemma no_quote_find s t :
  Byte.x22 ∉ s →
  find_byte (λ b, bool_decide (b = Byte.x22)) (s ++ Byte.x22 :: t) = Some (length s).
Proof.
  intros Hs. rewrite find_byte_app_None.
  - cbn [find_byte]. rewrite bool_decide_true by done. simpl. by rewrite Nat.add_0_r.
  - apply forallb_forall. intros b Hb%list_elem_of_In. apply negb_true_iff, bool_decide_eq_false.
    by intros ->.
Qed.

Lemma extract_string_spec pre key s t :
  find_sub (dq ++ key ++ dq ++ ":"%bs ++ dq)
    (pre ++ (dq ++ key ++ dq ++ ":"%bs ++ dq) ++ s ++ Byte.x22 :: t) = Some (length pre) →
  Byte.x22 ∉ s →
  extract_string_field (pre ++ (dq ++ key ++ dq ++ ":"%bs ++ dq) ++ s ++ Byte.x22 :: t) key
  = Some s.
Proof.
  intros Hf Hs. unfold extract_string_field. rewrite Hf. cbn [mbind option_bind].
  rewrite drop_app_add, drop_app_length, no_quote_find by done.
  cbn [mbind option_bind]. by rewrite take_app_length.
Qed.

Lemma extract_number_spec pre key n c t :
  find_sub (dq ++ key ++ dq ++ ":"%bs)
    (pre ++ (dq ++ key ++ dq ++ ":"%bs) ++ show_u n ++ c :: t) = Some (length pre) →
  (0 ≤ n)%Z → is_ascii_digit c = false →
  extract_number_field (pre ++ (dq ++ key ++ dq ++ ":"%bs) ++ show_u n ++ c :: t) key
  = Some (show_u n).
Proof.
  intros Hf Hn Hc. unfold extract_number_field. rewrite Hf. cbn [mbind option_bind].
  rewrite drop_app_add, drop_app_length, find_byte_app_None.
  - cbn [find_byte]. rewrite Hc. cbn [negb]. simpl. rewrite Nat.add_0_r.
    by rewrite take_app_length.
  - apply forallb_forall. intros b Hb. rewrite negb_involutive.
    pose proof (show_u_digits n Hn) as Hd. rewrite forallb_forall in Hd. by apply Hd.
Qed.

Section recipient_spec.
Context `{LibsignalLaws, StrDebug}.

Lemma peer_json_uuid a :
  Byte.x22 ∉ addr_name a → extract_string_field (peer_json a) "uuid"%bs = Some (addr_name a).
Proof.
  intros Hq. unfold peer_json.
  apply (extract_string_spec ["{"%byte] "uuid"%bs); [|done].
  rewrite (find_sub_no_head Byte.x22); [|done|set_solver].
  by rewrite find_sub_app_head.
Qed.

Lemma peer_json_device a :
  Byte.x22 ∉ addr_name a → (0 ≤ addr_device a)%Z →
  extract_number_field (peer_json a) "device_id"%bs = Some (show_u (addr_device a)).
Proof.
  intros Hq Hd.
  set (needle := dq ++ "device_id"%bs ++ dq ++ ":"%bs).
  set (tail := needle ++ show_u (addr_device a) ++ "}"%bs).
  set (mid := addr_name a ++ Byte.x22 :: ","%byte :: tail).
  assert (find_sub needle (Byte.x22 :: mid) = Some (length (addr_name a) + 3)) as Hmid.
  { rewrite find_sub_skip.
    - unfold mid. rewrite (find_sub_no_head Byte.x22) by done. rewrite find_sub_skip by done.
      rewrite find_sub_skip by done. unfold tail. rewrite find_sub_app_head. simpl. f_equal. lia.
    - apply not_true_iff_false. intros [r E]%starts_with_spec. unfold mid in E.
      injection E as E. apply (app_sep_inj_l Byte.x22 (addr_name a) "device_id"%bs) in E as [_ E];
        [done|done|]. set_solver. }
  unfold peer_json.
  assert ("{"%bs ++ dq ++ "uuid"%bs ++ dq ++ ":"%bs ++ dq ++ addr_name a ++ dq ++ ","%bs ++
    dq ++ "device_id"%bs ++ dq ++ ":"%bs ++ show_u (addr_device a) ++ "}"%bs =
    ("{"%bs ++ dq ++ "uuid"%bs ++ dq ++ ":"%bs ++ dq ++ addr_name a ++ dq ++ ","%bs) ++ tail)
    as ->.
  { unfold tail, needle. by rewrite <- !app_assoc. }
  apply extract_number_spec; [|done|done].
  change (find_sub needle (("{"%bs ++ dq ++ "uuid"%bs ++ dq ++ ":"%bs ++ dq ++
    addr_name a ++ dq ++ ","%bs) ++ tail) =
    Some (length ("{"%bs ++ dq ++ "uuid"%bs ++ dq ++ ":"%bs ++ dq ++ addr_name a ++ dq ++ ","%bs))).
  assert (("{"%bs ++ dq ++ "uuid"%bs ++ dq ++ ":"%bs ++ dq ++ addr_name a ++ dq ++ ","%bs) ++ tail
    = "{"%byte :: Byte.x22 :: "u"%byte :: "u"%byte :: "i"%byte :: "d"%byte :: Byte.x22
      :: ":"%byte :: Byte.x22 :: mid) as ->.
  { unfold mid. rewrite <- !app_assoc. done. }
  do 8 (rewrite find_sub_skip by done).
  rewrite Hmid. cbn. f_equal. rewrite length_app. simpl. lia.
Qed.

Lemma parse_peer_json_roundtrip a : peer_ok a → parse_peer_json (peer_json a) = Ok a.
Proof.
  intros (Hq & _ & Hd). unfold parse_peer_json.
  rewrite peer_json_uuid, peer_json_device by (done || lia).
  cbn [ok_or mbind result_bind]. rewrite parse_u32_show by (unfold in_u32, u32_max; lia).
  cbn [ok_or mbind result_bind].
  destruct (Z.eqb_spec (addr_device a) 0), (Z.ltb_spec 127 (addr_device a)); try lia.
  cbn [orb]. assert (DeviceId_new (addr_device a) = Ok (addr_device a)) as ->
    by by apply DeviceId_new_range.
  by destruct a.
Qed.

Lemma peer_json_utf8 a : peer_ok a → utf8_valid (peer_json a) = true.
Proof.
  intros (_ & Hu & Hd).
  change (peer_json a) with (("{"%bs ++ dq ++ "uuid"%bs ++ dq ++ ":"%bs ++ dq) ++ addr_name a ++
    (dq ++ ","%bs ++ dq ++ "device_id"%bs ++ dq ++ ":"%bs) ++ show_u (addr_device a) ++ "}"%bs).
  apply utf8_valid_app; [by vm_compute|]. apply utf8_valid_app; [done|].
  apply utf8_valid_app; [by vm_compute|].
  apply utf8_valid_app; [|done]. apply ascii_utf8_valid, forallb_forall. intros b Hb.
  pose proof (show_u_digits (addr_device a) ltac:(lia)) as Hs. rewrite forallb_forall in Hs.
  apply Hs in Hb. unfold is_ascii_digit in Hb. lia.
Qed.

Context {P : Type} `{PddbLaws P}.
Implicit Types p : P.

Lemma get_string_runs {E} d k p :
  runs (pddb_get_string (E := E) d k) p (Ok (contents p !! (d, k) ≫= from_utf8)) (contents p).
Proof. apply get_string_spec. Qed.

Lemma set_peer_runs key a p :
  runs (set_peer key a) p (Ok ()) (<[(DIALOGUE_DICT, key) := peer_json a]> (contents p)).
Proof. apply overwrite_spec. Qed.

(** What [current_recipient] reads, as a function of the stored pointers. *)
Definition recipient_of (m : gmap (bytes * bytes) bytes) :
    result OutgoingError ProtocolAddress :=
  match m !! (DIALOGUE_DICT, FOCUSED_PEER_KEY) ≫= from_utf8,
        m !! (DIALOGUE_DICT, DEFAULT_PEER_KEY) ≫= from_utf8 with
  | Some raw, _ => parse_peer_json raw
  | None, Some raw => parse_peer_json raw
  | None, None => Err NoRecipient
  end.

Lemma current_recipient_runs p : runs current_recipient p (recipient_of (contents p)) (contents p).
Proof.
  unfold recipient_of. eapply runs_bind; [apply get_string_runs|]. intros p1 Hp1.
  destruct (contents p !! (DIALOGUE_DICT, FOCUSED_PEER_KEY) ≫= from_utf8); [by apply runs_lift|].
  eapply runs_bind; [apply get_string_runs|]. intros p2 Hp2. rewrite Hp1.
  destruct (contents p !! (DIALOGUE_DICT, DEFAULT_PEER_KEY) ≫= from_utf8).
  - eapply runs_bind; [by apply runs_lift|]. intros. apply runs_lift. congruence.
  - apply runs_bind_err, runs_lift. congruence.
Qed.

Lemma peer_json_read a : peer_ok a → from_utf8 (peer_json a) = Some (peer_json a).
Proof. intros Ha. apply from_utf8_Some. split; [done|]. by apply peer_json_utf8. Qed.

Lemma recipient_of_focused a m :
  peer_ok a → recipient_of (<[(DIALOGUE_DICT, FOCUSED_PEER_KEY) := peer_json a]> m) = Ok a.
Proof.
  intros Ha. unfold recipient_of. rewrite lookup_insert_eq. simpl.
  rewrite peer_json_read by done. by apply parse_peer_json_roundtrip.
Qed.

Lemma default_not_focused :
  (DIALOGUE_DICT, DEFAULT_PEER_KEY) ≠ (DIALOGUE_DICT, FOCUSED_PEER_KEY).
Proof. by apply key_ne. Qed.

(** The recipient pointers.  Opening a conversation makes it the recipient
    and the focused peer, and an inbound message from anyone does not take
    the focus away; with nothing focused, the most recent sender is the
    recipient. *)
Theorem recipient_pointers a p :
  peer_ok a →
  (∃ p1, set_focused_peer a p = (Ok (), p1) ∧
     (current_recipient p1).1 = Ok a ∧
     (focused_peer_uuid (E := OutgoingError) p1).1 = Ok (Some (addr_name a)) ∧
     ∀ b, ∃ p2, set_current_recipient b p1 = (Ok (), p2) ∧ (current_recipient p2).1 = Ok a) ∧
  (contents p !! (DIALOGUE_DICT, FOCUSED_PEER_KEY) = None →
   ∃ p1, set_current_recipient a p = (Ok (), p1) ∧ (current_recipient p1).1 = Ok a).
Proof.
  intros Ha. split.
  - destruct (set_peer_runs FOCUSED_PEER_KEY a p) as (p1 & E1 & Hc1).
    exists p1. split; [done|]. split; [|split].
    + destruct (current_recipient_runs p1) as (? & -> & _). rewrite Hc1.
      by apply recipient_of_focused.
    + assert (runs (E := OutgoingError) focused_peer_uuid p1 (Ok (Some (addr_name a)))
        (contents p1)) as (? & -> & _); [|done].
      eapply runs_bind; [apply get_string_runs|]. intros p2 Hp2.
      rewrite Hc1, lookup_insert_eq. simpl.
      rewrite peer_json_read by done. simpl. rewrite peer_json_uuid by apply Ha.
      apply runs_ret. by rewrite Hp2.
    + intros b. destruct (set_peer_runs DEFAULT_PEER_KEY b p1) as (p2 & E2 & Hc2).
      exists p2. split; [done|]. destruct (current_recipient_runs p2) as (? & -> & _).
      simpl. rewrite Hc2, Hc1, insert_insert_ne by apply default_not_focused.
      by apply recipient_of_focused.
  - intros Hn. destruct (set_peer_runs DEFAULT_PEER_KEY a p) as (p1 & E1 & Hc1).
    exists p1. split; [done|]. destruct (current_recipient_runs p1) as (? & -> & _). simpl.
    unfold recipient_of. rewrite Hc1, lookup_insert_ne, Hn, lookup_insert_eq
      by apply default_not_focused.
    simpl. rewrite peer_json_read by done. by apply parse_peer_json_roundtrip.
Qed.

(** The textual UUID format. *)
Definition uuid_char (i : nat) (c : byte) : Prop :=
  if bool_decide (i ∈ [8; 13; 18; 23]) then c = "-"%byte else is_ascii_hexdigit c = true.
Definition uuid_ok (u : bytes) : Prop :=
  length u = 36 ∧ ∀ i c, u !! i = Some c → uuid_char i c.

Lemma forallb_imap (f : nat → byte → bool) u :
  forallb id (imap f u) = true ↔ ∀ i c, u !! i = Some c → f i c = true.
Proof.
  rewrite forallb_forall. split.
  - intros Hall i c Hi. apply (Hall (f i c)), list_elem_of_In, list_elem_of_lookup.
    exists i. by rewrite list_lookup_imap, Hi.
  - intros Hall x [i Hi]%list_elem_of_In%list_elem_of_lookup.
    rewrite list_lookup_imap in Hi. apply fmap_Some in Hi as (c & Hc & ->). by apply (Hall i).
Qed.

Lemma parse_demo_peer_iff u dev a :
  parse_demo_peer u dev = Ok a ↔
  addr_name a = u ∧ uuid_ok u ∧ (1 ≤ addr_device a ≤ 127)%Z ∧
  match dev with None => addr_device a = 1%Z | Some s => parse_u32 s = Some (addr_device a) end.
Proof.
  unfold parse_demo_peer.
  set (f := λ (i : nat) (c : byte), if bool_decide (i ∈ [8; 13; 18; 23])
    then bool_decide (c = "-"%byte) else is_ascii_hexdigit c).
  assert (forallb id (imap f u) = true ↔ ∀ i c, u !! i = Some c → uuid_char i c) as Hf.
  { rewrite forallb_imap. unfold f, uuid_char. split; intros Hall i c Hi;
      specialize (Hall i c Hi); destruct (bool_decide (i ∈ _)); try done.
    - by apply bool_decide_eq_true in Hall.
    - by apply bool_decide_eq_true_2. }
  change (λ i c, _) with f.
  destruct (bool_decide (length u = 36)) eqn:Hl; cbn [negb orb].
  2: { apply bool_decide_eq_false in Hl. split; [done|]. by intros (_ & [? _] & _). }
  apply bool_decide_eq_true in Hl.
  destruct (forallb id (imap f u)) eqn:Hfb; cbn [negb].
  2: { split; [done|]. intros (_ & [_ Hall] & _). apply Hf in Hall. congruence. }
  assert (uuid_ok u) as Hu by (split; [done|by apply Hf]).
  assert (∀ d : Z, (if (d =? 0)%Z || (127 <? d)%Z
      then Err ("device_id out of range (1..=127): "%bs ++ show_u d)
      else dev' ← map_err (λ e : bytes, "DeviceId: "%bs ++ e) (DeviceId_new d); Ok (Addr u dev'))
      = Ok a ↔ addr_name a = u ∧ (1 ≤ addr_device a ≤ 127)%Z ∧ addr_device a = d) as Hd.
  { intros d. split.
    - intros E. destruct (Z.eqb_spec d 0), (Z.ltb_spec 127 d); try done. cbn [orb] in E.
      destruct (DeviceId_new d) as [d'|e] eqn:Ed; [|done]. injection E as <-.
      apply DeviceId_new_range in Ed as [-> Hr]. simpl. done.
    - intros (<- & Hr & <-).
      destruct (Z.eqb_spec (addr_device a) 0), (Z.ltb_spec 127 (addr_device a)); try lia.
      cbn [orb]. assert (DeviceId_new (addr_device a) = Ok (addr_device a)) as ->
        by by apply DeviceId_new_range. by destruct a. }
  destruct dev as [s|].
  - destruct (parse_u32 s) as [d|]; cbn [ok_or mbind result_bind].
    + specialize (Hd d). naive_solver.
    + naive_solver.
  - specialize (Hd 1%Z). cbn [mbind result_bind]. naive_solver.
Qed.

Lemma uuid_no_quote u : uuid_ok u → Byte.x22 ∉ u.
Proof.
  intros [_ Hc] [i Hi]%list_elem_of_lookup. specialize (Hc i _ Hi). unfold uuid_char in Hc.
  by case_match.
Qed.
Lemma uuid_utf8 u : uuid_ok u → utf8_valid u = true.
Proof.
  intros [_ Hc]. apply ascii_utf8_valid, forallb_forall.
  intros b [i Hi]%list_elem_of_In%list_elem_of_lookup. specialize (Hc i b Hi).
  unfold uuid_char in Hc. case_match; [by subst b|]. by destruct b.
Qed.
Lemma demo_peer_ok u dev a : parse_demo_peer u dev = Ok a → peer_ok a.
Proof.
  intros (<- & Hu & Hr & _)%parse_demo_peer_iff. split; [by apply uuid_no_quote|].
  split; [by apply uuid_utf8|done].
Qed.

(** [parse_demo_peer] accepts exactly a 36-byte hyphenated hexadecimal UUID
    with a device id that is absent (then 1) or parses as a number in
    1..=127, and returns that UUID and device. *)
Theorem parse_demo_peer_spec u dev a :
  parse_demo_peer u dev = Ok a ↔
  addr_name a = u ∧ uuid_ok u ∧ (1 ≤ addr_device a ≤ 127)%Z ∧
  match dev with None => addr_device a = 1%Z | Some s => parse_u32 s = Some (addr_device a) end.
Proof. apply parse_demo_peer_iff. Qed.

Context {O : Type} `{Host O}.

(** The demo seed.  It succeeds on every input; it leaves the store as it
    was when the variable is unset, rejected, or a recipient is already
    readable, and otherwise stores exactly the parsed peer as the default. *)
Theorem seed_never_overwrites (w : World P O) :
  let m := contents (w_pddb w) in
  let r := seed_demo_recipient_from_env w in
  let peer := u ← env_var "XSC_DEMO_PEER_UUID"%bs (w_out w);
              match u with
              | [] => None
              | _ => ok (parse_demo_peer u (env_var "XSC_DEMO_PEER_DEVICE_ID"%bs (w_out w)))
              end in
  match peer, recipient_of m with
  | Some a, Err _ => r.1 = Ok true ∧ peer_ok a ∧
      contents (w_pddb r.2) = <[(DIALOGUE_DICT, DEFAULT_PEER_KEY) := peer_json a]> m
  | _, _ => r.1 = Ok false ∧ contents (w_pddb r.2) = m
  end.
Proof.
  intros m r peer. subst r peer. unfold seed_demo_recipient_from_env, env, gets, try, on_pddb.
  unfold mbind, ST_bind, mret, ST_ret. cbn [mbind option_bind].
  destruct (env_var "XSC_DEMO_PEER_UUID"%bs (w_out w)) as [[|b u]|]; simpl; [by split| |by split].
  destruct (parse_demo_peer (b :: u) _) as [a|e] eqn:Ea; simpl; [|by split].
  destruct (current_recipient_runs (w_pddb w)) as (p1 & -> & Hc1). fold m in Hc1 |- *.
  destruct (recipient_of m) as [cur|e]; simpl; [by split|].
  destruct (set_peer_runs DEFAULT_PEER_KEY a p1) as (p2 & E2 & Hc2).
  unfold set_current_recipient. rewrite E2. simpl. split; [done|].
  split; [by eapply demo_peer_ok|]. by rewrite Hc2, Hc1.
Qed.
End recipient_spec.

(** * The theorems at a concrete device *)

Lemma recipient_pointers_witness :
  (∃ p1 : flash, set_focused_peer demo_addr ∅ = (Ok (), p1) ∧
     (current_recipient p1).1 = Ok demo_addr ∧
     (focused_peer_uuid (E := OutgoingError) p1).1 = Ok (Some (addr_name demo_addr)) ∧
     ∀ b, ∃ p2, set_current_recipient b p1 = (Ok (), p2) ∧
       (current_recipient p2).1 = Ok demo_addr) ∧
  (contents (∅ : flash) !! (DIALOGUE_DICT, FOCUSED_PEER_KEY) = None →
   ∃ p1 : flash, set_current_recipient demo_addr ∅ = (Ok (), p1) ∧
     (current_recipient p1).1 = Ok demo_addr).
Proof.
  apply (recipient_pointers demo_addr (∅ : flash)). split_and!; [set_solver|done|by vm_compute..].
Defined.

Definition demo_uuid : bytes := "12345678-9abc-def0-1234-56789abcdef0"%bs.
Lemma parse_demo_peer_spec_witness :
  parse_demo_peer demo_uuid (Some ("7"%bs : bytes)) = Ok (Addr demo_uuid 7) ↔
  demo_uuid = demo_uuid ∧ uuid_ok demo_uuid ∧ (1 ≤ 7 ≤ 127)%Z ∧
  parse_u32 "7"%bs = Some 7%Z.
Proof. exact (parse_demo_peer_spec demo_uuid (Some ("7"%bs : bytes)) (Addr demo_uuid 7)). Defined.
Example demo_uuid_parses : parse_demo_peer demo_uuid None = Ok (Addr demo_uuid 1).
Proof. by vm_compute. Qed.
