(* ===== verification/Server.v ===== *)
(** The message server the tests of manager/send.rs play against.

    [StatefulMockHttp] keeps the devices registered for each account.  It accepts a
    submission that addresses exactly the registered devices, answers any other with
    409 and the missing and the extra devices, and hands out the pre-keys of a
    registered device.  Its two requests are functions of the server's state here, so
    that it can be an HTTP client of a test (SendTests.v) and a specification of the
    answers in a log (SendLive.v). *)

From S2P Require Import Prelude RustStd Json JsonLaws World.

(** * The parts of [str] and [serde_json::Value] it uses *)

(** [s.split(pat).nth(1)] *)
Definition split_nth1 (pat s : bytes) : option bytes :=
  i ← find_sub pat s;
  let r := drop (i + length pat) s in
  Some (match find_sub pat r with Some j => take j r | None => r end).
(** [s.split(c).next()] *)
Definition split_first (c : byte) (s : bytes) : bytes :=
  match find_byte (λ b, bool_decide (b = c)) s with Some i => take i s | None => s end.
(** [s.trim_end_matches(c)] *)
Fixpoint trim_end_matches (c : byte) (s : bytes) : bytes :=
  match s with
  | [] => []
  | b :: s =>
      match trim_end_matches c s with
      | [] => if bool_decide (b = c) then [] else [b]
      | r => b :: r
      end
  end.
(** [v[key]]: [Null] where there is none, the last of duplicate keys *)
Definition index (key : bytes) (v : json) : json :=
  match v with
  | JObj l => default JNull (snd <$> last (filter (λ kv, kv.1 = key) l))
  | _ => JNull
  end.
Definition as_array (v : json) : option (list json) :=
  match v with JArr l => Some l | _ => None end.
Definition as_u64 (v : json) : option Z :=
  match v with JInt z => if (0 <=? z)%Z && (z <=? u64_max)%Z then Some z else None | _ => None end.
Definition as_string (v : json) : option bytes :=
  match v with JStr s => Some s | _ => None end.
(** [z as u32] *)
Definition as_u32 (z : Z) : Z := (z mod 4294967296)%Z.

(** * The server *)
Record RegisteredDevice := { reg_device_id : Z; prekey_response_body : bytes }.
Record StatefulMockHttp := {
  registered : gmap bytes (list RegisteredDevice);
  last_put_body : option bytes;
  put_count : nat;
  get_count : nat;
}.
Definition StatefulMockHttp_new : StatefulMockHttp :=
  {| registered := ∅; last_put_body := None; put_count := 0; get_count := 0 |}.
Definition register_device (uuid : bytes) (dev : RegisteredDevice) (self : StatefulMockHttp) :
    StatefulMockHttp :=
  {| registered := <[uuid := default [] (registered self !! uuid) ++ [dev]]> (registered self);
     last_put_body := last_put_body self; put_count := put_count self; get_count := get_count self |}.
Definition registered_device_ids (self : StatefulMockHttp) (uuid : bytes) : gset Z :=
  match registered self !! uuid with
  | Some v => list_to_set (reg_device_id <$> v)
  | None => ∅
  end.

Section server.
Context `{SerdeJson}.

(** The account a submission goes to, and the devices its body addresses. *)
Definition put_uuid (url : bytes) : bytes :=
  match split_nth1 "/v1/messages/"%bs url with
  | Some s => trim_end_matches "/"%byte (split_first "?"%byte s)
  | None => []
  end.
Definition sent_devices (req : json) : gset Z :=
  list_to_set ((λ e, as_u32 (default 0%Z (as_u64 (index "destinationDeviceId"%bs e))))
    <$> default [] (as_array (index "messages"%bs req))).
Definition devices_json (missing extra : list Z) : json :=
  JObj [("missingDevices"%bs : bytes, JArr (JInt <$> missing));
        ("extraDevices"%bs : bytes, JArr (JInt <$> extra))].
(** [serde_json::to_vec(..).unwrap()]: [None] is the panic *)
Definition put_answer (self : StatefulMockHttp) (url : bytes) (req : json) : option HttpResponse :=
  let sent := sent_devices req in
  let registered := registered_device_ids self (put_uuid url) in
  let missing := registered ∖ sent in
  let extra := sent ∖ registered in
  if bool_decide (missing = ∅ ∧ extra = ∅) then Some {| status := 200; body := "{}"%bs |}
  else
    b ← ok (to_vec (devices_json (sort_unstable (elements missing)) (sort_unstable (elements extra))));
    Some {| status := 409; body := b |}.

(** A request returns [None] when the mock panics. *)
Definition server_put_json (url auth body : bytes) (self : StatefulMockHttp) :
    option (result io_error HttpResponse) * StatefulMockHttp :=
  let self' := {| registered := registered self; last_put_body := Some body;
                  put_count := S (put_count self); get_count := get_count self |} in
  (match from_slice body with
   | None => Some (Err (IoError Other ("body parse: "%bs ++ json_error "Value"%bs body)))
   | Some req => Ok <$> put_answer self' url req
   end, self').

(** [tail.split('/')]: the account and the selector of a pre-key request *)
Definition key_selector (url : bytes) : option (bytes * option bytes) :=
  tail ← split_nth1 "/v2/keys/"%bs url;
  match find_byte (λ b, bool_decide (b = "/"%byte)) tail with
  | Some i => Some (take i tail, Some (split_first "/"%byte (drop (S i) tail)))
  | None => Some (tail, None)
  end.
(** The answer for [*]: the entries of every device under the first identity key. *)
Definition merged_response (entries : list RegisteredDevice) : option HttpResponse :=
  resps ← mapM (λ d, from_slice (prekey_response_body d)) entries;
  let identity := head (omap (λ resp, as_string (index "identityKey"%bs resp)) resps) in
  let all := concat ((λ resp, default [] (as_array (index "devices"%bs resp))) <$> resps) in
  b ← ok (to_vec (JObj [("identityKey"%bs : bytes, JStr (default [] identity));
                        ("devices"%bs : bytes, JArr all)]));
  Some {| status := 200; body := b |}.
Definition server_get_json (url auth : bytes) (self : StatefulMockHttp) :
    option (result io_error HttpResponse) * StatefulMockHttp :=
  let self' := {| registered := registered self; last_put_body := last_put_body self;
                  put_count := put_count self; get_count := S (get_count self) |} in
  (match key_selector url with
   | None => Some (Err (IoError Other ("bad url: "%bs ++ url)))
   | Some (_, None) => Some (Err (IoError Other "missing device selector"%bs))
   | Some (uuid, Some selector) =>
       if bool_decide (selector = "*"%bs) then
         match registered self !! uuid with
         | Some (d :: ds) => Ok <$> merged_response (d :: ds)
         | _ => Some (Ok {| status := 404; body := [] |})
         end
       else
         match parse_u32 selector with
         | None => Some (Err (IoError Other ("bad selector "%bs ++ selector)))
         | Some dev =>
             match list_find (λ d, reg_device_id d = dev) (default [] (registered self !! uuid)) with
             | Some (_, bundle) => Some (Ok {| status := 200; body := prekey_response_body bundle |})
             | None => Some (Err (IoError Other ("no registered device "%bs ++ uuid ++ "/"%bs ++ show_u dev)))
             end
         end
   end, self').
End server.
