(* ===== verification/Send.v ===== *)
(** The send path (manager/send.rs).

    The wire structs of the message submission and pre-key endpoints, the
    status interpretation, the retry loop with its 409/410 recovery, device
    discovery and pre-key bundle processing, and the sync transcript, all
    generic in the stores, the HTTP client and the runtime exactly as the Rust
    functions are; then the PDDB-backed production entry points. *)

From S2P Require Import Prelude RustStd Wire Base64 Json Pddb Signal Stores World Outgoing.

Definition MAX_ATTEMPTS : Z := 3.
(** [Duration::from_secs(30)] in the nanoseconds of an [Instant] *)
Definition RETRY_BUDGET : Z := 30 * 1000000000.
Definition BACKOFF_BASE_MS : Z := 500.
Definition BACKOFF_CAP_MS : Z := 4000.
Definition PASSWORD_KEY : bytes := "password"%bs.
Definition HOST_KEY : bytes := "host"%bs.

(** * Wire types *)

Record OutgoingMessageEntity := {
  message_type : Z;
  entity_device_id : Z;
  entity_registration_id : Z;
  content : bytes;
}.
Record SubmitMessagesRequest := {
  messages : list OutgoingMessageEntity;
  online : bool;
  urgent : bool;
  timestamp : Z;
}.
Record DeviceMismatchResponse := {
  missing_devices : list Z;
  extra_devices : list Z;
  stale_devices : list Z;
}.
Record SignedPreKeyEntry := { spk_key_id : Z; spk_public_key : bytes; spk_signature : bytes }.
Record PreKeyEntry := { pk_key_id : Z; pk_public_key : bytes }.
Record KyberPreKeyEntry := { kpk_key_id : Z; kpk_public_key : bytes; kpk_signature : bytes }.
Record DeviceEntry := {
  device_id : Z;
  registration_id : Z;
  signed_pre_key : SignedPreKeyEntry;
  pre_key : option PreKeyEntry;
  pq_pre_key : KyberPreKeyEntry;
}.
Record PreKeyResponse := { identity_key : bytes; devices : list DeviceEntry }.

(** What [derive(Serialize)] writes. *)
Definition entity_json (e : OutgoingMessageEntity) : json :=
  JObj [("type"%bs : bytes, JInt (message_type e));
        ("destinationDeviceId"%bs : bytes, JInt (entity_device_id e));
        ("destinationRegistrationId"%bs : bytes, JInt (entity_registration_id e));
        ("content"%bs : bytes, JStr (content e))].
Definition request_json (r : SubmitMessagesRequest) : json :=
  JObj [("messages"%bs : bytes, JArr (entity_json <$> messages r));
        ("online"%bs : bytes, JBool (online r));
        ("urgent"%bs : bytes, JBool (urgent r));
        ("timestamp"%bs : bytes, JInt (timestamp r))].

(** What [derive(Deserialize)] reads. *)
Definition de_mismatch (j : json) : option DeviceMismatchResponse :=
  fs ← struct_fields ["missingDevices"%bs : bytes; "extraDevices"%bs : bytes;
                      "staleDevices"%bs : bytes] j;
  match fs with
  | [m; e; s] =>
      m ← or_default [] (de_vec de_u32) m;
      e ← or_default [] (de_vec de_u32) e;
      s ← or_default [] (de_vec de_u32) s;
      Some {| missing_devices := m; extra_devices := e; stale_devices := s |}
  | _ => None
  end.
Definition de_signed_entry (j : json) : option SignedPreKeyEntry :=
  fs ← struct_fields ["keyId"%bs : bytes; "publicKey"%bs : bytes; "signature"%bs : bytes] j;
  match fs with
  | [k; p; s] =>
      k ← required de_u32 k; p ← required de_string p; s ← required de_string s;
      Some {| spk_key_id := k; spk_public_key := p; spk_signature := s |}
  | _ => None
  end.
Definition de_pre_key_entry (j : json) : option PreKeyEntry :=
  fs ← struct_fields ["keyId"%bs : bytes; "publicKey"%bs : bytes] j;
  match fs with
  | [k; p] => k ← required de_u32 k; p ← required de_string p;
              Some {| pk_key_id := k; pk_public_key := p |}
  | _ => None
  end.
Definition de_kyber_entry (j : json) : option KyberPreKeyEntry :=
  fs ← struct_fields ["keyId"%bs : bytes; "publicKey"%bs : bytes; "signature"%bs : bytes] j;
  match fs with
  | [k; p; s] =>
      k ← required de_u32 k; p ← required de_string p; s ← required de_string s;
      Some {| kpk_key_id := k; kpk_public_key := p; kpk_signature := s |}
  | _ => None
  end.
Definition de_device_entry (j : json) : option DeviceEntry :=
  fs ← struct_fields ["deviceId"%bs : bytes; "registrationId"%bs : bytes;
                      "signedPreKey"%bs : bytes; "preKey"%bs : bytes; "pqPreKey"%bs : bytes] j;
  match fs with
  | [d; r; s; p; q] =>
      d ← required de_u32 d; r ← required de_u32 r; s ← required de_signed_entry s;
      p ← or_default None (de_option de_pre_key_entry) p; q ← required de_kyber_entry q;
      Some {| device_id := d; registration_id := r; signed_pre_key := s;
              pre_key := p; pq_pre_key := q |}
  | _ => None
  end.
Definition de_pre_key_response (j : json) : option PreKeyResponse :=
  fs ← struct_fields ["identityKey"%bs : bytes; "devices"%bs : bytes] j;
  match fs with
  | [i; d] => i ← required de_string i; d ← required (de_vec de_device_entry) d;
              Some {| identity_key := i; devices := d |}
  | _ => None
  end.

(** * Errors *)

Inductive SendError :=
  | AuthFailed
  | ServiceIdNotFound
  | PayloadTooLarge
  | ChallengeRequired
  | RetryExhausted
  | Encryption (e : OutgoingError)
  | Account (s : bytes)
  | Transport (s : bytes)
  | BadResponse (s : bytes)
  | Unexpected (code : Z).

(** [impl Display for SendError] *)
Definition SendError_fmt (e : SendError) : bytes :=
  match e with
  | AuthFailed => "auth failed (401)"%bs
  | ServiceIdNotFound => "recipient not found (404)"%bs
  | PayloadTooLarge => "payload too large (413)"%bs
  | ChallengeRequired => "challenge required (428)"%bs
  | RetryExhausted => "retry budget exhausted"%bs
  | Encryption e => "encryption: "%bs ++ OutgoingError_fmt e
  | Account s => "account: "%bs ++ s
  | Transport s => "transport: "%bs ++ s
  | BadResponse s => "bad response: "%bs ++ s
  | Unexpected c => "unexpected status "%bs ++ show_u c
  end.

(** * One submission *)

Record AccountInfo := {
  aci_service_id : bytes;
  acct_device_id : Z;
  acct_password : bytes;
  acct_host : bytes;
}.

(** [interpret_send_status] *)
Definition interpret_send_status (resp : HttpResponse) : result SendError () :=
  let s := status resp in
  if (s =? 200)%Z || (s =? 204)%Z then Ok tt
  else if (s =? 401)%Z then Err AuthFailed
  else if (s =? 404)%Z then Err ServiceIdNotFound
  else if (s =? 413)%Z then Err PayloadTooLarge
  else if (s =? 428)%Z then Err ChallengeRequired
  else if (s =? 409)%Z || (s =? 410)%Z then
    Err (BadResponse ("MISMATCH "%bs ++ show_u s ++ " "%bs ++ from_utf8_lossy (body resp)))
  else if (s =? 429)%Z then Err (Unexpected 429)
  else if (500 <=? s)%Z && (s <=? 599)%Z then Err (Unexpected s)
  else Err (Unexpected s).

Inductive AttemptDecision :=
  | Done
  | Mismatch409 (body : bytes)
  | Mismatch410 (body : bytes)
  | Backoff
  | Fatal (e : SendError).

Definition classify_attempt (r : result SendError ()) : AttemptDecision :=
  match r with
  | Ok _ => Done
  | Err (BadResponse m) =>
      if starts_with "MISMATCH 409 "%bs m then
        Mismatch409 (drop (length ("MISMATCH 409 "%bs : bytes)) m)
      else if starts_with "MISMATCH 410 "%bs m then
        Mismatch410 (drop (length ("MISMATCH 410 "%bs : bytes)) m)
      else Fatal (BadResponse m)
  | Err (Unexpected code) =>
      if (code =? 429)%Z || ((500 <=? code)%Z && (code <=? 599)%Z) then Backoff
      else Fatal (Unexpected code)
  | Err (Transport _) => Backoff
  | Err other => Fatal other
  end.

(** [backoff(attempt)] in milliseconds *)
Definition backoff (attempt : Z) : Z :=
  let shift := Z.min (sat_sub attempt 1) 4 in
  Z.min (Z.shiftl BACKOFF_BASE_MS shift) BACKOFF_CAP_MS.

Section pure.
Context `{Libsignal, Base64, SerdeJson, UrlLib}.

Definition basic_auth (self : AccountInfo) : bytes :=
  "Basic "%bs ++ b64_encode STANDARD
    (aci_service_id self ++ "."%bs ++ show_u (acct_device_id self) ++ ":"%bs ++
     acct_password self).

Definition chat_base_url (self : AccountInfo) : result SendError Url :=
  map_err (λ e, Account ("host "%bs ++ acct_host self ++ " invalid: "%bs ++ e))
    (url_parse ("https://chat."%bs ++ acct_host self)).

Definition enc_to_entity (enc : EncryptedMessage) : OutgoingMessageEntity :=
  {| message_type := if (0 <=? ciphertext_type enc)%Z then ciphertext_type enc else 0%Z;
     entity_device_id := destination_device_id enc;
     entity_registration_id := destination_registration_id enc;
     content := b64_encode STANDARD (ciphertext_bytes enc) |}.

Definition parse_mismatch (body : bytes) : result SendError DeviceMismatchResponse :=
  map_err (λ e, BadResponse ("mismatch parse: "%bs ++ e))
    (from_slice_as "DeviceMismatchResponse"%bs de_mismatch body).

(** [u8::try_from(did)] then [DeviceId::new], with the caller's first error *)
Definition checked_device (range_error : bytes) (did : Z) : result SendError Z :=
  d ← ok_or (BadResponse range_error) (u8_try_from did);
  map_err (λ e, BadResponse ("DeviceId: "%bs ++ e)) (DeviceId_new d).

Definition device_protocol_address (uuid : bytes) (device_id : Z) : option ProtocolAddress :=
  d ← u8_try_from device_id;
  dev ← ok (DeviceId_new d);
  Some (Addr uuid dev).

(** [decode_identity_key], [decode_ec_public], [decode_kyber_public] *)
Definition decode_b64_field {K} (what : bytes)
    (de : bytes → result SignalProtocolError K) (b64 : bytes) : result SendError K :=
  bs ← ok_or (BadResponse (what ++ " b64: "%bs ++ b64_error PERMISSIVE b64))
         (b64_decode PERMISSIVE b64);
  map_err (λ e, BadResponse (what ++ " decode: "%bs ++ debug_err e)) (de bs).
Definition decode_identity_key : bytes → result SendError IdentityKey :=
  decode_b64_field "identity key"%bs identity_decode.
Definition decode_ec_public : bytes → result SendError PublicKey :=
  decode_b64_field "ec pub"%bs public_deserialize.
Definition decode_kyber_public : bytes → result SendError kem_PublicKey :=
  decode_b64_field "kyber pub"%bs kem_deserialize.

Definition decode_signature (what sig : bytes) : result SendError bytes :=
  ok_or (BadResponse (what ++ " b64: "%bs ++ b64_error PERMISSIVE sig))
    (b64_decode PERMISSIVE sig).

Definition build_prekey_bundle (entry : DeviceEntry) (identity_key : IdentityKey) :
    result SendError PreKeyBundle :=
  device ← checked_device ("device id "%bs ++ show_u (device_id entry) ++ " out of range"%bs)
             (device_id entry);
  signed_pub ← decode_ec_public (spk_public_key (signed_pre_key entry));
  signed_sig ← decode_signature "signed pk sig"%bs (spk_signature (signed_pre_key entry));
  kyber_pub ← decode_kyber_public (kpk_public_key (pq_pre_key entry));
  kyber_sig ← decode_signature "kyber pk sig"%bs (kpk_signature (pq_pre_key entry));
  one_time ← match pre_key entry with
             | Some p => k ← decode_ec_public (pk_public_key p); Ok (Some (pk_key_id p, k))
             | None => Ok None
             end;
  map_err (λ e, BadResponse ("PreKeyBundle::new: "%bs ++ debug_err e))
    (PreKeyBundle_new (registration_id entry) device one_time
       (spk_key_id (signed_pre_key entry)) signed_pub signed_sig
       (kpk_key_id (pq_pre_key entry)) kyber_pub kyber_sig identity_key).
End pure.

(** * The generic send path *)
Section generic.
Context `{Protocol, WireFormat, Base64, SerdeJson, UrlLib} {W : Type}.
Context `{!SessionStore W, !IdentityKeyStore W, !DeviceSessionEnum W, !SessionDeleter W,
          !HttpClient W, !Runtime W}.
Variable account : AccountInfo.

Definition submit_messages (recipient_uuid : bytes) (entities : list OutgoingMessageEntity)
    (timestamp_ms : Z) : ST W SendError () :=
  url ← lift (chat_base_url account);
  let url := set_path ("/v1/messages/"%bs ++ recipient_uuid) url in
  let req := {| messages := entities; online := false; urgent := true;
                timestamp := timestamp_ms |} in
  body ← lift (map_err (λ e, BadResponse ("serialize: "%bs ++ e)) (to_vec (request_json req)));
  resp ← with_err (λ e, Transport (message e))
           (put_json (as_str url) (basic_auth account) body);
  lift (interpret_send_status resp).

Definition submit_encrypted_message (enc : EncryptedMessage) (recipient_uuid : bytes) :
    ST W SendError () :=
  submit_messages recipient_uuid [enc_to_entity enc] (timestamp_ms enc).

(** ** 409 / 410 recovery *)

Definition drop_sessions (uuid : bytes) (ids : list Z) : ST W SendError () :=
  for_each (λ d, match device_protocol_address uuid d with
                 | Some addr => delete_at addr
                 | None => mret ()
                 end) ids.

Definition handle_stale_devices (recipient : ProtocolAddress) (mm : DeviceMismatchResponse) :
    ST W SendError () :=
  drop_sessions (addr_name recipient) (stale_devices mm).

Definition process_bundle (context : bytes) (dev_addr : ProtocolAddress)
    (bundle : PreKeyBundle) : ST W SendError () :=
  rng_time ← system_time;
  rng ← os_rng;
  with_err (λ e, BadResponse (context ++ ": "%bs ++ debug_err e))
    (process_prekey_bundle dev_addr bundle rng_time rng).

Definition process_one_prekey_bundle (recipient_uuid : bytes) (id : Z)
    (pre : PreKeyResponse) : ST W SendError () :=
  let found := match list_find (λ d, device_id d = id) (devices pre) with
               | Some (_, d) => Some d
               | None => head (devices pre)
               end in
  entry ← lift (ok_or (BadResponse "prekey response: empty devices"%bs) found);
  ik ← lift (decode_identity_key (identity_key pre));
  bundle ← lift (build_prekey_bundle entry ik);
  dev_addr ← lift (ok_or (BadResponse ("device id "%bs ++ show_u id ++ " out of range"%bs))
                     (device_protocol_address recipient_uuid id));
  process_bundle "process_prekey_bundle"%bs dev_addr bundle.

Definition fetch_missing_device (recipient : ProtocolAddress) (id : Z) : ST W SendError () :=
  url ← lift (chat_base_url account);
  let url := set_path ("/v2/keys/"%bs ++ addr_name recipient ++ "/"%bs ++ show_u id) url in
  resp ← with_err (λ e, Transport ("get prekeys: "%bs ++ message e))
           (get_json (as_str url) (basic_auth account));
  if (status resp =? 200)%Z then
    pre ← lift (map_err (λ e, BadResponse ("prekey response parse: "%bs ++ e))
                  (from_slice_as "PreKeyResponse"%bs de_pre_key_response (body resp)));
    process_one_prekey_bundle (addr_name recipient) id pre
  else if (status resp =? 404)%Z then mret ()
  else if (status resp =? 401)%Z then throw AuthFailed
  else throw (Unexpected (status resp)).

Definition handle_mismatched_devices (recipient : ProtocolAddress)
    (mm : DeviceMismatchResponse) : ST W SendError () :=
  drop_sessions (addr_name recipient) (extra_devices mm);;
  for_each (fetch_missing_device recipient) (missing_devices mm).

(** ** Device discovery *)

Fixpoint establish_devices (account_uuid : bytes) (excluded : option Z) (ik : IdentityKey)
    (entries : list DeviceEntry) : ST W SendError (list Z) :=
  match entries with
  | [] => mret []
  | entry :: entries =>
      if bool_decide (Some (device_id entry) = excluded)
      then establish_devices account_uuid excluded ik entries
      else
        bundle ← lift (build_prekey_bundle entry ik);
        dev_addr ← lift (ok_or (BadResponse ("device id "%bs ++ show_u (device_id entry) ++
                                             " out of range"%bs))
                           (device_protocol_address account_uuid (device_id entry)));
        process_bundle ("discover process_prekey_bundle for "%bs ++ account_uuid ++ "/"%bs ++
                        show_u (device_id entry)) dev_addr bundle;;
        rest ← establish_devices account_uuid excluded ik entries;
        mret (device_id entry :: rest)
  end.

Definition discover_and_establish_account_devices (account_uuid : bytes)
    (excluded : option Z) : ST W SendError (list Z) :=
  url ← lift (chat_base_url account);
  let url := set_path ("/v2/keys/"%bs ++ account_uuid ++ "/*"%bs) url in
  resp ← with_err (λ e, Transport ("discover devices: "%bs ++ message e))
           (get_json (as_str url) (basic_auth account));
  if (status resp =? 200)%Z then
    pre ← lift (map_err (λ e, BadResponse ("discover prekey parse: "%bs ++ e))
                  (from_slice_as "PreKeyResponse"%bs de_pre_key_response (body resp)));
    ik ← lift (decode_identity_key (identity_key pre));
    establish_devices account_uuid excluded ik (devices pre)
  else if (status resp =? 401)%Z then throw AuthFailed
  else if (status resp =? 404)%Z then mret []
  else throw (Unexpected (status resp)).

(** ** The retry loop *)
Section loop.
Variable padded_content : bytes.
Variable timestamp_ms : Z.
Variable recipient_uuid : bytes.
Variable fallback_device_id : Z.
Variable excluded_device_id : option Z.
Variable local_addr : ProtocolAddress.

Definition encrypt_entity (did : Z) : ST W SendError OutgoingMessageEntity :=
  dev ← lift (checked_device ("device id "%bs ++ show_u did ++ " out of range"%bs) did);
  enc ← with_err Encryption
          (encrypt_padded_for_recipient padded_content timestamp_ms
             (Addr recipient_uuid dev) local_addr);
  mret (enc_to_entity enc).

(** [device_ids.retain(|d| *d != excl)] *)
Definition retain_devices (ids : list Z) : list Z :=
  match excluded_device_id with
  | Some excl => filter (λ d, d ≠ excl) ids
  | None => ids
  end.

(** What one attempt does after its submission. *)
Definition after_submit (attempt : Z) (handlers : ProtocolAddress)
    (outcome : result SendError ()) : ST W SendError (Z + bool) :=
  match classify_attempt outcome with
  | Done => mret (inr true)
  | Mismatch409 body =>
      mm ← lift (parse_mismatch body);
      handle_mismatched_devices handlers mm;;
      mret (inl attempt)
  | Mismatch410 body =>
      mm ← lift (parse_mismatch body);
      handle_stale_devices handlers mm;;
      mret (inl attempt)
  | Backoff => sleeper (backoff attempt);; mret (inl attempt)
  | Fatal e => throw e
  end.

Definition submit_to (attempt : Z) (device_ids : list Z) : ST W SendError (Z + bool) :=
  dev ← lift (checked_device ("fallback device id "%bs ++ show_u fallback_device_id ++
                              " out of range"%bs) fallback_device_id);
  entities ← collect encrypt_entity device_ids;
  outcome ← try (submit_messages recipient_uuid entities timestamp_ms);
  after_submit attempt (Addr recipient_uuid dev) outcome.

(** One turn of the loop; [attempt] counts the attempts already made. *)
Definition send_attempt (start attempt : Z) : ST W SendError (Z + bool) :=
  t ← now;
  if (RETRY_BUDGET <? sat_sub t start)%Z then throw RetryExhausted
  else if (MAX_ATTEMPTS <=? attempt)%Z then throw RetryExhausted
  else
    let attempt := (attempt + 1)%Z in
    ids ← device_ids_for recipient_uuid;
    match retain_devices ids, excluded_device_id with
    | [], Some _ => mret (inr false)
    | [], None => submit_to attempt [fallback_device_id]
    | device_ids, _ => submit_to attempt device_ids
    end.

(** The loop ends within four turns (see [submit_terminates]). *)
Definition submit_padded_with_retry_generic : ST W SendError bool :=
  start ← now;
  run_loop 4 RetryExhausted (send_attempt start) 0%Z.
End loop.

Definition submit_with_retry_generic (plaintext : bytes) (timestamp_ms : Z)
    (recipient_addr local_addr : ProtocolAddress) : ST W SendError () :=
  submit_padded_with_retry_generic
    (build_padded_data_message_content plaintext timestamp_ms) timestamp_ms
    (addr_name recipient_addr) (addr_device recipient_addr) None local_addr;;
  mret ().

Definition submit_sync_transcript_generic (plaintext recipient_uuid : bytes)
    (timestamp_ms : Z) (own_uuid : bytes) (own_device_id : Z) (local_addr : ProtocolAddress) :
    ST W SendError () :=
  let transcript :=
    submit_padded_with_retry_generic
      (build_padded_sync_transcript_content recipient_uuid plaintext timestamp_ms) timestamp_ms
      own_uuid own_device_id (Some own_device_id) local_addr;;
    mret () in
  ids ← device_ids_for own_uuid;
  match filter (λ d, d ≠ own_device_id) ids with
  | [] =>
      found ← try (discover_and_establish_account_devices own_uuid (Some own_device_id));
      match found with
      | Ok [] => mret ()
      | Ok _ => transcript
      | Err _ => mret ()
      end
  | _ => transcript
  end.

(** [submit_with_retry_with_stores]: the recipient first, then the sync
    transcript, whose failure is only logged. *)
Definition submit_with_retry_with_stores (plaintext : bytes) (timestamp_ms : Z)
    (recipient_addr local_addr : ProtocolAddress) : ST W SendError () :=
  submit_with_retry_generic plaintext timestamp_ms recipient_addr local_addr;;
  try (F := SendError) (submit_sync_transcript_generic plaintext (addr_name recipient_addr)
         timestamp_ms (aci_service_id account) (acct_device_id account) local_addr);;
  mret ().
End generic.

(** * Production wiring *)
Section production.
Context `{Protocol, WireFormat, Base64, SerdeJson, UrlLib} {P O : Type} `{Pddb P, Host O}.

(** [AccountInfo::read_from_pddb] *)
Definition read_from_pddb : ST P SendError AccountInfo :=
  aci ← pddb_get_string ACCOUNT_DICT ACI_SERVICE_ID_KEY;
  aci ← lift (ok_or (Account "aci.service_id missing"%bs) aci);
  dev_str ← pddb_get_string ACCOUNT_DICT DEVICE_ID_KEY;
  dev_str ← lift (ok_or (Account "device_id missing"%bs) dev_str);
  device_id ← lift (ok_or (Account ("device_id parse: "%bs ++
                                    parse_int_error u32_max (trim dev_str)))
                      (parse_u32 (trim dev_str)));
  password ← pddb_get_string ACCOUNT_DICT PASSWORD_KEY;
  password ← lift (ok_or (Account "password missing"%bs) password);
  host ← pddb_get_string ACCOUNT_DICT HOST_KEY;
  host ← lift (ok_or (Account "host missing"%bs) host);
  mret {| aci_service_id := aci; acct_device_id := device_id;
          acct_password := trim password; acct_host := trim host |}.

Definition submit_with_retry (plaintext : bytes) (timestamp_ms : Z)
    (recipient_addr : ProtocolAddress) : ST (World P O) SendError () :=
  account ← on_pddb read_from_pddb;
  local_dev ← lift (ok_or (Account ("device_id "%bs ++ show_u (acct_device_id account) ++
                                    " out of range"%bs))
                      (u8_try_from (acct_device_id account) ≫= λ d, ok (DeviceId_new d)));
  submit_with_retry_with_stores account plaintext timestamp_ms recipient_addr
    (Addr (aci_service_id account) local_dev).
End production.
