(* ===== verification/SendSpec.v ===== *)
(** What the send path promises, against an interface of its environment.

    [SendEnv] states what the stores, the HTTP client and the runtime promise
    the send path: an invariant, the set of addresses that have a session, and
    the log of requests and sleeps.  The theorems of this file are proved
    against it; the PDDB stores and the ureq client discharge it at the end
    ([world_send_env]). *)

From S2P Require Import Prelude RustStd Wire Base64 Json Pddb Signal Stores World Outgoing Send.

(** * The interface *)
Section interface.
Context `{Libsignal} (W : Type).
Context `{!SessionStore W, !IdentityKeyStore W, !DeviceSessionEnum W, !SessionDeleter W,
          !HttpClient W, !Runtime W}.

Record send_view := {
  v_ok : W → Prop;
  v_has : W → ProtocolAddress → Prop;
  v_log : W → list event;
}.

(** The step [w] to [w'] keeps the invariant and the sessions and appends to
    the log only events satisfying [Q]. *)
Definition extends (v : send_view) (Q : event → Prop) (w w' : W) : Prop :=
  (v_ok v w → v_ok v w') ∧ (∀ c, v_has v w' c ↔ v_has v w c) ∧
    ∃ l, v_log v w' = v_log v w ++ l ∧ Forall Q l.
Definition silent (v : send_view) : W → W → Prop := extends v (λ _, False).
(** The same with one event. *)
Definition emits (v : send_view) (e : event) (w w' : W) : Prop :=
  (v_ok v w → v_ok v w') ∧ (∀ c, v_has v w' c ↔ v_has v w c) ∧
  v_log v w' = v_log v w ++ [e].

Class SendEnv := {
  view : send_view;
  enum_law {E} name w :
    ∃ l w', device_ids_for (E := E) name w = (Ok l, w') ∧ silent view w w' ∧
      StronglySorted Z.lt l ∧
      (v_ok view w → ∀ d, d ∈ l ↔ v_has view w (Addr name d));
  delete_law {E} a w : addr_ok a →
    ∃ w', delete_at (E := E) a w = (Ok tt, w') ∧ (v_ok view w → v_ok view w') ∧
      v_log view w' = v_log view w ∧ ∀ c, v_has view w' c ↔ v_has view w c ∧ c ≠ a;
  load_law a w : addr_ok a →
    ∃ r w', load_session a w = (r, w') ∧ silent view w w' ∧
      match r with Ok None => ¬ v_has view w a | _ => v_has view w a end;
  store_law a r w : addr_ok a →
    ∃ res w', store_session a r w = (res, w') ∧ (v_ok view w → v_ok view w') ∧
      v_log view w' = v_log view w ∧
      match res with
      | Ok _ => ∀ c, v_has view w' c ↔ v_has view w c ∨ c = a
      | Err _ => ∀ c, v_has view w' c ↔ v_has view w c
      end;
  identity_law a : identity_calls (silent view) a;
  now_law {E} w : ∃ t w', now (E := E) w = (Ok t, w') ∧ silent view w w';
  system_time_law {E} : preserved (silent view) (system_time (E := E));
  os_rng_law {E} : preserved (silent view) (os_rng (E := E));
  sleeper_law {E} ms w :
    ∃ w', sleeper (E := E) ms w = (Ok tt, w') ∧ emits view (EvSleep ms) w w';
  put_law url auth b w :
    ∃ a w', put_json url auth b w = (ureq_response_to_http a, w') ∧
      emits view (EvHttp (put_request url auth b) a) w w';
  get_http_law url auth w :
    ∃ a w', get_json url auth w = (ureq_response_to_http a, w') ∧
      emits view (EvHttp (get_request url auth) a) w w';
}.
End interface.
Arguments v_ok {W}.
Arguments v_has {W}.
Arguments v_log {W}.
Arguments extends {W}.
Arguments silent {W}.
Arguments emits {W}.

Lemma app_cons_not_nil' {A} (x : list A) e l : x ++ e :: l = x → False.
Proof. intros E. apply (f_equal length) in E. rewrite length_app in E. simpl in E. lia. Qed.

(** Event classes. *)
Definition is_put (e : event) : bool :=
  match e with EvHttp r _ => bool_decide (req_method r = "PUT"%bs) | _ => false end.
Definition slept (e : event) : Z := match e with EvSleep ms => ms | _ => 0 end.
Definition puts (l : list event) : list event := filter (λ e, is_put e = true) l.
Definition total_sleep (l : list event) : Z := foldr (λ e z, slept e + z)%Z 0%Z l.
(** Neither a submission nor a sleep: the GETs of device recovery. *)
Definition is_get (e : event) : Prop :=
  match e with EvHttp r _ => req_method r = "GET"%bs | _ => False end.

Lemma puts_app l l' : puts (l ++ l') = puts l ++ puts l'.
Proof. apply filter_app. Qed.
Lemma total_sleep_app l l' : total_sleep (l ++ l') = (total_sleep l + total_sleep l')%Z.
Proof. unfold total_sleep. induction l as [|e l IH]; simpl; lia. Qed.
Lemma gets_no_put l : Forall is_get l → puts l = [].
Proof.
  induction 1 as [|e l He _ IH]; [done|]. unfold puts. rewrite filter_cons_False; [done|].
  destruct e as [r a| | | |]; try done. simpl in *. by rewrite He.
Qed.
Lemma gets_no_sleep l : Forall is_get l → total_sleep l = 0%Z.
Proof. induction 1 as [|e l He _ IH]; [done|]. simpl. rewrite IH. by destruct e. Qed.

(** * Status routing *)

(** What each HTTP status does to an attempt: 200 and 204 end it; 401,
    404, 413 and 428 are fatal with their own error; 409 and 410 hand the body
    (exactly, when it is UTF-8) to device recovery; 429 and 5xx back off; every
    other status is fatal. *)
Theorem status_routing s b :
  classify_attempt (interpret_send_status {| status := s; body := b |}) =
  (if (s =? 200) || (s =? 204) then Done
   else if s =? 401 then Fatal AuthFailed
   else if s =? 404 then Fatal ServiceIdNotFound
   else if s =? 413 then Fatal PayloadTooLarge
   else if s =? 428 then Fatal ChallengeRequired
   else if s =? 409 then Mismatch409 (from_utf8_lossy b)
   else if s =? 410 then Mismatch410 (from_utf8_lossy b)
   else if (s =? 429) || ((500 <=? s) && (s <=? 599)) then Backoff
   else Fatal (Unexpected s))%Z ∧
  (utf8_valid b = true → from_utf8_lossy b = b).
Proof.
  split; [|apply from_utf8_lossy_valid].
  unfold interpret_send_status. cbn [status body].
  destruct (Z.eqb_spec s 200), (Z.eqb_spec s 204); try done.
  destruct (Z.eqb_spec s 401); [done|]. destruct (Z.eqb_spec s 404); [done|].
  destruct (Z.eqb_spec s 413); [done|]. destruct (Z.eqb_spec s 428); [done|].
  destruct (Z.eqb_spec s 409) as [->|]; [done|]. destruct (Z.eqb_spec s 410) as [->|]; [done|].
  cbn [orb]. destruct (Z.eqb_spec s 429) as [->|Hn]; [done|].
  destruct ((500 <=? s)%Z && (s <=? 599)%Z) eqn:E; cbn [classify_attempt]; rewrite E;
    by destruct (Z.eqb_spec s 429).
Qed.

(** [backoff] is the capped doubling of 500 ms: 500, 1000, 2000, then 4000
    for every later attempt; it never leaves 500..=4000 and the shift never
    overflows. *)
Theorem backoff_schedule n :
  (0 ≤ n)%Z → (500 ≤ backoff n ≤ 4000)%Z ∧ (backoff n ≤ backoff (n + 1))%Z ∧
  backoff n = Z.min 4000 (500 * 2 ^ Z.max 0 (n - 1)).
Proof.
  intros Hn.
  assert (∀ m, (0 ≤ m)%Z → backoff m = (if (m <=? 1) then 500 else if m =? 2 then 1000
    else if m =? 3 then 2000 else 4000)%Z) as Hb.
  { intros m Hm. unfold backoff, sat_sub, BACKOFF_BASE_MS, BACKOFF_CAP_MS.
    destruct (Z.leb_spec m 1). { by replace (Z.min (Z.max 0 (m - 1)) 4) with 0%Z by lia. }
    destruct (Z.eqb_spec m 2) as [->|]; [done|]. destruct (Z.eqb_spec m 3) as [->|]; [done|].
    destruct (Z.eqb_spec m 4) as [->|]; [done|].
    by replace (Z.min (Z.max 0 (m - 1)) 4) with 4%Z by lia. }
  rewrite (Hb n), (Hb (n + 1)%Z) by lia.
  split; [|split]; repeat case_match; try lia;
    repeat match goal with H : (_ =? _)%Z = true |- _ => apply Z.eqb_eq in H; subst end; try done.
  - by replace (Z.max 0 (n - 1)) with 0%Z by lia.
  - assert (8 ≤ 2 ^ Z.max 0 (n - 1))%Z; [|lia]. change 8%Z with (2 ^ 3)%Z.
    apply Z.pow_le_mono_r; lia.
Qed.

(** * The loop terminates whatever the environment does *)
Section termination.
Context `{Protocol, WireFormat, Base64, SerdeJson, UrlLib} {W : Type}.
Context `{!SessionStore W, !IdentityKeyStore W, !DeviceSessionEnum W, !SessionDeleter W,
          !HttpClient W, !Runtime W}.
Variables (account : AccountInfo) (padded : bytes) (ts : Z) (uuid : bytes) (fallback : Z)
          (excl : option Z) (local : ProtocolAddress).
Abbreviation attempt := (send_attempt account padded ts uuid fallback excl local).

Lemma after_submit_next a h o w a' w' :
  after_submit account a h o w = (Ok (inl a'), w') → a' = a.
Proof.
  unfold after_submit. destruct (classify_attempt o).
  - done.
  - intros (mm & w1 & _ & Hr)%bind_Ok. apply bind_Ok in Hr as ([] & w2 & _ & [= <- _]). done.
  - intros (mm & w1 & _ & Hr)%bind_Ok. apply bind_Ok in Hr as ([] & w2 & _ & [= <- _]). done.
  - intros ([] & w1 & _ & [= <- _])%bind_Ok. done.
  - done.
Qed.

Lemma submit_to_next a ids w a' w' :
  submit_to account padded ts uuid fallback local a ids w = (Ok (inl a'), w') → a' = a.
Proof.
  intros (d & w1 & _ & Hr)%bind_Ok. apply bind_Ok in Hr as (es & w2 & _ & Hr).
  apply bind_Ok in Hr as (o & w3 & _ & Hr). by eapply after_submit_next.
Qed.

Lemma send_attempt_next start a w a' w' :
  attempt start a w = (Ok (inl a'), w') → a' = (a + 1)%Z ∧ (a < MAX_ATTEMPTS)%Z.
Proof.
  intros (t & w1 & _ & Hr)%bind_Ok.
  destruct (RETRY_BUDGET <? sat_sub t start)%Z; [done|].
  destruct (Z.leb_spec MAX_ATTEMPTS a); [done|].
  apply bind_Ok in Hr as (ids & w2 & _ & Hr).
  destruct (retain_devices excl ids), excl; try done; apply submit_to_next in Hr; split; done.
Qed.

Lemma iter_attempts n start a w :
  Z.to_nat (MAX_ATTEMPTS - a) < n → is_Some (iter n (attempt start) a w).
Proof.
  revert a w. induction n as [|n IH]; intros a w Hn; [lia|]. simpl.
  destruct (attempt start a w) as [[[a'|b]|e] w'] eqn:E; [|by eexists..].
  apply send_attempt_next in E as [-> Ha]. apply IH. lia.
Qed.

Lemma submit_iter n start w w1 :
  4 ≤ n → now (E := SendError) w = (Ok start, w1) →
  iter n (attempt start) 0%Z w1 =
  Some (submit_padded_with_retry_generic account padded ts uuid fallback excl local w).
Proof.
  intros Hn En. destruct (iter_attempts 4 start 0 w1) as [r Hr]; [by vm_compute; lia|].
  unfold submit_padded_with_retry_generic, mbind, ST_bind, run_loop.
  rewrite En, Hr. by eapply iter_mono.
Qed.

(** C6: the retry loop always returns.  Whatever the server, the stores and
    the clock do, the loop run for four turns or more ends, and its outcome is
    the result of [submit_padded_with_retry_generic]. *)
Theorem submit_terminates n start w w1 :
  4 ≤ n → now (E := SendError) w = (Ok start, w1) →
  iter n (attempt start) 0%Z w1 =
  Some (submit_padded_with_retry_generic account padded ts uuid fallback excl local w).
Proof. apply submit_iter. Qed.
End termination.

(** * Against the environment *)
Section spec.
Context `{ProtocolLaws, !LibsignalLaws, WireFormat, Base64, SerdeJson, UrlLib} {W : Type}.
Context `{!SessionStore W, !IdentityKeyStore W, !DeviceSessionEnum W, !SessionDeleter W,
          !HttpClient W, !Runtime W, !SendEnv W}.
Abbreviation okw := (v_ok (view W)).
Abbreviation has := (v_has (view W)).
Abbreviation log := (v_log (view W)).
Implicit Types w : W.

#[local] Instance extends_preorder Q : PreOrder (extends (view W) Q).
Proof.
  split.
  - intros w. split; [done|]. split; [done|]. exists []. by rewrite app_nil_r.
  - intros w1 w2 w3 (Hw2 & Hh & l & Hl & HQ) (Hw3 & Hh' & l' & Hl' & HQ'). split; [auto|].
    split; [intros c; by rewrite Hh'|]. exists (l ++ l').
    by rewrite Hl', Hl, app_assoc, Forall_app.
Qed.

Lemma silent_extends Q w w' : silent (view W) w w' → extends (view W) Q w w'.
Proof.
  intros (? & ? & l & ? & HF). split; [done|]. split; [done|].
  exists l. split; [done|]. eapply Forall_impl; [done|]. by intros ? [].
Qed.

Lemma silent_log w w' : silent (view W) w w' → log w' = log w.
Proof.
  intros (? & ? & [|e l] & Hl & HF); [by rewrite app_nil_r in Hl|]. by inversion HF.
Qed.
Lemma silent_intro w w' :
  (okw w → okw w') → (∀ c, has w' c ↔ has w c) → log w' = log w → silent (view W) w w'.
Proof. intros ? ? Hl. split; [done|]. split; [done|]. exists []. by rewrite app_nil_r. Qed.

Lemma device_id_ok d d' : DeviceId_new d = Ok d' → d' = d ∧ (1 ≤ d ≤ 127)%Z.
Proof. apply DeviceId_new_range. Qed.

Lemma small_addr_ok n d : (1 ≤ d ≤ 127)%Z → addr_ok (Addr n d).
Proof. unfold addr_ok, in_u32, u32_max. simpl. lia. Qed.

Lemma checked_device_ok e did d :
  checked_device e did = Ok d → d = did ∧ (1 ≤ did ≤ 127)%Z.
Proof.
  unfold checked_device, u8_try_from. destruct (_ && _); [|done]. cbn [ok_or mbind result_bind].
  destruct (DeviceId_new did) eqn:E; [|done]. intros [= <-]. by apply device_id_ok.
Qed.

Lemma device_protocol_address_ok u did a :
  device_protocol_address u did = Some a ↔ a = Addr u did ∧ (1 ≤ did ≤ 127)%Z.
Proof.
  unfold device_protocol_address, u8_try_from, u8_max. split.
  - destruct (_ && _); [|done]. cbn [mbind option_bind].
    destruct (DeviceId_new did) eqn:E; [|done]. apply device_id_ok in E as [-> ?].
    by intros [= <-].
  - intros [-> Hd]. destruct (Z.leb_spec 0 did), (Z.leb_spec did 255); try lia.
    cbn [andb mbind option_bind].
    assert (DeviceId_new did = Ok did) as -> by by apply DeviceId_new_range. done.
Qed.

(** ** Encryption of one entity *)

Lemma encrypt_silent padded ts a l w :
  addr_ok a → has w a →
  silent (view W) w (encrypt_padded_for_recipient padded ts a l w).2.
Proof.
  intros Ha Hhas.
  set (R := λ w w', has w a → silent (view W) w w').
  assert (PreOrder R) as HR.
  { split; [intros w0 _; reflexivity|]. intros w1 w2 w3 H12 H23 Hh.
    destruct (H12 Hh) as (Hok2 & Hh2 & _). etrans; [by apply H12|]. apply H23. by apply Hh2. }
  assert (∀ E A (c : ST W E A), preserved (silent (view W)) c → preserved R c) as Hsil.
  { intros E A c Hc w0 _. apply Hc. }
  assert (session_calls R a) as Hsess.
  { split.
    - intros w0 Hh. by destruct (load_law W a w0 Ha) as (? & ? & -> & Hs & _).
    - intros r w0 Hh. destruct (store_law W a r w0 Ha) as (res & w' & -> & Hok' & Hl & Hres).
      apply silent_intro; [done| |done].
      intros c. simpl. destruct res; rewrite Hres; [|done]. naive_solver. }
  assert (identity_calls R a) as Hid.
  { destruct (identity_law W a) as (? & ? & ? & ? & ?).
    unfold identity_calls. split_and!; intros; apply Hsil; auto. }
  enough (preserved R (encrypt_padded_for_recipient padded ts a l)) as Hp by by apply Hp.
  unfold encrypt_padded_for_recipient. destruct Hsess as [Hload Hstore].
  apply preserved_bind; [done|by apply preserved_with_err|]. intros o.
  apply preserved_bind; [done|by apply preserved_lift|]. intros r.
  apply preserved_bind; [done|by apply preserved_lift|]. intros g.
  apply preserved_bind; [done|apply Hsil, system_time_law|]. intros t.
  apply preserved_bind; [done|apply Hsil, os_rng_law|]. intros rng.
  apply preserved_bind; [done|apply preserved_with_err; by apply encrypt_frame|]. intros m.
  apply preserved_bind; [done|destruct m; auto with frame|]. intros [bs ty].
  by apply preserved_ret.
Qed.

Lemma encrypt_no_session padded ts a l w :
  addr_ok a → ¬ has w a →
  ∃ w', encrypt_padded_for_recipient padded ts a l w = (Err NoSession, w') ∧
    silent (view W) w w'.
Proof.
  intros Ha Hn. destruct (load_law W a w Ha) as (r & w' & E & Hs & Hr). exists w'.
  unfold encrypt_padded_for_recipient, mbind, ST_bind, with_err. rewrite E.
  by destruct r as [[s|]|e].
Qed.

(** The envelope type and the bytes under which a ciphertext travels. *)
Definition carried (c : CiphertextMessage) : option (Z * bytes) :=
  match c with
  | SignalMessage s => Some (ENVELOPE_CIPHERTEXT, s)
  | PreKeySignalMessage s => Some (ENVELOPE_PREKEY_BUNDLE, s)
  | _ => None
  end.
(** [x] holds what libsignal made of [padded] for device [a] in some state. *)
Definition encrypted (padded : bytes) (a l : ProtocolAddress) (ty : Z) (raw : bytes) : Prop :=
  ∃ t g (w w' : W) c, message_encrypt padded a l t g w = (Ok c, w') ∧ carried c = Some (ty, raw).

Lemma encrypt_result padded ts a l w e w' :
  encrypt_padded_for_recipient padded ts a l w = (Ok e, w') →
  destination_device_id e = addr_device a ∧
  encrypted padded a l (ciphertext_type e) (ciphertext_bytes e).
Proof.
  intros (? & ? & _ & Hr)%bind_Ok.
  do 4 (apply bind_Ok in Hr as (? & ? & _ & Hr)).
  apply bind_Ok in Hr as (c & w1 & Hc & Hr). apply bind_Ok in Hr as ([bs ty] & w2 & Hm & Hr).
  injection Hr as <- _. split; [done|]. unfold with_err in Hc.
  destruct (message_encrypt _ _ _ _ _ _) as [[c'|] w3] eqn:Em; [|done]. injection Hc as -> ->.
  eexists _, _, _, _, c. split; [exact Em|]. destruct c; try done; by injection Hm as <- <- _.
Qed.

(** ** Device recovery *)

Definition named (u : bytes) (ids : list Z) (c : ProtocolAddress) : Prop :=
  addr_name c = u ∧ addr_device c ∈ ids ∧ (1 ≤ addr_device c ≤ 127)%Z.

Lemma drop_sessions_spec u ids w :
  ∃ w', drop_sessions u ids w = (Ok tt, w') ∧ (okw w → okw w') ∧ log w' = log w ∧
    ∀ c, has w' c ↔ has w c ∧ ¬ named u ids c.
Proof.
  unfold drop_sessions. revert w; induction ids as [|d ids IH]; intros w; cbn [for_each].
  { exists w. split_and!; [done..|]. intros c. split; [|by intros [? _]].
    intros Hc. split; [done|]. by intros (_ & ?%elem_of_nil & _). }
  unfold mbind, ST_bind.
  destruct (device_protocol_address u d) as [a|] eqn:Ea.
  - apply device_protocol_address_ok in Ea as [-> Hd].
    destruct (delete_law W (E := SendError) (Addr u d) w (small_addr_ok u d Hd))
      as (w1 & -> & Hok1 & Hl1 & Hh1).
    destruct (IH w1) as (w2 & -> & Hok2 & Hl2 & Hh2). exists w2.
    split_and!; [done|auto|congruence|]. intros c. rewrite Hh2, Hh1. unfold named.
    rewrite elem_of_cons. destruct c as [n d']. simpl. split.
    + intros [[Hc Hne] Hn]. split; [done|]. intros (-> & [->|Hin] & Hr); [by apply Hne|].
      by apply Hn.
    + intros [Hc Hn]. split; [split; [done|]|].
      * intros [= -> ->]. apply Hn. split_and!; auto; lia.
      * intros (-> & Hin & Hr). apply Hn. split_and!; auto; lia.
  - destruct (IH w) as (w2 & E2 & Hok2 & Hl2 & Hh2). exists w2.
    split_and!; [exact E2|done..|]. intros c. rewrite Hh2. unfold named. rewrite elem_of_cons.
    assert (¬ (1 ≤ d ≤ 127)%Z) as Hd.
    { intros Hd. pose proof (proj2 (device_protocol_address_ok u d (Addr u d)) (conj eq_refl Hd)).
      congruence. }
    split; (intros [Hc Hn]; split; [done|]); intros (Hu & Hin & Hr); apply Hn.
    + split_and!; [done| |lia..]. destruct Hin as [Hin|]; [|done]. by rewrite Hin in Hr.
    + split_and!; auto; lia.
Qed.

(** Sessions only appear, and only at [a]; nothing is logged. *)
Definition adds_session (a : ProtocolAddress) (w w' : W) : Prop :=
  (okw w → okw w') ∧ log w' = log w ∧
  (∀ c, has w c → has w' c) ∧ (∀ c, has w' c → has w c ∨ c = a).

#[local] Instance adds_session_preorder a : PreOrder (adds_session a).
Proof.
  split; [intros w; unfold adds_session; split_and!; auto|].
  intros w1 w2 w3 (Ho & Hl & Hm & Hb) (Ho' & Hl' & Hm' & Hb').
  split_and!; [auto|congruence|auto|]. intros c [Hc| ->]%Hb'; auto.
Qed.

Lemma silent_adds a w w' : silent (view W) w w' → adds_session a w w'.
Proof.
  intros Hs. pose proof (silent_log _ _ Hs). destruct Hs as (Ho & Hh & _).
  split_and!; [done|done|intros c; by rewrite Hh|intros c; rewrite Hh; by left].
Qed.

Lemma process_bundle_spec ctx a b w :
  addr_ok a →
  ∃ r w', process_bundle ctx a b w = (r, w') ∧ adds_session a w w' ∧
    (r = Ok tt → has w' a).
Proof.
  intros Ha. unfold process_bundle, mbind, ST_bind, with_err.
  pose proof (system_time_law W (E := SendError) w) as Ht.
  destruct (system_time w) as [[t|e] w1]; simpl in Ht.
  2: { eexists _, _. split; [done|]. split; [by apply silent_adds|done]. }
  pose proof (os_rng_law W (E := SendError) w1) as Hg.
  destruct (os_rng w1) as [[g|e] w2]; simpl in Hg.
  2: { eexists _, _. split; [done|]. split; [|done]. etrans; by apply silent_adds. }
  assert (session_calls (adds_session a) a) as Hsess.
  { split.
    - intros w0. destruct (load_law W a w0 Ha) as (? & ? & -> & Hs & _). by apply silent_adds.
    - intros r w0. destruct (store_law W a r w0 Ha) as (res & w' & -> & Ho & Hl & Hres).
      destruct res; split_and!; simpl; auto; intros c; rewrite Hres; auto. }
  assert (identity_calls (adds_session a) a) as Hid.
  { destruct (identity_law W a) as (? & ? & ? & ? & ?).
    unfold identity_calls, preserved in *. split_and!; intros; apply silent_adds; auto. }
  pose proof (process_frame (adds_session a) a b t g _ Hsess Hid w2) as Hfr.
  destruct (process_prekey_bundle a b t g w2) as [[[]|e] w3] eqn:E; simpl in Hfr |- *;
    (eexists _, _; split; [done|]; split;
     [etrans; [by apply silent_adds|]; etrans; [by apply silent_adds|done]|]); [|done].
  intros _. eapply (process_stores (λ w, has w a)); [done| |].
  - intros r w0 w' Es. destruct (store_law W a r w0 Ha) as (res & w'' & Es' & _ & _ & Hres).
    rewrite Es in Es'. injection Es' as <- <-. apply Hres. by right.
  - destruct (identity_law W a) as (? & ? & ? & ? & ?).
    assert (∀ w w', silent (view W) w w' → has w a → has w' a) as Hk.
    { intros w0 w' (_ & Hh & _). by rewrite Hh. }
    unfold identity_calls, preserved in *. split_and!; intros; eapply Hk; eauto.
Qed.

Section recovery.
Variables (account : AccountInfo) (recipient : ProtocolAddress).
Abbreviation u := (addr_name recipient).

(** [e] is the GET of the pre-keys of device [d], answered with [s]. *)
Definition prekey_fetch (d s : Z) (e : event) : Prop :=
  ∃ base a resp, chat_base_url account = Ok base ∧
    ureq_response_to_http a = Ok resp ∧ status resp = s ∧
    e = EvHttp (get_request (as_str (set_path ("/v2/keys/"%bs ++ u ++ "/"%bs ++ show_u d) base))
                  (basic_auth account)) a.

Lemma fetch_missing_spec d w :
  ∃ r w' l, fetch_missing_device account recipient d w = (r, w') ∧
    (okw w → okw w') ∧ log w' = log w ++ l ∧ Forall is_get l ∧
    (∀ c, has w c → has w' c) ∧
    (∀ c, has w' c → has w c ∨ (c = Addr u d ∧ (1 ≤ d ≤ 127)%Z)) ∧
    (r = Ok tt → ∃ e, l = [e] ∧ (prekey_fetch d 404 e ∨ prekey_fetch d 200 e ∧ has w' (Addr u d))).
Proof.
  unfold fetch_missing_device, mbind at 1, ST_bind at 1, lift at 1.
  destruct (chat_base_url account) as [base|e] eqn:Eb.
  2: { exists (Err e), w, []. rewrite app_nil_r. split_and!; auto; done. }
  unfold mbind at 1, ST_bind at 1, with_err at 1.
  destruct (get_http_law W (as_str (set_path ("/v2/keys/"%bs ++ u ++ "/"%bs ++ show_u d) base))
    (basic_auth account) w) as (a & w1 & -> & Ho1 & Hh1 & Hl1).
  set (ev := EvHttp _ a) in *.
  assert (Forall is_get [ev]) as Hg by by repeat constructor.
  assert (∀ r : result SendError (), (r = Ok tt → prekey_fetch d 404 ev) →
    ∃ r' w' l, (r, w1) = (r', w') ∧ (okw w → okw w') ∧ log w' = log w ++ l ∧ Forall is_get l ∧
    (∀ c, has w c → has w' c) ∧
    (∀ c, has w' c → has w c ∨ (c = Addr u d ∧ (1 ≤ d ≤ 127)%Z)) ∧
    (r' = Ok tt → ∃ e, l = [e] ∧
      (prekey_fetch d 404 e ∨ prekey_fetch d 200 e ∧ has w' (Addr u d)))) as Hstop.
  { intros r Hr. exists r, w1, [ev]. split_and!; [done|done|done|done| | |].
    - intros c. by rewrite Hh1.
    - intros c. rewrite Hh1. by left.
    - intros ->. exists ev. split; [done|]. left. by apply Hr. }
  destruct (ureq_response_to_http a) as [resp|e] eqn:Ea; cbn [map_err]; [|by apply Hstop].
  destruct (Z.eqb_spec (status resp) 200) as [Es|_].
  2: { destruct (Z.eqb_spec (status resp) 404) as [Es|_].
       - apply Hstop. intros _. by exists base, a, resp.
       - destruct (Z.eqb_spec (status resp) 401); by apply Hstop. }
  unfold mbind at 1, ST_bind at 1, lift at 1.
  destruct (map_err _ _) as [pre|e]; [|by apply Hstop].
  unfold process_one_prekey_bundle. unfold mbind at 1, ST_bind at 1, lift at 1.
  destruct (ok_or _ _) as [entry|e]; [|by apply Hstop].
  unfold mbind at 1, ST_bind at 1, lift at 1.
  destruct (decode_identity_key _) as [ik|e]; [|by apply Hstop].
  unfold mbind at 1, ST_bind at 1, lift at 1.
  destruct (build_prekey_bundle entry ik) as [bundle|e]; [|by apply Hstop].
  unfold mbind at 1, ST_bind at 1, lift at 1.
  destruct (device_protocol_address u d) as [da|] eqn:Ed; cbn [ok_or]; [|by apply Hstop].
  apply device_protocol_address_ok in Ed as [-> Hd].
  destruct (process_bundle_spec "process_prekey_bundle"%bs (Addr u d) bundle w1
    (small_addr_ok u d Hd)) as (r & w2 & -> & (Ho2 & Hl2 & Hm2 & Hb2) & Hr).
  exists r, w2, [ev]. split_and!; [done|auto|congruence|done| | |].
  - intros c Hc. by apply Hm2, Hh1.
  - intros c [Hc| ->]%Hb2; [left; by apply Hh1|by right].
  - intros ->. exists ev. split; [done|]. right. split; [by exists base, a, resp|by apply Hr].
Qed.

Lemma fetch_all_spec ids w :
  ∃ r w' l, for_each (fetch_missing_device account recipient) ids w = (r, w') ∧
    (okw w → okw w') ∧ log w' = log w ++ l ∧ Forall is_get l ∧
    (∀ c, has w c → has w' c) ∧
    (∀ c, has w' c → has w c ∨ named u ids c) ∧
    (r = Ok tt → Forall2 (λ d e, prekey_fetch d 404 e ∨
                                 prekey_fetch d 200 e ∧ has w' (Addr u d)) ids l).
Proof.
  revert w; induction ids as [|d ids IH]; intros w; cbn [for_each].
  { exists (Ok tt), w, []. rewrite app_nil_r. split_and!; auto; by constructor. }
  destruct (fetch_missing_spec d w) as (r1 & w1 & l1 & E1 & Ho1 & Hl1 & Hg1 & Hm1 & Hb1 & Hr1).
  unfold mbind, ST_bind. rewrite E1. destruct r1 as [[]|e].
  2: { exists (Err e), w1, l1. split_and!; [done..| |done].
       intros c [Hc|[-> Hd]]%Hb1; [by left|]. right. unfold named. set_solver. }
  destruct (IH w1) as (r & w2 & l2 & E2 & Ho2 & Hl2 & Hg2 & Hm2 & Hb2 & Hr2). rewrite E2.
  exists r, w2, (l1 ++ l2).
  split_and!; [done|auto|by rewrite Hl2, Hl1, app_assoc|by apply Forall_app|auto| |].
  - intros c [[Hc|[-> Hd]]%Hb1|(? & ? & ?)]%Hb2; [by left|right; unfold named; set_solver..].
  - intros ->. destruct (Hr1 eq_refl) as (e & -> & He). constructor; [|by apply Hr2].
    destruct He as [He|[He Hh]]; [by left|]. right. split; [done|]. by apply Hm2.
Qed.

Lemma handle_mismatched_spec mm w :
  ∃ r w' l, handle_mismatched_devices account recipient mm w = (r, w') ∧
    (okw w → okw w') ∧ log w' = log w ++ l ∧ Forall is_get l ∧
    (∀ c, has w c → ¬ named u (extra_devices mm) c → has w' c) ∧
    (∀ c, has w' c → has w c ∧ ¬ named u (extra_devices mm) c ∨ named u (missing_devices mm) c) ∧
    (r = Ok tt → Forall2 (λ d e, prekey_fetch d 404 e ∨
        prekey_fetch d 200 e ∧ has w' (Addr u d)) (missing_devices mm) l).
Proof.
  unfold handle_mismatched_devices, mbind, ST_bind.
  destruct (drop_sessions_spec u (extra_devices mm) w) as (w1 & -> & Ho1 & Hl1 & Hh1).
  destruct (fetch_all_spec (missing_devices mm) w1)
    as (r & w2 & l & E & Ho2 & Hl2 & Hg & Hm & Hb & Hr).
  exists r, w2, l. split_and!; [done|auto|congruence|done| | |done].
  - intros c Hc Hn. apply Hm, Hh1. by split.
  - intros c [Hc|Hc]%Hb; [left; by apply Hh1|by right].
Qed.
End recovery.

Section loop.
Variables (account : AccountInfo) (padded : bytes) (ts : Z) (uuid : bytes) (fallback : Z)
          (excl : option Z) (local : ProtocolAddress).
Abbreviation entity := (encrypt_entity padded ts uuid local).
Abbreviation attempt := (send_attempt account padded ts uuid fallback excl local).

(** [e] carries the content, encrypted for its device. *)
Definition sealed (e : OutgoingMessageEntity) : Prop :=
  ∃ raw, encrypted padded (Addr uuid (entity_device_id e)) local (message_type e) raw ∧
    content e = b64_encode STANDARD raw.

Lemma entity_spec d w :
  ∃ r w', entity d w = (r, w') ∧ silent (view W) w w' ∧
    (∀ e, r = Ok e → entity_device_id e = d ∧ has w (Addr uuid d) ∧ sealed e) ∧
    ((1 ≤ d ≤ 127)%Z → ¬ has w (Addr uuid d) → r = Err (Encryption NoSession)).
Proof.
  unfold encrypt_entity, mbind at 1, ST_bind at 1, lift.
  destruct (checked_device _ d) as [d'|e] eqn:Ed.
  2: { eexists _, _. split; [done|]. split; [reflexivity|]. split; [done|].
       intros Hd _. exfalso. revert Ed. unfold checked_device, u8_try_from, u8_max.
       destruct (Z.leb_spec 0 d), (Z.leb_spec d 255); try lia. cbn [andb ok_or mbind result_bind].
       assert (DeviceId_new d = Ok d) as -> by by apply DeviceId_new_range. done. }
  apply checked_device_ok in Ed as [-> Hd].
  pose proof (small_addr_ok uuid d Hd) as Ha.
  destruct (load_law W (Addr uuid d) w Ha) as (r0 & w0 & _ & _ & Hr0).
  assert (has w (Addr uuid d) ∨ ¬ has w (Addr uuid d)) as [Hh|Hn].
  { destruct r0 as [[|]|]; auto. }
  - pose proof (encrypt_silent padded ts _ local w Ha Hh) as Hs.
    unfold mbind, ST_bind, with_err.
    destruct (encrypt_padded_for_recipient _ _ _ _ w) as [[enc|e] w'] eqn:E;
      (eexists _, _; split; [done|]; split; [done|]; split; [|done]); [|done].
    intros en [= <-]. apply encrypt_result in E as [Hd' Henc]. split_and!; [done|done|].
    exists (ciphertext_bytes enc). split; [|done]. unfold enc_to_entity. cbn. rewrite Hd'.
    assert (0 ≤ ciphertext_type enc)%Z by by destruct Henc as (?&?&?&?&[]&_&[= <- _]).
    by rewrite (proj2 (Z.leb_le 0 _)).
  - destruct (encrypt_no_session padded ts _ local w Ha Hn) as (w' & E & Hs).
    unfold mbind, ST_bind, with_err. rewrite E. eexists _, _. by split_and!.
Qed.

Lemma entities_spec ids w :
  ∃ r w', collect entity ids w = (r, w') ∧ silent (view W) w w' ∧
    (∀ es, r = Ok es → entity_device_id <$> es = ids ∧
       (∀ d, d ∈ ids → has w (Addr uuid d)) ∧ Forall sealed es).
Proof.
  revert w; induction ids as [|d ids IH]; intros w; cbn [collect].
  { eexists _, _. split; [done|]. split; [reflexivity|]. intros es [= <-].
    split_and!; [done|by intros ? ?%elem_of_nil|constructor]. }
  destruct (entity_spec d w) as (r & w1 & E & Hs & Hok & _).
  unfold mbind, ST_bind. rewrite E. destruct r as [e|e].
  2: { eexists _, _. by split_and!. }
  destruct (Hok e eq_refl) as (He & Hh & Hse).
  destruct (IH w1) as (r & w2 & E2 & Hs2 & Hok2). rewrite E2.
  destruct r as [es|e2]; (eexists _, _; split; [done|]; split; [by etrans|]); [|done].
  intros es' [= <-]. destruct (Hok2 es eq_refl) as (Hes & Hh2 & Hses). split_and!; [| |by constructor].
  - cbn [fmap list_fmap]. by f_equal.
  - intros d' [->|Hin]%elem_of_cons; [done|]. apply Hs, Hh2, Hin.
Qed.

(** ** Submission *)

Definition submit_request (es : list OutgoingMessageEntity) : SubmitMessagesRequest :=
  {| messages := es; online := false; urgent := true; timestamp := ts |}.

(** [e] is the PUT of [es] to the recipient's endpoint, answered [a]. *)
Definition submission (es : list OutgoingMessageEntity) (a : ureq_result) (e : event) : Prop :=
  ∃ u bs, chat_base_url account = Ok u ∧ to_vec (request_json (submit_request es)) = Ok bs ∧
    e = EvHttp (put_request (as_str (set_path ("/v1/messages/"%bs ++ uuid) u))
                  (basic_auth account) bs) a.

Definition outcome_of (a : ureq_result) : result SendError () :=
  resp ← map_err (λ e, Transport (message e)) (ureq_response_to_http a);
  interpret_send_status resp.

Definition not_sent (r : result SendError ()) : Prop :=
  ∃ e, r = Err e ∧ classify_attempt r = Fatal e.

Lemma submit_messages_spec es w :
  ∃ r w', submit_messages account uuid es ts w = (r, w') ∧
    (silent (view W) w w' ∧ not_sent r ∨
     ∃ a e, submission es a e ∧ emits (view W) e w w' ∧ r = outcome_of a).
Proof.
  unfold submit_messages, mbind, ST_bind, lift, with_err.
  destruct (chat_base_url account) as [u|e] eqn:Eu.
  2: { eexists _, _. split; [done|]. left. split; [reflexivity|]. exists e. split; [done|].
       unfold chat_base_url in Eu. destruct (url_parse _); [done|].
       by injection Eu as <-. }
  cbn [map_err]. destruct (to_vec _) as [bs|e] eqn:Ej.
  2: { eexists _, _. split; [done|]. left. split; [reflexivity|]. by eexists. }
  cbn [map_err].
  destruct (put_law W (as_str (set_path ("/v1/messages/"%bs ++ uuid) u))
    (basic_auth account) bs w) as (a & w' & E & Hem).
  rewrite E. exists (outcome_of a), w'. split.
  - unfold outcome_of, mbind, result_bind. by destruct (ureq_response_to_http a).
  - right. exists a, (EvHttp (put_request (as_str (set_path ("/v1/messages/"%bs ++ uuid) u))
      (basic_auth account) bs) a). split; [|done]. by exists u, bs.
Qed.

(** ** One attempt *)

Definition next_turn (a : Z) (ans : ureq_result) (r : result SendError (Z + bool))
    (l : list event) : Prop :=
  match classify_attempt (outcome_of ans) with
  | Done => r = Ok (inr true) ∧ l = []
  | Fatal e => r = Err e ∧ l = []
  | Backoff => r = Ok (inl a) ∧ l = [EvSleep (backoff a)]
  | Mismatch409 _ => ((∃ e, r = Err e) ∨ r = Ok (inl a)) ∧ Forall is_get l
  | Mismatch410 _ => ((∃ e, r = Err e) ∨ r = Ok (inl a)) ∧ l = []
  end.

Lemma after_submit_spec a h ans w :
  addr_name h = uuid →
  ∃ r w' l, after_submit account a h (outcome_of ans) w = (r, w') ∧ (okw w → okw w') ∧
    log w' = log w ++ l ∧ (∀ c, addr_name c ≠ uuid → has w' c ↔ has w c) ∧
    next_turn a ans r l.
Proof.
  intros <-. unfold after_submit, next_turn. destruct (classify_attempt (outcome_of ans)).
  - exists (Ok (inr true)), w, []. rewrite app_nil_r. by split_and!.
  - unfold mbind, ST_bind, lift. destruct (parse_mismatch body) as [mm|e].
    2: { exists (Err e), w, []. rewrite app_nil_r. split_and!; eauto. }
    destruct (handle_mismatched_spec account h mm w)
      as (r & w1 & l & -> & Ho & Hl & Hg & Hkeep & Hbound & _).
    assert (∀ c, addr_name c ≠ addr_name h → has w1 c ↔ has w c) as Hother.
    { intros c Hc. split.
      - intros [[? _]|[? _]]%Hbound; done.
      - intros Hh. apply Hkeep; [done|]. by intros [? _]. }
    destruct r as [[]|e]; eexists _, w1, l; split_and!; eauto; done.
  - unfold mbind, ST_bind, lift. destruct (parse_mismatch body) as [mm|e].
    2: { exists (Err e), w, []. rewrite app_nil_r. split_and!; eauto. }
    unfold handle_stale_devices.
    destruct (drop_sessions_spec (addr_name h) (stale_devices mm) w)
      as (w1 & -> & Ho & Hl & Hh).
    eexists _, w1, []. rewrite app_nil_r. split_and!; eauto.
    intros c Hc. rewrite Hh. split; [by intros [? _]|]. intros ?. split; [done|].
    by intros [? _].
  - destruct (sleeper_law W (E := SendError) (backoff a) w) as (w1 & E & Ho & Hh & Hl).
    unfold mbind, ST_bind. rewrite E. eexists _, w1, _. by split_and!.
  - exists (Err e), w, []. rewrite app_nil_r. by split_and!.
Qed.

Lemma submit_to_spec a ids w :
  ∃ r w' l, submit_to account padded ts uuid fallback local a ids w = (r, w') ∧
    (okw w → okw w') ∧ log w' = log w ++ l ∧
    (∀ c, addr_name c ≠ uuid → has w' c ↔ has w c) ∧
    ((l = [] ∧ ∃ e, r = Err e) ∨
     ∃ es ans e l', l = e :: l' ∧ submission es ans e ∧ entity_device_id <$> es = ids ∧
       (∀ d, d ∈ ids → has w (Addr uuid d)) ∧ Forall sealed es ∧ next_turn a ans r l').
Proof.
  unfold submit_to. unfold mbind at 1, ST_bind at 1, lift at 1.
  destruct (checked_device _ fallback) as [dev|e].
  2: { exists (Err e), w, []. rewrite app_nil_r. split_and!; eauto. }
  destruct (entities_spec ids w) as (r & w1 & E1 & Hs1 & Hok1).
  pose proof (silent_log _ _ Hs1) as Hl1. destruct Hs1 as (Ho1 & Hh1 & _).
  unfold mbind at 1, ST_bind at 1. rewrite E1. destruct r as [es|e].
  2: { exists (Err e), w1, []. rewrite app_nil_r. split_and!; eauto. }
  destruct (Hok1 es eq_refl) as (Hes & Hall & Hseal).
  destruct (submit_messages_spec es w1) as (r & w2 & E2 & Hcase).
  unfold mbind, ST_bind, try. rewrite E2. destruct Hcase as [[Hs2 (e & -> & Hf)]|Hput].
  - pose proof (silent_log _ _ Hs2) as Hl2. destruct Hs2 as (Ho2 & Hh2 & _).
    exists (Err e), w2, []. unfold after_submit. rewrite Hf, app_nil_r.
    split_and!; [done|auto|congruence| |by eauto].
    intros c _. by rewrite Hh2, Hh1.
  - destruct Hput as (ans & e & Hsub & (Ho2 & Hh2 & Hl2) & ->).
    destruct (after_submit_spec a (Addr uuid dev) ans w2 eq_refl)
      as (r & w3 & l & E3 & Ho3 & Hl3 & Hh3 & Hnext).
    exists r, w3, (e :: l). split_and!; [done|auto| | |].
    + rewrite Hl3, Hl2, Hl1, <- app_assoc. done.
    + intros c Hc. rewrite Hh3, Hh2, Hh1; done.
    + right. by exists es, ans, e, l.
Qed.

(** The devices a submission must address in [w]: every session of the
    recipient except the excluded device, in increasing order. *)
Definition fan_out w (ids : list Z) : Prop :=
  ids ≠ [] ∧ StronglySorted Z.lt ids ∧
  ∀ d, d ∈ ids ↔ has w (Addr uuid d) ∧ Some d ≠ excl.

Lemma retain_spec ids w :
  StronglySorted Z.lt ids → (∀ d, d ∈ ids ↔ has w (Addr uuid d)) →
  StronglySorted Z.lt (retain_devices excl ids) ∧
  ∀ d, d ∈ retain_devices excl ids ↔ has w (Addr uuid d) ∧ Some d ≠ excl.
Proof.
  intros Hs Hd. unfold retain_devices. destruct excl as [x|].
  - split; [by apply StronglySorted_filter|]. intros d. rewrite list_elem_of_filter, Hd.
    split; intros [? ?]; split; congruence.
  - split; [done|]. intros d. rewrite Hd. by split; [|intros [? _]].
Qed.

(** The outcome of a turn: it ends before submitting anything; or there is
    no device but the excluded one; or it submits to the whole fan-out and
    goes on as the status says. *)
Definition turn (a : Z) w (r : result SendError (Z + bool)) w' (l : list event) : Prop :=
  (l = [] ∧ ∃ e, r = Err e) ∨
  (l = [] ∧ r = Ok (inr false) ∧ excl ≠ None ∧
     ∀ d, has w' (Addr uuid d) → Some d = excl) ∨
  ∃ es ans e l', (a < MAX_ATTEMPTS)%Z ∧ l = e :: l' ∧ submission es ans e ∧
    fan_out w (entity_device_id <$> es) ∧ Forall sealed es ∧ next_turn (a + 1) ans r l'.

Lemma attempt_spec start a w :
  okw w →
  ∃ r w' l, attempt start a w = (r, w') ∧ okw w' ∧ log w' = log w ++ l ∧
    (∀ c, addr_name c ≠ uuid → has w' c ↔ has w c) ∧
    turn a w r w' l.
Proof.
  intros Hw. destruct (now_law W (E := SendError) w) as (t & w1 & E1 & Hs1).
  pose proof (silent_log _ _ Hs1) as Hl1. destruct Hs1 as (Ho1 & Hh1 & _).
  unfold send_attempt. unfold mbind at 1, ST_bind at 1. rewrite E1.
  assert (∀ e, ∃ r w' l, (Err (A := Z + bool) e, w1) = (r, w') ∧ okw w' ∧
    log w' = log w ++ l ∧ (∀ c, addr_name c ≠ uuid → has w' c ↔ has w c) ∧
    turn a w r w' l) as Hstop.
  { intros e. exists (Err e), w1, []. rewrite app_nil_r. split_and!; eauto. left. eauto. }
  destruct (RETRY_BUDGET <? sat_sub t start)%Z; [apply Hstop|].
  destruct (Z.leb_spec MAX_ATTEMPTS a) as [|Hlt]; [apply Hstop|].
  destruct (enum_law W (E := SendError) uuid w1) as (ids & w2 & E2 & Hs2 & Hsort & Hmem).
  pose proof (silent_log _ _ Hs2) as Hl2. destruct Hs2 as (Ho2 & Hh2 & _).
  specialize (Hmem (Ho1 Hw)). unfold mbind at 1, ST_bind at 1. rewrite E2.
  destruct (retain_spec ids w1 Hsort Hmem) as [Hrs Hrm].
  assert (∀ ids', (ids' = retain_devices excl ids ∧ ids' ≠ [] ∨
      retain_devices excl ids = [] ∧ excl = None ∧ ids' ≠ []) →
    ∃ r w' l, submit_to account padded ts uuid fallback local (a + 1) ids' w2 = (r, w') ∧
    okw w' ∧ log w' = log w ++ l ∧ (∀ c, addr_name c ≠ uuid → has w' c ↔ has w c) ∧
    turn a w r w' l) as Hsubmit.
  { intros ids' Hids'.
    destruct (submit_to_spec (a + 1) ids' w2) as (r & w3 & l & E3 & Ho3 & Hl3 & Hh3 & Hcase).
    exists r, w3, l. split_and!; [done|auto|congruence|by intros c ?; rewrite Hh3, Hh2, Hh1|].
    destruct Hcase as [[-> He]|(es & ans & e & l' & -> & Hsub & Hes & Hall & Hseal & Hnext)];
      [by left|]. right. right. exists es, ans, e, l'. split_and!; [done|done|done| |done|done].
    rewrite Hes. destruct Hids' as [[-> Hne]|(Hnil & Hx & Hne)].
    - split_and!; [done|done|]. intros d. rewrite Hrm, Hh1. done.
    - exfalso. destruct ids' as [|d ids']; [done|].
      assert (d ∈ retain_devices excl ids) as Hin; [|by rewrite Hnil in Hin; apply elem_of_nil in Hin].
      apply Hrm. rewrite Hx. split; [|done]. apply Hh2, Hall. by left. }
  destruct (retain_devices excl ids) as [|d0 ids0] eqn:Er.
  - destruct excl as [x|] eqn:Ex.
    + exists (Ok (inr false)), w2, []. rewrite app_nil_r.
      split_and!; [done|auto|congruence|by intros c _; rewrite Hh2, Hh1|].
      right. left. split_and!; [done|done|by rewrite Ex|]. intros d Hd.
      destruct (decide (Some d = excl)); [done|]. exfalso.
      apply (elem_of_nil d). apply Hrm. split; [by apply Hh2|congruence].
    + apply Hsubmit. right. split_and!; [done|congruence|done].
  - destruct excl eqn:Ex; apply Hsubmit; by left.
Qed.

(** ** The loop *)

Lemma classify_done r : classify_attempt r = Done → r = Ok tt.
Proof. destruct r as [[]|e]; [done|]. destruct e; simpl; repeat case_match; done. Qed.

Lemma submission_is_put es ans e : submission es ans e → is_put e = true.
Proof. intros (u & bs & _ & _ & ->). done. Qed.

(** What every submission of the loop is. *)
Definition good_put (e : event) : Prop :=
  is_put e = true → ∃ es ans, submission es ans e ∧ es ≠ [] ∧
    NoDup (entity_device_id <$> es) ∧
    (∀ d, d ∈ entity_device_id <$> es → Some d ≠ excl) ∧ Forall sealed es.

Lemma fan_out_good w es ans e :
  submission es ans e → fan_out w (entity_device_id <$> es) → Forall sealed es → good_put e.
Proof.
  intros Hsub (Hne & Hs & Hd) Hseal _. exists es, ans. split_and!; [done| | | |done].
  - by intros ->.
  - by apply StronglySorted_lt_NoDup.
  - intros d Hin. by apply Hd.
Qed.

(** What the turns after [a] attempts may still sleep. *)
Definition sleep_left (a : Z) : Z :=
  if (a <=? 0)%Z then 3500 else if (a =? 1)%Z then 3000 else if (a =? 2)%Z then 2000 else 0.

Lemma sleep_left_step a : (0 ≤ a < MAX_ATTEMPTS)%Z →
  (backoff (a + 1) + sleep_left (a + 1) ≤ sleep_left a)%Z ∧ (0 ≤ sleep_left (a + 1))%Z.
Proof.
  unfold MAX_ATTEMPTS. intros Ha. assert (a = 0 ∨ a = 1 ∨ a = 2)%Z as [->|[->| ->]] by lia;
    by vm_compute.
Qed.

(** What the tail of a turn does, whichever way it goes. *)
Lemma next_turn_effort a ans r l :
  next_turn a ans r l →
  puts l = [] ∧ (total_sleep l ≤ Z.max 0 (backoff a))%Z ∧ Forall good_put l ∧
  (r = Ok (inr true) → l = [] ∧ outcome_of ans = Ok tt) ∧ r ≠ Ok (inr false) ∧
  (∀ a', r = Ok (inl a') → a' = a).
Proof.
  unfold next_turn. destruct (classify_attempt (outcome_of ans)) eqn:Ec.
  - intros [-> ->]. split_and!; [done|simpl; lia|constructor| |done|done].
    intros _. split; [done|]. by apply classify_done.
  - intros [Hr Hg]. split_and!; [by apply gets_no_put|rewrite gets_no_sleep by done; lia| | | |].
    + eapply Forall_impl; [done|]. intros [rq ?| | | |] Hq Hp; try done. simpl in *.
      rewrite Hq in Hp. done.
    + by destruct Hr as [[? ->]| ->].
    + by destruct Hr as [[? ->]| ->].
    + intros a'. destruct Hr as [[? ->]| ->]; [done|]. by intros [= <-].
  - intros [Hr ->]. split_and!; [done|simpl; lia|constructor| | |].
    + by destruct Hr as [[? ->]| ->].
    + by destruct Hr as [[? ->]| ->].
    + intros a'. destruct Hr as [[? ->]| ->]; [done|]. by intros [= <-].
  - intros [-> ->]. split_and!; [done|simpl; lia| |done|done|by intros ? [= <-]].
    repeat constructor. by intros ?.
  - intros [-> ->]. split_and!; [done|simpl; lia|constructor|done|done|done].
Qed.

Lemma loop_spec n start a w r w' :
  okw w → (0 ≤ a)%Z → iter n (attempt start) a w = Some (r, w') →
  okw w' ∧ (∀ c, addr_name c ≠ uuid → has w' c ↔ has w c) ∧
  ∃ l, log w' = log w ++ l ∧ Forall good_put l ∧
    (Z.of_nat (length (puts l)) ≤ Z.max 0 (MAX_ATTEMPTS - a))%Z ∧
    (total_sleep l ≤ sleep_left a)%Z ∧
    (r = Ok true → ∃ l0 e es ans, l = l0 ++ [e] ∧ submission es ans e ∧
       outcome_of ans = Ok tt ∧ Forall sealed es) ∧
    (r = Ok false → excl ≠ None ∧ ∀ d, has w' (Addr uuid d) → Some d = excl).
Proof.
  revert a w; induction n as [|n IH]; intros a w Hw Ha; [done|]. cbn [iter].
  assert (0 ≤ sleep_left a)%Z as Hsl by (unfold sleep_left; repeat case_match; lia).
  destruct (attempt_spec start a w Hw) as (r1 & w1 & l1 & E1 & Hw1 & Hl1 & Hh1 & Hturn).
  rewrite E1.
  destruct Hturn as [[-> [e ->]]|[(-> & -> & Hx & Hlast)|Hput]].
  - intros [= <- <-]. split_and!; [done|done|]. exists [].
    split_and!; [done|constructor|simpl; lia|simpl; lia|done|done].
  - intros [= <- <-]. split_and!; [done|done|]. exists [].
    split_and!; [done|constructor|simpl; lia|simpl; lia|done|done].
  - destruct Hput as (es & ans & e & l' & Hlt & -> & Hsub & Hfan & Hseal & Hnext).
    destruct (sleep_left_step a ltac:(lia)) as [Hstep Hpos].
    assert (0 ≤ backoff (a + 1))%Z as Hb0.
    { assert (a = 0 ∨ a = 1 ∨ a = 2)%Z as [->|[->| ->]] by (unfold MAX_ATTEMPTS in *; lia);
        by vm_compute. }
    destruct (next_turn_effort _ _ _ _ Hnext) as (Hp & Hsleep & Hgood & Hdone & Hnf & Hinl).
    pose proof (submission_is_put _ _ _ Hsub) as Hisput.
    assert (puts (e :: l') = [e]) as Hpe.
    { unfold puts in *. rewrite filter_cons_True by done. by rewrite Hp. }
    assert (total_sleep (e :: l') = total_sleep l') as Hse.
    { simpl. by destruct Hsub as (? & ? & _ & _ & ->). }
    assert (Forall good_put (e :: l')) as Hge.
    { constructor; [by eapply fan_out_good|done]. }
    destruct r1 as [[a'|b]|er].
    + rewrite (Hinl a' eq_refl) in *. intros Hit.
      destruct (IH (a + 1)%Z w1 Hw1 ltac:(lia) Hit)
        as (Hw' & Hh' & l2 & Hl2 & Hg2 & Hn2 & Hs2 & Ht2 & Hf2).
      split_and!; [done|by intros c ?; rewrite Hh', Hh1|].
      exists ((e :: l') ++ l2). split_and!; [| | | | |done].
      * by rewrite Hl2, Hl1, app_assoc.
      * by apply Forall_app.
      * rewrite puts_app, Hpe, length_app. simpl length at 1. lia.
      * rewrite total_sleep_app, Hse. lia.
      * intros Hr. destruct (Ht2 Hr) as (l0 & e2 & es2 & ans2 & -> & ? & ? & ?).
        exists ((e :: l') ++ l0), e2, es2, ans2. by rewrite app_assoc.
    + intros [= <- <-]. split_and!; [done|done|]. exists (e :: l').
      split_and!; [done|done|rewrite Hpe; simpl; lia|lia| |].
      * intros [= ->]. destruct (Hdone eq_refl) as [-> Hout].
        by exists [], e, es, ans.
      * intros [= ->]. done.
    + intros [= <- <-]. split_and!; [done|done|]. exists (e :: l').
      split_and!; [done|done|rewrite Hpe; simpl; lia|lia|done|done].
Qed.

Abbreviation submit :=
  (submit_padded_with_retry_generic account padded ts uuid fallback excl local).

Lemma submit_spec w :
  okw w → ∃ r w' l, submit w = (r, w') ∧ okw w' ∧ log w' = log w ++ l ∧
    (∀ c, addr_name c ≠ uuid → has w' c ↔ has w c) ∧
    Forall good_put l ∧ length (puts l) ≤ 3 ∧ (total_sleep l ≤ 3500)%Z ∧
    (r = Ok true → ∃ l0 e es ans, l = l0 ++ [e] ∧ submission es ans e ∧
       outcome_of ans = Ok tt ∧ Forall sealed es) ∧
    (r = Ok false → excl ≠ None ∧ ∀ d, has w' (Addr uuid d) → Some d = excl).
Proof.
  intros Hw. destruct (now_law W (E := SendError) w) as (start & w1 & En & Hs).
  pose proof (submit_iter account padded ts uuid fallback excl local 4 start w w1
    ltac:(lia) En) as Hit.
  pose proof (silent_log _ _ Hs) as Hl1. destruct Hs as (Ho & Hh1 & _).
  destruct (submit w) as [r w'].
  destruct (loop_spec 4 start 0 w1 r w' (Ho Hw) ltac:(lia) Hit)
    as (Hw' & Hh & l & Hl & Hg & Hn & Hsl & Ht & Hf).
  exists r, w', l. split_and!; [done|done|congruence| |done| |done|done|done].
  - intros c Hc. by rewrite Hh, Hh1.
  - unfold MAX_ATTEMPTS in Hn. lia.
Qed.

(** C14: bounded effort.  Against any server, one submission makes at most
    three PUTs, sleeps at most 3.5 s in total, keeps the session
    dictionary well formed and leaves the sessions of every other peer
    alone. *)
Theorem submit_bounded_effort w :
  okw w → ∃ r w' l,
    submit_padded_with_retry_generic account padded ts uuid fallback excl local w = (r, w') ∧
    okw w' ∧ log w' = log w ++ l ∧
    length (puts l) ≤ 3 ∧ (total_sleep l ≤ 3500)%Z ∧
    ∀ c, addr_name c ≠ uuid → has w' c ↔ has w c.
Proof.
  intros (r & w' & l & ? & ? & ? & ? & _ & ? & ? & _)%submit_spec.
  exists r, w', l. by split_and!.
Qed.

(** C5: what success means.  [Ok(true)] is returned only after the server
    accepted (200 or 204) the last request, a PUT to the recipient's
    endpoint; [Ok(false)] only on the sync path when no session but the
    excluded device's own is left.  Every PUT names at least one device, no
    device twice, and never the excluded one, and carries for each of them the
    content as libsignal encrypted it for that device. *)
Theorem submit_result_sound w r w' :
  okw w →
  submit_padded_with_retry_generic account padded ts uuid fallback excl local w = (r, w') →
  ∃ l, log w' = log w ++ l ∧ Forall good_put l ∧
    (r = Ok true → ∃ l0 e es ans, l = l0 ++ [e] ∧ submission es ans e ∧
       outcome_of ans = Ok tt ∧ Forall sealed es) ∧
    (r = Ok false → excl ≠ None ∧ ∀ d, has w' (Addr uuid d) → Some d = excl).
Proof.
  intros (r0 & w0 & l & E & _ & Hl & _ & Hg & _ & _ & Ht & Hf)%submit_spec E'.
  rewrite E in E'. injection E' as <- <-. by exists l.
Qed.

(** C15: the fan-out of an attempt.  If an attempt talks to the server at
    all, its first request is a PUT carrying one entity for every device of
    the recipient with a session, the excluded one left out, in increasing
    order, each with the content encrypted for its device; what follows is fixed
    by the status of the answer. *)
Theorem attempt_fan_out start a w r w' e l :
  okw w → send_attempt account padded ts uuid fallback excl local start a w = (r, w') → log w' = log w ++ e :: l →
  ∃ es ans, submission es ans e ∧ fan_out w (entity_device_id <$> es) ∧ Forall sealed es ∧
    next_turn (a + 1) ans r l.
Proof.
  intros Hw E Hlog. destruct (attempt_spec start a w Hw)
    as (r0 & w0 & l0 & E0 & _ & Hl0 & _ & Hturn).
  rewrite E in E0. injection E0 as <- <-. rewrite Hlog in Hl0.
  apply (inj (app _)) in Hl0 as <-.
  destruct Hturn as [[? _]|[[? _]|(es & ans & e' & l' & _ & Heq & ? & ? & ? & ?)]]; [done..|].
  injection Heq as <- <-. by exists es, ans.
Qed.

(** A status that is not retriable ends the send after that one PUT,
    with that status's error. *)
Theorem fatal_status_ends w r w' es ans e l x :
  okw w →
  submit_padded_with_retry_generic account padded ts uuid fallback excl local w = (r, w') → log w' = log w ++ e :: l → submission es ans e →
  classify_attempt (outcome_of ans) = Fatal x → r = Err x ∧ l = [].
Proof.
  intros Hw Hsub Hlog He Hfat. destruct (now_law W (E := SendError) w) as (start & w1 & En & Hs).
  pose proof (submit_iter account padded ts uuid fallback excl local 4 start w w1
    ltac:(lia) En) as Hit. rewrite Hsub in Hit.
  pose proof (silent_log _ _ Hs) as Hl1. destruct Hs as (Ho & Hh1 & _).
  cbn [iter] in Hit.
  destruct (attempt_spec start 0 w1 (Ho Hw)) as (r1 & w2 & l2 & E1 & Hw2 & Hl2 & _ & Hturn).
  rewrite E1 in Hit.
  destruct Hturn as [[-> [er ->]]|[(-> & -> & _)|(es' & ans' & e' & l' & _ & -> & Hsub' & _ & _ & Hnext)]].
  - injection Hit as <- <-. exfalso. rewrite Hlog, app_nil_r, <- Hl1 in Hl2.
    by apply (app_cons_not_nil' _ _ _ Hl2).
  - injection Hit as <- <-. exfalso. rewrite Hlog, app_nil_r, <- Hl1 in Hl2.
    by apply (app_cons_not_nil' _ _ _ Hl2).
  - assert (∃ l3, log w' = log w2 ++ l3) as [l3 Hl3].
    { destruct r1 as [[a'|b]|er]; [|injection Hit as <- <-; by exists []; rewrite app_nil_r..].
      destruct (next_turn_effort _ _ _ _ Hnext) as (_ & _ & _ & _ & _ & Hinl).
      rewrite (Hinl a' eq_refl) in Hit.
      destruct (loop_spec 3 start (0 + 1) w2 r w' Hw2 ltac:(lia) Hit) as (_ & _ & l3 & -> & _).
      by exists l3. }
    assert (e' = e) as ->.
    { rewrite Hl3, Hl2, Hl1, <- app_assoc in Hlog. apply (inj (app _)) in Hlog. by injection Hlog. }
    assert (ans' = ans) as ->.
    { destruct He as (?&?&_&_&->), Hsub' as (?&?&_&_&Heq). by injection Heq. }
    unfold next_turn in Hnext. rewrite Hfat in Hnext. destruct Hnext as [-> ->].
    injection Hit as <- <-. split; [done|].
    rewrite Hl2, Hl1 in Hlog. apply (inj (app _)) in Hlog. by injection Hlog.
Qed.

(** With no session for the recipient nothing is ever sent.  The
    fallback device reaches the encryption step, which reports that there
    is no session; no PUT is made, so no 409 can name the devices to fetch
    pre-keys for. *)
Theorem no_session_no_put w :
  okw w → (∀ d, ¬ has w (Addr uuid d)) → excl = None → (1 ≤ fallback ≤ 127)%Z →
  ∃ e w',
    submit_padded_with_retry_generic account padded ts uuid fallback excl local w = (Err e, w') ∧
    log w' = log w ∧
    (e = Encryption NoSession ∨ e = RetryExhausted).
Proof.
  intros Hw Hno Hx Hf. destruct (now_law W (E := SendError) w) as (start & w1 & En & Hs1).
  destruct (now_law W (E := SendError) w1) as (t & w2 & En2 & Hs2).
  pose proof (silent_log _ _ Hs1) as Hl1. pose proof (silent_log _ _ Hs2) as Hl2.
  pose proof (submit_iter account padded ts uuid fallback excl local 4 start w w1
    ltac:(lia) En) as Hit.
  destruct Hs1 as (Ho1 & Hh1 & _), Hs2 as (Ho2 & Hh2 & _).
  cbn [iter] in Hit. unfold send_attempt at 1, mbind at 1, ST_bind at 1 in Hit.
  rewrite En2 in Hit. destruct (RETRY_BUDGET <? sat_sub t start)%Z.
  { injection Hit as Hit. exists RetryExhausted, w2. split_and!; [done|congruence|by right]. }
  change (MAX_ATTEMPTS <=? 0)%Z with false in Hit. cbv iota in Hit.
  destruct (enum_law W (E := SendError) uuid w2) as (ids & w3 & E3 & Hs3 & _ & Hmem).
  pose proof (silent_log _ _ Hs3) as Hl3. specialize (Hmem (Ho2 (Ho1 Hw))).
  unfold mbind at 1, ST_bind at 1 in Hit. rewrite E3 in Hit.
  assert (ids = []) as ->.
  { destruct ids as [|d ids]; [done|]. exfalso. apply (Hno d), Hh1, Hh2, Hmem. by left. }
  unfold retain_devices in Hit. rewrite Hx in Hit. cbv iota in Hit.
  unfold submit_to, mbind at 1, ST_bind at 1, lift at 1 in Hit.
  assert (∀ e, checked_device e fallback = Ok fallback) as Hcd.
  { intros e. unfold checked_device, u8_try_from, u8_max.
    destruct (Z.leb_spec 0 fallback), (Z.leb_spec fallback 255); try lia.
    cbn [andb ok_or mbind result_bind].
    assert (DeviceId_new fallback = Ok fallback) as -> by by apply DeviceId_new_range. done. }
  rewrite Hcd in Hit.
  destruct (entity_spec fallback w3) as (r & w4 & E4 & Hs4 & _ & Herr).
  rewrite Herr in E4; [|done|].
  2: { intros Hh. destruct Hs3 as (_ & Hh3 & _). by apply (Hno fallback), Hh1, Hh2, Hh3. }
  assert (collect (encrypt_entity padded ts uuid local) [fallback] w3 =
          (Err (Encryption NoSession), w4)) as Hcol.
  { cbn [collect]. unfold mbind, ST_bind. by rewrite E4. }
  unfold mbind at 1, ST_bind at 1 in Hit. rewrite Hcol in Hit.
  injection Hit as Hit. pose proof (silent_log _ _ Hs4) as Hl4.
  exists (Encryption NoSession), w4. rewrite Hx. split_and!; [done|congruence|by left].
Qed.
End loop.

(** ** Recovery and discovery *)

(** 410 recovery deletes exactly the sessions of the stale devices. *)
Theorem stale_devices_dropped h mm w :
  ∃ w', handle_stale_devices h mm w = (Ok tt, w') ∧ (okw w → okw w') ∧ log w' = log w ∧
    ∀ c, has w' c ↔ has w c ∧ ¬ named (addr_name h) (stale_devices mm) c.
Proof. apply drop_sessions_spec. Qed.

(** C16: 409 recovery.  Sessions of extra devices go, no other session is lost,
    and new ones appear only at missing devices.  On success there was exactly
    one pre-key request per missing device, in order, and each one answered
    200 has a session (a 404 device is skipped). *)
Theorem mismatched_devices_reconciled account h mm w :
  ∃ r w' l, handle_mismatched_devices account h mm w = (r, w') ∧
    (okw w → okw w') ∧ log w' = log w ++ l ∧ Forall is_get l ∧
    (∀ c, has w c → ¬ named (addr_name h) (extra_devices mm) c → has w' c) ∧
    (∀ c, has w' c → has w c ∧ ¬ named (addr_name h) (extra_devices mm) c ∨
                     named (addr_name h) (missing_devices mm) c) ∧
    (r = Ok tt → Forall2 (λ d e, prekey_fetch account h d 404 e ∨
        prekey_fetch account h d 200 e ∧ has w' (Addr (addr_name h) d)) (missing_devices mm) l).
Proof. apply handle_mismatched_spec. Qed.

Definition wanted (excl : option Z) (d : Z) : Prop := Some d ≠ excl.
#[local] Instance wanted_dec excl d : Decision (wanted excl d).
Proof. unfold wanted. apply _. Defined.

Lemma establish_spec u excl ik entries w :
  ∃ r w', establish_devices u excl ik entries w = (r, w') ∧
    (okw w → okw w') ∧ log w' = log w ∧ (∀ c, has w c → has w' c) ∧
    (∀ c, has w' c → has w c ∨ addr_name c = u ∧ wanted excl (addr_device c)) ∧
    (∀ ids, r = Ok ids → ids = filter (wanted excl) (device_id <$> entries) ∧
       ∀ d, d ∈ ids → has w' (Addr u d)).
Proof.
  revert w; induction entries as [|en entries IH]; intros w; cbn [establish_devices].
  { exists (Ok []), w. split_and!; auto. intros ids [= <-]. split; [done|].
    by intros ? ?%elem_of_nil. }
  cbn [fmap list_fmap].
  destruct (bool_decide (Some (device_id en) = excl)) eqn:Ex.
  { apply bool_decide_eq_true in Ex.
    destruct (IH w) as (r & w' & E & Ho & Hl & Hm & Hb & Hr). exists r, w'.
    split_and!; try done. intros ids Hids. rewrite filter_cons_False by (unfold wanted; auto).
    by apply Hr. }
  apply bool_decide_eq_false in Ex. unfold mbind at 1, ST_bind at 1, lift at 1.
  destruct (build_prekey_bundle en ik) as [b|e].
  2: { exists (Err e), w. split_and!; auto; done. }
  unfold mbind at 1, ST_bind at 1, lift at 1.
  destruct (device_protocol_address u (device_id en)) as [a|] eqn:Ea; cbn [ok_or].
  2: { eexists (Err _), w. split_and!; auto; done. }
  apply device_protocol_address_ok in Ea as [-> Hd].
  match goal with |- context [process_bundle ?c ?a ?b] =>
    destruct (process_bundle_spec c a b w (small_addr_ok _ _ Hd))
      as (r1 & w1 & E1 & (Ho1 & Hl1 & Hm1 & Hb1) & Hr1) end.
  unfold mbind at 1, ST_bind at 1. rewrite E1. destruct r1 as [[]|e].
  2: { exists (Err e), w1. split_and!; auto; [|done]. intros c [?| ->]%Hb1; auto. }
  destruct (IH w1) as (r & w2 & E2 & Ho2 & Hl2 & Hm2 & Hb2 & Hr2).
  unfold mbind, ST_bind. rewrite E2.
  assert (∀ c, has w2 c → has w c ∨ addr_name c = u ∧ wanted excl (addr_device c)) as Hb.
  { intros c [[?| ->]%Hb1|?]%Hb2; auto. }
  destruct r as [ids|e]; (eexists _, w2; split_and!; [done|auto|congruence|auto|done|]); [|done].
  intros ids' [= <-]. destruct (Hr2 ids eq_refl) as [-> Hall].
  rewrite filter_cons_True by done. split; [done|].
  intros d [->|Hin]%elem_of_cons; [apply Hm2; by apply Hr1|by apply Hall].
Qed.

Lemma discover_spec account u excl w :
  ∃ r w' l, discover_and_establish_account_devices account u excl w = (r, w') ∧
    (okw w → okw w') ∧ log w' = log w ++ l ∧ Forall is_get l ∧ length l ≤ 1 ∧
    (∀ c, has w c → has w' c) ∧
    (∀ c, has w' c → has w c ∨ addr_name c = u ∧ wanted excl (addr_device c)) ∧
    (∀ ids, r = Ok ids → ∀ d, d ∈ ids → wanted excl d ∧ has w' (Addr u d)).
Proof.
  unfold discover_and_establish_account_devices, mbind at 1, ST_bind at 1, lift at 1.
  destruct (chat_base_url account) as [base|e].
  2: { exists (Err e), w, []. rewrite app_nil_r. split_and!; auto; done. }
  unfold mbind at 1, ST_bind at 1, with_err at 1.
  match goal with |- context [get_json ?x ?y] =>
    destruct (get_http_law W x y w) as (a & w1 & -> & Ho1 & Hh1 & Hl1) end.
  set (ev := EvHttp _ a) in *.
  assert (Forall is_get [ev]) as Hg by by repeat constructor.
  assert (∀ r : result SendError (list Z), (∀ ids, r = Ok ids → ids = []) →
    ∃ r' w' l, (r, w1) = (r', w') ∧
    (okw w → okw w') ∧ log w' = log w ++ l ∧ Forall is_get l ∧ length l ≤ 1 ∧
    (∀ c, has w c → has w' c) ∧
    (∀ c, has w' c → has w c ∨ addr_name c = u ∧ wanted excl (addr_device c)) ∧
    (∀ ids, r' = Ok ids → ∀ d, d ∈ ids → wanted excl d ∧ has w' (Addr u d))) as Hstop.
  { intros r Hr. exists r, w1, [ev]. split_and!; [done..| | |].
    - intros c. by rewrite Hh1.
    - intros c. rewrite Hh1. by left.
    - intros ids ->. rewrite (Hr ids eq_refl). by intros ? ?%elem_of_nil. }
  destruct (ureq_response_to_http a) as [resp|e]; cbn [map_err]; [|by apply Hstop].
  destruct (status resp =? 200)%Z.
  2: { repeat case_match; apply Hstop; try done. by intros ? [= <-]. }
  unfold mbind at 1, ST_bind at 1, lift at 1.
  destruct (map_err _ _) as [pre|e]; [|by apply Hstop].
  unfold mbind at 1, ST_bind at 1, lift at 1.
  destruct (decode_identity_key _) as [ik|e]; [|by apply Hstop].
  destruct (establish_spec u excl ik (devices pre) w1)
    as (r & w2 & -> & Ho2 & Hl2 & Hm2 & Hb2 & Hr2).
  exists r, w2, [ev]. split_and!; [done|auto|congruence|done|done| | |].
  - intros c Hc. by apply Hm2, Hh1.
  - intros c [Hc|Hc]%Hb2; [left; by apply Hh1|by right].
  - intros ids Hids d Hd. destruct (Hr2 ids Hids) as [-> Hall]. split; [|by apply Hall].
    by apply list_elem_of_filter in Hd as [? _].
Qed.

Lemma gets_good_put account padded ts u excl local l :
  Forall is_get l → Forall (good_put account padded ts u excl local) l.
Proof.
  intros Hg. eapply Forall_impl; [done|]. intros [rq ?| | | |] Hq Hp; try done. simpl in *.
  by rewrite Hq in Hp.
Qed.

Lemma sync_spec account text u ts own dev local w :
  okw w →
  ∃ r w' l, submit_sync_transcript_generic account text u ts own dev local w = (r, w') ∧
    okw w' ∧ log w' = log w ++ l ∧ length (puts l) ≤ 3 ∧
    Forall (good_put account (build_padded_sync_transcript_content u text ts) ts own (Some dev) local) l ∧
    ∀ c, addr_name c ≠ own → has w' c ↔ has w c.
Proof.
  intros Hw. unfold submit_sync_transcript_generic.
  set (tr := (_ ;; mret ()) : ST W SendError ()).
  assert (∀ w, okw w → ∃ r w' l, tr w = (r, w') ∧ okw w' ∧ log w' = log w ++ l ∧
    length (puts l) ≤ 3 ∧ Forall (good_put account (build_padded_sync_transcript_content u text ts) ts own (Some dev) local) l ∧
    ∀ c, addr_name c ≠ own → has w' c ↔ has w c) as Htr.
  { intros w0 Hw0. destruct (submit_spec account
      (build_padded_sync_transcript_content u text ts) ts own dev (Some dev) local w0 Hw0)
      as (r & w' & l & E & Hw' & Hl & Hh & Hg & Hp & _).
    unfold tr, mbind, ST_bind. rewrite E.
    destruct r as [b|e]; eexists _, w', l; by split_and!. }
  destruct (enum_law W (E := SendError) own w) as (ids & w1 & E1 & Hs1 & _).
  pose proof (silent_log _ _ Hs1) as Hl1. destruct Hs1 as (Ho1 & Hh1 & _).
  unfold mbind at 1, ST_bind at 1. rewrite E1.
  assert (∀ w2 l2, okw w2 → log w2 = log w ++ l2 → Forall is_get l2 →
    (∀ c, addr_name c ≠ own → has w2 c ↔ has w c) →
    ∃ r w' l, tr w2 = (r, w') ∧ okw w' ∧ log w' = log w ++ l ∧ length (puts l) ≤ 3 ∧
    Forall (good_put account (build_padded_sync_transcript_content u text ts) ts own (Some dev) local) l ∧
    ∀ c, addr_name c ≠ own → has w' c ↔ has w c) as Hthen.
  { intros w2 l2 Hw2 Hl2 Hg2 Hh2.
    destruct (Htr w2 Hw2) as (r & w' & l & E & Hw' & Hl & Hp & Hg & Hh).
    exists r, w', (l2 ++ l). split_and!; [done|done|by rewrite Hl, Hl2, app_assoc| | |].
    - by rewrite puts_app, gets_no_put.
    - apply Forall_app. split; [by apply gets_good_put|done].
    - intros c Hc. by rewrite Hh, Hh2. }
  destruct (filter _ ids).
  2: { apply (Hthen w1 []); [auto|by rewrite app_nil_r|done|by intros; rewrite Hh1]. }
  destruct (discover_spec account own (Some dev) w1)
    as (r & w2 & l2 & E2 & Ho2 & Hl2 & Hg2 & _ & Hm2 & Hb2 & _).
  assert (∀ c, addr_name c ≠ own → has w2 c ↔ has w c) as Hh2.
  { intros c Hc. rewrite <- Hh1. split; [|by apply Hm2]. intros [?|[? _]]%Hb2; done. }
  rewrite Hl1 in Hl2. unfold mbind at 1, ST_bind at 1, try at 1. rewrite E2.
  assert (∃ r' w' l, (Ok (E := SendError) tt, w2) = (r', w') ∧ okw w' ∧ log w' = log w ++ l ∧
    length (puts l) ≤ 3 ∧ Forall (good_put account (build_padded_sync_transcript_content u text ts) ts own (Some dev) local) l ∧
    ∀ c, addr_name c ≠ own → has w' c ↔ has w c) as Hskip.
  { eexists _, w2, l2. split_and!; [done|auto|done| |by apply gets_good_put|done].
    rewrite gets_no_put by done. simpl. lia. }
  destruct r as [[|d0 ds]|e]; [exact Hskip| |exact Hskip].
  by apply (Hthen w2 l2); auto.
Qed.

(** C17: the sync transcript.  Whatever the server answers, it goes only to the
    account's other devices: no PUT names the sending device, each carries the
    transcript encrypted for the devices it names, there are at most three, and
    only sessions of the own account change. *)
Theorem sync_excludes_self account text u ts own dev local w :
  okw w →
  ∃ r w' l, submit_sync_transcript_generic account text u ts own dev local w = (r, w') ∧
    okw w' ∧ log w' = log w ++ l ∧ length (puts l) ≤ 3 ∧
    Forall (good_put account (build_padded_sync_transcript_content u text ts) ts own (Some dev) local) l ∧
    ∀ c, addr_name c ≠ own → has w' c ↔ has w c.
Proof. apply sync_spec. Qed.

(** C18: the whole send.  A failure of the recipient submission is the result
    and nothing more is sent; once the recipient has the message the result
    is [Ok], whatever becomes of the sync transcript, whose PUTs never name
    the sending device. *)
Theorem send_then_sync account text ts to local w :
  okw w →
  match submit_with_retry_generic account text ts to local w with
  | (Err e, w1) => submit_with_retry_with_stores account text ts to local w = (Err e, w1)
  | (Ok _, w1) => ∃ w2 l,
      submit_with_retry_with_stores account text ts to local w = (Ok tt, w2) ∧
      log w2 = log w1 ++ l ∧ length (puts l) ≤ 3 ∧
      Forall (good_put account (build_padded_sync_transcript_content (addr_name to) text ts) ts
        (aci_service_id account) (Some (acct_device_id account)) local) l
  end.
Proof.
  intros Hw. destruct (submit_spec account (build_padded_data_message_content text ts) ts (addr_name to)
    (addr_device to) None local w Hw) as (r & w1 & l & E & Hw1 & _).
  unfold submit_with_retry_with_stores, submit_with_retry_generic, mbind, ST_bind.
  rewrite E. destruct r as [b|e]; [|done]. cbn [mret ST_ret].
  destruct (sync_spec account text (addr_name to) ts (aci_service_id account)
    (acct_device_id account) local w1 Hw1) as (r2 & w2 & l2 & E2 & _ & Hl2 & Hp2 & Hg2 & _).
  exists w2, l2. unfold try, mret, ST_ret. rewrite E2. by split_and!.
Qed.
End spec.
