(* ===== verification/SendLive.v ===== *)
(** The retry loop against a server that knows its devices.

    SendSpec.v says what the loop does whatever the server answers.  Here the answers
    in the log are those of one server with a fixed set of registered devices
    ([answered_by], Server.v): then the device recovery converges, and two of the three
    attempts are enough. *)

From S2P Require Import Prelude RustStd Wire Base64 Json JsonLaws Pddb Signal Stores World Outgoing Server Send SendSpec.

(** An HTTP exchange of the log has the answer [srv] gives; other events are free. *)
Definition answered_by `{SerdeJson} (srv : StatefulMockHttp) (e : event) : Prop :=
  match e with
  | EvHttp r a =>
      match req_body r with
      | Some b => (server_put_json (req_url r) [] b srv).1 = Some (ureq_response_to_http a)
      | None => (server_get_json (req_url r) [] srv).1 = Some (ureq_response_to_http a)
      end
  | _ => True
  end.

(** * The documents *)
Section documents.
Context `{Libsignal, !LibsignalLaws, Base64, !Base64Laws, SerdeJson, !SerdeJsonLaws}.

Definition entity_ok (e : OutgoingMessageEntity) : Prop :=
  in_u64 (message_type e) ∧ (1 ≤ entity_device_id e ≤ 127)%Z ∧ in_u64 (entity_registration_id e) ∧
  utf8_valid (content e) = true.

Lemma entity_json_ok n e : entity_ok e → json_ok (S (S n)) (entity_json e).
Proof.
  intros (? & ? & ? & ?). assert (in_u64 (entity_device_id e)) by (unfold in_u64, u64_max; lia).
  cbn [json_ok entity_json]. rewrite !Forall_cons. cbn [fst snd]. by split_and!.
Qed.
Lemma request_json_ok es ts :
  Forall entity_ok es → in_u64 ts →
  json_ok JSON_DEPTH (request_json {| messages := es; online := false; urgent := true; timestamp := ts |}).
Proof.
  intros Hes Hts. change JSON_DEPTH with (S (S (S (S 60)))). generalize 60. intros n.
  cbn [json_ok request_json messages online urgent timestamp]. rewrite !Forall_cons. cbn [fst snd].
  split_and!; try done. apply Forall_fmap. eapply Forall_impl; [exact Hes|].
  intros e He. by apply entity_json_ok.
Qed.
Lemma sent_request es ts :
  Forall entity_ok es →
  sent_devices (request_json {| messages := es; online := false; urgent := true; timestamp := ts |}) =
  list_to_set (entity_device_id <$> es).
Proof.
  intros Hes. unfold sent_devices.
  change (default [] (as_array (index "messages"%bs (request_json _)))) with (entity_json <$> es).
  rewrite <- list_fmap_compose. f_equal. apply list_fmap_ext. intros i e He.
  cbn [compose]. change (as_u64 (index "destinationDeviceId"%bs (entity_json e)))
    with (as_u64 (JInt (entity_device_id e))).
  rewrite Forall_forall in Hes. destruct (Hes e) as (_ & Hd & _); [by eapply list_elem_of_lookup_2|].
  cbn [as_u64]. destruct (Z.leb_spec 0 (entity_device_id e)), (Z.leb_spec (entity_device_id e) u64_max);
    try (unfold u64_max in *; lia). cbn [andb].
  change (as_u32 (entity_device_id e) = entity_device_id e). apply Z.mod_small. lia.
Qed.

Lemma de_ids ids : Forall in_u32 ids → de_vec de_u32 (JArr (JInt <$> ids)) = Some ids.
Proof.
  cbn [de_vec]. induction 1 as [|d ids Hd _ IH]; [done|]. cbn [fmap list_fmap mapM]. rewrite IH.
  unfold de_u32, de_uint. unfold in_u32 in Hd.
  by destruct (Z.leb_spec 0 d), (Z.leb_spec d u32_max); try lia.
Qed.
Lemma devices_json_ok missing extra :
  Forall in_u32 missing → Forall in_u32 extra → json_ok JSON_DEPTH (devices_json missing extra).
Proof.
  assert (∀ n ids, Forall in_u32 ids → Forall (json_ok (S n)) (JInt <$> ids)) as Hids.
  { intros n ids Hids. apply Forall_fmap. eapply Forall_impl; [exact Hids|]. intros d.
    cbn [compose json_ok]. unfold in_u32, in_u64, u32_max, u64_max. lia. }
  intros Hm He. change JSON_DEPTH with (S (S (S 61))). generalize 61. intros n.
  cbn [json_ok devices_json]. rewrite !Forall_cons. cbn [fst snd]. split_and!; try done; by apply Hids.
Qed.
Lemma parse_devices missing extra bs :
  Forall in_u32 missing → Forall in_u32 extra → to_vec (devices_json missing extra) = Ok bs →
  parse_mismatch (from_utf8_lossy bs) =
    Ok {| missing_devices := missing; extra_devices := extra; stale_devices := [] |}.
Proof.
  intros Hm He Hbs. pose proof (devices_json_ok _ _ Hm He) as Hok.
  rewrite from_utf8_lossy_valid by (by eapply to_vec_utf8). unfold parse_mismatch, from_slice_as.
  rewrite (from_slice_to_vec _ _ Hok Hbs). cbn [mbind option_bind].
  unfold de_mismatch. change (struct_fields _ (devices_json missing extra))
    with (Some [Some (JArr (JInt <$> missing)); Some (JArr (JInt <$> extra)); None]).
  cbn [mbind option_bind or_default]. rewrite (de_ids missing), (de_ids extra) by done. done.
Qed.
End documents.

Lemma same_devices (l : list Z) (X : gset Z) :
  X ∖ list_to_set l = ∅ ∧ list_to_set l ∖ X = ∅ ↔ ∀ d, d ∈ l ↔ d ∈ X.
Proof.
  rewrite !set_eq. setoid_rewrite elem_of_difference. setoid_rewrite elem_of_list_to_set.
  setoid_rewrite elem_of_empty. split.
  - intros [H1 H2] d. destruct (decide (d ∈ X)), (decide (d ∈ l)); naive_solver.
  - naive_solver.
Qed.

(** * The loop *)
Section live.
Context `{ProtocolLaws, !LibsignalLaws, WireFormat, Base64, !Base64Laws, SerdeJson, !SerdeJsonLaws, UrlLib} {W : Type}.
Context `{!SessionStore W, !IdentityKeyStore W, !DeviceSessionEnum W, !SessionDeleter W,
          !HttpClient W, !Runtime W, !SendEnv W}.
Variables (account : AccountInfo) (padded : bytes) (ts : Z) (uuid : bytes) (fallback : Z)
          (excl : option Z) (local : ProtocolAddress) (srv : StatefulMockHttp).
Abbreviation okw := (v_ok (view W)).
Abbreviation has := (v_has (view W)).
Abbreviation log := (v_log (view W)).
Abbreviation R := (registered_device_ids srv uuid).
Abbreviation attempt := (send_attempt account padded ts uuid fallback excl local).
Implicit Types w : W.

(** The server reads the account and the device back from the URLs the client builds. *)
Hypothesis put_url : ∀ base, chat_base_url account = Ok base →
  put_uuid (as_str (set_path ("/v1/messages/"%bs ++ uuid) base)) = uuid.
Hypothesis key_url : ∀ base d, d ∈ R → chat_base_url account = Ok base →
  key_selector (as_str (set_path ("/v2/keys/"%bs ++ uuid ++ "/"%bs ++ show_u d) base)) =
    Some (uuid, Some (show_u d)).
Hypothesis ts_ok : in_u64 ts.
Hypothesis devices_ok : ∀ d, d ∈ R → (1 ≤ d ≤ 127)%Z.

Lemma b64_utf8 e x : utf8_valid (b64_encode e x) = true.
Proof.
  apply ascii_utf8_valid, forallb_forall. intros b Hb. pose proof (b64_alphabet e x) as Ha.
  rewrite Forall_forall in Ha. apply list_elem_of_In, Ha in Hb. unfold is_b64_byte in Hb. lia.
Qed.
Lemma entity_fine d w e w' :
  encrypt_entity padded ts uuid local d w = (Ok e, w') → entity_ok e ∧ entity_device_id e = d.
Proof.
  intros (dev & w1 & Ed & Hr)%bind_Ok. apply bind_Ok in Hr as (enc & w2 & Ee & [= <- _]).
  apply lift_Ok in Ed as [Ed _]. apply checked_device_ok in Ed as [-> Hd].
  apply with_err_Ok in Ee. apply bind_Ok in Ee as (? & ? & _ & Hr).
  apply bind_Ok in Hr as (rec & ? & _ & Hr). apply bind_Ok in Hr as (reg & ? & Hreg & Hr).
  do 2 (apply bind_Ok in Hr as (? & ? & _ & Hr)). apply bind_Ok in Hr as (m & ? & _ & Hr).
  apply bind_Ok in Hr as ([bs ty] & ? & Hty & [= <- _]).
  apply lift_Ok in Hreg as [Hreg _]. destruct (remote_registration_id rec) as [n|] eqn:En; [|done].
  injection Hreg as ->. apply remote_registration_range in En.
  assert (ty = ENVELOPE_CIPHERTEXT ∨ ty = ENVELOPE_PREKEY_BUNDLE) as Ht.
  { destruct m; try done; injection Hty as <- <- _; auto. }
  split; [|done]. unfold entity_ok, in_u64, in_u32, u64_max, u32_max in *.
  cbn [enc_to_entity message_type entity_device_id entity_registration_id content ciphertext_type
    destination_device_id destination_registration_id ciphertext_bytes addr_device].
  split_and!; [..|apply b64_utf8]; try lia; by destruct Ht as [->| ->].
Qed.
Lemma entities_fine ids w es w' :
  collect (encrypt_entity padded ts uuid local) ids w = (Ok es, w') → Forall entity_ok es.
Proof.
  revert w es w'. induction ids as [|d ids IH]; intros w es w'; cbn [collect]; [by intros [= <- _]|].
  intros (e & w1 & He & Hr)%bind_Ok. apply bind_Ok in Hr as (es' & w2 & Hes & [= <- _]).
  constructor; [by apply entity_fine in He as [? _]|by eapply IH].
Qed.

(** What the 409 of the server asks for. *)
Definition mismatch (ids : list Z) : DeviceMismatchResponse :=
  {| missing_devices := sort_unstable (elements (R ∖ list_to_set ids));
     extra_devices := sort_unstable (elements (list_to_set ids ∖ R)); stale_devices := [] |}.
Lemma elem_of_missing ids d : d ∈ missing_devices (mismatch ids) ↔ d ∈ R ∧ d ∉ ids.
Proof. unfold mismatch. cbn [missing_devices]. rewrite sort_unstable_perm, elem_of_elements. set_solver. Qed.
Lemma elem_of_extra ids d : d ∈ extra_devices (mismatch ids) ↔ d ∈ ids ∧ d ∉ R.
Proof. unfold mismatch. cbn [extra_devices]. rewrite sort_unstable_perm, elem_of_elements. set_solver. Qed.

Lemma put_served es ans e :
  Forall entity_ok es → submission account ts uuid es ans e → answered_by srv e →
  let ids := entity_device_id <$> es in
  (∀ d, d ∈ ids ↔ d ∈ R) ∧ outcome_of ans = Ok tt ∨
  ¬ (∀ d, d ∈ ids ↔ d ∈ R) ∧ ∃ body, classify_attempt (outcome_of ans) = Mismatch409 body ∧
    parse_mismatch body = Ok (mismatch ids).
Proof.
  intros Hes (base & bs & Hbase & Hbs & ->) Hans ids. cbn [answered_by req_body req_url put_request] in Hans.
  unfold submit_request in Hbs. unfold server_put_json in Hans. cbn [fst] in Hans.
  rewrite (from_slice_to_vec _ _ (request_json_ok es ts Hes ts_ok) Hbs) in Hans.
  unfold put_answer in Hans. rewrite put_url, sent_request in Hans by done.
  change (registered_device_ids {| registered := _ |} uuid) with R in Hans. fold ids in Hans.
  case_bool_decide as Hsame.
  - left. split; [by apply same_devices|]. unfold outcome_of. injection Hans as <-. done.
  - right. split; [intros Heq; by apply Hsame, same_devices|].
    fold (mismatch ids) in Hans.
    assert (Forall in_u32 (missing_devices (mismatch ids))) as Hm.
    { apply Forall_forall. intros d [Hd _]%elem_of_missing. apply devices_ok in Hd. unfold in_u32, u32_max. lia. }
    assert (Forall in_u32 (extra_devices (mismatch ids))) as He.
    { apply Forall_forall. intros d [Hd _]%elem_of_extra. unfold ids in Hd.
      apply list_elem_of_fmap in Hd as (x & -> & Hx). rewrite Forall_forall in Hes.
      destruct (Hes x Hx) as (_ & ? & _). unfold in_u32, u32_max. lia. }
    destruct (to_vec_total _ (devices_json_ok _ _ Hm He)) as [b Hb].
    unfold mismatch in Hb. cbn [missing_devices extra_devices] in Hb. rewrite Hb in Hans.
    cbn [ok mbind option_bind fmap option_fmap option_map] in Hans. unfold outcome_of. injection Hans as <-.
    exists (from_utf8_lossy b). split; [done|]. by apply parse_devices.
Qed.

Lemma show_u_not_star d : (0 ≤ d)%Z → show_u d ≠ "*"%bs.
Proof.
  intros Hd E. pose proof (show_u_digits d Hd) as Hs. rewrite E in Hs. by vm_compute in Hs.
Qed.
Lemma key_served dev d s e :
  d ∈ R → prekey_fetch account (Addr uuid dev) d s e → answered_by srv e → s = 200%Z.
Proof.
  intros Hd (base & a & resp & Hbase & Ha & <- & ->) Hans. pose proof (devices_ok d Hd) as Hr.
  cbn [answered_by req_body req_url get_request addr_name] in Hans. unfold server_get_json in Hans.
  rewrite key_url in Hans by done. cbn [fst] in Hans.
  rewrite bool_decide_false in Hans by (apply show_u_not_star; lia).
  rewrite parse_u32_show in Hans by (unfold in_u32, u32_max; lia).
  unfold registered_device_ids in Hd. destruct (registered srv !! uuid) as [v|] eqn:Ev; [|set_solver].
  apply elem_of_list_to_set, list_elem_of_fmap in Hd as (x & Hx & Hin).
  destruct (list_find_elem_of (λ y, reg_device_id y = d) v x Hin) as [[i y] Hf]; [done|].
  change (default [] (Some v)) with v in Hans. rewrite Hf in Hans. injection Hans as Hans.
  rewrite Ha in Hans. by injection Hans as <-.
Qed.

(** One submission, to the devices [ids]. *)
Definition same (ids : list Z) : Prop := ∀ d, d ∈ ids ↔ d ∈ R.
Definition submitted (a : Z) (ids : list Z) w (r : result SendError (Z + bool)) w' (l : list event) : Prop :=
  (∃ e, r = Err e) ∨
  (r = Ok (inr true) ∧ same ids ∧ (∀ d, d ∈ ids → has w (Addr uuid d)) ∧ (∀ c, has w' c ↔ has w c) ∧
     ∃ es ans e, l = [e] ∧ submission account ts uuid es ans e ∧ entity_device_id <$> es = ids) ∨
  (r = Ok (inl a) ∧ ¬ same ids ∧ (∀ d, d ∈ ids → has w (Addr uuid d)) ∧
     ∀ d, has w' (Addr uuid d) ↔
       has w (Addr uuid d) ∧ ¬ (d ∈ ids ∧ d ∉ R) ∨ d ∈ R ∧ d ∉ ids).
Definition quiet (l : list event) (n : nat) : Prop := length (puts l) ≤ n ∧ total_sleep l = 0%Z.

Lemma quiet_gets l : Forall is_get l → quiet l 0.
Proof. intros Hl. split; [by rewrite gets_no_put|by apply gets_no_sleep]. Qed.
Lemma quiet_put es ans e l n :
  submission account ts uuid es ans e → quiet l n → quiet (e :: l) (S n).
Proof.
  intros Hsub [Hp Hs]. pose proof (submission_is_put _ _ _ _ _ _ Hsub) as He. split.
  - unfold puts in *. rewrite filter_cons_True by done. simpl. lia.
  - destruct Hsub as (? & ? & _ & _ & ->). exact Hs.
Qed.

(** After a 409 the sessions are those of the registered devices. *)
Lemma reconciled dev ids w w' l :
  (∀ d, d ∈ ids → (1 ≤ d ≤ 127)%Z) →
  handle_mismatched_devices account (Addr uuid dev) (mismatch ids) w = (Ok tt, w') →
  log w' = log w ++ l → Forall (answered_by srv) l →
  ∀ d, has w' (Addr uuid d) ↔ has w (Addr uuid d) ∧ ¬ (d ∈ ids ∧ d ∉ R) ∨ d ∈ R ∧ d ∉ ids.
Proof.
  intros Hids E Hl Hans d.
  destruct (handle_mismatched_spec account (Addr uuid dev) (mismatch ids) w)
    as (r & w1 & l1 & E1 & _ & Hl1 & _ & Hkeep & Hb & Hok). rewrite E in E1. injection E1 as <- <-.
  rewrite Hl in Hl1. apply (inj (app _)) in Hl1 as <-. cbn [addr_name] in *. unfold named in *. split.
  - intros [[Hh Hn]|(_ & Hm & _)]%Hb.
    + left. split; [done|]. intros [Hi Hr]. apply Hn. cbn [addr_name addr_device].
      split_and!; [done|by apply elem_of_extra|by apply Hids..].
    + right. by apply elem_of_missing.
  - intros [[Hh Hn]|Hm].
    + apply Hkeep; [done|]. intros (_ & He%elem_of_extra & _). by apply Hn.
    + destruct (proj1 (list_elem_of_lookup _ _) (proj2 (elem_of_missing ids d) Hm)) as [i Hi].
      destruct (Forall2_lookup_l _ _ _ i d (Hok eq_refl) Hi) as (e & He & Hf).
      destruct Hf as [Hf|[_ Hf]]; [|done]. exfalso. rewrite Forall_lookup in Hans.
      by pose proof (key_served _ _ _ _ (proj1 Hm) Hf (Hans i e He)).
Qed.

Lemma unsent a ids w e w' : quiet [] 1 ∧ submitted a ids w (Err e) w' [].
Proof. split; [split; simpl; lia|]. left. by eexists. Qed.
Lemma submit_to_served a ids w r w' l :
  submit_to account padded ts uuid fallback local a ids w = (r, w') → log w' = log w ++ l →
  Forall (answered_by srv) l → quiet l 1 ∧ submitted a ids w r w' l.
Proof.
  unfold submit_to, mbind at 1, ST_bind at 1, lift at 1. intros E Hl Hans.
  destruct (checked_device _ fallback) as [dev|e].
  2: { injection E as <- <-. rewrite <- (app_nil_r (log w)) in Hl at 1. apply (inj (app _)) in Hl as <-.
       by apply unsent. }
  destruct (entities_spec padded ts uuid local ids w) as (r1 & w1 & E1 & Hs1 & Hok1).
  pose proof (silent_log _ _ Hs1) as Hl1. destruct Hs1 as (_ & Hh1 & _).
  unfold mbind at 1, ST_bind at 1 in E. rewrite E1 in E. destruct r1 as [es|e].
  2: { injection E as <- <-. rewrite Hl1, <- (app_nil_r (log w)) in Hl at 1. apply (inj (app _)) in Hl as <-.
       by apply unsent. }
  pose proof (entities_fine _ _ _ _ E1) as Hfine. destruct (Hok1 es eq_refl) as (Hes & Hall & _).
  destruct (submit_messages_spec account ts uuid es w1) as (r2 & w2 & E2 & Hcase).
  unfold mbind, ST_bind, try in E. rewrite E2 in E. destruct Hcase as [[Hs2 (e & -> & Hf)]|Hput].
  { unfold after_submit in E. rewrite Hf in E. injection E as <- <-.
    rewrite (silent_log _ _ Hs2), Hl1, <- (app_nil_r (log w)) in Hl at 1. apply (inj (app _)) in Hl as <-.
    by apply unsent. }
  destruct Hput as (ans & e & Hsub & (_ & Hh2 & Hl2) & ->).
  destruct (after_submit_spec account uuid a (Addr uuid dev) ans w2 eq_refl)
    as (r3 & w3 & l3 & E3 & _ & Hl3 & _ & Hnext).
  assert (r3 = r ∧ w3 = w') as [-> ->] by (rewrite E in E3; by injection E3).
  assert (l = e :: l3) as ->.
  { rewrite Hl3, Hl2, Hl1, <- app_assoc in Hl. by apply (inj (app _)) in Hl. }
  apply Forall_cons in Hans as [Hans Hans3].
  destruct (put_served es ans e Hfine Hsub Hans) as [[Hsame Hout]|[Hdiff (b & Hb & Hp)]];
    rewrite Hes in *; unfold next_turn in Hnext; rewrite ?Hout, ?Hb in Hnext.
  - destruct Hnext as [-> ->]. split; [by eapply quiet_put, quiet_gets; [|constructor]|].
    right. left. split_and!; [done|done|done| |by exists es, ans, e].
    unfold after_submit in E. rewrite Hout in E. injection E as <-.
    intros c. by rewrite Hh2, Hh1.
  - destruct Hnext as [Hr Hg]. split; [by eapply quiet_put, quiet_gets|].
    destruct Hr as [?| ->]; [by left|]. right. right. split_and!; [done|done|done|].
    unfold after_submit in E. rewrite Hb in E. apply bind_Ok in E as (mm & w4 & Emm & E).
    apply lift_Ok in Emm as [Emm ->]. rewrite Hp in Emm. injection Emm as <-.
    apply bind_Ok in E as ([] & w4 & Eh & [= <-]).
    intros d. rewrite (reconciled dev ids w2 w4 l3) by (try done; intros d' Hd'; rewrite <- Hes in Hd';
      apply list_elem_of_fmap in Hd' as (x & -> & Hx); rewrite Forall_forall in Hfine; by apply Hfine).
    by rewrite Hh2, Hh1.
Qed.

(** One attempt: it fails, or finds nobody to send to, or submits to the fan-out. *)
Lemma attempt_served start a w r w' l :
  okw w → attempt start a w = (r, w') → log w' = log w ++ l → Forall (answered_by srv) l →
  quiet l 1 ∧ okw w' ∧
  ((∃ e, r = Err e) ∨ r = Ok (inr false) ∨
   ∃ ids w2, (∀ c, has w2 c ↔ has w c) ∧ (∀ d, d ∈ ids ↔ has w (Addr uuid d) ∧ Some d ≠ excl) ∧
     submitted (a + 1) ids w2 r w' l).
Proof.
  intros Hw E Hl Hans. destruct (attempt_spec account padded ts uuid fallback excl local start a w Hw)
    as (r0 & w0 & l0 & E0 & Hw' & _). rewrite E in E0. injection E0 as <- <-. clear l0.
  assert (∀ e w1, log w1 = log w → (Err e, w1) = (r, w') → quiet l 1 ∧ ∃ e, r = Err e) as Hstop.
  { intros e w1 Hl1 [= <- <-]. rewrite Hl1, <- (app_nil_r (log w)) in Hl at 1.
    apply (inj (app _)) in Hl as <-. split; [split; simpl; lia|by eexists]. }
  unfold send_attempt, mbind at 1, ST_bind at 1 in E.
  destruct (now_law W (E := SendError) w) as (t & w1 & E1 & Hs1). rewrite E1 in E.
  pose proof (silent_log _ _ Hs1) as Hl1. destruct Hs1 as (Ho1 & Hh1 & _).
  destruct (RETRY_BUDGET <? sat_sub t start)%Z; [destruct (Hstop _ _ Hl1 E); auto|].
  destruct (MAX_ATTEMPTS <=? a)%Z; [destruct (Hstop _ _ Hl1 E); auto|].
  destruct (enum_law W (E := SendError) uuid w1) as (ids & w2 & E2 & Hs2 & Hsort & Hmem).
  unfold mbind at 1, ST_bind at 1 in E. rewrite E2 in E.
  pose proof (silent_log _ _ Hs2) as Hl2. destruct Hs2 as (_ & Hh2 & _).
  destruct (retain_spec uuid excl ids w1 Hsort (Hmem (Ho1 Hw))) as [_ Hrm].
  assert (∀ ids', submit_to account padded ts uuid fallback local (a + 1) ids' w2 = (r, w') →
    quiet l 1 ∧ submitted (a + 1) ids' w2 r w' l) as Hsub.
  { intros ids' Es. apply (submit_to_served _ _ _ _ _ _ Es); [congruence|done]. }
  assert (∀ c, has w2 c ↔ has w c) as Hh by (intros c; by rewrite Hh2, Hh1).
  destruct (retain_devices excl ids) as [|d0 ids0] eqn:Er.
  - destruct excl as [x|] eqn:Ex.
    { injection E as <- <-. rewrite Hl2, Hl1, <- (app_nil_r (log w)) in Hl at 1.
      apply (inj (app _)) in Hl as <-. split_and!; [split; simpl; lia|done|auto]. }
    destruct (Hsub _ E) as [Hq [?|[(_ & _ & Hall & _)|(_ & _ & Hall & _)]]]; [auto|exfalso..];
      apply (elem_of_nil fallback), Hrm; (split; [apply Hh2, Hall; by left|congruence]).
  - assert (submit_to account padded ts uuid fallback local (a + 1) (d0 :: ids0) w2 = (r, w')) as Es
      by (by destruct excl).
    destruct (Hsub _ Es) as [Hq Hcase]. split_and!; [done|done|]. right. right.
    exists (d0 :: ids0), w2. split_and!; [done| |done]. intros d. by rewrite Hrm, Hh1.
Qed.

Lemma quiet_app l l' n m : quiet l n → quiet l' m → quiet (l ++ l') (n + m).
Proof.
  intros [? ?] [? ?]. split; [rewrite puts_app, length_app; lia|]. rewrite total_sleep_app. lia.
Qed.
Lemma quiet_le l n m : quiet l n → n ≤ m → quiet l m.
Proof. intros [? ?] ?. split; [lia|done]. Qed.

(** The result of a run of the loop from [w]: what a success means. *)
Definition converged (r : result SendError bool) w' (l : list event) : Prop :=
  r = Ok true →
  (∃ es ans e l0, l = l0 ++ [e] ∧ submission account ts uuid es ans e ∧
     same (entity_device_id <$> es)) ∧
  ∀ d, has w' (Addr uuid d) ∧ Some d ≠ excl ↔ d ∈ R.

Lemma accepted_converged w2 w w' ids a l0 l :
  (∀ c, has w2 c ↔ has w c) → (∀ d, d ∈ ids ↔ has w (Addr uuid d) ∧ Some d ≠ excl) →
  submitted a ids w2 (Ok (inr true)) w' l → converged (Ok true) w' (l0 ++ l).
Proof.
  intros Hh Hids [[? ?]|[(_ & Hsame & _ & Hh' & es & ans & e & -> & Hsub & <-)|[? _]]] _; [done| |done].
  split; [by exists es, ans, e, l0|]. intros d. by rewrite Hh', Hh, <- Hids.
Qed.

(** Once the sessions are those of the registered devices, an attempt is the last. *)
Lemma settled_attempt start a w r w' l0 l :
  okw w → (∃ d, d ∈ R) → (∀ d, has w (Addr uuid d) ∧ Some d ≠ excl ↔ d ∈ R) →
  attempt start a w = (r, w') → log w' = log w ++ l → Forall (answered_by srv) l →
  quiet l 1 ∧ ∃ r', converged r' w' (l0 ++ l) ∧
    match r with Ok (inl _) => False | Ok (inr b) => r' = Ok b | Err e => r' = Err e end.
Proof.
  intros Hw Hne Hset E Hl Hans.
  destruct (attempt_served start a w r w' l Hw E Hl Hans) as (Hq & _ & [[e ->]|[->|(ids & w2 & Hh & Hids & Hsub)]]);
    (split; [done|]).
  - by exists (Err e).
  - by exists (Ok false).
  - destruct (Hsub) as [[e ->]|[(-> & _)|(_ & Hdiff & _)]].
    + by exists (Err e).
    + exists (Ok true). split; [by eapply accepted_converged|done].
    + exfalso. apply Hdiff. intros d. by rewrite Hids.
Qed.

(** A first attempt that goes round again has settled the sessions. *)
Lemma first_attempt start a w r w' l0 l :
  okw w → (∀ d, d ∈ R → Some d ≠ excl) →
  attempt start a w = (r, w') → log w' = log w ++ l → Forall (answered_by srv) l →
  quiet l 1 ∧ okw w' ∧
  match r with
  | Ok (inl a') => ∀ d, has w' (Addr uuid d) ∧ Some d ≠ excl ↔ d ∈ R
  | Ok (inr b) => converged (Ok b) w' (l0 ++ l)
  | Err e => True
  end.
Proof.
  intros Hw Hx E Hl Hans.
  destruct (attempt_served start a w r w' l Hw E Hl Hans)
    as (Hq & Hw' & [[e ->]|[->|(ids & w2 & Hh & Hids & Hsub)]]); (split_and!; [done|done|]); [done|done|].
  destruct Hsub as [[e ->]|[(-> & ?)|(-> & Hdiff & Hall & Hnew)]]; [done| |].
  - apply (accepted_converged w2 w w' ids (a + 1)); [done|done|]. right. left. by split.
  - intros d. rewrite Hnew, Hh. specialize (Hids d). specialize (Hx d).
    destruct (decide (d ∈ R)), (decide (d ∈ ids)); tauto.
Qed.

(** C9: against a server that knows its devices the recovery converges.  Suppose every
    request of a submission is answered by one server with a fixed, non-empty set of
    registered devices, which accepts a message that addresses exactly those devices,
    answers any other with 409 and the difference, and serves the pre-keys of each.
    Whatever sessions the client starts with, the loop ends within two of its turns:
    at most two PUTs, no sleep, and so never because the attempts ran out.  When it
    succeeds, the accepted PUT addressed exactly the registered devices, and these are
    the devices the client has sessions with. *)
Theorem two_attempts_suffice w r w' l :
  okw w → (∃ d, d ∈ R) → (∀ d, d ∈ R → Some d ≠ excl) →
  submit_padded_with_retry_generic account padded ts uuid fallback excl local w = (r, w') →
  log w' = log w ++ l → Forall (answered_by srv) l →
  (∃ start w1, now (E := SendError) w = (Ok start, w1) ∧ iter 2 (attempt start) 0%Z w1 = Some (r, w')) ∧
  quiet l 2 ∧ converged r w' l.
Proof.
  intros Hw Hne Hx Hsub Hl Hans. destruct (now_law W (E := SendError) w) as (start & w1 & En & Hs).
  pose proof (submit_iter account padded ts uuid fallback excl local 4 start w w1 ltac:(lia) En) as Hit.
  rewrite Hsub in Hit. clear Hsub. rewrite <- (silent_log _ _ Hs) in Hl.
  destruct Hs as (Ho & _). specialize (Ho Hw). change 4 with (S (S 2)) in Hit. cbn [iter] in Hit.
  destruct (attempt_spec account padded ts uuid fallback excl local start 0 w1 Ho)
    as (r1 & w2 & l1 & E1 & Hw2 & Hl1 & _). rewrite E1 in Hit.
  destruct r1 as [[a1|b1]|e1].
  2-3: injection Hit as <- <-; rewrite Hl1 in Hl; apply (inj (app _)) in Hl as <-;
    destruct (first_attempt start 0 w1 _ w2 [] l1 Ho Hx E1 Hl1 Hans) as (Hq & _ & Hc);
    (split_and!; [exists start, w1; cbn [iter]; by rewrite E1|by eapply quiet_le, le_S|done]).
  destruct (attempt_spec account padded ts uuid fallback excl local start a1 w2 Hw2)
    as (r2 & w3 & l2 & E2 & Hw3 & Hl2 & _). rewrite E2 in Hit.
  assert (∃ l3, log w' = log w3 ++ l3) as [l3 Hl3].
  { destruct r2 as [[a2|b2]|e2]; [|injection Hit as <- <-; exists []; by rewrite app_nil_r..].
    pose proof (send_attempt_next _ _ _ _ _ _ _ _ _ _ _ _ E1) as [-> _].
    pose proof (send_attempt_next _ _ _ _ _ _ _ _ _ _ _ _ E2) as [-> _].
    destruct (loop_spec account padded ts uuid fallback excl local 2 start (0 + 1 + 1) w3 r w' Hw3 ltac:(lia) Hit)
      as (_ & _ & l3 & Hl3 & _). by exists l3. }
  rewrite Hl3, Hl2, Hl1, <- !app_assoc in Hl. apply (inj (app _)) in Hl as <-.
  rewrite !Forall_app in Hans. destruct Hans as (Ha1 & Ha2 & Ha3).
  destruct (first_attempt start 0 w1 _ w2 [] l1 Ho Hx E1 Hl1 Ha1) as (Hq1 & _ & Hset).
  destruct (settled_attempt start a1 w2 r2 w3 l1 l2 Hw2 Hne Hset E2 Hl2 Ha2) as (Hq2 & r' & Hc & Hr).
  destruct r2 as [[a2|b2]|e2]; [done|..]; injection Hit as <- <-;
    rewrite <- (app_nil_r (log w3)) in Hl3 at 1; apply (inj (app _)) in Hl3 as <-;
    rewrite app_nil_r; subst r';
    (split_and!; [exists start, w1; cbn [iter]; by rewrite E1, E2|exact (quiet_app _ _ 1 1 Hq1 Hq2)|done]).
Qed.
End live.
