(* ===== verification/SendWorld.v ===== *)
(** The production environment discharges the send-path interface.

    The PDDB-backed stores, the ureq client and the operating system, put
    together as [World P O], satisfy [SendEnv], for any PDDB that satisfies
    [PddbLaws]; so the theorems of SendSpec.v hold of the shipped entry points.
    [sim_host] is a scripted host that answers requests from a list. *)

From S2P Require Import Prelude RustStd Wire Base64 Json Pddb Signal Stores World Outgoing.
From S2P Require Import Send SendSpec.

Section keeps.
Context {P : Type} `{PddbLaws P}.

(** Nothing in the session dictionary changes. *)
Definition keeps_sessions (p p' : P) : Prop :=
  ∀ k, contents p' !! (SESSION_DICT, k) = contents p !! (SESSION_DICT, k).
#[export] Instance keeps_preorder : PreOrder keeps_sessions.
Proof. split; [by intros p k|]. intros p1 p2 p3 H12 H23 k. by rewrite H23, H12. Qed.

Lemma runs_keeps {E A} (c : ST P E A) p r m :
  runs c p r m → (∀ k, m !! (SESSION_DICT, k) = contents p !! (SESSION_DICT, k)) →
  keeps_sessions p (c p).2.
Proof. intros (p' & -> & <-) Hm k. apply Hm. Qed.

Context `{LibsignalLaws, Base64Laws}.

Lemma read_account_string_runs {E} d k p :
  ∃ r, runs (E := E) (read_account_string d k) p (Ok r) (contents p).
Proof.
  unfold read_account_string, runs. destruct (get_law d k false p) as (r & p1 & -> & Hg).
  destruct (contents p !! (d, k)) as [v|] eqn:Ev.
  - destruct Hg as [-> Hc]. rewrite <- Hc in Ev.
    destruct (read_law 256 d k p1 v Ev) as (p2 & -> & Hc2).
    eexists _, _. split; [done|congruence].
  - destruct Hg as [(e & -> & _) Hc]. by eexists _, _.
Qed.

Lemma account_keeps {E} d k : preserved keeps_sessions (read_account_string (E := E) d k).
Proof.
  intros p. destruct (read_account_string_runs (E := E) d k p) as (r & Hr).
  by eapply runs_keeps.
Qed.
Lemma read_record_keeps c d k : preserved keeps_sessions (read_record c d k).
Proof. intros p. by eapply runs_keeps; [apply read_record_spec|]. Qed.
Lemma write_record_keeps c d k v :
  d ≠ SESSION_DICT → preserved keeps_sessions (write_record c d k v).
Proof.
  intros Hd p. eapply runs_keeps; [apply write_record_spec|].
  intros k'. apply lookup_insert_ne. congruence.
Qed.

Lemma identity_keeps a :
  preserved keeps_sessions (Identity_get_identity_key_pair identity_store) ∧
  preserved keeps_sessions (Identity_get_local_registration_id identity_store) ∧
  (∀ k, preserved keeps_sessions (Identity_save_identity identity_store a k)) ∧
  (∀ k d, preserved keeps_sessions (Identity_is_trusted_identity identity_store a k d)) ∧
  preserved keeps_sessions (Identity_get_identity identity_store a).
Proof.
  pose proof @account_keeps as Ha. pose proof read_record_keeps as Hr.
  assert (∀ c k v, preserved keeps_sessions (write_record c IDENTITY_DICT k v)) as Hw.
  { intros. by apply write_record_keeps. }
  assert (PreOrder keeps_sessions) as Hp by apply keeps_preorder.
  split_and!.
  - unfold Identity_get_identity_key_pair. repeat (apply preserved_bind; [done| |intros ?]);
      auto with frame.
  - unfold Identity_get_local_registration_id. apply preserved_bind; auto with frame.
  - intros k. unfold Identity_save_identity. apply preserved_bind; [done|auto|].
    intros [b|]; [destruct (identity_decode b); [case_decide|]|];
      auto with frame; apply preserved_bind; auto with frame.
  - intros k d. unfold Identity_is_trusted_identity. apply preserved_bind; [done|auto|].
    intros [b|]; auto with frame.
  - unfold Identity_get_identity. apply preserved_bind; [done|auto|].
    intros [b|]; auto with frame.
Qed.
End keeps.

Section instance.
Context `{LibsignalLaws, Base64Laws} {P O : Type} `{PddbLaws P, Host O}.

Definition world_view : send_view (World P O) := {|
  v_ok w := sessions_wf session_store (w_pddb w);
  v_has w a := has_session session_store (w_pddb w) a;
  v_log := w_log;
|}.

Lemma keeps_has p p' a :
  keeps_sessions p p' → has_session session_store p' a ↔ has_session session_store p a.
Proof. intros Hk. unfold has_session. simpl. by rewrite Hk. Qed.
Lemma keeps_wf p p' :
  keeps_sessions p p' → sessions_wf session_store p → sessions_wf session_store p'.
Proof. intros Hk Hwf k Hs. apply Hwf. simpl in *. by rewrite Hk in Hs. Qed.

Lemma on_pddb_silent {E A} (c : ST P E A) :
  preserved keeps_sessions c → preserved (silent world_view) (on_pddb (O := O) c).
Proof.
  intros Hc w. unfold on_pddb. specialize (Hc (w_pddb w)). destruct (c (w_pddb w)) as [r p].
  simpl in *. split_and!; simpl.
  - by apply keeps_wf.
  - intros a. by apply keeps_has.
  - exists []. by rewrite app_nil_r.
Qed.

Lemma on_out_silent {E A} (f : O → A * O) :
  preserved (silent world_view) (on_out (P := P) (E := E) f).
Proof.
  intros w. unfold on_out. destruct (f (w_out w)) as [a o]. split_and!; simpl; [done|done|].
  exists []. by rewrite app_nil_r.
Qed.

(** A PDDB state with the same contents keeps every session. *)
Lemma same_contents_silent (w : World P O) p' :
  contents p' = contents (w_pddb w) → silent world_view w (MkWorld p' (w_out w) (w_log w)).
Proof.
  intros Hc. assert (keeps_sessions (w_pddb w) p') as Hk by (intros k; by rewrite Hc).
  split_and!; simpl; [by apply keeps_wf|intros a; by apply keeps_has|].
  exists []. by rewrite app_nil_r.
Qed.

(** The enumeration always answers with a sorted list, which on a well-formed
    dictionary holds exactly the devices with a session. *)
Lemma device_ids_total {E} name (p : P) :
  ∃ l p', Session_device_ids_for (E := E) session_store name p = (Ok l, p') ∧
    contents p' = contents p ∧ StronglySorted Z.lt l ∧
    (sessions_wf session_store p → ∀ d, d ∈ l ↔ has_session session_store p (Addr name d)).
Proof.
  destruct (list_keys_law (session_dict session_store) p) as (r & p1 & E1 & Hc1 & Hr).
  assert (∃ l, runs (E := E) (Session_device_ids_for session_store name) p (Ok l) (contents p)
    ∧ StronglySorted Z.lt l) as (l & (p' & E2 & Hc2) & Hs).
  { destruct r as [ks|e].
    - eexists. split; [|apply dedup_sorted, sort_unstable_sorted].
      eapply runs_bind; [apply runs_try; by exists p1|]. intros. apply runs_ret. congruence.
    - exists []. split; [|constructor].
      eapply runs_bind; [apply runs_try; by exists p1|]. intros. apply runs_ret. congruence. }
  exists l, p'. split_and!; [done|done|done|]. intros Hwf.
  destruct (device_ids_for_runs (E := E) session_store name p Hwf)
    as (l' & (p'' & E3 & _) & _ & Hm). rewrite E2 in E3. by injection E3 as <- <-.
Qed.

#[export] Instance world_send_env : SendEnv (World P O).
Proof.
  refine {| view := world_view |}.
  - intros E name w. simpl. unfold on_pddb.
    destruct (device_ids_total (E := E) name (w_pddb w)) as (l & p' & -> & Hc & Hs & Hm).
    eexists l, _. split_and!; [done|by apply same_contents_silent|done|done].
  - intros E a w Ha. simpl. unfold on_pddb.
    destruct (delete_session_runs (E := E) session_store a (w_pddb w)) as (p' & E1 & Hc).
    unfold Session_delete_session in E1. simpl in E1. rewrite E1.
    destruct (delete_session session_store a _ p' Ha Hc) as [Hwf Hh].
    eexists. by split_and!.
  - intros a w Ha. simpl. unfold on_pddb.
    destruct (load_session_runs session_store a (w_pddb w)) as (p' & -> & Hc).
    eexists _, _. split_and!; [done| |].
    + by apply same_contents_silent.
    + assert (has_session session_store (w_pddb w) a ↔
        is_Some (contents (w_pddb w) !! (session_dict session_store, address_key a))) as Hs
        by (unfold has_session; tauto).
      change (v_has world_view w a) with (has_session session_store (w_pddb w) a).
      destruct (contents (w_pddb w) !! _) as [b|].
      * assert (has_session session_store (w_pddb w) a) by by apply Hs.
        by destruct (deserialize b).
      * intros Hh. apply Hs in Hh as [? ?]. done.
  - intros a r w Ha. simpl. unfold on_pddb.
    destruct (store_session_runs session_store a r (w_pddb w)) as (p' & -> & Hc).
    eexists _, _. split; [done|]. destruct (serialize r) as [b|e].
    + destruct (insert_session session_store a b _ p' Ha Hc) as [Hwf Hh]. by split_and!.
    + assert (keeps_sessions (w_pddb w) p') as Hk by (intros k; by rewrite Hc).
      split_and!; simpl; [by apply keeps_wf|done|intros c; by apply keeps_has].
  - intros a. destruct (identity_keeps a) as (? & ? & ? & ? & ?).
    unfold identity_calls. simpl. split_and!; intros; apply on_pddb_silent; auto.
  - intros E w. simpl. unfold now_instant. pose proof (on_out_silent (E := E) instant_now w).
    unfold on_out in *. destruct (instant_now (w_out w)) as [t o]. by eexists _, _.
  - intros E. apply on_out_silent.
  - intros E. apply on_out_silent.
  - intros E ms w. eexists. split; [done|]. by split_and!.
  - intros u au b w. simpl. unfold ureq_put_json, exchange, on_out, emit, mbind, ST_bind.
    destruct (ureq_call _ (w_out w)) as [a o]. simpl. by eexists a, _.
  - intros u au w. simpl. unfold ureq_get_json, exchange, on_out, emit, mbind, ST_bind.
    destruct (ureq_call _ (w_out w)) as [a o]. simpl. by eexists a, _.
Defined.
End instance.

(** * The production entry point *)
Section production_spec.
Context `{ProtocolLaws, !LibsignalLaws, WireFormat, Base64Laws, SerdeJson, UrlLib}.
Context {P O : Type} `{PddbLaws P, Host O}.

Lemma get_string_keeps {E} d k : preserved keeps_sessions (pddb_get_string (P := P) (E := E) d k).
Proof. intros p. by eapply runs_keeps; [apply get_string_runs|]. Qed.

Lemma read_from_pddb_keeps : preserved (keeps_sessions (P := P)) read_from_pddb.
Proof.
  unfold read_from_pddb. pose proof @get_string_keeps as Hg.
  assert (PreOrder (keeps_sessions (P := P))) as Hp by apply keeps_preorder.
  repeat (apply preserved_bind; [done| |intros ?]); auto with frame.
Qed.

(** The device of the local address is the one of the account. *)
Lemma local_device_id e d dev :
  ok_or (E := SendError) e (u8_try_from d ≫= λ d, ok (DeviceId_new d)) = Ok dev → dev = d.
Proof.
  unfold u8_try_from. destruct (_ && _); [|done]. cbn [mbind option_bind].
  destruct (DeviceId_new d) eqn:E; [|done]. intros [= <-]. by apply device_id_ok in E as [-> _].
Qed.

Lemma production_send_spec text ts to (w w' : World P O) :
  sessions_wf session_store (w_pddb w) → submit_with_retry text ts to w = (Ok tt, w') →
  ∃ account l0 e es ans l, (read_from_pddb (w_pddb w)).1 = Ok account ∧
    w_log w' = w_log w ++ (l0 ++ [e]) ++ l ∧
    submission account ts (addr_name to) es ans e ∧ outcome_of ans = Ok tt ∧
    let local := Addr (aci_service_id account) (acct_device_id account) in
    Forall (sealed (W := World P O) (build_padded_data_message_content text ts) (addr_name to) local) es ∧
    Forall (good_put (W := World P O) account (build_padded_data_message_content text ts) ts (addr_name to) None local)
      (l0 ++ [e]) ∧
    Forall (good_put (W := World P O) account (build_padded_sync_transcript_content (addr_name to) text ts) ts
      (aci_service_id account) (Some (acct_device_id account)) local) l.
Proof.
  intros Hwf (account & w1 & E1 & Hr)%bind_Ok.
  pose proof (on_pddb_silent (O := O) _ read_from_pddb_keeps w) as Hs.
  rewrite E1 in Hs. simpl in Hs. pose proof (silent_log _ _ Hs) as Hl1.
  destruct Hs as (Ho1 & _). apply bind_Ok in Hr as (dev & w2 & E2 & Hr).
  injection E2 as E2 <-. apply local_device_id in E2 as ->. apply bind_Ok in Hr as ([] & w3 & E3 & Hr).
  apply bind_Ok in Hr as (sync & w4 & E4 & [= <-]).
  apply bind_Ok in E3 as (b & w5 & E5 & [= <-]).
  assert (v_ok (view (World P O)) w1) as Hok1 by exact (Ho1 Hwf).
  destruct (submit_spec account (build_padded_data_message_content text ts) ts (addr_name to)
    (addr_device to) None (Addr (aci_service_id account) (acct_device_id account)) w1 Hok1)
    as (r & w6 & l1 & E6 & Hw6 & Hl6 & _ & Hg & _ & _ & Ht & Hf).
  rewrite E5 in E6. injection E6 as <- <-.
  destruct b; [|by destruct (Hf eq_refl)].
  destruct (Ht eq_refl) as (l0 & e & es & ans & -> & Hsub & Hout & Hseal).
  destruct (sync_spec account text (addr_name to) ts (aci_service_id account)
    (acct_device_id account) (Addr (aci_service_id account) (acct_device_id account)) w5 Hw6)
    as (r2 & w7 & l2 & E7 & _ & Hl7 & _ & Hg2 & _).
  unfold try in E4. rewrite E7 in E4. injection E4 as <- <-.
  exists account, l0, e, es, ans, l2. split_and!; [| |done|done|by cbv zeta; split_and!].
  - unfold on_pddb in E1. destruct (read_from_pddb (w_pddb w)) as [ra pa].
    by injection E1 as -> _.
  - simpl in Hl1, Hl6, Hl7. by rewrite Hl7, Hl6, Hl1, <- !app_assoc.
Qed.

(** Whatever comes of it, sending only adds to the log. *)
Lemma production_log text ts to (w w' : World P O) r :
  sessions_wf session_store (w_pddb w) → submit_with_retry text ts to w = (r, w') →
  ∃ l, w_log w' = w_log w ++ l.
Proof.
  intros Hwf. unfold submit_with_retry. unfold mbind at 1, ST_bind at 1.
  pose proof (on_pddb_silent (O := O) _ read_from_pddb_keeps w) as Hs.
  destruct (on_pddb read_from_pddb w) as [[account|e] w1]; simpl in Hs;
    pose proof (silent_log _ _ Hs) as Hl1; simpl in Hl1.
  2: { intros [= <- <-]. exists []. by rewrite app_nil_r. }
  destruct Hs as (Ho1 & _). unfold mbind at 1, ST_bind at 1, lift at 1.
  destruct (ok_or _ _) as [dev|e]; [|intros [= <- <-]; exists []; by rewrite app_nil_r].
  unfold submit_with_retry_with_stores, submit_with_retry_generic, mbind, ST_bind.
  assert (v_ok (view (World P O)) w1) as Hok1 by exact (Ho1 Hwf).
  destruct (submit_spec account (build_padded_data_message_content text ts) ts (addr_name to)
    (addr_device to) None (Addr (aci_service_id account) dev) w1 Hok1)
    as (x & w2 & l1 & -> & Hw2 & Hl2 & _). simpl in Hl2.
  destruct x as [b|e]; simpl; [|intros [= <- <-]; exists l1; by rewrite Hl2, Hl1].
  destruct (sync_spec account text (addr_name to) ts (aci_service_id account)
    (acct_device_id account) (Addr (aci_service_id account) dev) w2 Hw2)
    as (x2 & w3 & l2 & E3 & _ & Hl3 & _). unfold try. rewrite E3. simpl in Hl3.
  intros [= <- <-]. exists (l1 ++ l2). by rewrite Hl3, Hl2, Hl1, app_assoc.
Qed.

(** C1: end to end.  When the production [submit_with_retry] returns [Ok], an
    account was read, the first part of what it sent ends with a PUT to the
    recipient's endpoint that the server accepted and that carries the text,
    encrypted for each device it names, and only PUTs of the sync transcript, none
    naming this device, follow. *)
Theorem production_send_accepted text ts to (w w' : World P O) :
  sessions_wf session_store (w_pddb w) → submit_with_retry text ts to w = (Ok tt, w') →
  ∃ account l0 e es ans l, (read_from_pddb (w_pddb w)).1 = Ok account ∧
    w_log w' = w_log w ++ (l0 ++ [e]) ++ l ∧
    submission account ts (addr_name to) es ans e ∧ outcome_of ans = Ok tt ∧
    let local := Addr (aci_service_id account) (acct_device_id account) in
    Forall (sealed (W := World P O) (build_padded_data_message_content text ts) (addr_name to) local) es ∧
    Forall (good_put (W := World P O) account (build_padded_data_message_content text ts) ts (addr_name to) None local)
      (l0 ++ [e]) ∧
    Forall (good_put (W := World P O) account (build_padded_sync_transcript_content (addr_name to) text ts) ts
      (aci_service_id account) (Some (acct_device_id account)) local) l.
Proof. apply production_send_spec. Qed.
End production_spec.

(** * A scripted host *)

Record sim := Sim { sim_clock : Z; sim_answers : list ureq_result; sim_env : list (bytes * bytes) }.

#[global] Instance sim_host : Host sim := {|
  instant_now o := (sim_clock o, o);
  system_now o := (sim_clock o, o);
  os_entropy o := ([Byte.x07], o);
  host_sleep ms o := Sim (sim_clock o + ms * 1000000) (sim_answers o) (sim_env o);
  ureq_call _ o :=
    match sim_answers o with
    | a :: l => (a, Sim (sim_clock o) l (sim_env o))
    | [] => (UreqTransport "connection refused"%bs, o)
    end;
  env_var k o := match list_find (λ kv, kv.1 = k) (sim_env o) with
                 | Some (_, kv) => Some kv.2
                 | None => None
                 end;
|}.

(** Alice's device 2, with a session for Bob's device 1 and one for her own
    primary device. *)
Definition demo_sessions : flash :=
  <[(SESSION_DICT, address_key (Addr "bob"%bs 1)) := [Byte.x0a; Byte.x09]]>
  (<[(SESSION_DICT, address_key (Addr "alice"%bs 1)) := [Byte.x0a; Byte.x05]]> ∅).
Definition demo_flash : flash :=
  <[(ACCOUNT_DICT, ACI_SERVICE_ID_KEY) := "alice"%bs : bytes]>
  (<[(ACCOUNT_DICT, DEVICE_ID_KEY) := "2"%bs : bytes]>
  (<[(ACCOUNT_DICT, PASSWORD_KEY) := "secret"%bs : bytes]>
  (<[(ACCOUNT_DICT, HOST_KEY) := "example.org"%bs : bytes]> demo_sessions))).

Definition demo_account : AccountInfo :=
  {| aci_service_id := "alice"%bs; acct_device_id := 2; acct_password := "secret"%bs;
     acct_host := "example.org"%bs |}.
Definition demo_local : ProtocolAddress := Addr "alice"%bs 2.
Definition bob : ProtocolAddress := Addr "bob"%bs 1.

Definition demo_world (answers : list ureq_result) : World flash sim :=
  MkWorld demo_flash (Sim 0 answers []) [].

Lemma sessions_wf_insert (p : flash) d k v :
  bool_decide (d = SESSION_DICT) = false →
  sessions_wf session_store p → sessions_wf session_store (<[(d, k) := v]> p : flash).
Proof.
  intros Hd%bool_decide_eq_false_1 Hwf k' Hk. apply Hwf.
  change (is_Some ((<[(d, k) := v]> p : flash) !! (SESSION_DICT, k'))) in Hk.
  rewrite lookup_insert_ne in Hk; [done|]. congruence.
Qed.

Lemma demo_sessions_wf : sessions_wf session_store demo_sessions.
Proof.
  unfold demo_sessions.
  eapply (insert_session session_store (Addr "bob"%bs 1) _
    (<[(SESSION_DICT, address_key (Addr "alice"%bs 1)) := [Byte.x0a; Byte.x05]]> ∅ : flash));
    [by vm_compute|reflexivity|].
  eapply (insert_session session_store (Addr "alice"%bs 1) _ (∅ : flash));
    [by vm_compute|reflexivity|].
  intros k [v Hv]. change ((∅ : flash) !! (SESSION_DICT, k) = Some v) in Hv.
  by rewrite lookup_empty in Hv.
Qed.

Lemma demo_wf answers : v_ok world_view (demo_world answers).
Proof.
  change (sessions_wf session_store demo_flash).
  do 4 (apply sessions_wf_insert; [by vm_compute|]). exact demo_sessions_wf.
Qed.

Definition ok_200 : ureq_result := UreqOk 200 (Ok []).

Example demo_send :
  (submit_with_retry "hi"%bs 1000 bob (demo_world [ok_200; ok_200])).1 = Ok tt.
Proof. by vm_compute. Qed.

(** * The theorems at concrete worlds *)

Abbreviation padded_hi := (build_padded_data_message_content "hi"%bs 1000).
Definition hi_entity : OutgoingMessageEntity :=
  {| message_type := 1; entity_device_id := 1; entity_registration_id := 9;
     content := b64_encode STANDARD padded_hi |}.
Definition denied : ureq_result := UreqStatus 401 (Ok []).

Definition demo_turn := send_attempt demo_account padded_hi 1000 "bob"%bs 1 None demo_local 0 0
  (demo_world [ok_200]).
Definition demo_submit (answers : list ureq_result) :=
  submit_padded_with_retry_generic demo_account padded_hi 1000 "bob"%bs 1 None demo_local
    (demo_world answers).
Definition first_event (w : World flash sim) : event := default (EvSleep 0) (head (w_log w)).

Lemma backoff_schedule_witness :
  (500 ≤ backoff 3 ≤ 4000)%Z ∧ (backoff 3 ≤ backoff (3 + 1))%Z ∧
  backoff 3 = Z.min 4000 (500 * 2 ^ Z.max 0 (3 - 1)).
Proof. apply (backoff_schedule 3). lia. Defined.

Lemma submit_terminates_witness :
  iter 5 (send_attempt demo_account padded_hi 1000 "bob"%bs 1 None demo_local 0) 0%Z
    (demo_world [ok_200]) = Some (demo_submit [ok_200]).
Proof.
  apply (submit_terminates demo_account padded_hi 1000 "bob"%bs 1 None demo_local 5 0
    (demo_world [ok_200]) (demo_world [ok_200])); [lia|reflexivity].
Defined.

Lemma submit_bounded_effort_witness :
  ∃ r w' l, demo_submit [] = (r, w') ∧ v_ok (view _) w' ∧
    v_log (view _) w' = v_log (view _) (demo_world []) ++ l ∧
    length (puts l) ≤ 3 ∧ (total_sleep l ≤ 3500)%Z ∧
    ∀ c, addr_name c ≠ "bob"%bs → v_has (view _) w' c ↔ v_has (view _) (demo_world []) c.
Proof.
  apply (submit_bounded_effort demo_account padded_hi 1000 "bob"%bs 1 None demo_local
    (demo_world [])), demo_wf.
Defined.

Lemma submit_result_sound_witness :
  ∃ l, v_log (view _) (demo_submit [ok_200]).2 = v_log (view _) (demo_world [ok_200]) ++ l ∧
    Forall (good_put (W := World flash sim) demo_account padded_hi 1000 "bob"%bs None demo_local) l ∧
    ((demo_submit [ok_200]).1 = Ok true → ∃ l0 e es ans, l = l0 ++ [e] ∧
       submission demo_account 1000 "bob"%bs es ans e ∧ outcome_of ans = Ok tt ∧
       Forall (sealed (W := World flash sim) padded_hi "bob"%bs demo_local) es) ∧
    ((demo_submit [ok_200]).1 = Ok false → @None Z ≠ None ∧
       ∀ d, v_has (view _) (demo_submit [ok_200]).2 (Addr "bob"%bs d) → Some d = None).
Proof.
  apply (submit_result_sound demo_account padded_hi 1000 "bob"%bs 1 None demo_local
    (demo_world [ok_200])); [apply demo_wf|apply surjective_pairing].
Defined.

Lemma attempt_fan_out_witness :
  ∃ es ans, submission demo_account 1000 "bob"%bs es ans (first_event demo_turn.2) ∧
    fan_out "bob"%bs None (demo_world [ok_200]) (entity_device_id <$> es) ∧
    Forall (sealed (W := World flash sim) padded_hi "bob"%bs demo_local) es ∧
    next_turn (0 + 1) ans demo_turn.1 [].
Proof.
  apply (attempt_fan_out demo_account padded_hi 1000 "bob"%bs 1 None demo_local 0 0
    (demo_world [ok_200]) demo_turn.1 demo_turn.2);
    [apply demo_wf|apply surjective_pairing|vm_compute; reflexivity].
Defined.

Lemma fatal_status_ends_witness :
  (demo_submit [denied]).1 = Err AuthFailed ∧ @nil event = [].
Proof.
  apply (fatal_status_ends demo_account padded_hi 1000 "bob"%bs 1 None demo_local
    (demo_world [denied]) _ (demo_submit [denied]).2 [hi_entity] denied
    (first_event (demo_submit [denied]).2));
    [apply demo_wf|apply surjective_pairing|vm_compute; reflexivity| |reflexivity].
  eexists _, _. split_and!; [reflexivity|reflexivity|vm_compute; reflexivity].
Defined.

Definition empty_world : World flash sim := MkWorld ∅ (Sim 0 [ok_200] []) [].
Lemma empty_wf : v_ok world_view empty_world.
Proof.
  intros k [v Hv]. change ((∅ : flash) !! (SESSION_DICT, k) = Some v) in Hv.
  by rewrite lookup_empty in Hv.
Qed.

Lemma no_session_no_put_witness :
  ∃ e w', submit_padded_with_retry_generic demo_account padded_hi 1000 "bob"%bs 1 None demo_local
      empty_world = (Err e, w') ∧ v_log (view _) w' = v_log (view _) empty_world ∧
    (e = Encryption NoSession ∨ e = RetryExhausted).
Proof.
  apply (no_session_no_put demo_account padded_hi 1000 "bob"%bs 1 None demo_local empty_world);
    [apply empty_wf| |reflexivity|lia].
  intros d [_ [v Hv]]. change ((∅ : flash) !! (SESSION_DICT, address_key (Addr "bob"%bs d)) = Some v) in Hv.
  by rewrite lookup_empty in Hv.
Defined.

Lemma sync_excludes_self_witness :
  ∃ r w' l, submit_sync_transcript_generic demo_account "hi"%bs "bob"%bs 1000 "alice"%bs 2
      demo_local (demo_world [ok_200]) = (r, w') ∧ v_ok (view _) w' ∧
    v_log (view _) w' = v_log (view _) (demo_world [ok_200]) ++ l ∧ length (puts l) ≤ 3 ∧
    Forall (good_put (W := World flash sim) demo_account
      (build_padded_sync_transcript_content "bob"%bs "hi"%bs 1000) 1000 "alice"%bs (Some 2%Z) demo_local) l ∧
    ∀ c, addr_name c ≠ "alice"%bs →
      v_has (view _) w' c ↔ v_has (view _) (demo_world [ok_200]) c.
Proof.
  apply (sync_excludes_self demo_account "hi"%bs "bob"%bs 1000 "alice"%bs 2 demo_local
    (demo_world [ok_200])), demo_wf.
Defined.

Lemma send_then_sync_witness :
  match submit_with_retry_generic demo_account "hi"%bs 1000 bob demo_local
          (demo_world [ok_200; ok_200]) with
  | (Err e, w1) => submit_with_retry_with_stores demo_account "hi"%bs 1000 bob demo_local
                     (demo_world [ok_200; ok_200]) = (Err e, w1)
  | (Ok _, w1) => ∃ w2 l,
      submit_with_retry_with_stores demo_account "hi"%bs 1000 bob demo_local
        (demo_world [ok_200; ok_200]) = (Ok tt, w2) ∧
      v_log (view _) w2 = v_log (view _) w1 ++ l ∧ length (puts l) ≤ 3 ∧
      Forall (good_put (W := World flash sim) demo_account
        (build_padded_sync_transcript_content "bob"%bs "hi"%bs 1000) 1000 "alice"%bs (Some 2%Z) demo_local) l
  end.
Proof.
  apply (send_then_sync demo_account "hi"%bs 1000 bob demo_local (demo_world [ok_200; ok_200])),
    demo_wf.
Defined.

Lemma pair_ok {E A W} (r : result E A * W) x : r.1 = x → r = (x, r.2).
Proof. by destruct r; simpl; intros ->. Qed.

Definition demo_full : result SendError () * World flash sim :=
  submit_with_retry "hi"%bs 1000 bob (demo_world [ok_200; ok_200]).

Lemma production_send_accepted_witness :
  ∃ account l0 e es ans l, (read_from_pddb demo_flash).1 = Ok account ∧
    w_log demo_full.2 = [] ++ (l0 ++ [e]) ++ l ∧
    submission account 1000 "bob"%bs es ans e ∧ outcome_of ans = Ok tt ∧
    let local := Addr (aci_service_id account) (acct_device_id account) in
    Forall (sealed (W := World flash sim) padded_hi "bob"%bs local) es ∧
    Forall (good_put (W := World flash sim) account padded_hi 1000 "bob"%bs None local) (l0 ++ [e]) ∧
    Forall (good_put (W := World flash sim) account
      (build_padded_sync_transcript_content "bob"%bs "hi"%bs 1000) 1000
      (aci_service_id account) (Some (acct_device_id account)) local) l.
Proof.
  apply (production_send_accepted "hi"%bs 1000 bob (demo_world [ok_200; ok_200]) demo_full.2
    (demo_wf [])).
  apply (pair_ok demo_full). vm_compute. reflexivity.
Defined.

Definition named_devices (missing extra stale : list Z) : DeviceMismatchResponse :=
  {| missing_devices := missing; extra_devices := extra; stale_devices := stale |}.

Lemma stale_devices_dropped_witness :
  ∃ w' : World flash sim,
    handle_stale_devices bob (named_devices [] [] [1%Z]) (demo_world []) = (Ok tt, w') ∧
    (v_ok (view _) (demo_world []) → v_ok (view _) w') ∧
    v_log (view _) w' = v_log (view _) (demo_world []) ∧
    ∀ c, v_has (view _) w' c ↔ v_has (view _) (demo_world []) c ∧ ¬ named (addr_name bob) [1%Z] c.
Proof. exact (stale_devices_dropped bob (named_devices [] [] [1%Z]) (demo_world [])). Defined.

Lemma mismatched_devices_reconciled_witness :
  ∃ r (w' : World flash sim) l,
    handle_mismatched_devices demo_account bob (named_devices [7%Z] [1%Z] [])
      (demo_world [UreqStatus 404 (Ok [])]) = (r, w') ∧
    (v_ok (view _) (demo_world []) → v_ok (view _) w') ∧
    w_log w' = [] ++ l ∧ Forall is_get l ∧
    (∀ c, v_has (view _) (demo_world []) c → ¬ named (addr_name bob) [1%Z] c →
       v_has (view _) w' c) ∧
    (∀ c, v_has (view _) w' c →
       v_has (view _) (demo_world []) c ∧ ¬ named (addr_name bob) [1%Z] c ∨
       named (addr_name bob) [7%Z] c) ∧
    (r = Ok tt → Forall2 (λ d e, prekey_fetch demo_account bob d 404 e ∨
        prekey_fetch demo_account bob d 200 e ∧
        v_has (view _) w' (Addr (addr_name bob) d)) [7%Z] l).
Proof.
  exact (mismatched_devices_reconciled demo_account bob (named_devices [7%Z] [1%Z] [])
    (demo_world [UreqStatus 404 (Ok [])])).
Defined.
Example mismatched_404_ok :
  (handle_mismatched_devices demo_account bob (named_devices [7%Z] [1%Z] [])
    (demo_world [UreqStatus 404 (Ok [])])).1 = Ok tt.
Proof. by vm_compute. Qed.

Definition seed_world : World flash sim :=
  MkWorld ∅ (Sim 0 [] [("XSC_DEMO_PEER_UUID"%bs : bytes, demo_uuid)]) [].
Lemma seed_never_overwrites_witness :
  (seed_demo_recipient_from_env seed_world).1 = Ok true ∧ peer_ok (Addr demo_uuid 1) ∧
  w_pddb (seed_demo_recipient_from_env seed_world).2 =
    <[(DIALOGUE_DICT, DEFAULT_PEER_KEY) := peer_json (Addr demo_uuid 1)]> (∅ : flash).
Proof. exact (seed_never_overwrites seed_world). Defined.
