(* ===== verification/Peers.v ===== *)
(** Per-peer conversation summaries (manager/peers.rs).

    A summary is stored as a small hand-written JSON document under
    sigchat.peers; the theorems show that reading a document back gives the
    summary that was written, the unread-counter rules, the bound and validity
    of a snippet, and the order of the conversation list. *)

From S2P Require Import Prelude RustStd Pddb Stores Outgoing.

Definition PEERS_DICT : bytes := "sigchat.peers"%bs.
Definition SNIPPET_MAX_BYTES : nat := 80.

Record PeerSummary := {
  uuid : bytes;
  display_name : bytes;
  last_ts : Z;
  last_snippet : bytes;
  unread : Z;
}.

Definition backslash : byte := Byte.x5c.
Definition quote : byte := Byte.x22.

(** * The document *)

Definition hex_digit (z : Z) : byte := if (z <? 10)%Z then Zbyte (48 + z) else Zbyte (87 + z).

(** One character of [json_escape]; a byte of a multi-byte character is never
    special. *)
Definition escape_char (c : byte) : bytes :=
  if bool_decide (c = quote) then [backslash; quote]
  else if bool_decide (c = backslash) then [backslash; backslash]
  else if bool_decide (c = Byte.x0a) then [backslash; "n"%byte]
  else if bool_decide (c = Byte.x0d) then [backslash; "r"%byte]
  else if bool_decide (c = Byte.x09) then [backslash; "t"%byte]
  else if (byteZ c <? 32)%Z then
    [backslash; "u"%byte; "0"%byte; "0"%byte; hex_digit (byteZ c / 16); hex_digit (byteZ c mod 16)]
  else [c].
Definition json_escape (s : bytes) : bytes := concat (escape_char <$> s).

(** The loop of [extract_string_field] after the opening quote. *)
Fixpoint scan_string (s : bytes) : option bytes :=
  match s with
  | [] => None
  | c :: s =>
      if bool_decide (c = quote) then Some []
      else if bool_decide (c = backslash) then
        match s with
        | [] => None
        | e :: s =>
            out ← scan_string s;
            Some (if bool_decide (e = quote) then quote :: out
                  else if bool_decide (e = backslash) then backslash :: out
                  else if bool_decide (e = "n"%byte) then Byte.x0a :: out
                  else if bool_decide (e = "r"%byte) then Byte.x0d :: out
                  else if bool_decide (e = "t"%byte) then Byte.x09 :: out
                  else backslash :: e :: out)
        end
      else out ← scan_string s; Some (c :: out)
  end.

Definition string_needle (key : bytes) : bytes := dq ++ key ++ dq ++ ":"%bs ++ dq.
Definition number_needle (key : bytes) : bytes := dq ++ key ++ dq ++ ":"%bs.

Definition extract_string_field (s key : bytes) : option bytes :=
  i ← find_sub (string_needle key) s;
  scan_string (drop (i + length (string_needle key)) s).

Definition extract_number_field (s key : bytes) : option bytes :=
  i ← find_sub (number_needle key) s;
  let rest := drop (i + length (number_needle key)) s in
  let e := default (length rest) (find_byte (λ b, negb (is_ascii_digit b)) rest) in
  if Nat.eqb e 0 then None else Some (take e rest).

Definition to_json (self : PeerSummary) : bytes :=
  "{"%bs ++ string_needle "display_name"%bs ++ json_escape (display_name self) ++ dq ++ ","%bs ++
  number_needle "last_ts"%bs ++ show_u (last_ts self) ++ ","%bs ++
  string_needle "last_snippet"%bs ++ json_escape (last_snippet self) ++ dq ++ ","%bs ++
  number_needle "unread"%bs ++ show_u (unread self) ++ "}"%bs.

Definition from_json (uuid s : bytes) : option PeerSummary :=
  Some {| uuid := uuid;
          display_name := default [] (extract_string_field s "display_name"%bs);
          last_ts := default 0%Z (extract_number_field s "last_ts"%bs ≫= parse_u64);
          last_snippet := default [] (extract_string_field s "last_snippet"%bs);
          unread := default 0%Z (extract_number_field s "unread"%bs ≫= parse_u32) |}.

(** * Snippets *)

(** [while end > 0 && !s.is_char_boundary(end) { end -= 1 }] *)
Fixpoint boundary_before (s : bytes) (e : nat) : nat :=
  match e with
  | O => O
  | S e' => if is_char_boundary s e then e else boundary_before s e'
  end.

(** U+2026 *)
Definition ellipsis : bytes := [Byte.xe2; Byte.x80; Byte.xa6].

(** [None] would be the panic of the slice. *)
Definition truncate_snippet (s : bytes) : option bytes :=
  if Nat.leb (length s) SNIPPET_MAX_BYTES then Some s
  else out ← slice_to s (boundary_before s SNIPPET_MAX_BYTES); Some (out ++ ellipsis).

(** * Operations *)
Section ops.
Context {P : Type} `{Pddb P}.

Definition read {E} (id : bytes) : ST P E (option PeerSummary) :=
  raw ← pddb_get_string PEERS_DICT id;
  mret (raw ≫= from_json id).

Definition write_summary (summary : PeerSummary) : ST P io_error () :=
  pddb_overwrite id id PEERS_DICT (uuid summary) (to_json summary).

Definition new_summary (id : bytes) : PeerSummary :=
  {| uuid := id; display_name := id; last_ts := 0; last_snippet := []; unread := 0 |}.

(** The text is a valid string, so the snippet exists ([truncate_snippet_ok]). *)
Definition updated (summary : PeerSummary) (ts : Z) (text : bytes) (n : Z) : PeerSummary :=
  {| uuid := uuid summary; display_name := display_name summary; last_ts := ts;
     last_snippet := default [] (truncate_snippet text); unread := n |}.

Definition record_inbound (id : bytes) (ts : Z) (text : bytes) (is_focused : bool) :
    ST P io_error () :=
  r ← read id;
  let summary := default (new_summary id) r in
  write_summary (updated summary ts text
    (if is_focused then unread summary else sat_add u32_max (unread summary) 1)).

Definition record_outbound (id : bytes) (ts : Z) (text : bytes) : ST P io_error () :=
  r ← read id;
  let summary := default (new_summary id) r in
  write_summary (updated summary ts text (unread summary)).

Definition clear_unread (id : bytes) : ST P io_error () :=
  r ← read id;
  match r with
  | Some summary =>
      if (unread summary =? 0)%Z then mret ()
      else write_summary {| uuid := uuid summary; display_name := display_name summary;
                            last_ts := last_ts summary; last_snippet := last_snippet summary;
                            unread := 0 |}
  | None => mret ()
  end.

Definition list_sorted {E} : ST P E (list PeerSummary) :=
  keys ← try (pddb_list_keys PEERS_DICT);
  match keys with
  | Err _ => mret []
  | Ok keys =>
      out ← collect (λ id, raw ← pddb_get_string PEERS_DICT id; mret (raw ≫= from_json id)) keys;
      mret (sort_by_desc last_ts (omap id out))
  end.
End ops.

(** * Snippets are bounded, valid and never panic *)

Lemma boundary_before_ok s e :
  is_char_boundary s (boundary_before s e) = true ∧ boundary_before s e ≤ e.
Proof.
  induction e as [|e [IHb IHe]]; cbn [boundary_before]; [done|].
  destruct (is_char_boundary s (S e)) eqn:E; [done|]. split; [done|lia].
Qed.

Lemma truncate_cases s :
  truncate_snippet s = Some s ∧ length s ≤ 80 ∨
  80 < length s ∧ ∃ n, n ≤ 80 ∧ is_char_boundary s n = true ∧
    truncate_snippet s = Some (take n s ++ ellipsis).
Proof.
  unfold truncate_snippet, SNIPPET_MAX_BYTES. destruct (Nat.leb_spec (length s) 80); [by left|].
  right. split; [done|]. destruct (boundary_before_ok s 80) as [Hb Hle].
  exists (boundary_before s 80). split; [done|]. split; [done|].
  unfold slice_to. by rewrite Hb.
Qed.

Lemma truncate_snippet_valid s :
  utf8_valid s = true →
  ∃ t, truncate_snippet s = Some t ∧ utf8_valid t = true ∧ length t ≤ 83 ∧
    (length s ≤ 80 → t = s).
Proof.
  intros Hu. destruct (truncate_cases s) as [[E Hl]|(Hl & n & Hn & Hb & E)].
  - exists s. split_and!; [done|done|lia|done].
  - exists (take n s ++ ellipsis). split_and!; [done| | |lia].
    + apply utf8_valid_app; [|by vm_compute].
      eapply slice_to_valid; [done|]. unfold slice_to. by rewrite Hb.
    + rewrite length_app, length_take. simpl. lia.
Qed.

(** [truncate_snippet] never panics: on any string it returns the string
    itself when it is at most 80 bytes, and otherwise a prefix of at most 80
    bytes cut at a character boundary followed by an ellipsis, which is again
    valid UTF-8. *)
Theorem truncate_snippet_ok s :
  utf8_valid s = true →
  ∃ t, truncate_snippet s = Some t ∧ utf8_valid t = true ∧ length t ≤ 83 ∧
    (length s ≤ 80 → t = s) ∧
    (80 < length s → ∃ n, n ≤ 80 ∧ is_char_boundary s n = true ∧ t = take n s ++ ellipsis).
Proof.
  intros Hu. destruct (truncate_snippet_valid s Hu) as (t & Et & Hv & Hlen & Hs).
  exists t. split_and!; [done..|]. intros Hl.
  destruct (truncate_cases s) as [[E Hl']|(_ & n & Hn & Hb & E)]; [lia|].
  exists n. split_and!; [done|done|]. congruence.
Qed.

Lemma truncate_snippet_ok_witness :
  ∃ t, truncate_snippet (replicate 79 "a"%byte ++ [Byte.xc3; Byte.xa9]) = Some t ∧
    utf8_valid t = true ∧ length t ≤ 83 ∧
    (length (replicate 79 "a"%byte ++ [Byte.xc3; Byte.xa9]) ≤ 80 →
       t = replicate 79 "a"%byte ++ [Byte.xc3; Byte.xa9]) ∧
    (80 < length (replicate 79 "a"%byte ++ [Byte.xc3; Byte.xa9]) → ∃ n, n ≤ 80 ∧
       is_char_boundary (replicate 79 "a"%byte ++ [Byte.xc3; Byte.xa9]) n = true ∧
       t = take n (replicate 79 "a"%byte ++ [Byte.xc3; Byte.xa9]) ++ ellipsis).
Proof. apply truncate_snippet_ok. by vm_compute. Defined.

(** * The document round trip *)

(** A byte [scan_string] gives back: not a control character other than
    newline, carriage return and tab. *)
Definition plain_char (c : byte) : bool :=
  (32 <=? byteZ c)%Z || bool_decide (c = Byte.x0a) || bool_decide (c = Byte.x0d) ||
  bool_decide (c = Byte.x09).

Lemma scan_escape s r :
  forallb plain_char s = true → scan_string (json_escape s ++ quote :: r) = Some s.
Proof.
  unfold json_escape. induction s as [|c s IH]; cbn [forallb].
  { done. }
  intros [Hc Hs]%andb_true_iff. cbn [fmap list_fmap concat]. rewrite <- app_assoc.
  specialize (IH Hs). set (rest := concat (escape_char <$> s) ++ quote :: r) in *.
  unfold escape_char.
  destruct (decide (c = quote)) as [->|]. { simpl. by rewrite IH. }
  rewrite bool_decide_false by done.
  destruct (decide (c = backslash)) as [->|]. { simpl. by rewrite IH. }
  rewrite bool_decide_false by done.
  destruct (decide (c = Byte.x0a)) as [->|]. { simpl. by rewrite IH. }
  rewrite bool_decide_false by done.
  destruct (decide (c = Byte.x0d)) as [->|]. { simpl. by rewrite IH. }
  rewrite bool_decide_false by done.
  destruct (decide (c = Byte.x09)) as [->|]. { simpl. by rewrite IH. }
  rewrite bool_decide_false by done.
  unfold plain_char in Hc. rewrite !bool_decide_false in Hc by done.
  rewrite !orb_false_r in Hc. destruct (Z.ltb_spec (byteZ c) 32); [lia|].
  cbn [app scan_string]. rewrite !bool_decide_false by done. by rewrite IH.
Qed.

(** What a byte is escaped to: itself, or a backslash and an escape whose tail
    holds no quote. *)
Lemma escape_char_cases c :
  (escape_char c = [c] ∧ c ≠ quote ∧ c ≠ backslash) ∨
  ∃ e t, escape_char c = backslash :: e :: t ∧ (t = [] ∨ e ≠ quote ∧ quote ∉ t).
Proof.
  unfold escape_char.
  destruct (decide (c = quote)) as [->|]. { right. exists quote, []. auto. }
  rewrite bool_decide_false by done.
  destruct (decide (c = backslash)) as [->|]. { right. exists backslash, []. auto. }
  rewrite bool_decide_false by done.
  destruct (bool_decide (c = Byte.x0a)). { right. eexists _, []. auto. }
  destruct (bool_decide (c = Byte.x0d)). { right. eexists _, []. auto. }
  destruct (bool_decide (c = Byte.x09)). { right. eexists _, []. auto. }
  destruct (Z.ltb_spec (byteZ c) 32) as [Hlt|]; [|by left]. right. eexists _, _. split; [done|].
  right. split; [done|].
  pose proof (byteZ_range c) as Hr.
  assert (∀ z, (0 ≤ z < 16)%Z → hex_digit z ≠ quote) as Hh.
  { intros z Hz E. apply (f_equal byteZ) in E. unfold hex_digit in E.
    destruct (z <? 10)%Z; rewrite byteZ_Zbyte_small in E by lia;
      change (byteZ quote) with 34%Z in E; lia. }
  assert (quote ≠ hex_digit (byteZ c / 16)) by (apply not_eq_sym, Hh; split; [apply Z.div_pos; lia|apply Z.div_lt_upper_bound; lia]).
  assert (quote ≠ hex_digit (byteZ c mod 16)) by (apply not_eq_sym, Hh, Z.mod_pos_bound; lia).
  intros Hin. repeat (apply elem_of_cons in Hin as [?|Hin]; [done|]). by apply elem_of_nil in Hin.
Qed.

(** A key of the document: no quote, no backslash. *)
Definition key_ok (key : bytes) : Prop := (quote ∉ key) ∧ (backslash ∉ key).

(** No needle starts at the opening quote of a string value, nor at an escaped
    quote inside it. *)
Lemma needle_not_in_string key s c rest r :
  key_ok key → c ≠ ":"%byte →
  json_escape s ++ quote :: c :: rest ≠ key ++ quote :: ":"%byte :: r.
Proof.
  unfold json_escape. revert key; induction s as [|b s IH]; intros key [Hq Hb] Hc E.
  - destruct key as [|k key]; simpl in E; [by injection E as ? _|].
    injection E as ? _. set_solver.
  - cbn [fmap list_fmap concat] in E.
    destruct (escape_char_cases b) as [(He & Hbq & Hbb)|(e & t & He & Ht)]; rewrite He in E.
    + destruct key as [|k key]; simpl in E; [by injection E as ? _|].
      injection E as <- E. eapply IH; [|done|exact E]. split; set_solver.
    + destruct key as [|k key]; simpl in E; [by injection E as ? _|].
      injection E as <- _. set_solver.
Qed.

(** [needle] is a quoted key and a colon, possibly with an opening quote. *)
Definition needle_of (key needle : bytes) : Prop :=
  ∃ t, needle = quote :: key ++ quote :: ":"%byte :: t.

Lemma needle_no_start key needle s c rest :
  key_ok key → needle_of key needle → c ≠ ":"%byte →
  starts_with needle (quote :: json_escape s ++ quote :: c :: rest) = false.
Proof.
  intros Hk [t ->] Hc. apply not_true_iff_false. intros [r E]%starts_with_spec.
  injection E as E. rewrite <- app_assoc in E.
  by eapply (needle_not_in_string key s c rest); [..|exact E].
Qed.

Lemma find_past_string key needle s c rest :
  key_ok key → needle_of key needle → c ≠ ":"%byte →
  starts_with needle (quote :: c :: rest) = false →
  find_sub needle (json_escape s ++ quote :: c :: rest) =
  (λ i, length (json_escape s) + S i) <$> find_sub needle (c :: rest).
Proof.
  intros Hk Hn Hc Hhead.
  assert (∀ b x, b ≠ quote → starts_with needle (b :: x) = false) as Hskip.
  { intros b x Hb. destruct Hn as [t ->]. simpl. by rewrite bool_decide_false by auto. }
  assert (∀ t x, quote ∉ t → find_sub needle (t ++ x) = (λ i, length t + i) <$> find_sub needle x)
    as Htail.
  { intros t x Ht. apply (find_sub_no_head quote); [|done]. by destruct Hn as [? ->]. }
  induction s as [|b s IH].
  - cbn [json_escape fmap list_fmap concat app length].
    rewrite find_sub_skip by done. by destruct (find_sub needle (c :: rest)).
  - change (json_escape (b :: s)) with (escape_char b ++ json_escape s).
    rewrite <- app_assoc, length_app.
    destruct (escape_char_cases b) as [(-> & Hbq & Hbb)|(e & t & -> & Ht)].
    + cbn [app]. rewrite find_sub_skip by auto. rewrite IH.
      by destruct (find_sub needle (c :: rest)).
    + cbn [app]. rewrite find_sub_skip by (apply Hskip; done).
      destruct Ht as [->|[Heq Ht]].
      * cbn [app length]. destruct (decide (e = quote)) as [->|Heq].
        -- rewrite find_sub_skip by by apply needle_no_start with key.
           rewrite IH. by destruct (find_sub needle (c :: rest)).
        -- rewrite find_sub_skip by auto. rewrite IH. by destruct (find_sub needle (c :: rest)).
      * rewrite find_sub_skip by auto. rewrite Htail by done. rewrite IH. cbn [length].
        destruct (find_sub needle (c :: rest)); simpl; [f_equal; lia|done].
Qed.

(** The text after the first occurrence of a needle. *)
Definition after (needle s : bytes) : option bytes :=
  i ← find_sub needle s; Some (drop (i + length needle) s).

Lemma after_here needle s : after needle (needle ++ s) = Some s.
Proof. unfold after. rewrite find_sub_app_head. simpl. by rewrite drop_app_length. Qed.

Lemma after_skip needle b s :
  starts_with needle (b :: s) = false → after needle (b :: s) = after needle s.
Proof.
  intros Hs. unfold after. rewrite find_sub_skip by done.
  by destruct (find_sub needle s).
Qed.

Lemma after_no_head needle p s :
  head needle = Some quote → quote ∉ p → after needle (p ++ s) = after needle s.
Proof.
  intros Hh Hp. unfold after. rewrite (find_sub_no_head quote) by done.
  destruct (find_sub needle s) as [i|]; [|done]. simpl. f_equal.
  by rewrite <- Nat.add_assoc, drop_app_add.
Qed.

Lemma after_skip_ne needle b s :
  head needle = Some quote → b ≠ quote → after needle (b :: s) = after needle s.
Proof. intros Hh Hb. apply (after_no_head needle [b]); [done|set_solver]. Qed.

Lemma after_string key needle s c rest :
  key_ok key → needle_of key needle → c ≠ ":"%byte →
  starts_with needle (quote :: c :: rest) = false →
  after needle (quote :: json_escape s ++ quote :: c :: rest) = after needle (c :: rest).
Proof.
  intros Hk Hn Hc Hh. rewrite after_skip by by eapply needle_no_start.
  unfold after. rewrite (find_past_string key) by done.
  destruct (find_sub needle (c :: rest)) as [i|]; [|done]. simpl. f_equal.
  replace (length (json_escape s) + S i + length needle)
    with (length (json_escape s) + S (i + length needle)) by lia.
  by rewrite drop_app_add.
Qed.

Lemma digits_no_quote n : (0 ≤ n)%Z → quote ∉ show_u n.
Proof. intros. by apply digits_no_byte; [apply show_u_digits|]. Qed.

Lemma number_at n c r :
  (0 ≤ n)%Z → is_ascii_digit c = false →
  let rest := show_u n ++ c :: r in
  let e := default (length rest) (find_byte (λ b, negb (is_ascii_digit b)) rest) in
  (if Nat.eqb e 0 then None else Some (take e rest)) = Some (show_u n).
Proof.
  intros Hn Hc rest e. assert (e = length (show_u n)) as ->.
  { unfold e, rest. rewrite find_byte_app_None.
    - cbn [find_byte]. rewrite Hc. simpl. lia.
    - apply forallb_forall. intros b Hb. rewrite negb_involutive.
      pose proof (show_u_digits n Hn) as Hd. rewrite forallb_forall in Hd. by apply Hd. }
  destruct (show_u_cons n) as (b & t & E). destruct (Nat.eqb_spec (length (show_u n)) 0) as [E0|].
  { by rewrite E in E0. }
  unfold rest. by rewrite take_app_length.
Qed.

Section document.
Variable p : PeerSummary.
Hypothesis Hts : in_u64 (last_ts p).
Hypothesis Hun : in_u32 (unread p).

(** The document from each of its fields on. *)
Let d4 := number_needle "unread"%bs ++ show_u (unread p) ++ "}"%bs.
Let d3 := string_needle "last_snippet"%bs ++ json_escape (last_snippet p) ++ dq ++ ","%bs ++ d4.
Let d2 := number_needle "last_ts"%bs ++ show_u (last_ts p) ++ ","%bs ++ d3.
Let d1 := "{"%bs ++ string_needle "display_name"%bs ++ json_escape (display_name p) ++ dq ++
            ","%bs ++ d2.

Lemma to_json_fields : to_json p = d1.
Proof. done. Qed.

Ltac skip := rewrite after_skip by reflexivity.
Ltac keys := split; set_solver.

Lemma after_display :
  after (string_needle "display_name"%bs) d1 = Some (json_escape (display_name p) ++ quote :: ","%byte :: d2).
Proof. unfold d1. cbn [app unB]. skip. apply after_here. Qed.

Lemma after_first_string key needle :
  key_ok key → needle_of key needle →
  starts_with needle (quote :: ","%byte :: d2) = false →
  (∀ t, starts_with needle (quote :: "d"%byte :: t) = false) →
  (∀ t, starts_with needle (quote :: ":"%byte :: t) = false) →
  after needle d1 = after needle d2.
Proof.
  intros Hk Hn Hc Hd Hcol. assert (head needle = Some quote) as Hh by by destruct Hn as [? ->].
  unfold d1. change (after needle (["{"%byte] ++ quote :: "display_name"%bs ++ quote :: ":"%byte ::
    quote :: json_escape (display_name p) ++ quote :: ","%byte :: d2) = after needle d2).
  cbn [app]. rewrite after_skip_ne by done. rewrite after_skip by apply Hd.
  rewrite after_no_head by (done || (vm_compute; set_solver)).
  rewrite after_skip by apply Hcol.
  rewrite after_skip_ne by done. rewrite (after_string key) by done.
  by rewrite after_skip_ne by done.
Qed.

Lemma after_ts :
  after (number_needle "last_ts"%bs) d1 = Some (show_u (last_ts p) ++ ","%byte :: d3).
Proof.
  rewrite (after_first_string "last_ts"%bs);
    [apply after_here|split; vm_compute; set_solver|by eexists|done..].
Qed.

Lemma after_number key needle :
  key_ok key → needle_of key needle →
  (∀ t, starts_with needle (number_needle "last_ts"%bs ++ t) = false) →
  (∀ t, starts_with needle (quote :: ":"%byte :: t) = false) →
  after needle d2 = after needle d3.
Proof.
  intros Hk Hn Hts' Hcol. assert (head needle = Some quote) as Hh by by destruct Hn as [? ->].
  change (after needle (quote :: "last_ts"%bs ++ quote :: ":"%byte :: show_u (last_ts p) ++
    ","%byte :: d3) = after needle d3).
  rewrite after_skip by apply (Hts' (show_u (last_ts p) ++ ","%byte :: d3)).
  rewrite after_no_head by (done || (vm_compute; set_solver)).
  rewrite after_skip by apply Hcol. rewrite after_skip_ne by done.
  rewrite after_no_head by (done || apply digits_no_quote, Hts).
  by rewrite after_skip_ne by done.
Qed.

Lemma after_snippet :
  after (string_needle "last_snippet"%bs) d1 =
  Some (json_escape (last_snippet p) ++ quote :: ","%byte :: d4).
Proof.
  rewrite (after_first_string "last_snippet"%bs), (after_number "last_snippet"%bs);
    try done; try (split; vm_compute; set_solver); by eexists.
Qed.

Lemma after_unread :
  after (number_needle "unread"%bs) d1 = Some (show_u (unread p) ++ ["}"%byte]).
Proof.
  assert (key_ok "unread"%bs) as Hk by (split; vm_compute; set_solver).
  assert (needle_of "unread"%bs (number_needle "unread"%bs)) as Hn by by eexists.
  rewrite (after_first_string "unread"%bs), (after_number "unread"%bs) by done.
  change (after (number_needle "unread"%bs) (quote :: "last_snippet"%bs ++ quote :: ":"%byte ::
    quote :: json_escape (last_snippet p) ++ quote :: ","%byte :: d4) =
    Some (show_u (unread p) ++ ["}"%byte])).
  rewrite after_skip by done. rewrite after_no_head by (done || (vm_compute; set_solver)).
  rewrite after_skip by done. rewrite after_skip_ne by done.
  rewrite (after_string "unread"%bs) by done. rewrite after_skip_ne by done. apply after_here.
Qed.

Hypothesis Hname : forallb plain_char (display_name p) = true.
Hypothesis Hsnip : forallb plain_char (last_snippet p) = true.

Lemma from_to_json : from_json (uuid p) (to_json p) = Some p.
Proof.
  assert (∀ key s, extract_string_field s key = after (string_needle key) s ≫= scan_string)
    as Hstr.
  { intros key s. unfold extract_string_field, after. by destruct (find_sub _ s). }
  assert (∀ key s n c r, after (number_needle key) s = Some (show_u n ++ c :: r) →
    (0 ≤ n)%Z → is_ascii_digit c = false → extract_number_field s key = Some (show_u n)) as Hnum.
  { intros key s n c r Ha Hn Hc. unfold extract_number_field, after in *.
    destruct (find_sub (number_needle key) s) as [i|]; [|done]. simpl in Ha |- *.
    injection Ha as ->. by apply number_at. }
  unfold from_json. rewrite to_json_fields, !Hstr, after_display, after_snippet.
  rewrite (Hnum _ _ _ _ _ after_ts), (Hnum _ _ _ _ _ after_unread) by (done || apply Hts || apply Hun).
  simpl. rewrite !scan_escape by done. simpl.
  rewrite parse_u64_show, parse_u32_show by done. by destruct p.
Qed.
End document.

(** * Stored documents are strings *)

Lemma escape_char_high b : (128 ≤ byteZ b)%Z → escape_char b = [b].
Proof. intros Hb. destruct b; try reflexivity; by vm_compute in Hb. Qed.
Lemma escape_char_ascii b :
  (byteZ b < 128)%Z → forallb (λ x, byteZ x <? 128)%Z (escape_char b) = true.
Proof. intros Hb. destruct b; try reflexivity; by vm_compute in Hb. Qed.

Lemma json_escape_utf8 s : utf8_valid s = true → utf8_valid (json_escape s) = true.
Proof. apply utf8_escaped; [apply escape_char_ascii|apply escape_char_high]. Qed.

(** A summary the store can hold without loss. *)
Definition summary_ok (s : PeerSummary) : Prop :=
  in_u64 (last_ts s) ∧ in_u32 (unread s) ∧
  forallb plain_char (display_name s) = true ∧ forallb plain_char (last_snippet s) = true ∧
  utf8_valid (display_name s) = true ∧ utf8_valid (last_snippet s) = true.

Lemma to_json_utf8 s : summary_ok s → utf8_valid (to_json s) = true.
Proof.
  intros (Ht & Hu & _ & _ & Hd & Hs). unfold to_json.
  do 2 (apply utf8_valid_app; [by vm_compute|]).
  apply utf8_valid_app; [by apply json_escape_utf8|].
  do 3 (apply utf8_valid_app; [by vm_compute|]). apply utf8_valid_app; [apply show_u_utf8, Ht|].
  do 2 (apply utf8_valid_app; [by vm_compute|]).
  apply utf8_valid_app; [by apply json_escape_utf8|].
  do 3 (apply utf8_valid_app; [by vm_compute|]).
  apply utf8_valid_app; [apply show_u_utf8, Hu|done].
Qed.

(** C39: the stored document round trip.  For every summary whose texts are
    strings without control characters (other than newline, carriage return
    and tab), with any quotes, backslashes or look-alike keys in them,
    [from_json] of [to_json] is the summary, and the document is valid UTF-8. *)
Theorem peer_json_roundtrip s :
  summary_ok s → from_json (uuid s) (to_json s) = Some s ∧ utf8_valid (to_json s) = true.
Proof.
  intros Hs. split; [|by apply to_json_utf8].
  destruct Hs as (Ht & Hu & Hd & Hsn & _). by apply from_to_json.
Qed.

Definition tricky_summary : PeerSummary :=
  {| uuid := "u"%bs;
     display_name := [backslash; quote] ++ "last_ts"%bs ++ [quote; ":"%byte; "7"%byte; Byte.x0a];
     last_ts := 1700000000000;
     last_snippet := quote :: "unread"%bs ++ [quote; ":"%byte; Byte.xe2; Byte.x80; Byte.xa6];
     unread := 3 |}.
Lemma tricky_summary_ok : summary_ok tricky_summary.
Proof. by vm_compute. Qed.

Lemma peer_json_roundtrip_witness :
  from_json (uuid tricky_summary) (to_json tricky_summary) = Some tricky_summary ∧
  utf8_valid (to_json tricky_summary) = true.
Proof. apply (peer_json_roundtrip tricky_summary). apply tricky_summary_ok. Defined.

(** A control character is lost.  [json_escape] writes it as a [\u] escape
    that [extract_string_field] does not decode, so a summary whose snippet is
    the one byte 1 is read back with the six-character escape instead. *)
Theorem control_char_not_roundtripped :
  ∃ s s', last_snippet s = [Byte.x01] ∧ from_json (uuid s) (to_json s) = Some s' ∧
    last_snippet s' = backslash :: "u0001"%bs ∧ s' ≠ s.
Proof.
  exists {| uuid := []; display_name := []; last_ts := 0; last_snippet := [Byte.x01]; unread := 0 |}.
  eexists. split_and!; [done|by vm_compute|done|done].
Qed.

(** * The store *)
Section store.
Context {P : Type} `{PddbLaws P}.
Implicit Types p : P.

(** The summary the store holds for a peer. *)
Definition summary_at p (id : bytes) : option PeerSummary :=
  (contents p !! (PEERS_DICT, id) ≫= from_utf8) ≫= from_json id.
Definition peers_ok p : Prop := ∀ id s, summary_at p id = Some s → summary_ok s.
Definition text_ok (t : bytes) : Prop := forallb plain_char t = true ∧ utf8_valid t = true.

Lemma read_runs {E} id p :
  runs (E := E) (read id) p (Ok (summary_at p id)) (contents p).
Proof. eapply runs_bind; [apply get_string_runs|]. intros p1 Hp1. by apply runs_ret. Qed.

Lemma summary_uuid p id s : summary_at p id = Some s → uuid s = id.
Proof. unfold summary_at. intros (raw & _ & Hs)%bind_Some. by injection Hs as <-. Qed.

Lemma write_summary_spec s p :
  summary_ok s →
  ∃ p', write_summary s p = (Ok (), p') ∧ summary_at p' (uuid s) = Some s ∧
    ∀ id, id ≠ uuid s → summary_at p' id = summary_at p id.
Proof.
  intros Hs. destruct (overwrite_spec id id PEERS_DICT (uuid s) (to_json s) p)
    as (p' & E & Hc).
  exists p'. split; [done|]. unfold summary_at. rewrite Hc. split.
  - rewrite lookup_insert_eq. cbn [mbind option_bind].
    rewrite (proj2 (from_utf8_Some _ _)) by (split; [done|by apply to_json_utf8]).
    destruct Hs as (? & ? & ? & ? & _). by apply from_to_json.
  - intros i Hi. by rewrite lookup_insert_ne by congruence.
Qed.

Lemma write_summary_inv s p p' :
  summary_ok s → peers_ok p → summary_at p' (uuid s) = Some s →
  (∀ id, id ≠ uuid s → summary_at p' id = summary_at p id) → peers_ok p'.
Proof.
  intros Hs Hp Hat Hother id s' Hs'. destruct (decide (id = uuid s)) as [->|Hne].
  - congruence.
  - rewrite Hother in Hs' by done. by apply (Hp id).
Qed.

Lemma truncate_plain t :
  text_ok t → text_ok (default [] (truncate_snippet t)).
Proof.
  intros [Hp Hu]. destruct (truncate_snippet_valid t Hu) as (s & E & Hv & _).
  rewrite E. split; [|done]. change (forallb plain_char s = true).
  destruct (truncate_cases t) as [[E' _]|(_ & n & _ & _ & E')]; rewrite E' in E;
    injection E as <-; [done|].
  rewrite forallb_app. apply andb_true_iff. split; [|by vm_compute].
  apply forallb_forall. intros b Hb. rewrite forallb_forall in Hp. apply Hp.
  rewrite <- (take_drop n t). apply in_or_app. by left.
Qed.

Definition old_summary p (id : bytes) : PeerSummary :=
  default (new_summary id) (summary_at p id).

Lemma old_ok p id : peers_ok p → text_ok id → summary_ok (old_summary p id).
Proof.
  intros Hp [Hi Hu]. unfold old_summary. destruct (summary_at p id) as [s|] eqn:E.
  - by apply (Hp id).
  - split_and!; try done.
Qed.
Lemma old_uuid p id : uuid (old_summary p id) = id.
Proof.
  unfold old_summary. destruct (summary_at p id) eqn:E; [by apply summary_uuid in E|done].
Qed.

Lemma updated_ok s ts t n :
  summary_ok s → in_u64 ts → text_ok t → in_u32 n → summary_ok (updated s ts t n).
Proof.
  intros (? & ? & ? & ? & ? & ?) Hts [Ht1 Ht2]%truncate_plain Hn. by split_and!.
Qed.

Lemma update_spec id ts t n p :
  peers_ok p → text_ok id → text_ok t → in_u64 ts → in_u32 n →
  let s := updated (old_summary p id) ts t n in
  ∀ p1, contents p1 = contents p → ∃ p', write_summary s p1 = (Ok (), p') ∧ peers_ok p' ∧
    summary_at p' id = Some s ∧ ∀ i, i ≠ id → summary_at p' i = summary_at p i.
Proof.
  intros Hp Hid Ht Hts Hn s p1 Hc.
  assert (∀ i, summary_at p1 i = summary_at p i) as Heq by (intros i; unfold summary_at; by rewrite Hc).
  assert (summary_ok s) as Hs by (apply updated_ok; [by apply old_ok|done..]).
  assert (uuid s = id) as Hu by apply old_uuid.
  destruct (write_summary_spec s p1 Hs) as (p' & E & Hat & Hother). rewrite Hu in Hat, Hother.
  exists p'. split_and!; [done| |done|by intros i Hi; rewrite Hother, Heq].
  eapply (write_summary_inv s p1); [done| |by rewrite Hu|by rewrite Hu].
  intros i x. rewrite Heq. apply Hp.
Qed.

Lemma record_inbound_spec id ts t focused p :
  peers_ok p → text_ok id → text_ok t → in_u64 ts →
  let old := old_summary p id in
  ∃ p', record_inbound id ts t focused p = (Ok (), p') ∧ peers_ok p' ∧
    summary_at p' id = Some (updated old ts t
      (if focused then unread old else Z.min u32_max (unread old + 1))) ∧
    (∀ i, i ≠ id → summary_at p' i = summary_at p i).
Proof.
  intros Hp Hid Ht Hts old. pose proof (old_ok p id Hp Hid) as Hold.
  destruct (read_runs (E := io_error) id p) as (p1 & E1 & Hc1).
  destruct Hold as (_ & Hun & _). fold old in Hun.
  unfold record_inbound, mbind, ST_bind. rewrite E1.
  destruct focused; (eapply update_spec; [done..| |done]); [done|].
  unfold sat_add, in_u32, u32_max in *. fold old. lia.
Qed.

Lemma clear_unread_spec id p :
  peers_ok p →
  ∃ p', clear_unread id p = (Ok (), p') ∧ peers_ok p' ∧
    summary_at p' id = (λ s, {| uuid := id; display_name := display_name s;
      last_ts := last_ts s; last_snippet := last_snippet s; unread := 0 |}) <$> summary_at p id ∧
    (∀ i, i ≠ id → summary_at p' i = summary_at p i).
Proof.
  intros Hp. destruct (read_runs (E := io_error) id p) as (p1 & E1 & Hc1).
  assert (∀ i, summary_at p1 i = summary_at p i) as Heq
    by (intros i; unfold summary_at; by rewrite Hc1).
  assert (peers_ok p1) as Hp1 by (intros i x; rewrite Heq; apply Hp).
  unfold clear_unread, mbind, ST_bind. rewrite E1.
  destruct (summary_at p id) as [s|] eqn:Es.
  2: { exists p1. split_and!; [done|done|by rewrite Heq, Es|done]. }
  pose proof (summary_uuid _ _ _ Es) as Hu.
  destruct (Z.eqb_spec (unread s) 0) as [Hz|Hz].
  { exists p1. split_and!; [done|done| |done]. rewrite Heq, Es. simpl. destruct s. simpl in *.
    by subst. }
  destruct (Hp id s Es) as (Hs1 & _ & Hs3 & Hs4 & Hs5 & Hs6).
  match goal with |- context [write_summary ?x p1] => assert (summary_ok x) as Hx by (by split_and!);
    destruct (write_summary_spec x p1 Hx) as (p' & E & Hat & Hother) end.
  pose proof (write_summary_inv _ _ _ Hx Hp1 Hat Hother) as Hinv.
  simpl in Hat, Hother. rewrite Hu in *. exists p'. split_and!; [done|done|done|].
  intros i Hi. by rewrite Hother, Heq.
Qed.

(** The unread counter.  An inbound message updates the time and snippet
    and adds one to the counter (saturating) unless the peer is focused; an
    outbound message never changes the counter; opening the conversation sets
    it to zero and changes nothing else; no operation touches another peer. *)
Theorem unread_rules id ts t p :
  peers_ok p → text_ok id → text_ok t → in_u64 ts →
  let old := old_summary p id in
  (∀ focused, ∃ p', record_inbound id ts t focused p = (Ok (), p') ∧ peers_ok p' ∧
     summary_at p' id = Some (updated old ts t
       (if focused then unread old else Z.min u32_max (unread old + 1))) ∧
     ∀ i, i ≠ id → summary_at p' i = summary_at p i) ∧
  (∃ p', record_outbound id ts t p = (Ok (), p') ∧ peers_ok p' ∧
     summary_at p' id = Some (updated old ts t (unread old)) ∧
     ∀ i, i ≠ id → summary_at p' i = summary_at p i) ∧
  (∃ p', clear_unread id p = (Ok (), p') ∧
     summary_at p' id = (λ s, {| uuid := id; display_name := display_name s;
       last_ts := last_ts s; last_snippet := last_snippet s; unread := 0 |}) <$> summary_at p id ∧
     ∀ i, i ≠ id → summary_at p' i = summary_at p i).
Proof.
  intros Hp Hid Ht Hts old. pose proof (old_ok p id Hp Hid) as Hold.
  destruct (read_runs (E := io_error) id p) as (p1 & E1 & Hc1).
  destruct Hold as (_ & Hun & _). fold old in Hun. split; [|split].
  - intros focused. by apply record_inbound_spec.
  - unfold record_outbound, mbind, ST_bind. rewrite E1.
    eapply update_spec; done.
  - destruct (clear_unread_spec id p Hp) as (p' & E & _ & Hat & Hother). by exists p'.
Qed.

Lemma collect_summaries {E} ids p :
  runs (E := E) (collect (λ id, raw ← pddb_get_string PEERS_DICT id;
      mret (raw ≫= from_json id)) ids) p (Ok (summary_at p <$> ids)) (contents p).
Proof.
  assert (∀ p1, contents p1 = contents p → runs (E := E) (collect (λ id,
    raw ← pddb_get_string PEERS_DICT id; mret (raw ≫= from_json id)) ids) p1
    (Ok (summary_at p <$> ids)) (contents p)) as Hall; [|by apply Hall].
  induction ids as [|id ids IH]; intros p1 Hp1; cbn [collect]; [by apply runs_ret|].
  eapply (runs_bind _ _ _ (summary_at p id)).
  - eapply runs_bind; [apply get_string_runs|]. intros p2 Hp2. unfold summary_at.
    rewrite <- Hp1. apply runs_ret. exact Hp2.
  - intros p2 Hp2. eapply runs_bind; [apply IH; congruence|]. intros p3 Hp3. by apply runs_ret.
Qed.

(** The conversation list holds every stored summary exactly once, most
    recent first, and reading it changes nothing. *)
Theorem list_sorted_spec p :
  ∃ l, runs (E := io_error) list_sorted p (Ok l) (contents p) ∧
    StronglySorted (λ x y, last_ts y ≤ last_ts x)%Z l ∧ NoDup (uuid <$> l) ∧
    ∀ s, s ∈ l ↔ ∃ id, summary_at p id = Some s.
Proof.
  destruct (list_keys_law PEERS_DICT p) as (r & p1 & E1 & Hc1 & Hr).
  destruct r as [ks|e].
  2: { exists []. split_and!; [|constructor..|].
       - eapply runs_bind; [apply runs_try; by exists p1|]. intros. apply runs_ret. congruence.
       - intros s. split; [by intros ?%elem_of_nil|]. intros [id Hs]. unfold summary_at in Hs.
         by rewrite Hr in Hs. }
  destruct Hr as [Hnd Hks].
  assert (∀ i, summary_at p1 i = summary_at p i) as Heq
    by (intros i; unfold summary_at; by rewrite Hc1).
  exists (sort_by_desc last_ts (omap id (summary_at p <$> ks))). split_and!.
  - eapply runs_bind; [apply runs_try; by exists p1|]. intros p2 Hp2.
    eapply runs_bind; [apply collect_summaries|]. intros p3 Hp3.
    assert (summary_at p2 <$> ks = summary_at p <$> ks) as ->.
    { apply list_fmap_ext. intros _ i _. unfold summary_at. by rewrite Hp2. }
    apply runs_ret. congruence.
  - apply sort_by_desc_sorted.
  - rewrite sort_by_desc_perm. clear Hks E1. induction Hnd as [|k ks Hk Hnd IH]; [constructor|].
    cbn [fmap list_fmap omap list_omap]. destruct (summary_at p k) as [s|] eqn:Es; cbn [id]; [|exact IH].
    cbn [fmap list_fmap]. constructor; [|exact IH]. rewrite (summary_uuid _ _ _ Es).
    intros (s' & Hk' & Hin)%list_elem_of_fmap. apply Hk.
    apply list_elem_of_omap in Hin as (o & (k' & -> & Hin)%list_elem_of_fmap & Ho).
    unfold id in Ho. apply summary_uuid in Ho. congruence.
  - intros s. rewrite sort_by_desc_perm, list_elem_of_omap. split.
    + intros (o & (k & -> & _)%list_elem_of_fmap & Ho). by exists k.
    + intros [k Hk]. exists (summary_at p k). split; [|done]. apply list_elem_of_fmap.
      exists k. split; [done|]. apply Hks. unfold summary_at in Hk.
      by destruct (contents p !! (PEERS_DICT, k)).
Qed.
End store.

Lemma empty_peers_ok : peers_ok (∅ : flash).
Proof.
  intros id s Hs. unfold summary_at in Hs.
  change (((∅ : flash) !! (PEERS_DICT, id) ≫= from_utf8) ≫= from_json id = Some s) in Hs.
  by rewrite lookup_empty in Hs.
Qed.

Lemma unread_rules_witness :
  (∀ focused, ∃ p' : flash, record_inbound "bob"%bs 5 "hi"%bs focused ∅ = (Ok (), p') ∧ peers_ok p' ∧
     summary_at p' "bob"%bs = Some (updated (old_summary (∅ : flash) "bob"%bs) 5 "hi"%bs
       (if focused then unread (old_summary (∅ : flash) "bob"%bs)
        else Z.min u32_max (unread (old_summary (∅ : flash) "bob"%bs) + 1))) ∧
     ∀ i : bytes, i ≠ "bob"%bs → summary_at p' i = summary_at (∅ : flash) i) ∧
  (∃ p' : flash, record_outbound "bob"%bs 5 "hi"%bs ∅ = (Ok (), p') ∧ peers_ok p' ∧
     summary_at p' "bob"%bs = Some (updated (old_summary (∅ : flash) "bob"%bs) 5 "hi"%bs
       (unread (old_summary (∅ : flash) "bob"%bs))) ∧
     ∀ i : bytes, i ≠ "bob"%bs → summary_at p' i = summary_at (∅ : flash) i) ∧
  (∃ p' : flash, clear_unread "bob"%bs ∅ = (Ok (), p') ∧
     summary_at p' "bob"%bs = (λ s, {| uuid := "bob"%bs; display_name := display_name s;
       last_ts := last_ts s; last_snippet := last_snippet s; unread := 0 |})
         <$> summary_at (∅ : flash) "bob"%bs ∧
     ∀ i : bytes, i ≠ "bob"%bs → summary_at p' i = summary_at (∅ : flash) i).
Proof.
  apply (unread_rules "bob"%bs 5 "hi"%bs (∅ : flash)); [exact empty_peers_ok|by vm_compute..].
Defined.

Lemma list_sorted_spec_witness :
  ∃ l, runs (E := io_error) list_sorted (∅ : flash) (Ok l) ∅ ∧
    StronglySorted (λ x y, last_ts y ≤ last_ts x)%Z l ∧ NoDup (uuid <$> l) ∧
    ∀ s, s ∈ l ↔ ∃ id, summary_at (∅ : flash) id = Some s.
Proof. exact (list_sorted_spec (∅ : flash)). Defined.
