(* ===== verification/Races.v ===== *)
(** Two threads inside one turn.

    System.v takes a turn of a thread as one step.  Here a store operation is cut at
    every PDDB call ([prog]), two of them run side by side under a schedule, and the
    cut operations are shown to be the ones of Stores.v and Peers.v when they run
    alone ([load_session_run], [store_session_run], [record_inbound_run],
    [clear_unread_run]).

    The client takes no lock: a post encrypts on the main thread while the receive
    worker decrypts, each with its own handle on the session dictionary.  The theorems
    say what that costs: an update of a session, or of a conversation's summary, that
    is made between another thread's read and its write is lost. *)

From S2P Require Import Prelude Hoare RustStd Wire Base64 Pddb Signal Stores World Outgoing Peers.

(** * Programs of PDDB calls *)
Section prog.
Context {P : Type}.

Inductive prog (A : Type) : Type :=
  | Done (a : A)
  | Call (X : Type) (c : P → X * P) (k : X → prog A).
Arguments Done {A}.
Arguments Call {A X}.

(** Alone. *)
Fixpoint run {A} (c : prog A) (p : P) : A * P :=
  match c with
  | Done a => (a, p)
  | Call c k => let '(x, p) := c p in run (k x) p
  end.
(** One call. *)
Definition advance_one {A} (c : prog A) (p : P) : prog A * P :=
  match c with
  | Done a => (Done a, p)
  | Call c k => let '(x, p) := c p in (k x, p)
  end.
Fixpoint then_ {A B} (c : prog A) (f : A → prog B) : prog B :=
  match c with
  | Done a => f a
  | Call c k => Call c (λ x, then_ (k x) f)
  end.

(** Two threads; [true] lets the first make its next call. *)
Definition race_turn {A B} (s : prog A * prog B * P) (who : bool) : prog A * prog B * P :=
  let '(a, b, p) := s in
  if who then let '(a, p) := advance_one a p in (a, b, p)
  else let '(b, p) := advance_one b p in (a, b, p).
Definition race {A B} (sched : list bool) (s : prog A * prog B * P) : prog A * prog B * P :=
  foldl race_turn s sched.

Lemma race_app {A B} l l' (s : prog A * prog B * P) : race (l ++ l') s = race l' (race l s).
Proof. apply foldl_app. Qed.
Lemma run_then {A B} (c : prog A) (f : A → prog B) p :
  run (then_ c f) p = let '(a, p) := run c p in run (f a) p.
Proof.
  revert p. induction c as [a|X c k IH]; intros p; [done|]. simpl. destruct (c p) as [x p1]. apply IH.
Qed.
(** The first thread runs on its own: to its end, or over its first half. *)
Lemma race_first {A B} (c : prog A) (b : prog B) p :
  ∃ n, race (replicate n true) (c, b, p) = (Done (run c p).1, b, (run c p).2).
Proof.
  revert p. induction c as [a|X c k IH]; intros p; [by exists 0|].
  simpl. destruct (c p) as [x p1] eqn:E. destruct (IH x p1) as [n Hn]. exists (S n).
  simpl. unfold race in *. simpl. rewrite E. exact Hn.
Qed.
Lemma race_second {A B} (a : prog A) (c : prog B) p :
  ∃ n, race (replicate n false) (a, c, p) = (a, Done (run c p).1, (run c p).2).
Proof.
  revert p. induction c as [b|X c k IH]; intros p; [by exists 0|].
  simpl. destruct (c p) as [x p1] eqn:E. destruct (IH x p1) as [n Hn]. exists (S n).
  simpl. unfold race in *. simpl. rewrite E. exact Hn.
Qed.
Lemma race_half {A A' B} (c : prog A) (f : A → prog A') (b : prog B) p :
  ∃ n, race (replicate n true) (then_ c f, b, p) = (f (run c p).1, b, (run c p).2).
Proof.
  revert p. induction c as [a|X c k IH]; intros p; [by exists 0|].
  simpl. destruct (c p) as [x p1] eqn:E. destruct (IH x p1) as [n Hn]. exists (S n).
  simpl. unfold race in *. simpl. rewrite E. exact Hn.
Qed.
(** The second thread runs between the halves of the first. *)
Lemma race_between {A A' B} (c : prog A) (f : A → prog A') (b : prog B) p :
  ∃ sched, race sched (then_ c f, b, p) =
    (Done (run (f (run c p).1) (run b (run c p).2).2).1, Done (run b (run c p).2).1,
     (run (f (run c p).1) (run b (run c p).2).2).2).
Proof.
  destruct (race_half c f b p) as [n1 H1]. destruct (race_second (f (run c p).1) b (run c p).2) as [n2 H2].
  destruct (race_first (f (run c p).1) (Done (A := B) (run b (run c p).2).1) (run b (run c p).2).2) as [n3 H3].
  exists (replicate n1 true ++ replicate n2 false ++ replicate n3 true). by rewrite !race_app, H1, H2.
Qed.
End prog.
Arguments prog : clear implicits.
Arguments Done {P A}.
Arguments Call {P A X}.

(** * The operations, call by call *)
Section calls.
Context `{Libsignal} {P : Type} `{Pddb P}.

Definition read_binary_calls (dict key : bytes) : prog P (result io_error bytes) :=
  Call (pddb_get dict key false) (λ r,
    match r with
    | Ok _ => Call (pddb_read_to_end dict key) Done
    | Err e => Done (Err e)
    end).
Definition write_calls {E} (on_get on_write : io_error → E) (dict key data : bytes) :
    prog P (result E ()) :=
  Call (pddb_delete_key dict key) (λ _,
  Call (pddb_get dict key true) (λ r,
    match r with
    | Err e => Done (Err (on_get e))
    | Ok _ => Call (pddb_write_all dict key data) (λ r,
        match r with
        | Err e => Done (Err (on_write e))
        | Ok _ => Call pddb_sync (λ _, Done (Ok tt))
        end)
    end)).
Definition get_string_calls (dict key : bytes) : prog P (option bytes) :=
  Call (pddb_get dict key false) (λ r,
    match r with
    | Ok _ => Call (pddb_read_to_end dict key) (λ r,
        Done match r with Ok buf => from_utf8 buf | Err _ => None end)
    | Err _ => Done None
    end).

Lemma read_binary_run d k p : run (read_binary_calls d k) p = pddb_read_binary d k p.
Proof.
  unfold pddb_read_binary, mbind, ST_bind. simpl. destruct (pddb_get d k false p) as [[[]|e] p1]; [|done].
  simpl. by destruct (pddb_read_to_end d k p1).
Qed.
Lemma write_run {E} (f g : io_error → E) d k v p :
  run (write_calls f g d k v) p = pddb_overwrite f g d k v p.
Proof.
  unfold pddb_overwrite, ignore, with_err, mbind, ST_bind. simpl.
  destruct (pddb_delete_key d k p) as [r p1]. simpl.
  destruct (pddb_get d k true p1) as [[[]|e] p2]; [|done]. simpl.
  destruct (pddb_write_all d k v p2) as [[[]|e] p3]; [|done]. simpl. by destruct (pddb_sync p3).
Qed.
Lemma get_string_run {E} d k p :
  (Ok (run (get_string_calls d k) p).1, (run (get_string_calls d k) p).2) =
    pddb_get_string (E := E) d k p.
Proof.
  unfold pddb_get_string. simpl. destruct (pddb_get d k false p) as [[[]|e] p1]; [|done]. simpl.
  by destruct (pddb_read_to_end d k p1) as [[]].
Qed.

(** ** Sessions *)
Definition load_session_calls (self : PddbSessionStore) (address : ProtocolAddress) :
    prog P (result SignalProtocolError (option SessionRecord)) :=
  then_ (read_binary_calls (session_dict self) (address_key address)) (λ r,
    Done match r with
         | Ok buf => Some <$> deserialize buf
         | Err e => if bool_decide (kind e = NotFound) then Ok None
                    else Err (io_err_to_signal "read failed"%bs e)
         end).
Definition store_session_calls (self : PddbSessionStore) (address : ProtocolAddress)
    (record : SessionRecord) : prog P (result SignalProtocolError ()) :=
  match serialize record with
  | Err e => Done (Err e)
  | Ok buf => write_calls (io_err_to_signal "write failed"%bs) (io_err_to_signal "write failed"%bs)
                (session_dict self) (address_key address) buf
  end.

Lemma load_session_run self a p : run (load_session_calls self a) p = Session_load_session self a p.
Proof.
  unfold load_session_calls. rewrite run_then, read_binary_run.
  unfold Session_load_session, read_record, mbind, ST_bind, try.
  destruct (pddb_read_binary _ _ p) as [[buf|e] p1]; simpl.
  - by destruct (deserialize buf).
  - by destruct (bool_decide (kind e = NotFound)).
Qed.
Lemma store_session_run self a r p : run (store_session_calls self a r) p = Session_store_session self a r p.
Proof.
  unfold store_session_calls, Session_store_session, write_record, lift. unfold mbind, ST_bind.
  destruct (serialize r) as [b|e]; [|done]. rewrite write_run.
  unfold pddb_write_binary, pddb_overwrite, with_err, ignore, mbind, ST_bind. simpl.
  destruct (pddb_get _ _ true _) as [[[]|e] p2]; [|done]. simpl.
  by destruct (pddb_write_all _ _ b p2) as [[[]|e] p3].
Qed.

(** libsignal's encryption and decryption load the session of the peer, advance its
    ratchet, and store it. *)
Definition ratchet (self : PddbSessionStore) (a : ProtocolAddress) (f : SessionRecord → SessionRecord) :
    prog P (result SignalProtocolError ()) :=
  then_ (load_session_calls self a) (λ r,
    match r with
    | Ok (Some r) => store_session_calls self a (f r)
    | Ok None => Done (Err (SessionNotFound a))
    | Err e => Done (Err e)
    end).

(** ** Summaries *)
Definition record_inbound_calls (id : bytes) (ts : Z) (text : bytes) (is_focused : bool) :
    prog P (result io_error ()) :=
  then_ (get_string_calls PEERS_DICT id) (λ raw,
    let summary := default (new_summary id) (raw ≫= from_json id) in
    let s := updated summary ts text
      (if is_focused then unread summary else sat_add u32_max (unread summary) 1) in
    write_calls Datatypes.id Datatypes.id PEERS_DICT (uuid s) (to_json s)).
Definition read_summary (summary : PeerSummary) : PeerSummary :=
  {| uuid := uuid summary; display_name := display_name summary; last_ts := last_ts summary;
     last_snippet := last_snippet summary; unread := 0 |}.
Definition clear_unread_calls (id : bytes) : prog P (result io_error ()) :=
  then_ (get_string_calls PEERS_DICT id) (λ raw,
    match raw ≫= from_json id with
    | Some summary =>
        if (unread summary =? 0)%Z then Done (Ok tt)
        else write_calls Datatypes.id Datatypes.id PEERS_DICT (uuid (read_summary summary))
               (to_json (read_summary summary))
    | None => Done (Ok tt)
    end).

Lemma record_inbound_run id ts t f p : run (record_inbound_calls id ts t f) p = record_inbound id ts t f p.
Proof.
  unfold record_inbound_calls. rewrite run_then.
  unfold record_inbound, read, mbind, ST_bind. rewrite <- get_string_run.
  destruct (run (get_string_calls PEERS_DICT id) p) as [raw p1]. apply write_run.
Qed.
Lemma clear_unread_run id p : run (clear_unread_calls id) p = clear_unread id p.
Proof.
  unfold clear_unread_calls. rewrite run_then.
  unfold clear_unread, read, mbind, ST_bind. rewrite <- get_string_run.
  destruct (run (get_string_calls PEERS_DICT id) p) as [raw p1].
  unfold mret, ST_ret. cbn [fst snd]. destruct (option_bind _ _ (from_json id) raw) as [s|]; [|done].
  destruct (_ =? _)%Z; [done|]. apply write_run.
Qed.
End calls.

(** * Lost updates *)
Section lost.
Context `{LibsignalLaws} `{Base64Laws} {P : Type} `{PddbLaws P}.
Implicit Types p : P.

(** The session stored for an address. *)
Definition session_at self p (a : ProtocolAddress) : result SignalProtocolError (option SessionRecord) :=
  (Session_load_session self a p).1.
Lemma session_at_contents self p a : session_at self p a =
  match contents p !! (session_dict self, address_key a) with
  | Some b => Some <$> deserialize b
  | None => Ok None
  end.
Proof. unfold session_at. by destruct (load_session_runs self a p) as (p' & -> & _). Qed.

Lemma load_keeps self a p :
  (run (load_session_calls self a) p).1 = session_at self p a ∧
  contents (run (load_session_calls self a) p).2 = contents p.
Proof.
  rewrite load_session_run. destruct (load_session_runs self a p) as (p' & E & Hc).
  unfold session_at. by rewrite E.
Qed.
Lemma store_leaves self a r p :
  is_ok (serialize r) = true →
  (run (store_session_calls self a r) p).1 = Ok tt ∧
  session_at self (run (store_session_calls self a r) p).2 a = Ok (Some r).
Proof.
  intros Hr. rewrite store_session_run. destruct (store_session_runs self a r p) as (p' & E & Hc).
  destruct (serialize r) as [b|e] eqn:Hs; [|done]. rewrite E. split; [done|].
  rewrite session_at_contents. cbn [snd]. rewrite Hc, lookup_insert_eq.
  by rewrite (deserialize_serialize r b Hs).
Qed.
(** One ratchet step alone. *)
Lemma ratchet_alone self a f p r :
  session_at self p a = Ok (Some r) → is_ok (serialize (f r)) = true →
  (run (ratchet self a f) p).1 = Ok tt ∧
  session_at self (run (ratchet self a f) p).2 a = Ok (Some (f r)).
Proof.
  intros Hr Hs. unfold ratchet. rewrite run_then. destruct (load_keeps self a p) as [Hl _].
  destruct (run (load_session_calls self a) p) as [x p1]. simpl in Hl. subst x. rewrite Hr.
  by apply store_leaves.
Qed.

(** Sending and receiving race on the session.  Suppose a session with a peer is
    stored and two threads advance its ratchet, by [f] and by [g] (the main thread
    encrypting a post, the receive worker decrypting a message of the same peer).  One
    after the other both steps count.  But there is an interleaving of their PDDB
    calls in which both succeed and the session left is [f] of the old record: the
    other step is lost, and will be taken again from the same state. *)
Theorem racing_ratchet_lost self a (f g : SessionRecord → SessionRecord) p r :
  session_at self p a = Ok (Some r) → (∀ x, is_ok (serialize (f x)) = true) →
  (∀ x, is_ok (serialize (g x)) = true) →
  session_at self (run (ratchet self a g) (run (ratchet self a f) p).2).2 a = Ok (Some (g (f r))) ∧
  ∃ sched p', race sched (ratchet self a f, ratchet self a g, p) = (Done (Ok tt), Done (Ok tt), p') ∧
    session_at self p' a = Ok (Some (f r)).
Proof.
  intros Hr Hf Hg. split.
  { apply ratchet_alone; [|done]. by apply ratchet_alone. }
  unfold ratchet at 1. destruct (race_between (load_session_calls self a)
    (λ x, match x with
     | Ok (Some r) => store_session_calls self a (f r)
     | Ok None => Done (Err (SessionNotFound a))
     | Err e => Done (Err e) end) (ratchet self a g) p) as [sched Hs].
  exists sched. rewrite Hs. clear Hs sched. destruct (load_keeps self a p) as [Hl Hc].
  destruct (run (load_session_calls self a) p) as [x p1]. cbn [fst snd] in *. subst x. rewrite Hr.
  destruct (ratchet_alone self a g p1 r) as [Hok _]; [|done|].
  { by rewrite session_at_contents, Hc, <- session_at_contents. }
  destruct (store_leaves self a (f r) (run (ratchet self a g) p1).2 (Hf r)) as [Hsok Hat].
  rewrite Hok, Hsok. eexists. split; [reflexivity|exact Hat].
Qed.

Lemma clear_then_inbound id s ts text f p :
  summary_at p id = Some s → peers_ok p → text_ok id → text_ok text → in_u64 ts →
  ∃ p', run (then_ (clear_unread_calls id) (λ _, record_inbound_calls id ts text f)) p = (Ok tt, p') ∧
    summary_at p' id = Some (updated (read_summary s) ts text (if f then 0 else 1)).
Proof.
  intros Hs Hp Hid Ht Hts. rewrite run_then, clear_unread_run.
  destruct (clear_unread_spec id p Hp) as (p1 & -> & Hp1 & Hat & _). rewrite record_inbound_run.
  destruct (record_inbound_spec id ts text f p1 Hp1 Hid Ht Hts) as (p2 & -> & _ & Hat2 & _).
  exists p2. split; [done|]. rewrite Hat2. unfold old_summary. rewrite Hat, Hs. cbn [fmap option_fmap option_map default].
  pose proof (summary_uuid _ _ _ Hs) as <-. by destruct f.
Qed.
Lemma inbound_then_clear id s ts text f p :
  summary_at p id = Some s → peers_ok p → text_ok id → text_ok text → in_u64 ts →
  ∃ p', run (then_ (record_inbound_calls id ts text f) (λ _, clear_unread_calls id)) p = (Ok tt, p') ∧
    summary_at p' id = Some (updated (read_summary s) ts text 0).
Proof.
  intros Hs Hp Hid Ht Hts. rewrite run_then, record_inbound_run.
  destruct (record_inbound_spec id ts text f p Hp Hid Ht Hts) as (p1 & -> & Hp1 & Hat & _).
  rewrite clear_unread_run. destruct (clear_unread_spec id p1 Hp1) as (p2 & -> & _ & Hat2 & _).
  exists p2. split; [done|]. rewrite Hat2, Hat. unfold old_summary. rewrite Hs. simpl.
  by rewrite <- (summary_uuid _ _ _ Hs).
Qed.

(** C32: opening a conversation races with its messages.  Suppose the stored
    summary of a peer has unread messages, the user opens the conversation (F1,
    [clear_unread] on the main thread) and a message of that peer comes in
    ([record_inbound] on the receive worker).  Whichever call runs first, afterwards the
    message's time and text are the last.  But there is an interleaving of their PDDB
    calls in which both succeed and the summary left is the old one with nothing
    unread: the message is not counted, and neither its time nor its text is kept. *)
Theorem racing_summary_lost id s ts text f p :
  summary_at p id = Some s → (unread s =? 0)%Z = false → peers_ok p → text_ok id → text_ok text →
  in_u64 ts →
  (∃ p', run (then_ (clear_unread_calls id) (λ _, record_inbound_calls id ts text f)) p = (Ok tt, p') ∧
     summary_at p' id = Some (updated (read_summary s) ts text (if f then 0 else 1))) ∧
  (∃ p', run (then_ (record_inbound_calls id ts text f) (λ _, clear_unread_calls id)) p = (Ok tt, p') ∧
     summary_at p' id = Some (updated (read_summary s) ts text 0)) ∧
  ∃ sched p', race sched (clear_unread_calls id, record_inbound_calls id ts text f, p) =
      (Done (Ok tt), Done (Ok tt), p') ∧ summary_at p' id = Some (read_summary s).
Proof.
  intros Hs Hu Hp Hid Htext Hts. split_and!;
    [by apply clear_then_inbound|by apply inbound_then_clear|].
  destruct (race_between (get_string_calls PEERS_DICT id) (λ raw,
    match raw ≫= from_json id with
    | Some summary =>
        if (unread summary =? 0)%Z then Done (Ok tt)
        else write_calls Datatypes.id Datatypes.id PEERS_DICT (uuid (read_summary summary))
               (to_json (read_summary summary))
    | None => Done (Ok tt)
    end) (record_inbound_calls id ts text f) p) as [sched Hr].
  exists sched. unfold clear_unread_calls. rewrite Hr. clear Hr sched.
  destruct (get_string_spec (E := io_error) PEERS_DICT id p) as (p1 & E1 & Hc1).
  pose proof (get_string_run (E := io_error) PEERS_DICT id p) as Eg. rewrite E1 in Eg.
  destruct (run (get_string_calls PEERS_DICT id) p) as [x p1']. cbn [fst snd] in *.
  injection Eg as -> ->.
  unfold summary_at in Hs. rewrite Hs, Hu. fold (summary_at p id) in Hs.
  assert (peers_ok p1) as Hp1 by (intros i x; unfold summary_at; rewrite Hc1; apply Hp).
  destruct (record_inbound_spec id ts text f p1 Hp1 Hid Htext Hts) as (p2 & E2 & _).
  rewrite record_inbound_run, E2. cbn [fst snd]. rewrite write_run.
  assert (summary_ok (read_summary s)) as Hok.
  { destruct (Hp id s Hs) as (? & ? & ? & ? & ? & ?). by split_and!. }
  destruct (write_summary_spec (read_summary s) p2 Hok) as (p3 & E3 & Hat & _).
  unfold write_summary in E3. rewrite E3. eexists. split; [reflexivity|].
  apply summary_uuid in Hs. rewrite <- Hs. exact Hat.
Qed.
End lost.

(** * At a concrete device *)

Definition raced : flash := <[(SESSION_DICT, address_key demo_addr) := [Byte.x0a; Byte.x01]]> ∅.
(** The sender's chain and the receiver's chain of a toy ratchet. *)
Definition step_send (r : @SessionRecord Toy.libsignal) : @SessionRecord Toy.libsignal := r ++ [Byte.x02].
Definition step_receive (r : @SessionRecord Toy.libsignal) : @SessionRecord Toy.libsignal := r ++ [Byte.x03].
Example raced_ratchet :
  session_at demo_session_store (run (ratchet demo_session_store demo_addr step_receive)
    (run (ratchet demo_session_store demo_addr step_send) raced).2).2 demo_addr =
    Ok (Some [Byte.x01; Byte.x02; Byte.x03]) ∧
  ∃ sched p', race sched (ratchet demo_session_store demo_addr step_send,
      ratchet demo_session_store demo_addr step_receive, raced) = (Done (Ok tt), Done (Ok tt), p') ∧
    session_at demo_session_store p' demo_addr = Ok (Some [Byte.x01; Byte.x02]).
Proof.
  apply (racing_ratchet_lost demo_session_store demo_addr step_send step_receive raced [Byte.x01]);
    [vm_compute; reflexivity|reflexivity|reflexivity].
Qed.
(** The schedule the theorem speaks of. *)
Example raced_schedule :
  let '(a, b, p) := race [true; true; false; false; false; false; false; false; true; true; true; true]
    (ratchet demo_session_store demo_addr step_send, ratchet demo_session_store demo_addr step_receive, raced) in
  session_at demo_session_store p demo_addr = Ok (Some [Byte.x01; Byte.x02]).
Proof. by vm_compute. Qed.

(** A conversation with one unread message. *)
Definition one_unread : flash := (record_inbound "bob"%bs 5 "hi"%bs false (∅ : flash)).2.
Definition bob_summary : PeerSummary :=
  {| uuid := "bob"%bs; display_name := "bob"%bs; last_ts := 5; last_snippet := "hi"%bs; unread := 1 |}.
Lemma one_unread_ok : peers_ok one_unread.
Proof.
  unfold one_unread. destruct (record_inbound_spec (P := flash) "bob"%bs 5 "hi"%bs false ∅) as (p' & E & Hok & _).
  - exact empty_peers_ok.
  - by vm_compute.
  - by vm_compute.
  - by vm_compute.
  - rewrite E. exact Hok.
Qed.
Lemma racing_summary_lost_witness :
  (∃ p', run (then_ (clear_unread_calls "bob"%bs)
       (λ _, record_inbound_calls "bob"%bs 7 "news"%bs false)) one_unread = (Ok tt, p') ∧
     summary_at p' "bob"%bs = Some (updated (read_summary bob_summary) 7 "news"%bs 1)) ∧
  (∃ p', run (then_ (record_inbound_calls "bob"%bs 7 "news"%bs false)
       (λ _, clear_unread_calls "bob"%bs)) one_unread = (Ok tt, p') ∧
     summary_at p' "bob"%bs = Some (updated (read_summary bob_summary) 7 "news"%bs 0)) ∧
  ∃ sched p', race sched (clear_unread_calls "bob"%bs, record_inbound_calls "bob"%bs 7 "news"%bs false,
      one_unread) = (Done (Ok tt), Done (Ok tt), p') ∧
    summary_at p' "bob"%bs = Some (read_summary bob_summary).
Proof.
  apply (racing_summary_lost "bob"%bs bob_summary 7 "news"%bs false one_unread);
    [by vm_compute|reflexivity|exact one_unread_ok|by vm_compute..].
Defined.
