(* ===== verification/Receive.v ===== *)
(** The receive worker (manager/main_ws.rs, manager/signal_ws.rs).

    The inline [prost] structs, envelope dispatch with sealed sender, content
    delivery to the per-peer dialogues, the request handler with its
    acknowledgements, the session loop with its two keepalives and the
    reconnect loop.  A handler that only logs and returns is a unit result; the
    one error is [Panicked], for a slice off a character boundary. *)

From S2P Require Import Prelude RustStd Wire Base64 Json Pddb Signal Stores World Outgoing Peers.

Definition KEEPALIVE_MS : Z := 25000.
Definition APP_KEEPALIVE_MS : Z := 55000.
Definition APP_KEEPALIVE_PATH : bytes := "/v1/keepalive"%bs.
Definition READ_TIMEOUT_MS : Z := 500.
Definition WS_TYPE_REQUEST : Z := 1.
Definition WS_TYPE_RESPONSE : Z := 2.
Definition ENVELOPE_UNIDENTIFIED_SENDER : Z := 6.
Definition SEALED_SENDER_TRUST_ROOTS : list bytes :=
  ["BXu6QIKVz5MA8gstzfOgRQGqyLqOwNKHL6INkv3IHWMF"%bs : bytes;
   "BUkY0I+9+oPgDCn4+Ac6Iu813yvqkDr/ga8DzLxFxuk6"%bs : bytes].
Definition RECONNECT_BACKOFF_INITIAL_MS : Z := 2000.
Definition RECONNECT_BACKOFF_MAX_MS : Z := 64000.
Definition PEER_DIALOGUE_DICT : bytes := "sigchat.dialogue"%bs.

Inductive panic := Panicked.

(** * Wire structs *)

Record WsRequestProto := {
  rq_verb : option bytes; rq_path : option bytes; rq_body : option bytes;
  rq_id : option Z; rq_headers : list bytes;
}.
Record WsResponseProto := {
  rs_id : option Z; rs_status : option Z; rs_message : option bytes;
  rs_body : option bytes; rs_headers : list bytes;
}.
Record WsMessageProto := {
  ws_type : option Z; ws_request : option WsRequestProto; ws_response : option WsResponseProto;
}.
Record EnvelopeProto := {
  env_type : option Z; env_source_service_id : option bytes; env_source_device : option Z;
  env_server_timestamp : option Z; env_content : option bytes;
}.
(** The receive side's own copies of the content structs. *)
Record RDataMessageProto := { rdm_body : option bytes; rdm_timestamp : option Z }.
Record RSentMessageProto := {
  rsent_destination_service_id : option bytes; rsent_timestamp : option Z;
  rsent_message : option RDataMessageProto;
}.
Record RSyncMessageProto := { rsync_sent : option RSentMessageProto }.
Record RContentProto := {
  rcontent_data_message : option RDataMessageProto;
  rcontent_sync_message : option RSyncMessageProto;
}.

Section codec.
Context `{WireFormat}.

Definition WsRequest_fields (m : WsRequestProto) : list field :=
  put_len 1 (rq_verb m) ++ put_len 2 (rq_path m) ++ put_len 3 (rq_body m) ++
  put_varint 4 (rq_id m) ++ concat ((λ h, put_len 5 (Some h)) <$> rq_headers m).
Definition WsResponse_fields (m : WsResponseProto) : list field :=
  put_varint 1 (rs_id m) ++ put_varint 2 (rs_status m) ++ put_len 3 (rs_message m) ++
  put_len 4 (rs_body m) ++ concat ((λ h, put_len 5 (Some h)) <$> rs_headers m).
Definition WsMessage_fields (m : WsMessageProto) : list field :=
  put_i32 1 (ws_type m) ++
  put_len 2 ((λ r, pb_encode (WsRequest_fields r)) <$> ws_request m) ++
  put_len 3 ((λ r, pb_encode (WsResponse_fields r)) <$> ws_response m).
Definition WsMessage_encode (m : WsMessageProto) : bytes := pb_encode (WsMessage_fields m).

Definition WsRequest_default : WsRequestProto :=
  {| rq_verb := None; rq_path := None; rq_body := None; rq_id := None; rq_headers := [] |}.
Definition WsRequest_step (m : WsRequestProto) (f : field) : option WsRequestProto :=
  let '(t, w) := f in
  match t with
  | 1%Z => v ← get_string w; Some {| rq_verb := Some v; rq_path := rq_path m;
             rq_body := rq_body m; rq_id := rq_id m; rq_headers := rq_headers m |}
  | 2%Z => v ← get_string w; Some {| rq_verb := rq_verb m; rq_path := Some v;
             rq_body := rq_body m; rq_id := rq_id m; rq_headers := rq_headers m |}
  | 3%Z => v ← get_bytes w; Some {| rq_verb := rq_verb m; rq_path := rq_path m;
             rq_body := Some v; rq_id := rq_id m; rq_headers := rq_headers m |}
  | 4%Z => v ← get_u64 w; Some {| rq_verb := rq_verb m; rq_path := rq_path m;
             rq_body := rq_body m; rq_id := Some v; rq_headers := rq_headers m |}
  | 5%Z => v ← get_string w; Some {| rq_verb := rq_verb m; rq_path := rq_path m;
             rq_body := rq_body m; rq_id := rq_id m; rq_headers := rq_headers m ++ [v] |}
  | _ => Some m
  end.

Definition WsResponse_default : WsResponseProto :=
  {| rs_id := None; rs_status := None; rs_message := None; rs_body := None; rs_headers := [] |}.
Definition WsResponse_step (m : WsResponseProto) (f : field) : option WsResponseProto :=
  let '(t, w) := f in
  match t with
  | 1%Z => v ← get_u64 w; Some {| rs_id := Some v; rs_status := rs_status m;
             rs_message := rs_message m; rs_body := rs_body m; rs_headers := rs_headers m |}
  | 2%Z => v ← get_u32 w; Some {| rs_id := rs_id m; rs_status := Some v;
             rs_message := rs_message m; rs_body := rs_body m; rs_headers := rs_headers m |}
  | 3%Z => v ← get_string w; Some {| rs_id := rs_id m; rs_status := rs_status m;
             rs_message := Some v; rs_body := rs_body m; rs_headers := rs_headers m |}
  | 4%Z => v ← get_bytes w; Some {| rs_id := rs_id m; rs_status := rs_status m;
             rs_message := rs_message m; rs_body := Some v; rs_headers := rs_headers m |}
  | 5%Z => v ← get_string w; Some {| rs_id := rs_id m; rs_status := rs_status m;
             rs_message := rs_message m; rs_body := rs_body m; rs_headers := rs_headers m ++ [v] |}
  | _ => Some m
  end.

Definition WsMessage_step (m : WsMessageProto) (f : field) : option WsMessageProto :=
  let '(t, w) := f in
  match t with
  | 1%Z => v ← get_i32 w;
           Some {| ws_type := Some v; ws_request := ws_request m; ws_response := ws_response m |}
  | 2%Z => v ← get_message WsRequest_step WsRequest_default (ws_request m) w;
           Some {| ws_type := ws_type m; ws_request := Some v; ws_response := ws_response m |}
  | 3%Z => v ← get_message WsResponse_step WsResponse_default (ws_response m) w;
           Some {| ws_type := ws_type m; ws_request := ws_request m; ws_response := Some v |}
  | _ => Some m
  end.
Definition WsMessage_decode : bytes → option WsMessageProto :=
  merge WsMessage_step {| ws_type := None; ws_request := None; ws_response := None |}.

Definition Envelope_step (m : EnvelopeProto) (f : field) : option EnvelopeProto :=
  let '(t, w) := f in
  match t with
  | 1%Z => v ← get_i32 w; Some {| env_type := Some v;
             env_source_service_id := env_source_service_id m;
             env_source_device := env_source_device m;
             env_server_timestamp := env_server_timestamp m; env_content := env_content m |}
  | 2%Z => v ← get_string w; Some {| env_type := env_type m; env_source_service_id := Some v;
             env_source_device := env_source_device m;
             env_server_timestamp := env_server_timestamp m; env_content := env_content m |}
  | 7%Z => v ← get_u32 w; Some {| env_type := env_type m;
             env_source_service_id := env_source_service_id m; env_source_device := Some v;
             env_server_timestamp := env_server_timestamp m; env_content := env_content m |}
  | 5%Z => v ← get_u64 w; Some {| env_type := env_type m;
             env_source_service_id := env_source_service_id m;
             env_source_device := env_source_device m; env_server_timestamp := Some v;
             env_content := env_content m |}
  | 8%Z => v ← get_bytes w; Some {| env_type := env_type m;
             env_source_service_id := env_source_service_id m;
             env_source_device := env_source_device m;
             env_server_timestamp := env_server_timestamp m; env_content := Some v |}
  | _ => Some m
  end.
Definition Envelope_decode : bytes → option EnvelopeProto :=
  merge Envelope_step {| env_type := None; env_source_service_id := None;
    env_source_device := None; env_server_timestamp := None; env_content := None |}.

Definition RDataMessage_default : RDataMessageProto :=
  {| rdm_body := None; rdm_timestamp := None |}.
Definition RDataMessage_step (m : RDataMessageProto) (f : field) : option RDataMessageProto :=
  let '(t, w) := f in
  match t with
  | 1%Z => v ← get_string w; Some {| rdm_body := Some v; rdm_timestamp := rdm_timestamp m |}
  | 7%Z => v ← get_u64 w; Some {| rdm_body := rdm_body m; rdm_timestamp := Some v |}
  | _ => Some m
  end.
Definition RSent_default : RSentMessageProto :=
  {| rsent_destination_service_id := None; rsent_timestamp := None; rsent_message := None |}.
Definition RSent_step (m : RSentMessageProto) (f : field) : option RSentMessageProto :=
  let '(t, w) := f in
  match t with
  | 1%Z => v ← get_string w; Some {| rsent_destination_service_id := Some v;
             rsent_timestamp := rsent_timestamp m; rsent_message := rsent_message m |}
  | 2%Z => v ← get_u64 w; Some {| rsent_destination_service_id := rsent_destination_service_id m;
             rsent_timestamp := Some v; rsent_message := rsent_message m |}
  | 3%Z => v ← get_message RDataMessage_step RDataMessage_default (rsent_message m) w;
           Some {| rsent_destination_service_id := rsent_destination_service_id m;
                   rsent_timestamp := rsent_timestamp m; rsent_message := Some v |}
  | _ => Some m
  end.
Definition RSync_step (m : RSyncMessageProto) (f : field) : option RSyncMessageProto :=
  let '(t, w) := f in
  match t with
  | 1%Z => v ← get_message RSent_step RSent_default (rsync_sent m) w;
           Some {| rsync_sent := Some v |}
  | _ => Some m
  end.
Definition RContent_step (m : RContentProto) (f : field) : option RContentProto :=
  let '(t, w) := f in
  match t with
  | 1%Z => v ← get_message RDataMessage_step RDataMessage_default (rcontent_data_message m) w;
           Some {| rcontent_data_message := Some v;
                   rcontent_sync_message := rcontent_sync_message m |}
  | 2%Z => v ← get_message RSync_step {| rsync_sent := None |} (rcontent_sync_message m) w;
           Some {| rcontent_data_message := rcontent_data_message m;
                   rcontent_sync_message := Some v |}
  | _ => Some m
  end.
Definition RContent_decode : bytes → option RContentProto :=
  merge RContent_step {| rcontent_data_message := None; rcontent_sync_message := None |}.
End codec.

(** * Delivery *)

(** [while plaintext.last() == Some(&0) { pop }], then one [0x80]: the vector is
    worked on from its end, so the list is reversed. *)
Fixpoint drop_zeros (r : bytes) : bytes :=
  match r with
  | b :: r' => if bool_decide (b = Byte.x00) then drop_zeros r' else r
  | [] => []
  end.
Definition strip_signal_padding (plaintext : bytes) : bytes :=
  let r := drop_zeros (rev plaintext) in
  rev (match r with
       | b :: r' => if bool_decide (b = Byte.x80) then r' else r
       | [] => []
       end).

(** U+2192 *)
Definition arrow : bytes := [Byte.xe2; Byte.x86; Byte.x92].

Section deliver.
Context `{WireFormat} {P O : Type} `{Pddb P, Host O}.
Abbreviation handler := (ST (World P O) panic).

Definition cf_dialogue_set (dict : bytes) (key : option bytes) : handler () :=
  emit (EvUi (DialogueSet dict key)).
Definition cf_post_add (author : bytes) (ts : Z) (text : bytes) : handler () :=
  emit (EvUi (PostAdd author ts text)).
Definition cf_redraw : handler () := emit (EvUi Redraw).

Definition post_to_peer_dialogue (peer_uuid author : bytes) (ts : Z) (text : bytes)
    (focused_uuid : option bytes) : handler () :=
  if bool_decide (focused_uuid = Some peer_uuid) then cf_post_add author ts text
  else
    cf_dialogue_set PEER_DIALOGUE_DICT (Some peer_uuid);;
    cf_post_add author ts text;;
    match focused_uuid with
    | Some focused => cf_dialogue_set PEER_DIALOGUE_DICT (Some focused)
    | None => mret ()
    end.

Definition deliver_data_message (dm : RDataMessageProto) (remote_addr : ProtocolAddress)
    (server_ts : Z) : handler bool :=
  let author := addr_name remote_addr in
  match default [] (rdm_body dm) with
  | [] => mret false
  | text =>
      let ts := default server_ts (rdm_timestamp dm) in
      focused_uuid ← on_pddb focused_peer_uuid;
      let is_focused := bool_decide (focused_uuid = Some author) in
      try (on_pddb (record_inbound author ts text is_focused));;
      post_to_peer_dialogue author author ts text focused_uuid;;
      mret true
  end.

Definition deliver_sync_message (sync : RSyncMessageProto) (server_ts : Z) : handler bool :=
  match rsync_sent sync with
  | None => mret false
  | Some sent =>
      let dest := default [] (rsent_destination_service_id sent) in
      match rsent_message sent with
      | None => mret false
      | Some dm =>
          match default [] (rdm_body dm) with
          | [] => mret false
          | text =>
              let ts := default (default server_ts (rsent_timestamp sent)) (rdm_timestamp dm) in
              if bool_decide (dest = []) then mret false
              else
                short ← lift (ok_or Panicked (slice_to dest (Nat.min (length dest) 8)));
                let author := arrow ++ short in
                focused_uuid ← on_pddb focused_peer_uuid;
                try (on_pddb (record_outbound dest ts text));;
                post_to_peer_dialogue dest author ts text focused_uuid;;
                mret true
          end
      end
  end.

Definition deliver_content (plaintext : bytes) (remote_addr : ProtocolAddress)
    (server_ts : Z) : handler () :=
  match RContent_decode (strip_signal_padding plaintext) with
  | None => mret ()
  | Some content =>
      delivered ← match rcontent_data_message content, rcontent_sync_message content with
                  | Some dm, _ =>
                      was_delivered ← deliver_data_message dm remote_addr server_ts;
                      (if (was_delivered : bool)
                       then try (on_pddb (set_current_recipient remote_addr));; mret ()
                       else mret ());;
                      mret was_delivered
                  | None, Some sync => deliver_sync_message sync server_ts
                  | None, None => mret false
                  end;
      if (delivered : bool) then cf_redraw else mret ()
  end.
End deliver.

(** * Envelopes *)
Section dispatch.
Context `{Protocol, Base64, WireFormat} {P O : Type} `{Pddb P, Host O}.
Abbreviation handler := (ST (World P O) panic).

Definition trust_roots : list PublicKey :=
  omap (λ raw, ok (public_deserialize raw))
    (omap (λ b64, b64_decode STANDARD b64) SEALED_SENDER_TRUST_ROOTS).

(** The two decryptions, shared by the sealed and the plain path. *)
Definition decrypt_prekey_bundle (raw : bytes) (remote local : ProtocolAddress) :
    handler (option bytes) :=
  match prekey_message_try_from raw with
  | Err _ => mret None
  | Ok msg =>
      rng ← draw_entropy;
      r ← try (message_decrypt_prekey msg remote local rng);
      mret (ok r)
  end.
Definition decrypt_whisper (raw : bytes) (remote : ProtocolAddress) : handler (option bytes) :=
  match signal_message_try_from raw with
  | Err _ => mret None
  | Ok msg =>
      rng ← draw_entropy;
      r ← try (message_decrypt_signal msg remote rng);
      mret (ok r)
  end.

Definition deliver_plaintext (remote : ProtocolAddress) (ts : Z) (pt : option bytes) :
    handler () :=
  match pt with
  | Some pt => deliver_content pt remote ts
  | None => mret ()
  end.

(** The sealed-sender branch of [dispatch_envelope]. *)
Definition dispatch_sealed (content : bytes) (local_addr : ProtocolAddress) (ts : Z) :
    handler () :=
  u ← try (sealed_sender_decrypt_to_usmc content);
  match u with
  | Err _ => mret ()
  | Ok usmc =>
      match usmc_sender usmc with
      | Err _ => mret ()
      | Ok sender_cert =>
          match validate_with_trust_roots sender_cert trust_roots ts with
          | Ok true =>
              match sender_uuid sender_cert, sender_device_id sender_cert with
              | Ok uuid, Ok dev =>
                  let remote_addr := Addr uuid dev in
                  let inner := match usmc_contents usmc with Ok c => c | Err _ => [] end in
                  match usmc_msg_type usmc with
                  | Ok PreKey =>
                      pt ← decrypt_prekey_bundle inner remote_addr local_addr;
                      deliver_plaintext remote_addr ts pt
                  | Ok Whisper =>
                      pt ← decrypt_whisper inner remote_addr;
                      deliver_plaintext remote_addr ts pt
                  | Ok _ => mret ()
                  | Err _ => mret ()
                  end
              | _, _ => mret ()
              end
          | Ok false => mret ()
          | Err _ => mret ()
          end
      end
  end.

Definition dispatch_envelope (raw : bytes) (local_addr : ProtocolAddress) : handler () :=
  match Envelope_decode raw with
  | None => mret ()
  | Some envelope =>
      let source_id := default [] (env_source_service_id envelope) in
      let source_dev := default 1%Z (env_source_device envelope) in
      let ty := default 0%Z (env_type envelope) in
      let ts := default 0%Z (env_server_timestamp envelope) in
      match env_content envelope with
      | None => mret ()
      | Some content =>
          if (ty =? ENVELOPE_UNIDENTIFIED_SENDER)%Z then dispatch_sealed content local_addr ts
          else if (source_dev =? 0)%Z || (127 <? source_dev)%Z then mret ()
          else
            match DeviceId_new source_dev with
            | Err _ => mret ()
            | Ok sender_device =>
                let remote_addr := Addr source_id sender_device in
                if (ty =? ENVELOPE_PREKEY_BUNDLE)%Z then
                  pt ← decrypt_prekey_bundle content remote_addr local_addr;
                  deliver_plaintext remote_addr ts pt
                else if (ty =? ENVELOPE_CIPHERTEXT)%Z then
                  pt ← decrypt_whisper content remote_addr;
                  deliver_plaintext remote_addr ts pt
                else mret ()
            end
      end
  end.

(** * The connection *)
Context `{WsHost O}.

Definition send_ws (m : ws_message) : handler (result ws_error ()) :=
  r ← on_out (ws_send m);
  match r with
  | Ok _ => emit (EvWsSend m);; mret r
  | Err _ => mret r
  end.

Definition ack_message (id status : Z) : WsMessageProto :=
  {| ws_type := Some WS_TYPE_RESPONSE; ws_request := None;
     ws_response := Some {| rs_id := Some id; rs_status := Some status;
                            rs_message := Some ("OK"%bs : bytes); rs_body := None;
                            rs_headers := [] |} |}.

Definition send_ack (id status : Z) : handler () :=
  send_ws (Binary (WsMessage_encode (ack_message id status)));; mret ().

Definition handle_request (req : WsRequestProto) (local_addr : ProtocolAddress) : handler () :=
  let id := default 0%Z (rq_id req) in
  let verb := default [] (rq_verb req) in
  let path := default [] (rq_path req) in
  if bool_decide (verb = "PUT"%bs) && bool_decide (path = "/api/v1/message"%bs) then
    match rq_body req with
    | Some body => dispatch_envelope body local_addr
    | None => mret ()
    end;;
    send_ack id 200
  else if bool_decide (verb = "PUT"%bs) && bool_decide (path = "/api/v1/queue/empty"%bs) then
    send_ack id 200
  else send_ack id 200.

Definition is_timeout (e : ws_error) : bool :=
  match e with
  | WsIo e => bool_decide (kind e = WouldBlock ∨ kind e = TimedOut)
  | WsOther _ => false
  end.

Record session_state := {
  last_ping_ms : Z;
  next_request_id : Z;
  last_app_keepalive_ms : Z;
}.

Definition keepalive_message (id : Z) : WsMessageProto :=
  {| ws_type := Some WS_TYPE_REQUEST;
     ws_request := Some {| rq_verb := Some ("GET"%bs : bytes); rq_path := Some APP_KEEPALIVE_PATH;
                           rq_body := None; rq_id := Some id; rq_headers := [] |};
     ws_response := None |}.

Definition tick : handler Z := on_out elapsed_ms.

(** Step (1a): the WebSocket ping.  [None] breaks the loop. *)
Definition ping_step (s : session_state) : handler (option session_state) :=
  t ← tick;
  if (KEEPALIVE_MS <=? sat_sub t (last_ping_ms s))%Z then
    r ← send_ws (Ping []);
    match r with
    | Ok _ => t ← tick;
              mret (Some {| last_ping_ms := t; next_request_id := next_request_id s;
                            last_app_keepalive_ms := last_app_keepalive_ms s |})
    | Err _ => mret None
    end
  else mret (Some s).

(** Step (1b): the application keepalive. *)
Definition app_keepalive_step (s : session_state) : handler (option session_state) :=
  t ← tick;
  if (APP_KEEPALIVE_MS <=? sat_sub t (last_app_keepalive_ms s))%Z then
    r ← send_ws (Binary (WsMessage_encode (keepalive_message (next_request_id s))));
    match r with
    | Ok _ => t ← tick;
              mret (Some {| last_ping_ms := last_ping_ms s;
                            next_request_id := (next_request_id s + 1) mod 2 ^ 64;
                            last_app_keepalive_ms := t |})
    | Err _ => mret None
    end
  else mret (Some s).

(** Steps (2) and (3). *)
Definition read_step (local_addr : ProtocolAddress) (s : session_state) :
    handler (session_state + ()) :=
  r ← on_out ws_read;
  match r with
  | Ok (Binary raw) =>
      match WsMessage_decode raw with
      | None => mret (inl s)
      | Some ws_msg =>
          (if bool_decide (ws_type ws_msg = Some WS_TYPE_REQUEST) then
             match ws_request ws_msg with
             | Some req => handle_request req local_addr
             | None => mret ()
             end
           else mret ());;
          mret (inl s)
      end
  | Ok Close => mret (inr ())
  | Ok _ => mret (inl s)
  | Err e => mret (if is_timeout e then inl s else inr ())
  end.

(** One turn of the session loop. *)
Definition session_turn (local_addr : ProtocolAddress) (s : session_state) :
    handler (session_state + ()) :=
  o ← ping_step s;
  match o with
  | None => mret (inr ())
  | Some s =>
      o ← app_keepalive_step s;
      match o with
      | None => mret (inr ())
      | Some s => read_step local_addr s
      end
  end.

Definition close_ws : handler () := on_out (λ o, (tt, ws_close o));; emit EvWsClose.

(** What happens before the loop: the state it starts with, or [None]. *)
Definition session_start : handler (option session_state) :=
  on_out (ws_set_read_timeout (Some READ_TIMEOUT_MS));;
  ok ← on_out ticktimer_new;
  if (ok : bool) then
    t0 ← tick;
    t1 ← tick;
    mret (Some {| last_ping_ms := t0; next_request_id := 1;
                  last_app_keepalive_ms := sat_sub t1 APP_KEEPALIVE_MS |})
  else mret None.

(** [run_session] run for at most [fuel] turns; [None] while it still runs. *)
Definition run_session (fuel : nat) (local_addr : ProtocolAddress) (w : World P O) :
    option (result panic () * World P O) :=
  match session_start w with
  | (Ok None, w) => Some (close_ws w)
  | (Ok (Some s), w) =>
      match iter fuel (session_turn local_addr) s w with
      | Some (Ok _, w) => Some (close_ws w)
      | r => r
      end
  | (Err e, w) => Some (Err e, w)
  end.

(** [SignalWS::new_message]: the URL and the credentials of the upgrade. *)
Definition message_ws_url (host : bytes) : bytes := "wss://"%bs ++ host ++ "/v1/websocket/"%bs.
Definition message_ws_auth (aci : bytes) (device_id : Z) (password : bytes) : bytes :=
  b64_encode STANDARD (aci ++ "."%bs ++ show_u device_id ++ ":"%bs ++ password).

Definition reconnect_sleep (ms : Z) : handler () :=
  ok ← on_out ticktimer_new;
  if (ok : bool) then sleep_ms ms else mret ().

(** One turn of [worker_loop], with the backoff it starts with; the result is
    the backoff of the next turn. *)
Definition worker_turn (fuel : nat) (aci : bytes) (device_id : Z) (password host : bytes)
    (local_addr : ProtocolAddress) (backoff_ms : Z) (w : World P O) :
    option (result panic Z * World P O) :=
  let next (b : Z) : handler Z :=
    reconnect_sleep b;; mret (Z.min (b * 2) RECONNECT_BACKOFF_MAX_MS) in
  match on_out (ws_connect (message_ws_url host) (message_ws_auth aci device_id password)) w with
  | (Ok (Ok _), w) =>
      match run_session fuel local_addr w with
      | None => None
      | Some (Ok _, w) => Some (next RECONNECT_BACKOFF_INITIAL_MS w)
      | Some (Err e, w) => Some (Err e, w)
      end
  | (Ok (Err _), w) => Some (next backoff_ms w)
  | (Err e, w) => Some (Err e, w)
  end.

(** [worker_loop]: [n] turns of it; a device id out of range ends it at once. *)
Fixpoint worker_turns (n fuel : nat) (aci : bytes) (device_id : Z) (password host : bytes)
    (local_addr : ProtocolAddress) (backoff_ms : Z) (w : World P O) :
    option (result panic Z * World P O) :=
  match n with
  | 0 => Some (Ok backoff_ms, w)
  | S n =>
      match worker_turn fuel aci device_id password host local_addr backoff_ms w with
      | Some (Ok b, w) => worker_turns n fuel aci device_id password host local_addr b w
      | r => r
      end
  end.
Definition worker_loop (n fuel : nat) (aci : bytes) (device_id : Z) (password host : bytes)
    (w : World P O) : option (result panic Z * World P O) :=
  if (device_id =? 0)%Z || (127 <? device_id)%Z then Some (Ok 0%Z, w)
  else match DeviceId_new device_id with
       | Err _ => Some (Ok 0%Z, w)
       | Ok local_device =>
           worker_turns n fuel aci device_id password host (Addr aci local_device)
             RECONNECT_BACKOFF_INITIAL_MS w
       end.
End dispatch.
