(* ===== verification/ReceiveSpec.v ===== *)
(** What the receive worker guarantees.

    Padding and content round trips with the send side, delivery of a data
    message to the right dialogue, the sealed-sender guard, one acknowledgement
    per request, the keepalive timers and the reconnect backoff. *)

From S2P Require Import Prelude RustStd Wire Base64 Json Pddb Signal Stores World Outgoing.
From S2P Require Import Peers Send SendSpec SendWorld Receive.

(** * Padding *)

Lemma drop_zeros_replicate n r :
  drop_zeros (replicate n Byte.x00 ++ Byte.x80 :: r) = Byte.x80 :: r.
Proof. by induction n. Qed.

Lemma strip_pad c : strip_signal_padding (signal_pad c) = c.
Proof.
  destruct (signal_pad_shape c) as (n & _ & -> & _). unfold strip_signal_padding.
  rewrite rev_app_distr. cbn [rev]. rewrite <- app_assoc.
  assert (rev (replicate n Byte.x00) = replicate n Byte.x00) as ->.
  { rewrite rev_alt. apply reverse_replicate. }
  cbn [app]. rewrite drop_zeros_replicate. rewrite bool_decide_true by done.
  apply rev_involutive.
Qed.

(** The padding layer.  Padding a content of any length gives a positive
    multiple of 160 bytes, 1 to 160 longer than the content, and the receiver's
    stripping gives back exactly the content, also when the content itself ends
    in zeros or 0x80. *)
Theorem padding_roundtrip c :
  strip_signal_padding (signal_pad c) = c ∧ length (signal_pad c) mod 160 = 0 ∧
  length c < length (signal_pad c) ≤ length c + 160.
Proof.
  split; [apply strip_pad|]. destruct (signal_pad_shape c) as (n & Hn & E & Hm).
  split; [done|]. rewrite E, length_app. simpl. rewrite length_replicate. lia.
Qed.

(** * Content round trips *)
Section content.
Context `{WireFormatLaws}.

(** Short enough for the length prefixes (any [Vec<u8>] is). *)
Definition fits (b : bytes) : Prop := (Z.of_nat (length b) ≤ 2 ^ 62)%Z.

Lemma data_fields_wf body ts :
  fits body → in_u64 ts →
  Forall field_wf (DataMessage_fields {| dm_body := Some body; dm_timestamp := Some ts |}).
Proof.
  unfold fits. intros Hb Ht. apply Forall_app. split.
  - apply put_len_wf; [lia|]. intros ? [= <-]. unfold in_u64, u64_max. lia.
  - apply put_varint_wf; [lia|]. by intros ? [= <-].
Qed.

Lemma data_size body ts :
  length (pb_encode (DataMessage_fields {| dm_body := Some body; dm_timestamp := Some ts |}))
  ≤ 40 + length body.
Proof.
  etrans; [apply pb_encode_size|]. unfold fields_size, field_size. simpl. lia.
Qed.

Lemma data_merge body ts :
  fits body → utf8_valid body = true → in_u64 ts →
  merge RDataMessage_step RDataMessage_default
    (pb_encode (DataMessage_fields {| dm_body := Some body; dm_timestamp := Some ts |})) =
  Some {| rdm_body := Some body; rdm_timestamp := Some ts |}.
Proof.
  intros Hb Hu Ht. rewrite merge_encode by by apply data_fields_wf. simpl.
  unfold from_utf8. by rewrite Hu.
Qed.

Lemma data_content_decodes body ts :
  fits body → utf8_valid body = true → in_u64 ts →
  RContent_decode (strip_signal_padding (build_padded_data_message_content body ts)) =
  Some {| rcontent_data_message := Some {| rdm_body := Some body; rdm_timestamp := Some ts |};
          rcontent_sync_message := None |}.
Proof.
  intros Hb Hu Ht. unfold build_padded_data_message_content. rewrite strip_pad.
  unfold RContent_decode, Content_encode. rewrite merge_encode.
  - simpl. by rewrite data_merge by done.
  - apply Forall_app. split; [|constructor]. apply put_len_wf; [lia|]. intros ? [= <-].
    pose proof (data_size body ts). unfold fits in Hb. unfold in_u64, u64_max. lia.
Qed.

Lemma sync_content_decodes u body ts :
  fits u → fits body → utf8_valid body = true → in_u64 ts →
  RContent_decode (strip_signal_padding (build_padded_sync_transcript_content u body ts)) =
  Some {| rcontent_data_message := None;
          rcontent_sync_message := Some {| rsync_sent := Some
            {| rsent_destination_service_id := None; rsent_timestamp := Some ts;
               rsent_message := Some {| rdm_body := Some body; rdm_timestamp := Some ts |} |} |} |}.
Proof.
  intros Hfu Hb Hu Ht. unfold build_padded_sync_transcript_content. rewrite strip_pad.
  set (dm := {| dm_body := Some body; dm_timestamp := Some ts |}).
  set (sent := {| sent_timestamp := Some ts; sent_message := Some dm;
                  sent_destination_service_id := Some u |}).
  assert (length (pb_encode (DataMessage_fields dm)) ≤ 40 + length body) as Hl1 by apply data_size.
  assert (length (pb_encode (Sent_fields sent)) ≤ 100 + length body + length u) as Hl2.
  { etrans; [apply pb_encode_size|]. unfold fields_size, field_size. simpl. lia. }
  assert (length (pb_encode (Sync_fields {| sync_sent := Some sent |}))
    ≤ 120 + length body + length u) as Hl3.
  { etrans; [apply pb_encode_size|]. unfold fields_size, field_size. simpl. lia. }
  unfold fits in *.
  pose proof (data_merge body ts Hb Hu Ht) as Hdm. fold dm in Hdm.
  set (db := pb_encode (DataMessage_fields dm)) in *.
  assert (Sent_fields sent = [(2%Z, WVarint ts); (3%Z, WLen db); (7%Z, WLen u)]) as Hsf by done.
  unfold RContent_decode, Content_encode. rewrite merge_encode.
  2: { apply Forall_app. split; [constructor|]. apply put_len_wf; [lia|]. intros ? [= <-].
       unfold in_u64, u64_max. lia. }
  simpl. rewrite merge_encode.
  2: { apply put_len_wf; [lia|]. intros ? [= <-]. unfold in_u64, u64_max. lia. }
  simpl. rewrite Hsf, merge_encode.
  2: { repeat constructor; simpl; try lia; try apply Ht; unfold in_u64, u64_max; lia. }
  simpl. by rewrite Hdm.
Qed.
End content.

(** * Delivery *)
Section delivery.
Context `{WireFormatLaws} {P O : Type} `{PddbLaws P, Host O}.
Implicit Types w : World P O.

(** The focused peer, as stored. *)
Definition focus_of (p : P) : option bytes :=
  (contents p !! (DIALOGUE_DICT, FOCUSED_PEER_KEY) ≫= from_utf8) ≫=
    λ raw, Outgoing.extract_string_field raw "uuid"%bs.

(** The requests that put a post into a peer's dialogue and leave the
    focused one displayed. *)
Definition ui_post (peer author : bytes) (ts : Z) (text : bytes) (focused : option bytes) :
    list ui_event :=
  if bool_decide (focused = Some peer) then [PostAdd author ts text]
  else DialogueSet PEER_DIALOGUE_DICT (Some peer) :: PostAdd author ts text ::
       match focused with
       | Some f => [DialogueSet PEER_DIALOGUE_DICT (Some f)]
       | None => []
       end.

Lemma focused_runs {E} p : runs (E := E) focused_peer_uuid p (Ok (focus_of p)) (contents p).
Proof. eapply runs_bind; [apply get_string_runs|]. intros. by apply runs_ret. Qed.

Lemma post_spec peer author ts text focused w :
  post_to_peer_dialogue peer author ts text focused w =
  (Ok tt, MkWorld (w_pddb w) (w_out w) (w_log w ++ (EvUi <$> ui_post peer author ts text focused))).
Proof.
  unfold post_to_peer_dialogue, ui_post. case_bool_decide; [done|].
  destruct focused; unfold cf_dialogue_set, cf_post_add, emit, mbind, ST_bind, mret, ST_ret;
    simpl; by rewrite <- !app_assoc.
Qed.

Lemma on_pddb_runs {E A} (c : ST P E A) r m w :
  runs c (w_pddb w) r m →
  ∃ p, on_pddb (O := O) c w = (r, MkWorld p (w_out w) (w_log w)) ∧ contents p = m.
Proof. intros (p & E' & Hm). exists p. unfold on_pddb. by rewrite E'. Qed.

Lemma summary_at_same (p p' : P) id :
  contents p' = contents p → summary_at p' id = summary_at p id.
Proof. intros E. unfold summary_at. by rewrite E. Qed.

(** A text message is delivered.  Content built by the sender for a
    non-empty text, decrypted from [remote], is posted once to the sender's
    dialogue under the sender's name with the sender's timestamp (the focused
    dialogue is displayed again afterwards), the screen is redrawn, the sender
    becomes the default recipient, and its summary is updated, counting as
    unread exactly when another conversation is focused. *)
Lemma deliver_data_spec body ts remote sts w :
  body ≠ [] → fits body → text_ok body → in_u64 ts →
  peers_ok (w_pddb w) → text_ok (addr_name remote) →
  let author := addr_name remote in
  let focused := focus_of (w_pddb w) in
  ∃ w', deliver_content (build_padded_data_message_content body ts) remote sts w = (Ok tt, w') ∧
    w_log w' = w_log w ++ (EvUi <$> ui_post author author ts body focused) ++ [EvUi Redraw] ∧
    contents (w_pddb w') !! (DIALOGUE_DICT, DEFAULT_PEER_KEY) = Some (peer_json remote) ∧
    summary_at (w_pddb w') author =
      Some (updated (old_summary (w_pddb w) author) ts body
        (if bool_decide (focused = Some author) then unread (old_summary (w_pddb w) author)
         else Z.min u32_max (unread (old_summary (w_pddb w) author) + 1))).
Proof.
  intros Hne Hfit Htext Hts Hpeers Hname author focused.
  unfold deliver_content. rewrite data_content_decodes by (done || apply Htext).
  cbn [rcontent_data_message rcontent_sync_message].
  unfold deliver_data_message. cbn [rdm_body rdm_timestamp].
  destruct body as [|b0 body0] eqn:Hbody; [done|]. unfold default, from_option, id.
  rewrite <- Hbody in *. cbv iota beta.
  destruct (on_pddb_runs (E := panic) focused_peer_uuid _ _ w (focused_runs _)) as (p1 & E1 & Hc1).
  assert (peers_ok p1) as Hp1.
  { intros i s. rewrite (summary_at_same (w_pddb w)) by done. apply Hpeers. }
  assert (old_summary p1 author = old_summary (w_pddb w) author) as Hold.
  { unfold old_summary. by rewrite (summary_at_same (w_pddb w)). }
  destruct (record_inbound_spec author ts body (bool_decide (focused = Some author)) p1)
    as (p2 & E2 & _ & Hs2 & _); [done..|]. rewrite Hold in Hs2.
  destruct (set_peer_runs DEFAULT_PEER_KEY remote p2) as (p3 & E3 & Hc3).
  rewrite Hbody in *. unfold mbind, ST_bind, try. rewrite E1. fold author focused.
  unfold on_pddb. cbn [w_pddb w_out w_log]. rewrite E2, post_spec. cbn [w_pddb w_out w_log].
  unfold mret, ST_ret, set_current_recipient. cbn [w_pddb w_out w_log]. rewrite E3.
  eexists. split; [done|]. cbn [w_pddb w_out w_log cf_redraw emit snd].
  split_and!.
  - by rewrite app_assoc.
  - by rewrite Hc3, lookup_insert_eq.
  - unfold summary_at in *. by rewrite Hc3, lookup_insert_ne by (apply not_eq_sym; by vm_compute).
Qed.

(** A transcript for a destination whose eighth byte is inside a character
    panics the worker, and no other one does: the author is a slice of the
    first eight bytes, taken without regard to character boundaries. *)
Theorem sync_author_slice_panics dest sent dm text sts w :
  dest ≠ [] → text ≠ [] → rsent_destination_service_id sent = Some dest →
  rsent_message sent = Some dm → rdm_body dm = Some text →
  (deliver_sync_message {| rsync_sent := Some sent |} sts w).1 = Err Panicked ↔
  is_char_boundary dest (Nat.min (length dest) 8) = false.
Proof.
  intros Hd Ht Hdest Hm Hb. unfold deliver_sync_message. cbn [rsync_sent].
  rewrite Hdest, Hm, Hb. unfold default, from_option, id. destruct text as [|c text]; [done|].
  rewrite bool_decide_false by done. unfold slice_to.
  unfold mbind at 1, ST_bind at 1, lift at 1.
  destruct (is_char_boundary dest (Nat.min (length dest) 8)); cbn [ok_or]; [|done].
  split; [|done]. unfold mbind, ST_bind, try.
  destruct (on_pddb_runs (E := panic) focused_peer_uuid _ _ w (focused_runs _)) as (p1 & -> & _).
  destruct (on_pddb (record_outbound _ _ _) _) as [r w1]. by rewrite post_spec.
Qed.

(** The transcript of a message sent from this implementation is not
    delivered.  [build_padded_sync_transcript_content] writes the destination
    at tag 7, the receiver's struct reads tag 1; so the destination is empty
    and the transcript is dropped: no post, no summary, nothing. *)
Theorem own_transcript_dropped u body ts remote sts w :
  fits u → fits body → utf8_valid body = true → in_u64 ts →
  deliver_content (build_padded_sync_transcript_content u body ts) remote sts w = (Ok tt, w).
Proof.
  intros Hfu Hb Hu Hts. unfold deliver_content. rewrite sync_content_decodes by done.
  cbn [rcontent_data_message rcontent_sync_message]. unfold deliver_sync_message.
  cbn. by destruct body.
Qed.
End delivery.

(** * Envelope dispatch *)

Definition is_ui (e : event) : Prop := match e with EvUi _ => True | _ => False end.

Section dispatch.
Context `{ProtocolLaws, Base64Laws, WireFormat} {P O : Type} `{PddbLaws P, Host O, WsHost O}.
Implicit Types w : World P O.

(** Only the user interface sees the step. *)
Definition ui_only w w' : Prop := ∃ l, w_log w' = w_log w ++ l ∧ Forall is_ui l.
#[local] Instance ui_only_preorder : PreOrder ui_only.
Proof.
  split.
  - intros w. exists []. by rewrite app_nil_r.
  - intros w1 w2 w3 (l & E & Hl) (l' & E' & Hl'). exists (l ++ l').
    by rewrite E', E, app_assoc, Forall_app.
Qed.

Lemma on_pddb_ui {E A} (c : ST P E A) : preserved ui_only (on_pddb (O := O) c).
Proof.
  intros w. unfold on_pddb. destruct (c (w_pddb w)). exists []. by rewrite app_nil_r.
Qed.
Lemma on_out_ui {E A} (f : O → A * O) : preserved ui_only (on_out (P := P) (E := E) f).
Proof.
  intros w. unfold on_out. destruct (f (w_out w)). exists []. by rewrite app_nil_r.
Qed.
Lemma emit_ui {E} u : preserved ui_only (emit (P := P) (O := O) (E := E) (EvUi u)).
Proof. intros w. exists [EvUi u]. split; [done|]. by repeat constructor. Qed.

Hint Resolve on_pddb_ui on_out_ui emit_ui ui_only_preorder : frame.
Ltac frame := repeat (first [apply preserved_bind; [exact _| |intros ?]
                            | progress (auto with frame)]).

Lemma post_ui peer author ts t f : preserved ui_only (post_to_peer_dialogue (P := P) (O := O) peer author ts t f).
Proof.
  unfold post_to_peer_dialogue, cf_post_add, cf_dialogue_set. case_bool_decide; [auto with frame|].
  frame. destruct f; auto with frame.
Qed.

Lemma deliver_ui pt remote ts : preserved ui_only (deliver_content (P := P) (O := O) pt remote ts).
Proof.
  unfold deliver_content. destruct (RContent_decode _) as [c|]; [|auto with frame].
  apply preserved_bind; [exact _| |].
  - destruct (rcontent_data_message c) as [dm|]; [|destruct (rcontent_sync_message c) as [sy|]].
    + apply preserved_bind; [exact _| |].
      * unfold deliver_data_message. destruct (default [] (rdm_body dm)); [auto with frame|].
        frame. apply post_ui.
      * intros []; frame.
    + unfold deliver_sync_message. destruct (rsync_sent sy) as [s|]; [|auto with frame].
      destruct (rsent_message s) as [d|]; [|auto with frame].
      destruct (default [] (rdm_body d)); [auto with frame|].
      case_bool_decide; [auto with frame|]. frame. apply post_ui.
    + auto with frame.
  - intros []; [apply emit_ui|auto with frame].
Qed.

Lemma session_ui a : session_calls (W := World P O) ui_only a.
Proof. split; intros; apply on_pddb_ui. Qed.
Lemma identity_ui a : identity_calls (W := World P O) ui_only a.
Proof. unfold identity_calls. split_and!; intros; apply on_pddb_ui. Qed.
Lemma prekey_ui : prekey_calls (W := World P O) ui_only.
Proof. unfold prekey_calls. split_and!; intros; apply on_pddb_ui. Qed.

Lemma plaintext_ui remote ts o : preserved ui_only (deliver_plaintext (P := P) (O := O) remote ts o).
Proof. unfold deliver_plaintext. destruct o; [apply deliver_ui|auto with frame]. Qed.
Lemma decrypt_prekey_ui raw r l : preserved ui_only (decrypt_prekey_bundle (P := P) (O := O) raw r l).
Proof.
  unfold decrypt_prekey_bundle. destruct (prekey_message_try_from raw); [|auto with frame].
  apply preserved_bind; [exact _|apply on_out_ui|]. intros rng.
  apply preserved_bind; [exact _| |auto with frame].
  apply preserved_try, decrypt_prekey_frame;
    auto using session_ui, identity_ui, prekey_ui, ui_only_preorder.
Qed.
Lemma decrypt_whisper_ui raw r : preserved ui_only (decrypt_whisper (P := P) (O := O) raw r).
Proof.
  unfold decrypt_whisper. destruct (signal_message_try_from raw); [|auto with frame].
  apply preserved_bind; [exact _|apply on_out_ui|]. intros rng.
  apply preserved_bind; [exact _| |auto with frame].
  apply preserved_try, decrypt_signal_frame;
    auto using session_ui, identity_ui, ui_only_preorder.
Qed.
Hint Resolve plaintext_ui decrypt_prekey_ui decrypt_whisper_ui : frame.

Lemma dispatch_ui raw local : preserved ui_only (dispatch_envelope (P := P) (O := O) raw local).
Proof.
  unfold dispatch_envelope. destruct (Envelope_decode raw) as [env|]; [|auto with frame].
  destruct (env_content env) as [c|]; [|auto with frame].
  destruct (_ =? ENVELOPE_UNIDENTIFIED_SENDER)%Z.
  - unfold dispatch_sealed. apply preserved_bind; [exact _| |].
    + apply preserved_try, sealed_sender_frame; [apply ui_only_preorder|apply on_pddb_ui].
    + intros [u|]; [|auto with frame]. repeat case_match; auto with frame; frame.
  - destruct (_ || _); [auto with frame|]. destruct (DeviceId_new _); [|auto with frame].
    repeat case_match; auto with frame; frame.
Qed.

(** C25: every request of the server is acknowledged once, after it was
    handled.  Unless the handler panics, the last thing on the connection is
    the 200 response with the request's id (0 when it has none), whatever
    the envelope was; everything before it is user-interface traffic only; a
    failed send is the only way for it to be missing. *)
Theorem request_acked_once req local w w' :
  handle_request req local w = (Ok tt, w') →
  ∃ l w1 r, Forall is_ui l ∧ w_log w1 = w_log w ++ l ∧
    send_ws (Binary (WsMessage_encode (ack_message (default 0%Z (rq_id req)) 200))) w1 = (Ok r, w') ∧
    (is_ok r = true → w_log w' = w_log w ++ l ++
       [EvWsSend (Binary (WsMessage_encode (ack_message (default 0%Z (rq_id req)) 200)))]) ∧
    (is_ok r = false → w_log w' = w_log w ++ l).
Proof.
  set (id := default 0%Z (rq_id req)). set (m := Binary _).
  assert (∀ w1 l, w_log w1 = w_log w ++ l → Forall is_ui l →
    send_ack id 200 w1 = (Ok tt, w') →
    ∃ l w1 r, Forall is_ui l ∧ w_log w1 = w_log w ++ l ∧ send_ws m w1 = (Ok r, w') ∧
      (is_ok r = true → w_log w' = w_log w ++ l ++ [EvWsSend m]) ∧
      (is_ok r = false → w_log w' = w_log w ++ l)) as Hack.
  { intros w1 l El Hl Hs. apply bind_Ok in Hs as (r & w2 & Er & [= <-]).
    exists l, w1, r. split_and!; [done|done|done| |]; intros Hr; unfold send_ws in Er;
      apply bind_Ok in Er as (r' & w3 & Eo & Er); unfold on_out in Eo;
      destruct (ws_send _ (w_out w1)) as [r'' o']; injection Eo as -> <-; destruct r';
      try (apply bind_Ok in Er as (? & w4 & [= <- <-] & Er)); injection Er as <- <-; try done;
      cbn [w_log]; rewrite El; by rewrite <- ?app_assoc. }
  unfold handle_request. fold id. destruct (_ && _).
  - intros ([] & w1 & E1 & Hs)%bind_Ok.
    assert (ui_only w w1) as (l & El & Hl).
    { destruct (rq_body req) as [b|]; [|by injection E1 as <-].
      pose proof (dispatch_ui b local w) as Hd. by rewrite E1 in Hd. }
    by apply (Hack w1 l).
  - destruct (_ && _); apply (Hack w []); by rewrite ?app_nil_r.
Qed.

(** Neither the store nor anything visible changes. *)
Definition quiet w w' : Prop :=
  contents (w_pddb w') = contents (w_pddb w) ∧ w_log w' = w_log w.
#[local] Instance quiet_preorder : PreOrder quiet.
Proof.
  split; [by intros w|]. intros w1 w2 w3 [? ?] [? ?]. split; congruence.
Qed.

Lemma key_pair_quiet : preserved quiet (get_identity_key_pair (W := World P O)).
Proof.
  assert (preserved (λ p p' : P, contents p' = contents p)
    (Identity_get_identity_key_pair identity_store)) as Hk.
  { assert (PreOrder (λ p p' : P, contents p' = contents p)) as HR.
    { split; [done|]. intros ? ? ? ? ?. congruence. }
    assert (∀ E d k, preserved (λ p p' : P, contents p' = contents p)
      (read_account_string (E := E) d k)) as Hr.
    { intros E d k p. destruct (read_account_string_runs (E := E) d k p) as (r & p' & -> & ?).
      done. }
    unfold Identity_get_identity_key_pair.
    repeat (apply preserved_bind; [exact HR| |intros ?]); auto with frame. }
  intros w. specialize (Hk (w_pddb w)). simpl. unfold on_pddb.
  by destruct (Identity_get_identity_key_pair identity_store (w_pddb w)).
Qed.

(** C13: the sealed-sender guard.  A sealed envelope changes the store or
    reaches the user only if its sender certificate was accepted by the
    trust roots at the server's timestamp; in every other case the sessions,
    the pre-keys, the summaries and the screen are untouched. *)
Theorem sealed_sender_guard raw env local w :
  Envelope_decode raw = Some env →
  default 0%Z (env_type env) = ENVELOPE_UNIDENTIFIED_SENDER →
  quiet w (dispatch_envelope raw local w).2 ∨
  ∃ content usmc cert, env_content env = Some content ∧
    (sealed_sender_decrypt_to_usmc content w).1 = Ok usmc ∧ usmc_sender usmc = Ok cert ∧
    validate_with_trust_roots cert trust_roots (default 0%Z (env_server_timestamp env)) = Ok true.
Proof.
  intros Henv Hty. unfold dispatch_envelope. rewrite Henv.
  destruct (env_content env) as [content|]; [|by left]. rewrite Hty. cbn [Z.eqb].
  change (ENVELOPE_UNIDENTIFIED_SENDER =? ENVELOPE_UNIDENTIFIED_SENDER)%Z with true. cbv iota.
  pose proof (sealed_sender_frame quiet content _ key_pair_quiet w) as Hq.
  unfold dispatch_sealed, mbind at 1, ST_bind at 1, try at 1.
  destruct (sealed_sender_decrypt_to_usmc content w) as [[usmc|e] w1] eqn:Ed; simpl in Hq;
    [|by left].
  destruct (usmc_sender usmc) as [cert|] eqn:Es; [|by left].
  destruct (validate_with_trust_roots cert _ _) as [[]|] eqn:Ev; [|by left..].
  right. exists content, usmc, cert. rewrite Ed. by split_and!.
Qed.

(** An envelope that cannot be attributed or has no dispatcher is dropped
    with no effect at all: no content, a source device outside 1..=127, or a
    type other than ciphertext, pre-key bundle and sealed sender. *)
Theorem unsupported_envelope_dropped raw env local w :
  Envelope_decode raw = Some env →
  let ty := default 0%Z (env_type env) in
  let dev := default 1%Z (env_source_device env) in
  (env_content env = None ∨
   ty ≠ ENVELOPE_UNIDENTIFIED_SENDER ∧
     (dev = 0%Z ∨ (127 < dev)%Z ∨ ty ≠ ENVELOPE_PREKEY_BUNDLE ∧ ty ≠ ENVELOPE_CIPHERTEXT)) →
  dispatch_envelope raw local w = (Ok tt, w).
Proof.
  intros Henv ty dev Hcase. unfold dispatch_envelope. rewrite Henv. fold ty dev.
  destruct (env_content env) as [c|]; [|done]. destruct Hcase as [|[Hty Hcase]]; [done|].
  rewrite (proj2 (Z.eqb_neq _ _) Hty).
  destruct (Z.eqb_spec dev 0), (Z.ltb_spec 127 dev); try done. cbn [orb].
  destruct (DeviceId_new dev); [|done].
  destruct Hcase as [|[|[Hp Hc]]]; [done|lia|].
  by rewrite (proj2 (Z.eqb_neq _ _) Hp), (proj2 (Z.eqb_neq _ _) Hc).
Qed.

(** ** Timers *)

(** The application keepalive is not sent on connect by a device that has
    been up for less than 55 s.  The timer starts at [t1 - 55 s] saturated at
    zero, so the first request waits until the uptime reaches 55 s; on a
    device that is up longer it is sent in the first turn. *)
Theorem first_keepalive_needs_uptime s t1 t o w :
  last_app_keepalive_ms s = sat_sub t1 APP_KEEPALIVE_MS → (t1 ≤ t)%Z →
  elapsed_ms (w_out w) = (t, o) →
  ((t < APP_KEEPALIVE_MS)%Z →
     app_keepalive_step s w = (Ok (Some s), MkWorld (w_pddb w) o (w_log w))) ∧
  ((APP_KEEPALIVE_MS ≤ t1)%Z →
     let m := Binary (WsMessage_encode (keepalive_message (next_request_id s))) in
     (ws_send m o).1 = Ok tt →
     w_log (app_keepalive_step s w).2 = w_log w ++ [EvWsSend m]).
Proof.
  intros Hl Ht1 Ee. unfold app_keepalive_step, tick, mbind, ST_bind, on_out.
  rewrite Ee, Hl. unfold sat_sub, APP_KEEPALIVE_MS in *. split.
  - intros Hlt. destruct (Z.leb_spec 55000 (Z.max 0 (t - Z.max 0 (t1 - 55000)))); [lia|done].
  - intros Hge. cbv zeta. set (m := Binary _). intros Hs.
    destruct (Z.leb_spec 55000 (Z.max 0 (t - Z.max 0 (t1 - 55000)))); [|lia].
    unfold send_ws, mbind, ST_bind, on_out, emit, mret, ST_ret. cbn [w_out w_pddb w_log].
    destruct (ws_send m o) as [r o1]. simpl in Hs. subst r. cbn [w_out w_pddb w_log].
    by destruct (elapsed_ms o1).
Qed.

(** The reconnect backoff.  A turn of the worker that ends sleeps either 2
    s (after a session) or the current backoff (after a failed connect), and
    hands on twice that, capped; so from the initial 2 s every sleep and every
    backoff stays within 2..=64 s. *)
Theorem reconnect_backoff_bounded fuel aci dev pw host local b w b' w' :
  (RECONNECT_BACKOFF_INITIAL_MS ≤ b ≤ RECONNECT_BACKOFF_MAX_MS)%Z →
  worker_turn fuel aci dev pw host local b w = Some (Ok b', w') →
  (RECONNECT_BACKOFF_INITIAL_MS ≤ b' ≤ RECONNECT_BACKOFF_MAX_MS)%Z ∧
  match (ws_connect (message_ws_url host) (message_ws_auth aci dev pw) (w_out w)).1 with
  | Ok _ => b' = 4000%Z ∧ ∃ w1, reconnect_sleep RECONNECT_BACKOFF_INITIAL_MS w1 = (Ok tt, w')
  | Err _ => b' = Z.min (b * 2) RECONNECT_BACKOFF_MAX_MS ∧
             ∃ w1, w_log w1 = w_log w ∧ reconnect_sleep b w1 = (Ok tt, w')
  end.
Proof.
  assert (∀ s w1 w2 b2, (reconnect_sleep (P := P) (O := O) s;;
      mret (Z.min (s * 2) RECONNECT_BACKOFF_MAX_MS)) w1 = (Ok b2, w2) →
    b2 = Z.min (s * 2) RECONNECT_BACKOFF_MAX_MS ∧ reconnect_sleep s w1 = (Ok tt, w2)) as Hnext.
  { intros s w1 w2 b2 Hr. apply bind_Ok in Hr as ([] & w3 & Hs & [= <- <-]). done. }
  intros Hb. unfold worker_turn, on_out.
  unfold RECONNECT_BACKOFF_INITIAL_MS, RECONNECT_BACKOFF_MAX_MS in *.
  destruct (ws_connect _ _ _) as [[[]|e] o].
  - destruct (run_session fuel local _) as [[[[]|e] w1]|]; [|done|done]. intros Hn.
    injection Hn as Hn. apply Hnext in Hn as [-> Hs]. split; [lia|]. split; [done|]. by exists w1.
  - intros Hn. injection Hn as Hn. apply Hnext in Hn as [-> Hs]. split; [lia|].
    split; [done|]. eexists. split; [|exact Hs]. done.
Qed.
End dispatch.

(** * A scripted connection *)

Record net := Net { net_clock : Z; net_frames : list ws_message; net_up : bool }.

#[global] Instance net_host : Host net := {|
  instant_now o := (net_clock o, o);
  system_now o := (net_clock o, o);
  os_entropy o := ([Byte.x07], o);
  host_sleep ms o := Net (net_clock o + ms) (net_frames o) (net_up o);
  ureq_call _ o := (UreqTransport "offline"%bs, o);
  env_var _ _ := None;
|}.
#[global] Instance net_ws : WsHost net := {|
  ws_connect _ _ o := (if net_up o then Ok tt else Err (IoError ConnectionRefused []), o);
  ws_set_read_timeout _ o := (Ok tt, o);
  ws_send _ o := (Ok tt, o);
  ws_read o :=
    match net_frames o with
    | m :: l => (Ok m, Net (net_clock o) l (net_up o))
    | [] => (Err (WsOther "closed"%bs), o)
    end;
  ws_close o := o;
  ticktimer_new o := (true, o);
  elapsed_ms o := (net_clock o, o);
|}.

Definition quiet_world : World flash net := MkWorld ∅ (Net 0 [] true) [].
Definition boot_world : World flash net := MkWorld ∅ (Net 100 [] true) [].

Definition hi_text : bytes := "hi"%bs.

Definition accented : bytes := "1234567"%bs ++ [Byte.xc3; Byte.xa9].
Lemma sync_author_slice_panics_witness :
  (deliver_sync_message {| rsync_sent := Some {| rsent_destination_service_id := Some accented;
     rsent_timestamp := None; rsent_message := Some {| rdm_body := Some ("hi"%bs : bytes);
     rdm_timestamp := None |} |} |} 0 quiet_world).1 = Err Panicked ↔
  is_char_boundary accented (Nat.min (length accented) 8) = false.
Proof. by eapply (sync_author_slice_panics accented _ _ ("hi"%bs : bytes) 0 quiet_world). Defined.
Example accented_panics : is_char_boundary accented (Nat.min (length accented) 8) = false.
Proof. by vm_compute. Qed.

Lemma own_transcript_dropped_witness :
  deliver_content (build_padded_sync_transcript_content "bob"%bs "hi"%bs 5) demo_addr 9 quiet_world
  = (Ok tt, quiet_world).
Proof. apply (own_transcript_dropped "bob"%bs "hi"%bs 5 demo_addr 9 quiet_world); by vm_compute. Defined.

Definition drained_request : WsRequestProto :=
  {| rq_verb := Some ("PUT"%bs : bytes); rq_path := Some ("/api/v1/queue/empty"%bs : bytes);
     rq_body := None; rq_id := Some 42%Z; rq_headers := [] |}.
Definition drained := handle_request drained_request demo_addr quiet_world.

Lemma request_acked_once_witness :
  ∃ l w1 r, Forall is_ui l ∧ w_log w1 = w_log quiet_world ++ l ∧
    send_ws (Binary (WsMessage_encode (ack_message 42 200))) w1 = (Ok r, drained.2) ∧
    (is_ok r = true → w_log drained.2 = w_log quiet_world ++ l ++
       [EvWsSend (Binary (WsMessage_encode (ack_message 42 200)))]) ∧
    (is_ok r = false → w_log drained.2 = w_log quiet_world ++ l).
Proof.
  apply (request_acked_once drained_request demo_addr quiet_world drained.2). reflexivity.
Defined.

(** A sealed envelope whose certificate is not valid. *)
Definition sealed_env : bytes :=
  pb_encode [(1%Z, WVarint 6); (8%Z, WLen [Byte.x00; Byte.x02; Byte.x61])].
Definition sealed_proto : EnvelopeProto :=
  {| env_type := Some 6%Z; env_source_service_id := None; env_source_device := None;
     env_server_timestamp := None; env_content := Some [Byte.x00; Byte.x02; Byte.x61] |}.

Lemma sealed_sender_guard_witness :
  quiet quiet_world (dispatch_envelope sealed_env demo_addr quiet_world).2 ∨
  ∃ content usmc cert, env_content sealed_proto = Some content ∧
    (sealed_sender_decrypt_to_usmc content quiet_world).1 = Ok usmc ∧ usmc_sender usmc = Ok cert ∧
    validate_with_trust_roots cert trust_roots
      (default 0%Z (env_server_timestamp sealed_proto)) = Ok true.
Proof.
  apply (sealed_sender_guard sealed_env sealed_proto demo_addr quiet_world);
    [vm_compute; reflexivity|reflexivity].
Defined.

Definition receipt_env : bytes := pb_encode [(1%Z, WVarint 5); (8%Z, WLen [Byte.x61])].
Definition receipt_proto : EnvelopeProto :=
  {| env_type := Some 5%Z; env_source_service_id := None; env_source_device := None;
     env_server_timestamp := None; env_content := Some [Byte.x61] |}.
Lemma unsupported_envelope_dropped_witness :
  dispatch_envelope receipt_env demo_addr quiet_world = (Ok tt, quiet_world).
Proof.
  apply (unsupported_envelope_dropped receipt_env receipt_proto demo_addr quiet_world);
    [vm_compute; reflexivity|]. right. split; [done|]. right. right. done.
Defined.

Definition fresh_session : session_state :=
  {| last_ping_ms := 100; next_request_id := 1; last_app_keepalive_ms := 0 |}.
Lemma first_keepalive_needs_uptime_witness :
  ((100 < APP_KEEPALIVE_MS)%Z →
     app_keepalive_step fresh_session boot_world = (Ok (Some fresh_session),
       MkWorld (w_pddb boot_world) (Net 100 [] true) (w_log boot_world))) ∧
  ((APP_KEEPALIVE_MS ≤ 100)%Z →
     let m := Binary (WsMessage_encode (keepalive_message (next_request_id fresh_session))) in
     (ws_send m (Net 100 [] true)).1 = Ok tt →
     w_log (app_keepalive_step fresh_session boot_world).2 = w_log boot_world ++ [EvWsSend m]).
Proof.
  apply (first_keepalive_needs_uptime fresh_session 100 100 (Net 100 [] true) boot_world);
    [reflexivity|lia|reflexivity].
Defined.

Definition offline_world : World flash net := MkWorld ∅ (Net 0 [] false) [].
Definition offline_turn :=
  worker_turn 1 "alice"%bs 2 "pw"%bs "example.org"%bs demo_addr 32000 offline_world.
Lemma reconnect_backoff_bounded_witness :
  (RECONNECT_BACKOFF_INITIAL_MS ≤ 64000 ≤ RECONNECT_BACKOFF_MAX_MS)%Z ∧
  64000%Z = Z.min (32000 * 2) RECONNECT_BACKOFF_MAX_MS ∧
  ∃ w1 : World flash net, w_log w1 = w_log offline_world ∧
    reconnect_sleep 32000 w1 = (Ok tt, MkWorld ∅ (Net 32000 [] false) [EvSleep 32000]).
Proof.
  pose proof (reconnect_backoff_bounded 1 "alice"%bs 2 "pw"%bs "example.org"%bs demo_addr 32000
    offline_world 64000 (MkWorld ∅ (Net 32000 [] false) [EvSleep 32000])) as H.
  replace (ws_connect _ _ (w_out offline_world)).1
    with (Err (IoError ConnectionRefused []) : result io_error ()) in H by reflexivity.
  apply H; [by vm_compute|reflexivity].
Defined.
