(* ===== verification/EndToEnd.v ===== *)
(** A message from one client to another.

    SendSpec.v ends with the PUT the server accepted, ReceiveSpec.v begins with an
    envelope.  Here the two meet: the entities of the accepted PUT hold the text,
    encrypted for their devices ([sealed]); a server that relays one as an envelope
    ([relayed]) gives it to the receive worker of the other client; and if libsignal
    opens it there, exactly the text is shown, under the sender's name and with the
    sender's timestamp.  If libsignal does not, nothing is shown.

    [DecryptLaws] is what this needs of libsignal beyond [ProtocolLaws]: what was
    encrypted is what a successful decryption returns. *)

From S2P Require Import Prelude RustStd Wire Base64 Json Pddb Signal Stores World Outgoing Send SendSpec SendWorld Peers Receive ReceiveSpec.

Class DecryptLaws `{Protocol} := {
  decrypt_signal_correct {W V} `{!SessionStore W, !IdentityKeyStore W, !SessionStore V,
      !IdentityKeyStore V} m a l t g (w w1 : W) s x g' (v v1 : V) pt :
    message_encrypt m a l t g w = (Ok (SignalMessage s), w1) →
    signal_message_try_from s = Ok x →
    message_decrypt_signal x l g' v = (Ok pt, v1) → pt = m;
  decrypt_prekey_correct {W V} `{!SessionStore W, !IdentityKeyStore W, !SessionStore V,
      !IdentityKeyStore V, !PreKeyStore V, !SignedPreKeyStore V, !KyberPreKeyStore V}
      m a l t g (w w1 : W) s x g' (v v1 : V) pt :
    message_encrypt m a l t g w = (Ok (PreKeySignalMessage s), w1) →
    prekey_message_try_from s = Ok x →
    message_decrypt_prekey x l a g' v = (Ok pt, v1) → pt = m;
}.

#[global] Instance toy_decrypt : DecryptLaws (H0 := Toy.protocol).
Proof.
  constructor; simpl; intros until pt; unfold Toy.encrypt, Toy.decrypt_signal, mbind, ST_bind;
    repeat (case_match; simplify_eq); unfold mret, ST_ret; naive_solver.
Qed.

(** * What decryption leaves alone

    The receiver's dialogues and summaries: libsignal reaches the store only through
    the protocol stores. *)
Section unseen.
Context `{LibsignalLaws} `{!Protocol, !ProtocolLaws} `{Base64Laws} {P O : Type} `{PddbLaws P, Host O}.

Definition UI_DICTS : list bytes := [DIALOGUE_DICT; PEERS_DICT].
Definition unseen (p p' : P) : Prop :=
  ∀ d k, d ∈ UI_DICTS → contents p' !! (d, k) = contents p !! (d, k).
Ltac not_ui := refine (bool_decide_eq_false_1 _ _); vm_compute; reflexivity.
#[export] Instance unseen_preorder : PreOrder unseen.
Proof. split; [by intros p d k|]. intros p1 p2 p3 H12 H23 d k Hd. by rewrite H23, H12. Qed.

Lemma runs_unseen {E A} (c : ST P E A) p r m :
  runs c p r m → (∀ d k, d ∈ UI_DICTS → m !! (d, k) = contents p !! (d, k)) → unseen p (c p).2.
Proof. intros (p' & -> & <-) Hm d k Hd. by apply Hm. Qed.
Lemma account_unseen {E} d k : preserved unseen (read_account_string (E := E) d k).
Proof. intros p. destruct (read_account_string_runs (E := E) d k p) as (r & Hr). by eapply runs_unseen. Qed.
Lemma read_record_unseen c d k : preserved unseen (read_record c d k).
Proof. intros p. by eapply runs_unseen; [apply read_record_spec|]. Qed.
Lemma write_record_unseen c d k v : d ∉ UI_DICTS → preserved unseen (write_record c d k v).
Proof.
  intros Hd p. eapply runs_unseen; [apply write_record_spec|].
  intros d' k' Hd'. apply lookup_insert_ne. congruence.
Qed.
Lemma remove_unseen i : preserved unseen (PreKey_remove_pre_key pre_key_store i).
Proof.
  intros p. eapply runs_unseen; [apply remove_pre_key_spec|].
  intros d' k' Hd'. apply lookup_delete_ne. intros [= <- _]. revert Hd'. not_ui.
Qed.

Ltac unseen_calls :=
  repeat first
    [ apply account_unseen | apply read_record_unseen | apply remove_unseen
    | apply write_record_unseen; not_ui
    | apply preserved_ret; exact _ | apply preserved_throw; exact _ | apply preserved_lift; exact _
    | apply preserved_bind; [exact _| |intros ?]
    | case_match ].

(** The same of a world, with no change of the log. *)
Definition wunseen (w w' : World P O) : Prop :=
  w_log w' = w_log w ∧ unseen (w_pddb w) (w_pddb w').
#[export] Instance wunseen_preorder : PreOrder wunseen.
Proof.
  split; [by intros w|]. intros w1 w2 w3 [E1 ?] [E2 ?]. split; [congruence|by etrans].
Qed.
Lemma on_pddb_unseen {E A} (c : ST P E A) : preserved unseen c → preserved wunseen (on_pddb c).
Proof.
  intros Hc w. specialize (Hc (w_pddb w)). unfold on_pddb. by destruct (c (w_pddb w)).
Qed.
Lemma draw_unseen {E} : preserved wunseen (draw_entropy (E := E)).
Proof. intros w. unfold draw_entropy, on_out. by destruct (os_entropy _). Qed.

Lemma session_unseen a : session_calls (W := World P O) wunseen a.
Proof.
  split; [|intros r]; apply on_pddb_unseen; unfold Session_load_session, Session_store_session; unseen_calls.
Qed.
Lemma identity_unseen a : identity_calls (W := World P O) wunseen a.
Proof.
  unfold identity_calls. split_and!; intros; apply on_pddb_unseen;
    unfold Identity_get_identity_key_pair, Identity_get_local_registration_id, Identity_save_identity,
      Identity_is_trusted_identity, Identity_get_identity; unseen_calls.
Qed.
Lemma prekey_unseen : prekey_calls (W := World P O) wunseen.
Proof.
  unfold prekey_calls. split_and!; intros; apply on_pddb_unseen;
    unfold PreKey_get_pre_key, SignedPreKey_get_signed_pre_key, KyberPreKey_get_kyber_pre_key,
      KyberPreKey_mark_kyber_pre_key_used; unseen_calls.
Qed.

Lemma decrypt_prekey_unseen raw r l : preserved wunseen (decrypt_prekey_bundle raw r l).
Proof.
  unfold decrypt_prekey_bundle. destruct (prekey_message_try_from raw); [|apply preserved_ret; exact _].
  apply preserved_bind; [exact _|apply draw_unseen|intros g].
  apply preserved_bind; [exact _|apply preserved_try, decrypt_prekey_frame|intros; apply preserved_ret; exact _];
    auto using session_unseen, identity_unseen, prekey_unseen, wunseen_preorder.
Qed.
Lemma decrypt_whisper_unseen raw r : preserved wunseen (decrypt_whisper raw r).
Proof.
  unfold decrypt_whisper. destruct (signal_message_try_from raw); [|apply preserved_ret; exact _].
  apply preserved_bind; [exact _|apply draw_unseen|intros g].
  apply preserved_bind; [exact _|apply preserved_try, decrypt_signal_frame|intros; apply preserved_ret; exact _];
    auto using session_unseen, identity_unseen, wunseen_preorder.
Qed.
End unseen.

(** * The crossing *)
Section crossing.
Context `{LibsignalLaws} `{!Protocol, !ProtocolLaws, !DecryptLaws} `{Base64Laws, WireFormatLaws}.
Context `{SerdeJson, UrlLib} {P O : Type} `{PddbLaws P, Host O}.
Implicit Types w : World P O.

(** [raw] is the envelope in which the server passes [ent] of [sender] on: its type and
    content are those of the entity, the content decoded. *)
Definition relayed (sender : ProtocolAddress) (ent : OutgoingMessageEntity) (sts : Z) (raw : bytes) :
    Prop :=
  ∃ c, b64_decode STANDARD (content ent) = Some c ∧
    Envelope_decode raw = Some {| env_type := Some (message_type ent);
      env_source_service_id := Some (addr_name sender); env_source_device := Some (addr_device sender);
      env_server_timestamp := Some sts; env_content := Some c |}.

(** libsignal's verdict on the ciphertext [ent] carries. *)
Definition opened (sender local : ProtocolAddress) (ent : OutgoingMessageEntity) :
    ST (World P O) panic (option bytes) :=
  match b64_decode STANDARD (content ent) with
  | None => mret None
  | Some c => if (message_type ent =? ENVELOPE_PREKEY_BUNDLE)%Z
              then decrypt_prekey_bundle c sender local else decrypt_whisper c sender
  end.

(** [text] is shown once, in the sender's dialogue, and counted in its summary. *)
Definition shown (text : bytes) (ts : Z) (sender : ProtocolAddress) (w w' : World P O) : Prop :=
  let author := addr_name sender in
  let focused := focus_of (w_pddb w) in
  w_log w' = w_log w ++ (EvUi <$> ui_post author author ts text focused) ++ [EvUi Redraw] ∧
  contents (w_pddb w') !! (DIALOGUE_DICT, DEFAULT_PEER_KEY) = Some (peer_json sender) ∧
  summary_at (w_pddb w') author =
    Some (updated (old_summary (w_pddb w) author) ts text
      (if bool_decide (focused = Some author) then unread (old_summary (w_pddb w) author)
       else Z.min u32_max (unread (old_summary (w_pddb w) author) + 1))).

Lemma unseen_same (p p' : P) :
  unseen p p' → focus_of p' = focus_of p ∧ ∀ id, summary_at p' id = summary_at p id.
Proof.
  intros Hu. unfold focus_of, summary_at.
  split; [|intros id]; rewrite Hu; [done|by left|done|by right; left].
Qed.

Lemma opened_total sender local ent w : ∃ o w', opened sender local ent w = (Ok o, w').
Proof.
  unfold opened, decrypt_prekey_bundle, decrypt_whisper, try, draw_entropy, on_out, mbind, ST_bind.
  repeat case_match; simplify_eq; by eexists _, _.
Qed.

(** What libsignal opens is what was encrypted. *)
Lemma opened_content padded uuid local ent w pt w1 :
  sealed (W := World P O) padded uuid local ent →
  opened local (Addr uuid (entity_device_id ent)) ent w = (Ok (Some pt), w1) → pt = padded.
Proof.
  intros (raw & (t & g & v & v1 & c & Henc & Hc) & Hb). unfold opened.
  rewrite Hb, b64_decode_encode. destruct c as [s|s|s|s]; [| |done..]; injection Hc as Hty <-; rewrite <- Hty;
    unfold decrypt_whisper, decrypt_prekey_bundle; simpl.
  - destruct (signal_message_try_from s) as [x|] eqn:Hx; [|done].
    intros (g' & w2 & _ & Hr)%bind_Ok. apply bind_Ok in Hr as (r & w3 & Hd & [= Hr _]).
    unfold try in Hd. destruct (message_decrypt_signal x local g' w2) as [[pt'|] w4] eqn:Hm;
      injection Hd as <- _; [|done]. injection Hr as <-.
    by eapply decrypt_signal_correct.
  - destruct (prekey_message_try_from s) as [x|] eqn:Hx; [|done].
    intros (g' & w2 & _ & Hr)%bind_Ok. apply bind_Ok in Hr as (r & w3 & Hd & [= Hr _]).
    unfold try in Hd. destruct (message_decrypt_prekey x local _ g' w2) as [[pt'|] w4] eqn:Hm;
      injection Hd as <- _; [|done]. injection Hr as <-.
    by eapply decrypt_prekey_correct.
Qed.

Lemma sealed_type padded uuid local ent :
  sealed (W := World P O) padded uuid local ent →
  message_type ent = ENVELOPE_CIPHERTEXT ∨ message_type ent = ENVELOPE_PREKEY_BUNDLE.
Proof. intros (raw & (t & g & v & v1 & [] & _ & Hc) & _); simplify_eq/=; auto. Qed.

(** The worker opens a relayed entity and delivers what it finds. *)
Lemma dispatch_relayed sender local ent sts raw w :
  (1 ≤ addr_device sender ≤ 127)%Z → relayed sender ent sts raw →
  message_type ent = ENVELOPE_CIPHERTEXT ∨ message_type ent = ENVELOPE_PREKEY_BUNDLE →
  dispatch_envelope raw local w =
  (pt ← opened sender local ent; deliver_plaintext sender sts pt) w.
Proof.
  intros Hd (c & Hc & Henv) Hty. unfold dispatch_envelope, opened. rewrite Henv, Hc. cbn.
  assert (DeviceId_new (addr_device sender) = Ok (addr_device sender)) as -> by by apply DeviceId_new_range.
  destruct (Z.eqb_spec (addr_device sender) 0), (Z.ltb_spec 127 (addr_device sender)); [lia..|].
  destruct sender as [u d]. by destruct Hty as [-> | ->].
Qed.

(** A send that succeeded was made with a valid device id. *)
Lemma sender_device_ok text ts to (w w' : World P O) account :
  submit_with_retry text ts to w = (Ok tt, w') → (read_from_pddb (w_pddb w)).1 = Ok account →
  (1 ≤ acct_device_id account ≤ 127)%Z.
Proof.
  intros (acc & w1 & E1 & Hr)%bind_Ok Hacc. unfold on_pddb in E1.
  destruct (read_from_pddb (w_pddb w)) as [r p]. simpl in Hacc. subst r. injection E1 as -> _.
  apply bind_Ok in Hr as (dev & w2 & [= E2 _] & _). revert E2. unfold u8_try_from.
  destruct (_ && _); [|done]. cbn [mbind option_bind].
  destruct (DeviceId_new (acct_device_id acc)) eqn:E; [|done]. by apply device_id_ok in E as [_ ?].
Qed.

(** C3: a message crosses.  When the production [submit_with_retry] returns [Ok], the
    server accepted a PUT of entities each of which, relayed by the server to the
    recipient's device it names and opened there by libsignal, is shown by that
    client exactly once as the text that was sent, under the sender's name and with the
    sender's timestamp, and counted in the conversation's summary; an entity that
    libsignal does not open is not shown and leaves the dialogues and summaries as they
    were. *)
Theorem message_crosses text ts to (wa wa' : World P O) :
  sessions_wf session_store (w_pddb wa) → text ≠ [] → fits text → text_ok text → in_u64 ts →
  submit_with_retry text ts to wa = (Ok tt, wa') →
  ∃ account l e es ans l', (read_from_pddb (w_pddb wa)).1 = Ok account ∧
    w_log wa' = w_log wa ++ l ++ e :: l' ∧
    submission account ts (addr_name to) es ans e ∧ outcome_of ans = Ok tt ∧
    let sender := Addr (aci_service_id account) (acct_device_id account) in
    ∀ ent sts raw wb, ent ∈ es → relayed sender ent sts raw →
      text_ok (addr_name sender) → peers_ok (w_pddb wb) →
      let local := Addr (addr_name to) (entity_device_id ent) in
      ∃ wb', dispatch_envelope raw local wb = (Ok tt, wb') ∧
        match (opened sender local ent wb).1 with
        | Ok (Some _) => shown text ts sender wb wb'
        | _ => wunseen wb wb'
        end.
Proof.
  intros Hwf Hne Hfit Htext Hts Hsend.
  destruct (production_send_spec text ts to wa wa' Hwf Hsend)
    as (account & l0 & e & es & ans & l & Hacc & Hlog & Hsub & Hout & Hseal & _).
  exists account, l0, e, es, ans, l. rewrite <- app_assoc in Hlog. split_and!; [done..|].
  intros sender ent sts raw wb Hent Hrel Hname Hpeers local.
  rewrite Forall_forall in Hseal. specialize (Hseal ent Hent).
  rewrite (dispatch_relayed sender local ent sts raw wb); [|by eapply sender_device_ok|done|by eapply sealed_type].
  assert (preserved wunseen (opened sender local ent)) as Hun.
  { unfold opened. case_match; [|apply preserved_ret; exact _].
    case_match; [apply decrypt_prekey_unseen|apply decrypt_whisper_unseen]. }
  specialize (Hun wb). unfold mbind, ST_bind.
  destruct (opened sender local ent wb) as [[[pt|]|e1] w1] eqn:Hop; simpl in Hun |- *.
  - apply (opened_content (build_padded_data_message_content text ts) (addr_name to)) in Hop as ->; [|done].
    destruct Hun as [Hl1 Hu1]. destruct (unseen_same _ _ Hu1) as [Hfoc Hsum].
    assert (peers_ok (w_pddb w1)) as Hp1 by (intros i s; rewrite Hsum; apply Hpeers).
    destruct (deliver_data_spec text ts sender sts w1 Hne Hfit Htext Hts Hp1 Hname)
      as (w2 & E2 & Hl2 & Hd2 & Hs2).
    exists w2. split; [exact E2|]. unfold shown, old_summary in *. by rewrite Hl2, <- Hl1, <- Hfoc, <- !Hsum.
  - by exists w1.
  - by destruct (opened_total sender local ent wb) as (o & w2 & E); rewrite E in Hop.
Qed.
End crossing.

(** * A concrete crossing

    Alice's device 2 sends "hi" to Bob's device 1, which has a session with her. *)
Lemma message_crosses_witness :
  ∃ account l e es ans l', (read_from_pddb demo_flash).1 = Ok account ∧
    w_log demo_full.2 = [] ++ l ++ e :: l' ∧
    submission account 1000 (addr_name bob) es ans e ∧ outcome_of ans = Ok tt ∧
    let sender := Addr (aci_service_id account) (acct_device_id account) in
    ∀ ent sts raw (wb : World flash sim), ent ∈ es → relayed sender ent sts raw →
      text_ok (addr_name sender) → peers_ok (w_pddb wb) →
      let local := Addr (addr_name bob) (entity_device_id ent) in
      ∃ wb', dispatch_envelope raw local wb = (Ok tt, wb') ∧
        match (opened sender local ent wb).1 with
        | Ok (Some _) => shown hi_text 1000 sender wb wb'
        | _ => wunseen wb wb'
        end.
Proof.
  apply (message_crosses hi_text 1000 bob (demo_world [ok_200; ok_200]) demo_full.2);
    [exact (demo_wf [])|done|by vm_compute..|].
  apply (pair_ok demo_full). vm_compute. reflexivity.
Defined.

Definition hi_envelope : bytes :=
  pb_encode (put_i32 1 (Some 1%Z) ++ put_len 2 (Some ("alice"%bs : bytes)) ++ put_varint 5 (Some 9%Z) ++
             put_varint 7 (Some 2%Z) ++ put_len 8 (Some padded_hi)).
Definition bobs_world : World flash sim :=
  MkWorld (<[(SESSION_DICT, address_key demo_local) := [Byte.x0a; Byte.x05]]> ∅) (Sim 0 [] []) [].

(** The entity is in the PUT Alice makes, and Bob's screen shows what she wrote. *)
Example hi_crosses :
  (∃ e, submission demo_account 1000 "bob"%bs [hi_entity] ok_200 e ∧ e ∈ w_log demo_full.2) ∧
  relayed demo_local hi_entity 9 hi_envelope ∧
  w_log (dispatch_envelope hi_envelope bob bobs_world).2 =
    [EvUi (DialogueSet PEER_DIALOGUE_DICT (Some ("alice"%bs : bytes)));
     EvUi (PostAdd "alice"%bs 1000 hi_text); EvUi Redraw].
Proof.
  split_and!; [|by eexists; split; vm_compute|by vm_compute].
  destruct (w_log demo_full.2) as [|e l] eqn:E; [by vm_compute in E|].
  exists e. split; [|by left]. vm_compute in E. injection E as <- _.
  eexists _, _. split_and!; [by vm_compute|by vm_compute|by vm_compute].
Qed.
