(* ===== verification/WsServer.v ===== *)
(** The provisioning worker (manager/ws_server.rs).

    One thread owns the provisioning WebSocket and serves three opcodes of a
    Xous server: a caller waits for the result, a caller shuts the worker down,
    the WiFi observer reports a flap.  Messages, clock readings and socket
    results come from the outside [O] in any order, so every interleaving of
    the senders is covered; what the worker does in answer is the log.

    The theorems: the worker never panics, every lent page goes back exactly
    once, no caller waits beyond the deadline, after a flap the socket is left
    alone, and the result the caller decodes is the one the worker had. *)

From S2P Require Import Prelude Hoare RustStd Base64 Pddb Signal Stores World.

Definition WS_PROVISION_MAX : nat := 8 * 1024.
Definition KEEPALIVE_MS : Z := 25000.
Definition READ_TIMEOUT_MS : Z := 500.

Inductive WsServerOp := WaitAndTakeBinary | Cancel | FlapCancel.
#[global] Instance WsServerOp_eq_dec : EqDecision WsServerOp.
Proof. solve_decision. Defined.
(** [FromPrimitive::from_usize] *)
Definition WsServerOp_from (id : Z) : option WsServerOp :=
  if (id =? 0)%Z then Some WaitAndTakeBinary
  else if (id =? 1)%Z then Some Cancel
  else if (id =? 2)%Z then Some FlapCancel
  else None.
Definition WsServerOp_id (op : WsServerOp) : Z :=
  match op with WaitAndTakeBinary => 0 | Cancel => 1 | FlapCancel => 2 end.

Definition STATUS_BINARY : Z := 0.
Definition STATUS_CLOSED : Z := 1.
Definition STATUS_TIMED_OUT : Z := 2.
Definition STATUS_CANCELLED : Z := 3.
Definition STATUS_ERROR : Z := 4.

Record WsResultBuf := { buf_status : Z; buf_len : Z; buf_bytes : bytes }.
#[global] Instance WsResultBuf_eq_dec : EqDecision WsResultBuf.
Proof. solve_decision. Defined.
Definition WsResultBuf_empty : WsResultBuf :=
  {| buf_status := 255; buf_len := 0; buf_bytes := replicate WS_PROVISION_MAX Byte.x00 |}.

Inductive WsResult :=
  | RBinary (b : bytes)
  | RClosed
  | RTimedOut
  | RCancelled
  | RError (e : io_error).
Inductive PendingResult :=
  | PBinary (b : bytes)
  | PClosed
  | PTimedOut
  | PCancelled
  | PError.

(** [xous_ipc::Buffer]: the pages of a memory message and their (de)serialization. *)
Class IpcBuffer := {
  Page : Type;
  into_buf : WsResultBuf → result bytes Page;
  to_original : Page → result bytes WsResultBuf;
  replace : WsResultBuf → Page → result bytes Page;
}.
Class IpcBufferLaws `{IpcBuffer} := {
  to_original_into_buf b p : into_buf b = Ok p → to_original p = Ok b;
  to_original_replace b p p' : replace b p = Ok p' → to_original p' = Ok b;
}.

Section worker.
Context `{IpcBuffer}.

(** [xous::MessageEnvelope]; [memory] is absent from a scalar message. *)
Record Envelope := { sender : Z; msg_id : Z; memory : option Page }.

(** [xous::try_receive_message] *)
Class XousServer (O : Type) := {
  try_receive_message : O → result bytes (option Envelope) * O;
}.

Inductive ws_event :=
  | Received (m : Envelope)
  | Returned (to : Z) (page : Page)
  | Replied (to : Z)
  | WsRead (r : result ws_error ws_message)
  | WsSent (m : ws_message)
  | WsClosed
  | Destroyed.

Record Srv (O : Type) := MkSrv { sv_out : O; sv_log : list ws_event }.
Arguments MkSrv {O}.
Arguments sv_out {O}.
Arguments sv_log {O}.

(** A slice out of range. *)
Inductive abort := Aborted.

Context {O : Type} `{WsHost O, XousServer O}.
Abbreviation M := (ST (Srv O) abort).

Definition out {A} (f : O → A * O) : M A := λ w,
  let '(a, o) := f (sv_out w) in (Ok a, MkSrv o (sv_log w)).
Definition say (e : ws_event) : M () := modify (λ w, MkSrv (sv_out w) (sv_log w ++ [e])).

(** The page of a dropped envelope goes back to its sender. *)
Definition drop_envelope (msg : Envelope) : M () :=
  match memory msg with
  | Some page => say (Returned (sender msg) page)
  | None => mret ()
  end.

(** The [match result] of [fill_buf]; [None] is the slice
    [payload.bytes[..b.len()]] out of range. *)
Definition fill_payload (result : PendingResult) (payload : WsResultBuf) : option WsResultBuf :=
  let with_status s := {| buf_status := s; buf_len := buf_len payload;
                          buf_bytes := buf_bytes payload |} in
  match result with
  | PBinary b =>
      if bool_decide (length b ≤ WS_PROVISION_MAX) then
        Some {| buf_status := STATUS_BINARY;
                buf_len := Z.of_nat (length b) mod (u32_max + 1);
                buf_bytes := b ++ drop (length b) (buf_bytes payload) |}
      else None
  | PClosed => Some (with_status STATUS_CLOSED)
  | PTimedOut => Some (with_status STATUS_TIMED_OUT)
  | PCancelled => Some (with_status STATUS_CANCELLED)
  | PError => Some (with_status STATUS_ERROR)
  end.

Definition fill_buf (msg : Envelope) (result : PendingResult) : M () :=
  match memory msg with
  | None => mret ()
  | Some page =>
      match to_original page with
      | Err _ => drop_envelope msg
      | Ok payload =>
          match fill_payload result payload with
          | None => throw Aborted
          | Some payload =>
              match replace payload page with
              | Ok page' => say (Returned (sender msg) page')
              | Err _ => drop_envelope msg
              end
          end
      end
  end.

Definition ws_is_timeout (e : ws_error) : bool :=
  match e with
  | WsIo e => bool_decide (kind e = WouldBlock ∨ kind e = TimedOut)
  | WsOther _ => false
  end.

(** The locals of [worker_loop]. *)
Record worker := MkWorker {
  deadline_ms : Z;
  last_send_at : Z;
  pending : option PendingResult;
  waiter : option Envelope;
  flap_cancelled : bool;
}.
Definition set_pending (r : option PendingResult) (s : worker) : worker :=
  MkWorker (deadline_ms s) (last_send_at s) r (waiter s) (flap_cancelled s).
Definition set_waiter (m : option Envelope) (s : worker) : worker :=
  MkWorker (deadline_ms s) (last_send_at s) (pending s) m (flap_cancelled s).
Definition set_last_send (t : Z) (s : worker) : worker :=
  MkWorker (deadline_ms s) t (pending s) (waiter s) (flap_cancelled s).
Definition set_flap (s : worker) : worker :=
  MkWorker (deadline_ms s) (last_send_at s) (pending s) (waiter s) true.

(** An assignment to [waiter] drops the envelope it held. *)
Definition drop_waiter (s : worker) : M () :=
  match waiter s with Some w => drop_envelope w | None => mret () end.

(** (1) one message; [true] breaks out of the loop *)
Definition ipc_message (msg : Envelope) (s : worker) : M (worker * bool) :=
  match WsServerOp_from (msg_id msg) with
  | Some WaitAndTakeBinary =>
      match pending s with
      | Some result => fill_buf msg result;; mret (set_pending None s, false)
      | None => drop_waiter s;; mret (set_waiter (Some msg) s, false)
      end
  | Some Cancel =>
      match waiter s with Some w => fill_buf w PCancelled | None => mret () end;;
      say (Replied (sender msg));;
      drop_envelope msg;;
      mret (set_waiter None s, true)
  | Some FlapCancel =>
      drop_envelope msg;;
      mret (set_flap (if pending s is None then set_pending (Some PCancelled) s else s), false)
  | None => drop_envelope msg;; mret (s, false)
  end.
Definition ipc_step (s : worker) : M (worker * bool) :=
  r ← out try_receive_message;
  match r with
  | Ok (Some msg) => say (Received msg);; ipc_message msg s
  | Ok None => mret (s, false)
  | Err _ => mret (s, true)
  end.

(** (2) *)
Definition deadline_step (s : worker) : M worker :=
  match pending s with
  | Some _ => mret s
  | None =>
      now ← out elapsed_ms;
      mret (if (deadline_ms s <=? now)%Z then set_pending (Some PTimedOut) s else s)
  end.

(** (3) *)
Definition keepalive_step (s : worker) : M worker :=
  if flap_cancelled s || bool_decide (is_Some (pending s)) then mret s
  else
    now ← out elapsed_ms;
    if (KEEPALIVE_MS <=? sat_sub now (last_send_at s))%Z then
      r ← out (ws_send (Ping []));
      match r with
      | Ok _ =>
          say (WsSent (Ping []));;
          now ← out elapsed_ms;
          mret (set_last_send now s)
      | Err _ => mret (set_pending (Some PError) s)
      end
    else mret s.

(** (4) *)
Definition after_read (r : result ws_error ws_message) (s : worker) : worker :=
  match r with
  | Ok (Binary b) =>
      if bool_decide (WS_PROVISION_MAX < length b) then set_pending (Some PError) s
      else set_pending (Some (PBinary b)) s
  | Ok (Ping _) | Ok (Pong _) | Ok (Text _) | Ok Frame => s
  | Ok Close => set_pending (Some PClosed) s
  | Err e => if ws_is_timeout e then s else set_pending (Some PError) s
  end.
Definition read_step (s : worker) : M worker :=
  if flap_cancelled s || bool_decide (is_Some (pending s)) then mret s
  else
    r ← out ws_read;
    say (WsRead r);;
    mret (after_read r s).

(** (5) *)
Definition deliver_step (s : worker) : M worker :=
  match pending s, waiter s with
  | Some result, Some msg => fill_buf msg result;; mret (set_waiter None (set_pending None s))
  | _, _ => mret s
  end.

(** One turn of the loop. *)
Definition turn (s : worker) : M (worker + worker) :=
  x ← ipc_step s;
  if (x.2 : bool) then mret (inr x.1)
  else
    s ← deadline_step x.1;
    s ← keepalive_step s;
    s ← read_step s;
    s ← deliver_step s;
    mret (inl s).

(** After the loop: the socket is closed, the server destroyed, and the locals
    dropped. *)
Definition worker_exit (s : worker) : M () :=
  out (λ o, (tt, ws_close o));; say WsClosed;; say Destroyed;; drop_waiter s.

(** Before the loop: [None] when there is no tick timer, which ends the worker
    with the server alive.  The [u64] sum wraps (a debug build panics). *)
Definition worker_start (deadline_secs : Z) : M (option worker) :=
  out (ws_set_read_timeout (Some READ_TIMEOUT_MS));;
  ok ← out ticktimer_new;
  if (ok : bool) then
    now ← out elapsed_ms;
    last ← out elapsed_ms;
    mret (Some (MkWorker ((now + Z.min u64_max (deadline_secs * 1000)) mod (u64_max + 1))
                  last None None false))
  else mret None.

Definition worker_loop (fuel : nat) (deadline_secs : Z) (w : Srv O) :
    option (result abort () * Srv O) :=
  match worker_start deadline_secs w with
  | (Ok None, w) => Some (Ok tt, w)
  | (Ok (Some s), w) =>
      match iter fuel turn s w with
      | Some (Ok s, w) => Some (worker_exit s w)
      | Some (Err e, w) => Some (Err e, w)
      | None => None
      end
  | (Err e, w) => Some (Err e, w)
  end.

(** * The caller *)

(** [wait_and_take_binary] after the page came back, and the page it lends. *)
Definition take_result (page : result bytes Page) : WsResult :=
  match page with
  | Err e => RError (IoError Other ("ipc lend_mut: "%bs ++ e))
  | Ok page =>
      match to_original page with
      | Err e => RError (IoError Other ("ipc to_original: "%bs ++ e))
      | Ok r =>
          if (buf_status r =? STATUS_BINARY)%Z then
            let len := Z.to_nat (buf_len r) in
            if bool_decide (WS_PROVISION_MAX < len) then
              RError (IoError InvalidData "payload len exceeds WS_PROVISION_MAX"%bs)
            else RBinary (take len (buf_bytes r))
          else if (buf_status r =? STATUS_CLOSED)%Z then RClosed
          else if (buf_status r =? STATUS_TIMED_OUT)%Z then RTimedOut
          else if (buf_status r =? STATUS_CANCELLED)%Z then RCancelled
          else if (buf_status r =? STATUS_ERROR)%Z then
            RError (IoError Other "worker error"%bs)
          else RError (IoError Other ("unknown WsResultBuf.status "%bs ++ show_u (buf_status r)))
      end
  end.
End worker.
Arguments MkSrv {_ O}.
Arguments sv_out {_ O}.
Arguments sv_log {_ O}.
