(* ===== verification/WsServerSpec.v ===== *)
(** What the provisioning worker guarantees.

    [wstep] is the worker as a transition system: one constructor per thing the
    loop body can do, labelled with the events it logs.  A turn of the loop is a
    sequence of such steps ([turn_refines]), so a property of the transition
    system proved by induction on [wsteps] holds of the loop for any messages,
    clock and socket. *)

From S2P Require Import Prelude Hoare RustStd Base64 Pddb Signal Stores World WsServer.

Section spec.
Context `{IpcBufferLaws}.
Implicit Types (s : worker) (m : Envelope) (l : list ws_event).

(** * Filling a page *)

(** The events of [drop_envelope] and [fill_buf]; [None] is the panic. *)
Definition dropped (o : option Envelope) : list ws_event :=
  match o with
  | Some m => match memory m with Some page => [Returned (sender m) page] | None => [] end
  | None => []
  end.
Definition filled m (r : PendingResult) : option (list ws_event) :=
  match memory m with
  | None => Some []
  | Some page =>
      match to_original page with
      | Err _ => Some (dropped (Some m))
      | Ok payload =>
          payload ← fill_payload r payload;
          match replace payload page with
          | Ok page' => Some [Returned (sender m) page']
          | Err _ => Some (dropped (Some m))
          end
      end
  end.

(** A result small enough for its page. *)
Definition fits (r : PendingResult) : Prop :=
  match r with PBinary b => length b ≤ WS_PROVISION_MAX | _ => True end.
Definition ok_state s : Prop := ∀ r, pending s = Some r → fits r.

Lemma filled_fits m r : fits r → is_Some (filled m r).
Proof.
  intros Hf. unfold filled. destruct (memory m) as [page|]; [|eauto].
  destruct (to_original page) as [payload|]; [|eauto].
  assert (is_Some (fill_payload r payload)) as [p ->].
  { destruct r; simpl in *; eauto. rewrite bool_decide_true by done. eauto. }
  simpl. destruct (replace p page); eauto.
Qed.

(** * The transition system *)

Definition op_of m : option WsServerOp := WsServerOp_from (msg_id m).
Definition flapped s : worker :=
  set_flap (if pending s is None then set_pending (Some PCancelled) s else s).

Inductive wstep : worker → list ws_event → worker → Prop :=
  | st_take s m r evs :
      op_of m = Some WaitAndTakeBinary → pending s = Some r → filled m r = Some evs →
      wstep s (Received m :: evs) (set_pending None s)
  | st_park s m :
      op_of m = Some WaitAndTakeBinary → pending s = None →
      wstep s (Received m :: dropped (waiter s)) (set_waiter (Some m) s)
  | st_flap s m :
      op_of m = Some FlapCancel → wstep s (Received m :: dropped (Some m)) (flapped s)
  | st_unknown s m :
      op_of m = None → wstep s (Received m :: dropped (Some m)) s
  | st_timeout s :
      pending s = None → wstep s [] (set_pending (Some PTimedOut) s)
  | st_ping s t :
      flap_cancelled s = false → pending s = None →
      wstep s [WsSent (Ping [])] (set_last_send t s)
  | st_ping_failed s :
      flap_cancelled s = false → pending s = None → wstep s [] (set_pending (Some PError) s)
  | st_read s r :
      flap_cancelled s = false → pending s = None → wstep s [WsRead r] (after_read r s)
  | st_deliver s m r evs :
      pending s = Some r → waiter s = Some m → filled m r = Some evs →
      wstep s evs (set_waiter None (set_pending None s)).

Inductive wsteps : worker → list ws_event → worker → Prop :=
  | ws_refl s : wsteps s [] s
  | ws_cons s1 l1 s2 l2 s3 : wstep s1 l1 s2 → wsteps s2 l2 s3 → wsteps s1 (l1 ++ l2) s3.

(** Leaving the loop: the handshake, or an error of the message queue. *)
Inductive wexit : worker → list ws_event → worker → Prop :=
  | ex_cancel s m evs :
      op_of m = Some Cancel →
      match waiter s with Some w => filled w PCancelled | None => Some [] end = Some evs →
      wexit s (Received m :: evs ++ Replied (sender m) :: dropped (Some m)) (set_waiter None s)
  | ex_error s : wexit s [] s.

Create HintDb worker discriminated.
#[local] Hint Constructors wstep wsteps wexit : worker.

Lemma wsteps_one s l s' : wstep s l s' → wsteps s l s'.
Proof. intros. rewrite <- (app_nil_r l). eauto with worker. Qed.
Lemma wsteps_trans s1 l1 s2 l2 s3 :
  wsteps s1 l1 s2 → wsteps s2 l2 s3 → wsteps s1 (l1 ++ l2) s3.
Proof.
  induction 1 as [|s1 l1 s2 l1' s2' Hs _ IH]; [done|]. intros Hs3. rewrite <- app_assoc.
  eapply ws_cons; [exact Hs|]. by apply IH.
Qed.

Lemma after_read_ok r s : ok_state s → ok_state (after_read r s).
Proof.
  intros Hs. destruct r as [[]|e]; simpl; try done.
  - case_bool_decide; intros r [= <-]; simpl; [done|lia].
  - by intros r [= <-].
  - destruct (ws_is_timeout e); [done|]. by intros r [= <-].
Qed.
Lemma wstep_ok s l s' : ok_state s → wstep s l s' → ok_state s'.
Proof.
  intros Hs Hst. destruct Hst as [s m r evs|s m|s m|s m|s|s t|s|s r|s m r evs];
    try exact Hs; try (by apply after_read_ok); try (by intros r0 [= <-]).
  unfold flapped. destruct (pending s) eqn:Hp; [exact Hs|by intros r [= <-]].
Qed.
Lemma wsteps_ok s l s' : ok_state s → wsteps s l s' → ok_state s'.
Proof. intros Hs. induction 1; eauto using wstep_ok. Qed.

(** * The loop refines it *)
Section refinement.
Context {O : Type} `{!WsHost O} `{!XousServer O}.
Implicit Types w : Srv O.

Definition logs w l w' : Prop := sv_log w' = sv_log w ++ l.
Lemma logs_same w w' : sv_log w' = sv_log w → logs w [] w'.
Proof. intros Hl. unfold logs. by rewrite Hl, app_nil_r. Qed.

Lemma wp_out {A} (f : O → A * O) (Q : A → Srv O → Prop) R w :
  Q (f (sv_out w)).1 (MkSrv (f (sv_out w)).2 (sv_log w)) → wp (out f) Q R w.
Proof. unfold wp, out. by destruct (f (sv_out w)). Qed.
Lemma wp_say e (Q : () → Srv O → Prop) R w :
  Q tt (MkSrv (sv_out w) (sv_log w ++ [e])) → wp (say e) Q R w.
Proof. done. Qed.
Lemma wp_drop m (Q : () → Srv O → Prop) R w :
  Q tt (MkSrv (sv_out w) (sv_log w ++ dropped (Some m))) → wp (drop_envelope m) Q R w.
Proof.
  unfold drop_envelope, dropped. destruct (memory m); [done|].
  rewrite app_nil_r. by destruct w.
Qed.
Lemma wp_drop_waiter s (Q : () → Srv O → Prop) R w :
  Q tt (MkSrv (sv_out w) (sv_log w ++ dropped (waiter s))) → wp (drop_waiter s) Q R w.
Proof.
  unfold drop_waiter. destruct (waiter s); [apply wp_drop|]. simpl. rewrite app_nil_r. by destruct w.
Qed.
Lemma wp_fill m r evs (Q : () → Srv O → Prop) R w :
  filled m r = Some evs → Q tt (MkSrv (sv_out w) (sv_log w ++ evs)) → wp (fill_buf m r) Q R w.
Proof.
  unfold filled, fill_buf. destruct (memory m) as [page|] eqn:Hm.
  2: { intros [= <-]. rewrite app_nil_r. by destruct w. }
  destruct (to_original page) as [payload|]; [|intros [= <-]; apply wp_drop].
  destruct (fill_payload r payload) as [p|]; simpl; [|done].
  destruct (replace p page) as [page'|]; intros [= <-]; [done|apply wp_drop].
Qed.

(** Every step of the turn is a sequence of transitions from what came before. *)
Definition stepped s0 w0 s w : Prop := ∃ l, logs w0 l w ∧ wsteps s0 l s.
Lemma stepped_refl s w : stepped s w s w.
Proof. exists []. split; [by apply logs_same|constructor]. Qed.
Lemma stepped_step s0 w0 s w l s' w' :
  stepped s0 w0 s w → wstep s l s' → logs w l w' → stepped s0 w0 s' w'.
Proof.
  intros (l0 & Hl0 & Hs0) Hs Hl. exists (l0 ++ l). split.
  - unfold logs in *. by rewrite Hl, Hl0, app_assoc.
  - eapply wsteps_trans; [exact Hs0|]. by apply wsteps_one.
Qed.
Lemma stepped_out s0 w0 s w o : stepped s0 w0 s w → stepped s0 w0 s (MkSrv o (sv_log w)).
Proof. done. Qed.

Lemma ipc_stepped s w R :
  ok_state s →
  wp (ipc_step s) (λ x w', sv_out w' = (try_receive_message (sv_out w)).2 ∧
    match x with
    | (s', false) => stepped s w s' w'
    | (s', true) => ∃ l, logs w l w' ∧ wexit s l s'
    end) R w.
Proof.
  intros Hok. unfold ipc_step. apply wp_bind, wp_out.
  destruct (try_receive_message (sv_out w)) as [[[m|]|e] o]; cbn [fst snd].
  2: { apply wp_ret. split; [done|]. apply stepped_out, stepped_refl. }
  2: { apply wp_ret. split; [done|]. exists []. split; [by apply logs_same|constructor]. }
  apply wp_bind, wp_say. cbn [sv_out sv_log]. unfold ipc_message.
  assert (∀ l s', wstep s (Received m :: l) s' →
    sv_out (MkSrv o ((sv_log w ++ [Received m]) ++ l)) = o ∧
    stepped s w s' (MkSrv o ((sv_log w ++ [Received m]) ++ l))) as Hone.
  { intros l s' Hs. split; [done|]. eapply stepped_step; [apply stepped_refl|exact Hs|].
    unfold logs. simpl. by rewrite <- app_assoc. }
  destruct (WsServerOp_from (msg_id m)) as [[]|] eqn:Hop.
  - destruct (pending s) as [r|] eqn:Hp; apply wp_bind.
    + destruct (filled_fits m r (Hok r Hp)) as [evs Hf]. eapply wp_fill; [exact Hf|].
      apply wp_ret, Hone. eauto with worker.
    + apply wp_drop_waiter, wp_ret, Hone. eauto with worker.
  - assert (∃ evs, match waiter s with Some w => filled w PCancelled | None => Some [] end
      = Some evs) as [evs Hf].
    { destruct (waiter s); [by apply filled_fits|eauto]. }
    apply wp_bind. eapply (wp_mono _ (λ _ w', w' =
      MkSrv o ((sv_log w ++ [Received m]) ++ evs)) _ R); [| |done].
    { destruct (waiter s) as [wt|]; [by eapply wp_fill|]. injection Hf as <-.
      apply wp_ret. by rewrite app_nil_r. }
    intros _ w' ->. apply wp_bind, wp_say, wp_bind, wp_drop, wp_ret.
    split; [done|]. eexists. split; [|by eapply ex_cancel]. unfold logs. simpl. by rewrite <- !app_assoc.
  - apply wp_bind, wp_drop, wp_ret, Hone. by constructor.
  - apply wp_bind, wp_drop, wp_ret, Hone. by constructor.
Qed.

Lemma deadline_stepped s0 w0 s w R :
  stepped s0 w0 s w → wp (deadline_step s) (stepped s0 w0) R w.
Proof.
  intros Hs. unfold deadline_step. destruct (pending s) eqn:Hp; [by apply wp_ret|].
  apply wp_bind, wp_out, wp_ret. destruct (_ <=? _)%Z; [|done].
  eapply stepped_step; [exact Hs|by constructor|by apply logs_same].
Qed.
Lemma busy_false s :
  flap_cancelled s || bool_decide (is_Some (pending s)) = false →
  flap_cancelled s = false ∧ pending s = None.
Proof.
  intros [Hf Hp]%orb_false_iff. split; [done|]. apply bool_decide_eq_false_1 in Hp.
  by apply eq_None_not_Some.
Qed.
Lemma keepalive_stepped s0 w0 s w R :
  stepped s0 w0 s w → wp (keepalive_step s) (stepped s0 w0) R w.
Proof.
  intros Hs. unfold keepalive_step.
  destruct (flap_cancelled s || _) eqn:Hb; [by apply wp_ret|]. apply busy_false in Hb as [Hf Hp].
  apply wp_bind, wp_out. destruct (_ <=? _)%Z; [|by apply wp_ret].
  apply wp_bind, wp_out. destruct (ws_send _ _) as [[[]|e] o]; cbn [fst snd sv_out sv_log].
  - apply wp_bind, wp_say, wp_bind, wp_out, wp_ret.
    eapply stepped_step; [exact Hs|by apply st_ping|done].
  - apply wp_ret. eapply stepped_step; [exact Hs|by apply st_ping_failed|by apply logs_same].
Qed.
Lemma read_stepped s0 w0 s w R :
  stepped s0 w0 s w → wp (read_step s) (stepped s0 w0) R w.
Proof.
  intros Hs. unfold read_step.
  destruct (flap_cancelled s || _) eqn:Hb; [by apply wp_ret|]. apply busy_false in Hb as [Hf Hp].
  apply wp_bind, wp_out, wp_bind, wp_say, wp_ret.
  eapply stepped_step; [exact Hs|by apply st_read|done].
Qed.
Lemma deliver_stepped s0 w0 s w R :
  ok_state s0 → stepped s0 w0 s w → wp (deliver_step s) (stepped s0 w0) R w.
Proof.
  intros Hok Hs. unfold deliver_step.
  destruct (pending s) as [r|] eqn:Hp; [|by apply wp_ret].
  destruct (waiter s) as [m|] eqn:Hw; [|by apply wp_ret].
  assert (ok_state s) as Hs'. { destruct Hs as (l & _ & Hs). by eapply wsteps_ok. }
  destruct (filled_fits m r (Hs' r Hp)) as [evs Hf]. apply wp_bind. eapply wp_fill; [exact Hf|].
  apply wp_ret. eapply stepped_step; [exact Hs|by eapply st_deliver|done].
Qed.

(** A turn is a sequence of transitions, possibly followed by the exit; it never
    panics. *)
Lemma turn_refines s w R :
  ok_state s →
  wp (turn s) (λ x w', match x with
    | inl s' => stepped s w s' w'
    | inr s' => ∃ l, logs w l w' ∧ wexit s l s'
    end) R w.
Proof.
  intros Hok. unfold turn. apply wp_bind.
  eapply wp_mono; [by apply ipc_stepped| |done].
  intros [s1 []] w1 [_ H1']; [by apply wp_ret|]. cbn [fst snd].
  apply wp_bind. eapply wp_mono; [by apply deadline_stepped| |done]. intros s2 w2 H2'.
  apply wp_bind. eapply wp_mono; [by apply keepalive_stepped| |done]. intros s3 w3 H3'.
  apply wp_bind. eapply wp_mono; [by apply read_stepped| |done]. intros s4 w4 H4'.
  apply wp_bind. eapply wp_mono; [by apply deliver_stepped| |done]. intros s5 w5 H5'.
  by apply wp_ret.
Qed.

(** The locals the loop starts with. *)
Definition fresh_worker s : Prop := pending s = None ∧ waiter s = None ∧ flap_cancelled s = false.
Lemma start_fresh deadline_secs w R :
  wp (worker_start deadline_secs)
    (λ o w', logs w [] w' ∧ from_option fresh_worker True o) R w.
Proof.
  unfold worker_start. apply wp_bind, wp_out, wp_bind, wp_out. destruct (ticktimer_new _) as [[] o].
  - apply wp_bind, wp_out, wp_bind, wp_out, wp_ret. split; [by apply logs_same|done].
  - apply wp_ret. split; [by apply logs_same|done].
Qed.

(** The whole run: from fresh locals, any number of turns, the exit and the
    events of [worker_exit]. *)
Inductive worker_run : list ws_event → Prop :=
  | run_no_timer : worker_run []
  | run_exit s l s1 l1 s2 :
      fresh_worker s → wsteps s l s1 → wexit s1 l1 s2 →
      worker_run (l ++ l1 ++ WsClosed :: Destroyed :: dropped (waiter s2)).

(** The loop invariant: so many transitions from the start. *)
Lemma turn_extends s0 w0 s w R :
  ok_state s0 → stepped s0 w0 s w →
  wp (turn s) (λ x w', match x with
    | inl s' => stepped s0 w0 s' w'
    | inr s2 => ∃ s1 l l1, logs w0 (l ++ l1) w' ∧ wsteps s0 l s1 ∧ wexit s1 l1 s2
    end) R w.
Proof.
  intros Hok (l & Hlog & Hs). unfold logs in *.
  eapply wp_mono; [apply turn_refines; by eapply wsteps_ok| |done].
  intros [s'|s'] w' (l' & Hlog' & Hs'); unfold logs in *.
  - exists (l ++ l'). split; [|by eapply wsteps_trans]. unfold logs. by rewrite Hlog', Hlog, app_assoc.
  - exists s, l, l'. by rewrite Hlog', Hlog, app_assoc.
Qed.
Lemma fresh_ok s : fresh_worker s → ok_state s.
Proof. intros [Hp _] r Hr. by rewrite Hp in Hr. Qed.
Lemma exit_logs s w R :
  wp (worker_exit s) (λ _, logs w (WsClosed :: Destroyed :: dropped (waiter s))) R w.
Proof.
  unfold worker_exit. apply wp_bind, wp_out, wp_bind, wp_say, wp_bind, wp_say, wp_drop_waiter.
  unfold logs. simpl. by rewrite <- !app_assoc.
Qed.

Lemma worker_loop_refines fuel deadline_secs w :
  match worker_loop fuel deadline_secs w with
  | Some (Ok _, w') => ∃ l, logs w l w' ∧ worker_run l
  | Some (Err _, _) => False
  | None => True
  end.
Proof.
  unfold worker_loop. pose proof (start_fresh deadline_secs w (λ _ _, False)) as Hstart.
  unfold wp in Hstart. destruct (worker_start deadline_secs w) as [[[s|]|e] w0]; [| |done].
  2: { destruct Hstart as [Hl _]. exists []. split; [done|constructor]. }
  destruct Hstart as [Hl Hf].
  pose proof (iter_inv turn (stepped s w0) _ (λ _ _, False) fuel s w0 (stepped_refl s w0)
    (λ s' w' Hs, turn_extends s w0 s' w' _ (fresh_ok s Hf) Hs)) as Hiter.
  destruct (iter fuel turn s w0) as [[[s2|e] w2]|]; [|done..].
  destruct Hiter as (s1 & l & l1 & Hlog & Hs & He).
  pose proof (exit_logs s2 w2 (λ _ _, False)) as Hexit. unfold wp in Hexit.
  destruct (worker_exit s2 w2) as [[[]|] w3]; [|done].
  eexists. split; [|by eapply run_exit]. unfold logs in *.
  rewrite Hexit, Hlog, Hl, app_nil_r. by rewrite <- !app_assoc.
Qed.
End refinement.

(** * Lent pages *)

(** How many pages [t] has lent, has got back, and has with the worker. *)
Definition holds (t : Z) m : nat :=
  if bool_decide (is_Some (memory m) ∧ sender m = t) then 1 else 0.
Definition lent (t : Z) l : nat :=
  sum_list_with (λ e, match e with Received m => holds t m | _ => 0 end) l.
Definition returned (t : Z) l : nat :=
  sum_list_with (λ e, match e with Returned u _ => if bool_decide (u = t) then 1 else 0
                      | _ => 0 end) l.
Definition held (t : Z) (o : option Envelope) : nat := from_option (holds t) 0 o.

Lemma lent_app t l l' : lent t (l ++ l') = lent t l + lent t l'.
Proof. apply sum_list_with_app. Qed.
Lemma returned_app t l l' : returned t (l ++ l') = returned t l + returned t l'.
Proof. apply sum_list_with_app. Qed.

Lemma returned_to t u page : returned t [Returned u page] = if bool_decide (u = t) then 1 else 0.
Proof. unfold returned. simpl. lia. Qed.
Lemma dropped_pages t o : returned t (dropped o) = held t o ∧ lent t (dropped o) = 0.
Proof.
  destruct o as [m|]; [|done]. unfold dropped, held, holds. cbn [from_option].
  destruct (memory m) as [page|] eqn:Hm.
  - rewrite returned_to. split; [|done]. repeat case_bool_decide; naive_solver.
  - rewrite bool_decide_false; [done|]. by intros [[] _].
Qed.
Lemma filled_pages t m r evs :
  filled m r = Some evs → returned t evs = holds t m ∧ lent t evs = 0.
Proof.
  pose proof (dropped_pages t (Some m)) as Hd. cbn [held from_option] in Hd. unfold filled.
  destruct (memory m) as [page|] eqn:Hm.
  2: { intros [= <-]. unfold holds. rewrite bool_decide_false; [done|]. rewrite Hm. by intros [[] _]. }
  destruct (to_original page) as [payload|]; [|by intros [= <-]].
  destruct (fill_payload r payload) as [p|]; [|done]. cbn [mbind option_bind].
  destruct (replace p page) as [page'|]; intros [= <-]; [|done].
  rewrite returned_to. split; [|done]. unfold holds. rewrite Hm.
  repeat case_bool_decide; naive_solver.
Qed.

Lemma lent_received t m l : lent t (Received m :: l) = holds t m + lent t l.
Proof. done. Qed.
Lemma returned_received t m l : returned t (Received m :: l) = returned t l.
Proof. done. Qed.

(** What is lent is with the worker or has gone back. *)
Lemma wstep_pages t s l s' :
  wstep s l s' → held t (waiter s) + lent t l = returned t l + held t (waiter s').
Proof.
  intros Hst. destruct Hst as [s m r evs Hop Hp Hf|s m Hop Hp|s m Hop|s m Hop|s|s u|s|s r|s m r evs Hp Hw Hf];
    rewrite ?lent_received, ?returned_received; cbn [waiter set_waiter set_pending set_last_send].
  - destruct (filled_pages t m r evs Hf) as [-> ->]. lia.
  - destruct (dropped_pages t (waiter s)) as [-> ->]. cbn [held from_option]. lia.
  - destruct (dropped_pages t (Some m)) as [-> ->].
    assert (waiter (flapped s) = waiter s) as -> by (unfold flapped; by destruct (pending s)).
    cbn [held from_option]. lia.
  - destruct (dropped_pages t (Some m)) as [-> ->]. cbn [held from_option]. lia.
  - unfold lent, returned. simpl. lia.
  - unfold lent, returned. simpl. lia.
  - unfold lent, returned. simpl. lia.
  - unfold lent, returned. simpl. destruct r as [[]|e]; simpl; try lia.
    + case_bool_decide; simpl; lia.
    + destruct (ws_is_timeout e); simpl; lia.
  - rewrite Hw. destruct (filled_pages t m r evs Hf) as [-> ->]. cbn [held from_option]. lia.
Qed.
Lemma wsteps_pages t s l s' :
  wsteps s l s' → held t (waiter s) + lent t l = returned t l + held t (waiter s').
Proof.
  induction 1 as [|s1 l1 s2 l2 s3 Hst _ IH]; [simpl; unfold lent, returned; simpl; lia|].
  apply (wstep_pages t) in Hst. rewrite lent_app, returned_app. lia.
Qed.
Lemma wexit_pages t s l s' :
  wexit s l s' → held t (waiter s) + lent t l = returned t l + held t (waiter s').
Proof.
  intros He. destruct He as [s m evs Hop Hf|s]; [|unfold lent, returned; simpl; lia].
  rewrite lent_received, returned_received, lent_app, returned_app.
  change (Replied (sender m) :: dropped (Some m)) with ([Replied (sender m)] ++ dropped (Some m)).
  rewrite lent_app, returned_app. destruct (dropped_pages t (Some m)) as [-> ->].
  destruct (waiter s) as [wt|] eqn:Hw; simpl.
  - destruct (filled_pages t wt PCancelled evs Hf) as [-> ->]. unfold lent, returned. simpl. lia.
  - injection Hf as <-. unfold lent, returned. simpl. lia.
Qed.

Lemma worker_run_pages t l : worker_run l → lent t l = returned t l.
Proof.
  intros [|s l0 s1 l1 s2 Hf Hs He]; [done|].
  change (WsClosed :: Destroyed :: dropped (waiter s2)) with
    ([WsClosed; Destroyed] ++ dropped (waiter s2)).
  rewrite !lent_app, !returned_app. destruct (dropped_pages t (waiter s2)) as [-> ->].
  apply (wsteps_pages t) in Hs. apply (wexit_pages t) in He.
  destruct Hf as (_ & Hw & _). rewrite Hw in Hs. unfold lent, returned in *. simpl in *. lia.
Qed.

(** * After a flap *)

Definition is_flap (e : ws_event) : Prop :=
  match e with Received m => op_of m = Some FlapCancel | _ => False end.
Definition is_socket (e : ws_event) : Prop :=
  match e with WsRead _ | WsSent _ => True | _ => False end.
(** No socket traffic, and none once a flap has been received. *)
Definition quiet l : Prop := Forall (λ e, ¬ is_socket e) l.
Fixpoint silenced l : Prop :=
  match l with
  | [] => True
  | e :: l => (is_flap e → quiet l) ∧ silenced l
  end.

Lemma silenced_app l l' :
  silenced l → silenced l' → (Exists is_flap l → quiet l') → silenced (l ++ l').
Proof.
  induction l as [|e l IH]; [done|]. simpl. intros [He Hl] Hl' Hx. split.
  - intros Hf. apply Forall_app. split; [by apply He|]. apply Hx. by left.
  - apply IH; [done|done|]. intros Hf. apply Hx. by right.
Qed.
Lemma quiet_silenced l : quiet l → silenced l.
Proof. induction 1 as [|e l He Hl IH]; simpl; auto. Qed.

(** All that dropping or filling an envelope does is to return its page. *)
Definition is_return (e : ws_event) : Prop := ∃ t p, e = Returned t p.
Lemma dropped_returns o : Forall is_return (dropped o).
Proof.
  destruct o as [m|]; [|constructor]. unfold dropped.
  destruct (memory m); repeat constructor. by eexists _, _.
Qed.
Lemma filled_returns m r evs : filled m r = Some evs → Forall is_return evs.
Proof.
  unfold filled. destruct (memory m) as [page|]; [|by intros [= <-]].
  destruct (to_original page) as [payload|]; [|intros [= <-]; apply (dropped_returns (Some m))].
  destruct (fill_payload r payload) as [p|]; [|done]. cbn [mbind option_bind].
  destruct (replace p page); intros [= <-]; [|apply (dropped_returns (Some m))].
  repeat constructor. by eexists _, _.
Qed.
Lemma returns_quiet l : Forall is_return l → quiet l.
Proof. intros Hl. eapply Forall_impl; [exact Hl|]. intros e (t & p & ->) []. Qed.
Lemma returns_no_flap l : Forall is_return l → ¬ Exists is_flap l.
Proof. induction 1 as [|e l (t & p & ->) Hl IH]; inversion 1; auto. Qed.

(** One step, the sequence of steps, and the exit. *)
Definition silences s l s' : Prop :=
  silenced l ∧ (flap_cancelled s = true → quiet l) ∧
  (flap_cancelled s = true ∨ Exists is_flap l → flap_cancelled s' = true).

Lemma silences_returns s m l s' :
  Forall is_return l → flap_cancelled s' = (flap_cancelled s || bool_decide (op_of m = Some FlapCancel)) →
  silences s (Received m :: l) s'.
Proof.
  intros Hl Hf. assert (quiet (Received m :: l)) as Hq.
  { constructor; [by intros []|by apply returns_quiet]. }
  split; [by apply quiet_silenced|]. split; [done|]. rewrite Hf. intros [->|Hx]; [done|].
  inversion Hx as [? ? Hm|? ? Hm]; subst; simpl in *.
  - rewrite bool_decide_true by done. apply orb_true_r.
  - by apply returns_no_flap in Hm.
Qed.
Lemma silences_socket s e s' :
  ¬ is_flap e → flap_cancelled s = false → flap_cancelled s' = false → silences s [e] s'.
Proof.
  intros He Hs Hs'. split; [simpl; tauto|]. split; [congruence|]. intros [?|Hx]; [congruence|].
  inversion Hx; subst; [done|]. by inversion H2.
Qed.
Lemma silences_nothing s s' :
  flap_cancelled s' = flap_cancelled s → silences s [] s'.
Proof.
  intros Hs. split; [done|]. split; [by constructor|]. intros [?|Hx]; [congruence|inversion Hx].
Qed.
Lemma silences_trans s1 l1 s2 l2 s3 :
  silences s1 l1 s2 → silences s2 l2 s3 → silences s1 (l1 ++ l2) s3.
Proof.
  intros (A1 & B1 & C1) (A2 & B2 & C2). split_and!.
  - apply silenced_app; auto.
  - intros Hf. apply Forall_app. split; [by apply B1|apply B2, C1; by left].
  - rewrite Exists_app. tauto.
Qed.

Lemma after_read_flap r s : flap_cancelled (after_read r s) = flap_cancelled s.
Proof.
  destruct r as [[]|e]; simpl; try done; [by case_bool_decide|by destruct (ws_is_timeout e)].
Qed.
Lemma wstep_silences s l s' : wstep s l s' → silences s l s'.
Proof.
  intros Hst. destruct Hst as [s m r evs Hop Hp Hf|s m Hop Hp|s m Hop|s m Hop|s|s u|s|s r|s m r evs Hp Hw Hf].
  - apply silences_returns; [by eapply filled_returns|]. rewrite Hop. by rewrite orb_false_r.
  - apply silences_returns; [apply dropped_returns|]. rewrite Hop. by rewrite orb_false_r.
  - apply silences_returns; [apply dropped_returns|]. by rewrite Hop, orb_true_r.
  - apply silences_returns; [apply dropped_returns|]. rewrite Hop. by rewrite orb_false_r.
  - by apply silences_nothing.
  - apply silences_socket; [by intros []|done|done].
  - by apply silences_nothing.
  - apply silences_socket; [by intros []|done|]. by rewrite after_read_flap.
  - pose proof (filled_returns _ _ _ Hf) as Hr. split_and!.
    + by apply quiet_silenced, returns_quiet.
    + intros _. by apply returns_quiet.
    + intros [?|Hx]; [done|]. by apply returns_no_flap in Hx.
Qed.
Lemma wsteps_silences s l s' : wsteps s l s' → silences s l s'.
Proof.
  induction 1; [by apply silences_nothing|]. eapply silences_trans; [by apply wstep_silences|done].
Qed.
Lemma wexit_quiet s l s' : wexit s l s' → quiet l.
Proof.
  intros [s0 m evs Hop Hf|]; [|constructor]. constructor; [by intros []|].
  apply Forall_app. split.
  - destruct (waiter s0); [by apply returns_quiet; eapply filled_returns|]. by injection Hf as <-.
  - constructor; [by intros []|]. apply returns_quiet, dropped_returns.
Qed.
Lemma worker_run_silenced l : worker_run l → silenced l.
Proof.
  intros [|s l0 s1 l1 s2 Hf Hs He]; [done|].
  apply wsteps_silences in Hs as (Hs & _). apply wexit_quiet in He.
  assert (quiet (l1 ++ WsClosed :: Destroyed :: dropped (waiter s2))) as Hq.
  { apply Forall_app. split; [done|]. repeat (constructor; [by intros []|]).
    apply returns_quiet, dropped_returns. }
  apply silenced_app; [done|by apply quiet_silenced|done].
Qed.

(** * The result in the page *)

Definition result_of (r : PendingResult) : WsResult :=
  match r with
  | PBinary b => RBinary b
  | PClosed => RClosed
  | PTimedOut => RTimedOut
  | PCancelled => RCancelled
  | PError => RError (IoError Other "worker error"%bs)
  end.

Lemma take_fill_payload r page payload :
  fill_payload r WsResultBuf_empty = Some payload → to_original page = Ok payload →
  take_result (Ok page) = result_of r.
Proof.
  intros Hf Hp. unfold take_result. rewrite Hp. destruct r as [b| | | |]; simpl in Hf;
    try (injection Hf as <-; done).
  case_bool_decide as Hl; [|done]. injection Hf as <-. cbn [buf_status buf_len buf_bytes].
  assert (Z.to_nat (Z.of_nat (length b) mod (u32_max + 1)) = length b) as ->.
  { rewrite Z.mod_small; [lia|]. unfold u32_max, WS_PROVISION_MAX in *. lia. }
  rewrite Z.eqb_refl, bool_decide_false by lia. simpl. by rewrite take_app_length.
Qed.
Lemma take_empty page :
  to_original page = Ok WsResultBuf_empty → ∃ e, take_result (Ok page) = RError e.
Proof. intros Hp. unfold take_result. rewrite Hp. by eexists. Qed.

(** What a caller can read off a page that came back from a fill. *)
Lemma filled_result m r evs t page :
  (∀ p, memory m = Some p → to_original p = Ok WsResultBuf_empty) →
  filled m r = Some evs → Returned t page ∈ evs →
  take_result (Ok page) = result_of r ∨ ∃ e, take_result (Ok page) = RError e.
Proof.
  intros Hm. unfold filled. destruct (memory m) as [p|] eqn:Em.
  2: { intros [= <-] Hin. by apply not_elem_of_nil in Hin. }
  rewrite (Hm p eq_refl).
  destruct (fill_payload r WsResultBuf_empty) as [payload|] eqn:Hf; [|done].
  cbn [mbind option_bind].
  destruct (replace payload p) as [p'|] eqn:Hr; intros [= <-].
  - intros [= -> ->]%list_elem_of_singleton. left. eapply take_fill_payload; [exact Hf|].
    by eapply to_original_replace.
  - unfold dropped. rewrite Em. intros [= -> ->]%list_elem_of_singleton. right.
    apply take_empty. by apply Hm.
Qed.

(** [L] is what has been logged before. *)
Definition lends_empty (e : ws_event) : Prop :=
  match e with
  | Received m => ∀ p, memory m = Some p → to_original p = Ok WsResultBuf_empty
  | _ => True
  end.
Definition genuine (L : list ws_event) (e : ws_event) : Prop :=
  match e with
  | Returned _ p => ∀ b, take_result (Ok p) = RBinary b → WsRead (Ok (Binary b)) ∈ L
  | _ => True
  end.
Definition sourced (L : list ws_event) s : Prop :=
  (∀ b, pending s = Some (PBinary b) → WsRead (Ok (Binary b)) ∈ L) ∧
  (∀ m p, waiter s = Some m → memory m = Some p → to_original p = Ok WsResultBuf_empty).

Lemma genuine_mono L L' e : L ⊆ L' → genuine L e → genuine L' e.
Proof. destruct e; simpl; auto. Qed.
Lemma genuine_dropped L o :
  (∀ m p, o = Some m → memory m = Some p → to_original p = Ok WsResultBuf_empty) →
  Forall (genuine L) (dropped o).
Proof.
  intros Ho. destruct o as [m|]; [|constructor]. unfold dropped.
  destruct (memory m) as [p|] eqn:Em; repeat constructor.
  intros b Hb. destruct (take_empty p (Ho m p eq_refl Em)) as [e He]. congruence.
Qed.
Lemma genuine_filled L m r evs :
  (∀ b, r = PBinary b → WsRead (Ok (Binary b)) ∈ L) →
  (∀ p, memory m = Some p → to_original p = Ok WsResultBuf_empty) →
  filled m r = Some evs → Forall (genuine L) evs.
Proof.
  intros Hr Hm Hf. apply Forall_forall. intros e He.
  pose proof (filled_returns _ _ _ Hf) as Hret. rewrite Forall_forall in Hret.
  destruct (Hret e He) as (t & page & ->). intros b Hb.
  destruct (filled_result m r evs t page Hm Hf He) as [E|[e E]]; rewrite E in Hb; [|done].
  destruct r; simplify_eq/=. by apply Hr.
Qed.

Lemma after_read_pending r s b :
  pending s = None → pending (after_read r s) = Some (PBinary b) → r = Ok (Binary b).
Proof.
  intros Hp. destruct r as [[]|e]; simpl; try congruence.
  - case_bool_decide; simpl; congruence.
  - destruct (ws_is_timeout e); simpl; congruence.
Qed.
Lemma after_read_waiter r s : waiter (after_read r s) = waiter s.
Proof.
  destruct r as [[]|e]; simpl; try done; [by case_bool_decide|by destruct (ws_is_timeout e)].
Qed.

Lemma wstep_genuine L s l s' :
  wstep s l s' → Forall lends_empty l → sourced L s →
  sourced (L ++ l) s' ∧ Forall (genuine (L ++ l)) l.
Proof.
  intros Hst Hle [Hp Hw].
  assert (∀ b, pending s = Some (PBinary b) → WsRead (Ok (Binary b)) ∈ L ++ l) as Hp'.
  { intros b Hb. apply elem_of_app. left. by apply Hp. }
  destruct Hst as [s m r evs Hop Ep Hf|s m Hop Ep|s m Hop|s m Hop|s Ep|s u Hfl Ep|s Hfl Ep|s r Hfl Ep|s m r evs Ep Ew Hf].
  - apply Forall_cons in Hle as [Hm _]. split; [by split|]. constructor; [done|].
    eapply genuine_filled; [|exact Hm|exact Hf]. intros b ->. by apply Hp'.
  - apply Forall_cons in Hle as [Hm _]. split; [|constructor; [done|by apply genuine_dropped]].
    split; [done|]. intros m' p [= <-]. apply Hm.
  - apply Forall_cons in Hle as [Hm _]. split.
    + unfold flapped. split; destruct (pending s) eqn:E; simpl; [by rewrite E|done|done..].
    + constructor; [done|]. apply genuine_dropped. intros m' p [= <-]. apply Hm.
  - apply Forall_cons in Hle as [Hm _]. split; [by split|].
    constructor; [done|]. apply genuine_dropped. intros m' p [= <-]. apply Hm.
  - split; [by split|constructor].
  - split; [by split|by repeat constructor].
  - split; [by split|constructor].
  - split; [|by repeat constructor]. split; [|by rewrite after_read_waiter].
    intros b Hb. apply after_read_pending in Hb as ->; [|done].
    apply elem_of_app. right. by left.
  - split; [by split|]. eapply genuine_filled; [|intros p; by apply Hw|exact Hf].
    intros b ->. by apply Hp'.
Qed.
Lemma wsteps_genuine L s l s' :
  wsteps s l s' → Forall lends_empty l → sourced L s →
  sourced (L ++ l) s' ∧ Forall (genuine (L ++ l)) l.
Proof.
  intros Hst. revert L. induction Hst as [s|s1 l1 s2 l2 s3 Hs _ IH]; intros L Hle Hsrc.
  { rewrite app_nil_r. by split. }
  apply Forall_app in Hle as [Hl1 Hl2].
  destruct (wstep_genuine L _ _ _ Hs Hl1 Hsrc) as [Hsrc1 Hg1].
  destruct (IH (L ++ l1) Hl2 Hsrc1) as [Hsrc2 Hg2]. rewrite <- app_assoc in *.
  split; [done|]. apply Forall_app. split; [|done].
  eapply Forall_impl; [exact Hg1|]. intros e. apply genuine_mono. set_solver.
Qed.
Lemma wexit_genuine L s l s' :
  wexit s l s' → Forall lends_empty l → sourced L s →
  Forall (genuine L) l ∧
  (∀ m p, waiter s' = Some m → memory m = Some p → to_original p = Ok WsResultBuf_empty).
Proof.
  intros Hex Hle [_ Hw]. destruct Hex as [s m evs Hop Hf|s]; [|by split].
  split; [|done]. apply Forall_cons in Hle as [Hm _]. constructor; [done|].
  apply Forall_app. split.
  - destruct (waiter s) as [wt|]; [|injection Hf as <-; constructor].
    eapply (genuine_filled _ wt PCancelled); [by intros b| |exact Hf]. intros p. by apply Hw.
  - constructor; [done|]. apply genuine_dropped. intros m' p [= <-]. apply Hm.
Qed.

Lemma worker_run_genuine l : worker_run l → Forall lends_empty l → Forall (genuine l) l.
Proof.
  intros [|s l0 s1 l1 s2 Hf Hs He] Hle; [constructor|].
  apply Forall_app in Hle as [Hl0 Hle]. apply Forall_app in Hle as [Hl1 _].
  destruct (wsteps_genuine [] _ _ _ Hs Hl0) as [Hsrc Hg0].
  { destruct Hf as (Hp & Hw & _). split; intros *; by rewrite ?Hp, ?Hw. }
  destruct (wexit_genuine _ _ _ _ He Hl1 Hsrc) as [Hg1 Hw2]. simpl in *.
  apply Forall_app. split; [|apply Forall_app; split].
  - eapply Forall_impl; [exact Hg0|]. intros e. apply genuine_mono. set_solver.
  - eapply Forall_impl; [exact Hg1|]. intros e. apply genuine_mono. set_solver.
  - do 2 (constructor; [done|]). by apply genuine_dropped.
Qed.

(** * The deadline *)

(** A waiting caller and a result never outlast a turn together, and past the
    deadline there is a result in every turn that does not already have one. *)
Lemma flapped_pending s : is_Some (pending (flapped s)).
Proof. unfold flapped. destruct (pending s) eqn:E; simpl; [rewrite E|]; eauto. Qed.

Lemma wstep_deadline s l s' : wstep s l s' → deadline_ms s' = deadline_ms s.
Proof.
  intros []; try done.
  - unfold flapped. by destruct (pending s0).
  - destruct r as [[]|e]; simpl; try done; [by case_bool_decide|by destruct (ws_is_timeout e)].
Qed.
Lemma wsteps_deadline s l s' : wsteps s l s' → deadline_ms s' = deadline_ms s.
Proof. induction 1 as [|???? ? Hs _ ->]; [done|by apply wstep_deadline in Hs]. Qed.

(** The tick timer: it does not run backwards over a receive. *)
Class TickLaws (O : Type) `{!WsHost O} `{!XousServer O} := {
  clock : O → Z;
  elapsed_clock o : (elapsed_ms o).1 = clock o;
  receive_clock o : (clock o ≤ clock (try_receive_message o).2)%Z;
}.

Section claims.
Context {O : Type} `{!WsHost O} `{!XousServer O}.

(** C19: the provisioning worker never panics and strands no caller.  Whatever
    messages, clock readings and socket results it meets, when it ends every page
    a sender lent it has gone back to that sender, exactly once. *)
Theorem worker_returns_every_page fuel deadline_secs (o : O) :
  match worker_loop fuel deadline_secs (MkSrv o []) with
  | Some (Ok _, w') => ∀ t, lent t (sv_log w') = returned t (sv_log w')
  | Some (Err _, _) => False
  | None => True
  end.
Proof.
  pose proof (worker_loop_refines fuel deadline_secs (MkSrv o [])) as Hr.
  destruct (worker_loop fuel deadline_secs _) as [[[[]|e] w']|]; [|done..].
  destruct Hr as (l & Hl & Hrun). intros t. rewrite Hl. by apply worker_run_pages.
Qed.

(** After a flap the socket is left alone.  In every run of the worker, no
    frame is read and no keepalive is sent after a flap report has been taken
    from the queue. *)
Theorem flap_silences_socket fuel deadline_secs (o : O) w' l1 m l2 :
  worker_loop fuel deadline_secs (MkSrv o []) = Some (Ok tt, w') →
  sv_log w' = l1 ++ Received m :: l2 → WsServerOp_from (msg_id m) = Some FlapCancel →
  Forall (λ e, match e with WsRead _ | WsSent _ => False | _ => True end) l2.
Proof.
  intros Hw Hl Hop. pose proof (worker_loop_refines fuel deadline_secs (MkSrv o [])) as Hr.
  rewrite Hw in Hr. destruct Hr as (l & Hlog & Hrun%worker_run_silenced).
  unfold logs in Hlog. simpl in Hlog. rewrite Hl in Hlog. subst l. clear Hl Hw.
  induction l1 as [|e l1 IH]; simpl in Hrun; [|apply IH, Hrun].
  destruct Hrun as [Hq _]. eapply Forall_impl; [exact (Hq Hop)|].
  intros e He. destruct e; try exact I; by apply He.
Qed.

(** A result is genuine.  If the callers lend empty pages, a page that comes
    back and decodes to a provisioning envelope holds exactly the bytes of a
    binary frame the worker has read from its socket. *)
Theorem result_is_received fuel deadline_secs (o : O) w' t page b :
  worker_loop fuel deadline_secs (MkSrv o []) = Some (Ok tt, w') →
  Forall lends_empty (sv_log w') → Returned t page ∈ sv_log w' →
  take_result (Ok page) = RBinary b → WsRead (Ok (Binary b)) ∈ sv_log w'.
Proof.
  intros Hw Hle Hin Hb. pose proof (worker_loop_refines fuel deadline_secs (MkSrv o [])) as Hr.
  rewrite Hw in Hr. destruct Hr as (l & Hlog & Hrun).
  unfold logs in Hlog. simpl in Hlog. rewrite Hlog in *.
  pose proof (worker_run_genuine l Hrun Hle) as Hg. rewrite Forall_forall in Hg.
  exact (Hg _ Hin b Hb).
Qed.

Lemma turn_past_deadline `{!TickLaws O} s w s' w' :
  ok_state s → (deadline_ms s ≤ clock (sv_out w))%Z → turn s w = (Ok (inl s'), w') →
  waiter s' = None.
Proof.
  intros Hok Hd Ht. cut (wp (turn s) (λ x _, match x with inl s' => waiter s' = None
    | inr _ => True end) (λ _ _, True) w); [by intros Hwp; apply (wp_eq _ _ _ _ _ _ Ht) in Hwp|].
  unfold turn. apply wp_bind. eapply wp_mono; [by apply (ipc_stepped s w (λ _ _, True))| |done].
  intros [s1 []] w1 [Hout H1']; [by apply wp_ret|]. cbn [fst snd].
  destruct H1' as (l & Hl & Hs). apply wsteps_deadline in Hs as Hd1.
  assert (ok_state s1) as Hok1 by (by eapply wsteps_ok).
  assert (deadline_ms s1 ≤ clock (sv_out w1))%Z as Hlate.
  { rewrite Hd1, Hout. pose proof (receive_clock (sv_out w)). lia. }
  apply wp_bind. apply (wp_mono _ (λ s2 _, is_Some (pending s2) ∧ ok_state s2) _ (λ _ _, True)); [| |done].
  { unfold deadline_step. destruct (pending s1) eqn:Hp; [apply wp_ret; by rewrite Hp|].
    apply wp_bind, wp_out. rewrite elapsed_clock. apply wp_ret.
    rewrite (proj2 (Z.leb_le _ _)) by done. split; [eauto|]. by intros r [= <-]. }
  intros s2 w2 [[r Hr] Hok2]. apply wp_bind. unfold keepalive_step. rewrite Hr.
  rewrite orb_true_r. apply wp_ret, wp_bind. unfold read_step. rewrite Hr, orb_true_r.
  apply wp_ret, wp_bind. unfold deliver_step. rewrite Hr.
  destruct (waiter s2) as [m|] eqn:Hw; [|by apply wp_ret, wp_ret].
  destruct (filled_fits m r (Hok2 r Hr)) as [evs Hf].
  apply wp_bind. eapply wp_fill; [exact Hf|]. by apply wp_ret, wp_ret.
Qed.

(** No caller waits beyond the deadline.  A turn that begins at or after the
    deadline and stays in the loop leaves no caller waiting, and the page of the
    one who was has been returned in it. *)
Theorem waiter_answered_by_deadline `{!TickLaws O} s w s' w' m page :
  ok_state s → (deadline_ms s ≤ clock (sv_out w))%Z →
  waiter s = Some m → memory m = Some page → turn s w = (Ok (inl s'), w') →
  waiter s' = None ∧ ∃ l, sv_log w' = sv_log w ++ l ∧ 0 < returned (sender m) l.
Proof.
  intros Hok Hd Hw Hm Ht. pose proof (turn_past_deadline s w s' w' Hok Hd Ht) as Hnone.
  split; [done|]. pose proof (turn_refines s w (λ _ _, True) Hok) as Hr.
  apply (wp_eq _ _ _ _ _ _ Ht) in Hr as (l & Hl & Hs). exists l. split; [done|].
  apply (wsteps_pages (sender m)) in Hs. rewrite Hw, Hnone in Hs. simpl in Hs.
  unfold holds in Hs. rewrite bool_decide_true in Hs by (rewrite Hm; eauto). lia.
Qed.

(** The result crosses the process boundary unchanged.  Filled into the page
    of [wait_and_take_binary], a result that fits is what the caller reads. *)
Theorem result_crosses_ipc m r page (w : Srv O) :
  into_buf WsResultBuf_empty = Ok page → memory m = Some page →
  (∀ b, is_ok (replace b page) = true) → fits r →
  ∃ page', fill_buf m r w = (Ok tt, MkSrv (sv_out w) (sv_log w ++ [Returned (sender m) page'])) ∧
    take_result (Ok page') = result_of r.
Proof.
  intros Hp Hm Hrep Hf. apply to_original_into_buf in Hp. destruct (filled_fits m r Hf) as [evs Hevs].
  assert (∃ page', evs = [Returned (sender m) page'] ∧ take_result (Ok page') = result_of r)
    as (page' & -> & Ht).
  { unfold filled in Hevs. rewrite Hm, Hp in Hevs.
    destruct (fill_payload r WsResultBuf_empty) as [payload|] eqn:Efp; [|done].
    cbn [mbind option_bind] in Hevs. specialize (Hrep payload).
    destruct (replace payload page) as [page'|] eqn:Er; [|done]. injection Hevs as <-.
    exists page'. split; [done|]. eapply take_fill_payload; [exact Efp|].
    by eapply to_original_replace. }
  exists page'. split; [|done]. pose proof (wp_fill m r _ (λ _ w', w' = MkSrv (sv_out w)
    (sv_log w ++ [Returned (sender m) page'])) (λ _ _, False) w Hevs eq_refl) as Hwp.
  unfold wp in Hwp. destruct (fill_buf m r w) as [[[]|] w2]; [by rewrite Hwp|done].
Qed.
End claims.
(** * What a turn takes from the queue, and how time passes *)

(** The messages received; the loop goes on only without a [Cancel] among them. *)
Definition received l : list Envelope :=
  omap (λ e, match e with Received m => Some m | _ => None end) l.
Lemma received_app l l' : received (l ++ l') = received l ++ received l'.
Proof. apply omap_app. Qed.
Lemma received_returns l : Forall is_return l → received l = [].
Proof. induction 1 as [|e l (t & p & ->) _ IH]; done. Qed.
Lemma received_exit o : received (WsClosed :: Destroyed :: dropped o) = [].
Proof. apply (received_returns (dropped o)), dropped_returns. Qed.
Lemma lent_received_sum t l : lent t l = sum_list_with (holds t) (received l).
Proof.
  induction l as [|e l IH]; [done|]. destruct e as [m| | | | | |]; try exact IH.
  rewrite lent_received, IH. done.
Qed.
Lemma lends_empty_received l :
  Forall lends_empty l ↔ Forall (λ m, lends_empty (Received m)) (received l).
Proof.
  induction l as [|e l IH]; [done|]. destruct e as [m| | | | | |]; rewrite ?Forall_cons, IH;
    simpl; try tauto. by rewrite Forall_cons.
Qed.
Lemma wsteps_no_cancel s l s' : wsteps s l s' → Forall (λ m, op_of m ≠ Some Cancel) (received l).
Proof.
  induction 1 as [|s1 l1 s2 l2 s3 Hs _ IH]; [constructor|]. rewrite received_app.
  apply Forall_app. split; [|done].
  assert (∀ m l, Forall is_return l → op_of m ≠ Some Cancel →
    Forall (λ m, op_of m ≠ Some Cancel) (received (Received m :: l))) as Hone.
  { intros m l Hl Hm. constructor; [done|]. fold (received l). by rewrite received_returns. }
  destruct Hs as [s m r evs Hop Hp Hf|s m Hop Hp|s m Hop|s m Hop|s|s u|s|s r|s m r evs Hp Hw Hf];
    try (apply Hone; [eauto using filled_returns, dropped_returns|congruence]); try by constructor.
  by rewrite (received_returns _ (filled_returns _ _ _ Hf)).
Qed.
Definition message_of (r : result bytes (option Envelope)) : list Envelope :=
  match r with Ok (Some m) => [m] | _ => [] end.

Section progress.
Context {O : Type} `{!WsHost O} `{!XousServer O}.

(** [J] holds across the calls a turn makes besides the receive. *)
Class Across (J : O → O → Prop) := {
  across_refl o : J o o;
  across_elapsed o o' : J o o' → J o (elapsed_ms o').2;
  across_send o o' : J o o' → J o (ws_send (Ping []) o').2;
  across_read o o' : J o o' → J o (ws_read o').2;
}.

(** Since [w], the worker has received [ms], and [J] holds from [o] on. *)
Definition effect (J : O → O → Prop) (w : Srv O) (o : O) (ms : list Envelope) (w' : Srv O) : Prop :=
  ∃ l, logs w l w' ∧ received l = ms ∧ J o (sv_out w').
Lemma effect_out J w o ms w' o' : effect J w o ms w' → J o o' → effect J w o ms (MkSrv o' (sv_log w')).
Proof. intros (l & Hl & Hr & _) HJ. by exists l. Qed.
Lemma effect_log J w o ms w' l :
  effect J w o ms w' → received l = [] → effect J w o ms (MkSrv (sv_out w') (sv_log w' ++ l)).
Proof.
  intros (l0 & Hl & Hr & HJ) Hn. exists (l0 ++ l). split_and!; [|by rewrite received_app, Hr, Hn, app_nil_r|done].
  unfold logs in *. simpl. by rewrite Hl, app_assoc.
Qed.
Lemma effect_drop J w o ms w' m :
  effect J w o ms w' → wp (drop_envelope m) (λ _, effect J w o ms) (λ _, effect J w o ms) w'.
Proof. intros He. apply wp_drop, effect_log; [done|]. apply received_returns, dropped_returns. Qed.
Lemma effect_drop_waiter J w o ms w' s :
  effect J w o ms w' → wp (drop_waiter s) (λ _, effect J w o ms) (λ _, effect J w o ms) w'.
Proof. intros He. apply wp_drop_waiter, effect_log; [done|]. apply received_returns, dropped_returns. Qed.
Lemma effect_fill J w o ms w' m r :
  effect J w o ms w' → wp (fill_buf m r) (λ _, effect J w o ms) (λ _, effect J w o ms) w'.
Proof.
  intros He. destruct (filled m r) as [evs|] eqn:Hf.
  - eapply wp_fill; [exact Hf|]. apply effect_log; [done|]. by eapply received_returns, filled_returns.
  - unfold filled in Hf. unfold fill_buf. destruct (memory m); [|done].
    destruct (to_original _); [|done]. destruct (fill_payload r _); [|done].
    simpl in Hf. by destruct (replace _ _).
Qed.
Lemma turn_effect J `{!Across J} s w :
  let r := try_receive_message (sv_out w) in
  wp (turn s) (λ _, effect J w r.2 (message_of r.1)) (λ _, effect J w r.2 (message_of r.1)) w.
Proof.
  cbv zeta. destruct (try_receive_message (sv_out w)) as [r o] eqn:Hrecv. cbn [fst snd].
  unfold turn. apply wp_bind. set (G := effect J w o (message_of r)).
  apply (wp_mono _ (λ _, G) _ (λ _, G)); [| |done].
  { unfold ipc_step. apply wp_bind, wp_out. rewrite Hrecv. cbn [fst snd].
    assert (∀ l, received l = message_of r → G (MkSrv o (sv_log w ++ l))) as Hg.
    { intros l Hl. exists l. split_and!; [done..|]. apply across_refl. }
    subst G. destruct r as [[m|]|e]; set (G := effect J w o _).
    2,3: apply wp_ret; rewrite <- (app_nil_r (sv_log w)); by apply Hg.
    apply wp_bind, wp_say. cbn [sv_out sv_log]. specialize (Hg [Received m] eq_refl).
    unfold ipc_message. destruct (WsServerOp_from _) as [[]|].
    - destruct (pending s); apply wp_bind; (apply (wp_mono _ (λ _, G) _ (λ _, G)); [| |done]);
        [by apply effect_fill| |by apply effect_drop_waiter| ]; intros ? w1 HG1; by apply wp_ret.
    - apply wp_bind. apply (wp_mono _ (λ _, G) _ (λ _, G)); [| |done].
      { destruct (waiter s); [by apply effect_fill|by apply wp_ret]. }
      intros ? w1 HG1. apply wp_bind, wp_say, wp_bind.
      apply (wp_mono _ (λ _, G) _ (λ _, G)); [by apply effect_drop, effect_log| |done].
      intros ? w2 HG2. by apply wp_ret.
    - apply wp_bind. eapply wp_mono; [by apply effect_drop| |done]. intros ? w1 HG1. by apply wp_ret.
    - apply wp_bind. eapply wp_mono; [by apply effect_drop| |done]. intros ? w1 HG1. by apply wp_ret. }
  intros [s1 b] w1 HG1. cbn [fst snd]. destruct b; [by apply wp_ret|]. apply wp_bind.
  apply (wp_mono _ (λ _, G) _ (λ _, G)); [| |done].
  { unfold deadline_step. destruct (pending s1); [by apply wp_ret|]. apply wp_bind, wp_out, wp_ret.
    apply effect_out; [done|]. destruct HG1 as (l & _ & _ & HJ). by apply across_elapsed. }
  intros s2 w2 HG2. apply wp_bind. apply (wp_mono _ (λ _, G) _ (λ _, G)); [| |done].
  { unfold keepalive_step. destruct (_ || _); [by apply wp_ret|]. apply wp_bind, wp_out.
    destruct HG2 as (l & Hl & Hr & HJ). apply (across_elapsed _ _) in HJ.
    destruct (_ <=? _)%Z; [|apply wp_ret; by exists l]. apply wp_bind, wp_out.
    cbn [sv_out sv_log]. apply (across_send _ _) in HJ.
    destruct (ws_send _ _) as [[[]|e] o2]; cbn [fst snd] in *; [|apply wp_ret; by exists l].
    apply wp_bind, wp_say, wp_bind, wp_out, wp_ret. cbn [sv_out sv_log].
    apply (across_elapsed _ _) in HJ. exists (l ++ [WsSent (Ping [])]). split_and!; [|by rewrite received_app, Hr, app_nil_r|done].
    unfold logs in *. simpl. by rewrite Hl, app_assoc. }
  intros s3 w3 HG3. apply wp_bind. apply (wp_mono _ (λ _, G) _ (λ _, G)); [| |done].
  { unfold read_step. destruct (_ || _); [by apply wp_ret|]. apply wp_bind, wp_out, wp_bind, wp_say, wp_ret.
    apply effect_log; [|done]. apply effect_out; [done|].
    destruct HG3 as (l & _ & _ & HJ). by apply across_read. }
  intros s4 w4 HG4. apply wp_bind. apply (wp_mono _ (λ _, G) _ (λ _, G)); [| |done].
  { unfold deliver_step. destruct (pending s4), (waiter s4); try by apply wp_ret.
    apply wp_bind. eapply wp_mono; [by apply effect_fill| |done]. intros ? w5 HG5. by apply wp_ret. }
  intros s5 w5 HG5. by apply wp_ret.
Qed.

(** A clock finer than the tick timer's: every reading of the timer takes time,
    and no other call turns it back. *)
Class ClockLaws := {
  tick : Z;
  tick_pos : (0 < tick)%Z;
  fine : O → Z;
  elapsed_fine o : (elapsed_ms o).1 = (fine o `div` tick)%Z;
  elapsed_later o : (fine o < fine (elapsed_ms o).2)%Z;
  send_later (f : ws_message) o : (fine o ≤ fine (ws_send f o).2)%Z;
  read_later o : (fine o ≤ fine (ws_read o).2)%Z;
  receive_later o : (fine o ≤ fine (try_receive_message o).2)%Z;
}.
#[global] Instance clock_ticks `{!ClockLaws} : TickLaws O.
Proof.
  refine {| clock o := (fine o `div` tick)%Z |}.
  - apply elapsed_fine.
  - intros o. apply Z.div_le_mono; [apply tick_pos|apply receive_later].
Defined.

(** There is a result, or the timer has been read since [w]. *)
Definition timed `{!ClockLaws} w s w' : Prop :=
  ok_state s ∧ (is_Some (pending s) ∨ (fine (sv_out w) < fine (sv_out w'))%Z).
Lemma timed_busy `{!ClockLaws} w s w' :
  timed w s w' → flap_cancelled s || bool_decide (is_Some (pending s)) = false →
  ok_state s ∧ (fine (sv_out w) < fine (sv_out w'))%Z.
Proof. intros [Hok [[r Hr]|Hlt]] [_ Hp]%busy_false; [congruence|done]. Qed.

Lemma deadline_timed `{!ClockLaws} w s w' R :
  ok_state s → (fine (sv_out w) ≤ fine (sv_out w'))%Z → wp (deadline_step s) (timed w) R w'.
Proof.
  intros Hok Hle. unfold deadline_step, timed.
  destruct (pending s) eqn:Hp; [apply wp_ret; rewrite Hp; eauto|].
  apply wp_bind, wp_out, wp_ret. cbn [sv_out]. pose proof (elapsed_later (sv_out w')).
  destruct (_ <=? _)%Z; [split; [by intros r [= <-]|left; eauto]|split; [done|right; lia]].
Qed.
Lemma keepalive_timed `{!ClockLaws} w s w' R : timed w s w' → wp (keepalive_step s) (timed w) R w'.
Proof.
  intros Ht. unfold keepalive_step. destruct (_ || _) eqn:Hb; [by apply wp_ret|].
  destruct (timed_busy _ _ _ Ht Hb) as [Hok Hlt]. apply wp_bind, wp_out.
  pose proof (elapsed_later (sv_out w')). destruct (elapsed_ms (sv_out w')) as [now o]. simpl in *.
  destruct (_ <=? _)%Z; [|apply wp_ret; split; [done|simpl; right; lia]].
  apply wp_bind, wp_out. cbn [sv_out sv_log]. pose proof (send_later (Ping []) o).
  destruct (ws_send _ _) as [[[]|e] o2]; cbn [fst snd] in *.
  - apply wp_bind, wp_say, wp_bind, wp_out, wp_ret. cbn [sv_out sv_log].
    pose proof (elapsed_later o2). split; [done|]. right. simpl. lia.
  - apply wp_ret. split; [by intros r [= <-]|left; eauto].
Qed.
Lemma read_timed `{!ClockLaws} w s w' R : timed w s w' → wp (read_step s) (timed w) R w'.
Proof.
  intros Ht. unfold read_step. destruct (_ || _) eqn:Hb; [by apply wp_ret|].
  destruct (timed_busy _ _ _ Ht Hb) as [Hok Hlt]. apply wp_bind, wp_out, wp_bind, wp_say, wp_ret.
  cbn [sv_out sv_log]. pose proof (read_later (sv_out w')). split; [by apply after_read_ok|].
  right. simpl. lia.
Qed.
Lemma deliver_timed `{!ClockLaws} w s w' R :
  timed w s w' →
  wp (deliver_step s) (λ s' w2, waiter s' = None ∨ (fine (sv_out w) < fine (sv_out w2))%Z) R w'.
Proof.
  intros [Hok Hp]. unfold deliver_step. destruct (pending s) as [r|] eqn:Hr.
  - destruct (waiter s) as [m|] eqn:Hw; [|apply wp_ret; rewrite ?Hw; auto].
    destruct (filled_fits m r (Hok r Hr)) as [evs Hf]. apply wp_bind.
    eapply wp_fill; [exact Hf|]. apply wp_ret. simpl. auto.
  - apply wp_ret. destruct Hp as [[? ?]|?]; [done|]. auto.
Qed.

(** A turn that leaves a caller waiting has read the timer. *)
Lemma turn_timed `{!ClockLaws} s w R :
  ok_state s →
  wp (turn s) (λ x w', match x with inl s' => waiter s' = None ∨
    (fine (sv_out w) < fine (sv_out w'))%Z | inr _ => True end) R w.
Proof.
  intros Hok. unfold turn. apply wp_bind. eapply wp_mono; [by apply (ipc_stepped s w)| |done].
  intros [s1 []] w1 [Hout Hs1]; [by apply wp_ret|]. cbn [fst snd].
  apply wp_bind. eapply wp_mono; [apply (deadline_timed w)| |done].
  { destruct Hs1 as (l & _ & Hs). by eapply wsteps_ok. }
  { rewrite Hout. apply receive_later. }
  intros s2 w2 H2. apply wp_bind. eapply wp_mono; [by apply keepalive_timed| |done].
  intros s3 w3 H3. apply wp_bind. eapply wp_mono; [by apply read_timed| |done].
  intros s4 w4 H4. apply wp_bind. eapply wp_mono; [by apply deliver_timed| |done].
  intros s5 w5 H5. by apply wp_ret.
Qed.
End progress.
End spec.

(** * The theorems at a concrete worker *)

Module ToyIpc.
#[global] Instance ipc : IpcBuffer :=
  {| Page := WsResultBuf; into_buf := Ok; to_original := Ok; replace b _ := Ok b |}.
#[global] Instance ipc_laws : IpcBufferLaws.
Proof. by split; intros * [= <-]. Qed.

(** A scripted queue and socket; every receive takes 500 ms. *)
Record chan := Chan {
  ch_msgs : list (option Envelope);
  ch_reads : list (result ws_error ws_message);
  ch_time : Z;
}.
#[global] Instance chan_server : XousServer chan := {|
  try_receive_message o :=
    match ch_msgs o with
    | m :: l => (Ok m, Chan l (ch_reads o) (ch_time o + 500))
    | [] => (Ok None, Chan [] (ch_reads o) (ch_time o + 500))
    end;
|}.
#[global] Instance chan_ws : WsHost chan := {|
  ws_connect _ _ o := (Ok tt, o);
  ws_set_read_timeout _ o := (Ok tt, o);
  ws_send _ o := (Ok tt, o);
  ws_read o :=
    match ch_reads o with
    | r :: l => (r, Chan (ch_msgs o) l (ch_time o))
    | [] => (Err (WsIo (IoError WouldBlock [])), o)
    end;
  ws_close o := o;
  ticktimer_new o := (true, o);
  elapsed_ms o := (ch_time o, o);
|}.
#[global] Instance chan_ticks : TickLaws chan.
Proof.
  refine {| clock := ch_time |}; [done|]. intros [[|m l] r t]; simpl; lia.
Defined.

Definition wait_msg : Envelope :=
  {| sender := 1; msg_id := 0; memory := Some WsResultBuf_empty |}.
Definition cancel_msg : Envelope := {| sender := 1; msg_id := 1; memory := None |}.
Definition flap_msg : Envelope := {| sender := 2; msg_id := 2; memory := None |}.
Definition link_chan : chan :=
  Chan [Some wait_msg; None; Some cancel_msg] [Ok (Ping []); Ok (Binary "envelope"%bs)] 0.
Definition flap_chan : chan :=
  Chan [Some wait_msg; Some flap_msg; Some cancel_msg] [Ok (Ping [])] 0.
End ToyIpc.
Import ToyIpc.

(** The caller of the linked run gets the envelope; the flapped one is told. *)
Definition results (o : chan) : list WsResult :=
  match worker_loop 9 180 (MkSrv o []) with
  | Some (Ok _, w) => omap (λ e, match e with Returned _ p => Some (take_result (Ok p))
                                  | _ => None end) (sv_log w)
  | _ => []
  end.
Example link_result : results link_chan = [RBinary "envelope"%bs].
Proof. by vm_compute. Qed.
Example flap_result : results flap_chan = [RCancelled].
Proof. by vm_compute. Qed.

(** Where a run ends. *)
Definition final (o : chan) : Srv chan :=
  match worker_loop 9 180 (MkSrv o []) with Some (Ok _, w) => w | _ => MkSrv o [] end.

Lemma flap_silences_socket_witness :
  Forall (λ e, match e with WsRead _ | WsSent _ => False | _ => True end)
    (drop 3 (sv_log (final flap_chan))).
Proof.
  apply (flap_silences_socket 9 180 flap_chan (final flap_chan) (take 2 (sv_log (final flap_chan)))
    flap_msg); [vm_compute; reflexivity..].
Defined.

Definition lends_emptyb (e : ws_event) : bool :=
  match e with
  | Received m => match memory m with Some p => bool_decide (p = WsResultBuf_empty)
                  | None => true end
  | _ => true
  end.
Lemma lends_empty_check l : forallb lends_emptyb l = true → Forall lends_empty l.
Proof.
  induction l as [|e l IH]; [by constructor|]. simpl. intros [He Hl]%andb_true_iff.
  constructor; [|by apply IH]. destruct e as [m| | | | | |]; try done. simpl in *.
  intros p Hp. rewrite Hp in He. apply bool_decide_eq_true_1 in He. by subst p.
Qed.

Definition link_page : WsResultBuf :=
  match nth_error (sv_log (final link_chan)) 3 with
  | Some (Returned _ p) => p
  | _ => WsResultBuf_empty
  end.
Lemma result_is_received_witness :
  WsRead (Ok (Binary "envelope"%bs)) ∈ sv_log (final link_chan).
Proof.
  apply (result_is_received 9 180 link_chan (final link_chan) 1 link_page "envelope"%bs);
    [vm_compute; reflexivity| | |vm_compute; reflexivity].
  2: { apply list_elem_of_In, (nth_error_In _ 3). vm_compute. reflexivity. }
  apply lends_empty_check. vm_compute. reflexivity.
Defined.

Definition parked : worker := MkWorker 100 0 None (Some wait_msg) false.
Definition late : Srv chan := MkSrv (Chan [] [] 100) [].
Lemma waiter_answered_by_deadline_witness :
  match turn parked late with
  | (Ok (inl s'), w') => waiter s' = None ∧
      ∃ l, sv_log w' = sv_log late ++ l ∧ 0 < returned (sender wait_msg) l
  | _ => False
  end.
Proof.
  assert (match turn parked late with (Ok (inl _), _) => true | _ => false end = true) as Hok
    by (vm_compute; reflexivity).
  destruct (turn parked late) as [[[s'|s']|] w'] eqn:E; [|discriminate Hok..].
  apply (waiter_answered_by_deadline parked late s' w' wait_msg WsResultBuf_empty);
    [by intros r|simpl; lia|reflexivity|reflexivity|exact E].
Defined.

Lemma result_crosses_ipc_witness :
  ∃ page', fill_buf wait_msg (PBinary "envelope"%bs) late =
      (Ok tt, MkSrv (sv_out late) (sv_log late ++ [Returned 1 page'])) ∧
    take_result (Ok page') = RBinary "envelope"%bs.
Proof.
  apply (result_crosses_ipc wait_msg (PBinary "envelope"%bs) WsResultBuf_empty late);
    [reflexivity|reflexivity|reflexivity|]. unfold fits, WS_PROVISION_MAX. simpl. lia.
Defined.
