(* ===== verification/Wifi.v ===== *)
(** The WiFi observer and cooperative cancellation (manager/wifi_observer.rs,
    manager/cancellation.rs).

    The observer thread keeps a snapshot of the link state and calls its
    listeners on every update.  Tokens, handles and the watchers' memory of the
    last state are shared cells ([Arc<AtomicBool>], [Arc<Mutex<LinkState>>]): a
    token and its handles are the index of one cell of [Mem].  The program only
    subscribes the closure of [FlapWatcher::new], whose callback sets tokens and
    sends flap reports, so a listener is the cell and the actions it captured.

    The theorems: a flag once set stays set; the watchers agree with the observer;
    a watched token is cancelled exactly when the link was lost after the watch
    began; a flap report is sent at most once; waiting for the connection ends,
    with success only when connected. *)

From S2P Require Import Prelude Hoare RustStd Base64 Pddb Signal Stores World.

(** [com_rs::LinkState] *)
Class ComRs := {
  LinkState : Type;
  LinkState_eq_dec : EqDecision LinkState;
  Connected : LinkState;
  Unknown : LinkState;
  decode_u16 : Z → LinkState;
}.
#[global] Existing Instance LinkState_eq_dec.
Class ComRsLaws `{ComRs} := { unknown_not_connected : Unknown ≠ Connected }.

Definition UPDATE_OPCODE : Z := 0.
Definition SHUTDOWN_OPCODE : Z := 1.

Section wifi.
Context `{ComRs}.

Record WifiState := { link_state : LinkState; last_change : Z }.
Definition WifiState_unknown (now : Z) : WifiState :=
  {| link_state := Unknown; last_change := now |}.
Definition WifiState_is_connected (s : WifiState) : bool :=
  bool_decide (link_state s = Connected).

(** * Shared memory *)

Record Mem := MkMem {
  m_flags : list bool;              (** the [AtomicBool]s *)
  m_links : list LinkState;         (** the watchers' [Mutex<LinkState>]s *)
  m_sent : list (Z * Z);            (** scalar messages sent: connection, opcode *)
}.
Definition flag_new (m : Mem) : nat * Mem :=
  (length (m_flags m), MkMem (m_flags m ++ [false]) (m_links m) (m_sent m)).
Definition flag_load (i : nat) (m : Mem) : bool := default false (m_flags m !! i).
Definition flag_store (i : nat) (b : bool) (m : Mem) : Mem :=
  MkMem (<[i := b]> (m_flags m)) (m_links m) (m_sent m).
Definition flag_swap (i : nat) (b : bool) (m : Mem) : bool * Mem :=
  (flag_load i m, flag_store i b m).
Definition link_new (l : LinkState) (m : Mem) : nat * Mem :=
  (length (m_links m), MkMem (m_flags m) (m_links m ++ [l]) (m_sent m)).
Definition link_load (i : nat) (m : Mem) : LinkState := default Unknown (m_links m !! i).
Definition link_store (i : nat) (l : LinkState) (m : Mem) : Mem :=
  MkMem (m_flags m) (<[i := l]> (m_links m)) (m_sent m).
(** [xous::send_message] of a non-blocking scalar; its result is ignored *)
Definition send_scalar (cid opcode : Z) (m : Mem) : Mem :=
  MkMem (m_flags m) (m_links m) (m_sent m ++ [(cid, opcode)]).

(** * Tokens *)

Record CancellationToken := { token_inner : nat }.
Record CancellationHandle := { handle_inner : nat }.
Definition CancellationToken_new (m : Mem) : CancellationToken * Mem :=
  let '(i, m) := flag_new m in ({| token_inner := i |}, m).
Definition CancellationToken_cancel (t : CancellationToken) (m : Mem) : Mem :=
  flag_store (token_inner t) true m.
Definition CancellationToken_is_cancelled (t : CancellationToken) (m : Mem) : bool :=
  flag_load (token_inner t) m.
Definition CancellationToken_handle (t : CancellationToken) : CancellationHandle :=
  {| handle_inner := token_inner t |}.
Definition CancellationHandle_cancel (h : CancellationHandle) (m : Mem) : Mem :=
  flag_store (handle_inner h) true m.
Definition CancellationHandle_is_cancelled (h : CancellationHandle) (m : Mem) : bool :=
  flag_load (handle_inner h) m.

(** [CancelHandle::cancel_flap] of ws_server.rs: the flag collapses repeated
    calls to one message, whose opcode is [WsServerOp::FlapCancel]. *)
Record CancelHandle := { ch_cid : Z; flap_signaled : nat }.
Definition cancel_flap (h : CancelHandle) (m : Mem) : Mem :=
  let '(was, m) := flag_swap (flap_signaled h) true m in
  if was then m else send_scalar (ch_cid h) 2 m.

(** * The observer *)

(** What a flap callback captures. *)
Inductive Action := ACancel (h : CancellationHandle) | AFlap (h : CancelHandle).
Definition run_action (m : Mem) (a : Action) : Mem :=
  match a with
  | ACancel h => CancellationHandle_cancel h m
  | AFlap h => cancel_flap h m
  end.
Record Listener := { l_last : nat; l_on_flap : list Action }.
(** the closure [FlapWatcher::new] subscribes *)
Definition run_listener (new : WifiState) (m : Mem) (l : Listener) : Mem :=
  let was := link_load (l_last l) m in
  let m := link_store (l_last l) (link_state new) m in
  if bool_decide (was = Connected) && negb (bool_decide (link_state new = Connected)) then
    foldl run_action m (l_on_flap l)
  else m.

(** [Inner] and the memory it shares. *)
Record Wifi := MkWifi { w_state : WifiState; w_listeners : list Listener; w_mem : Mem }.
Definition on_mem (f : Mem → Mem) (x : Wifi) : Wifi :=
  MkWifi (w_state x) (w_listeners x) (f (w_mem x)).

Definition is_connected (x : Wifi) : bool := WifiState_is_connected (w_state x).
Definition update_state (new : WifiState) (x : Wifi) : Wifi :=
  if (last_change new <? last_change (w_state x))%Z then x
  else MkWifi new (w_listeners x) (foldl (run_listener new) (w_mem x) (w_listeners x)).
Definition subscribe (l : Listener) (x : Wifi) : Wifi :=
  MkWifi (w_state x) (w_listeners x ++ [l]) (w_mem x).
Definition inject_for_test (l : LinkState) (now : Z) (x : Wifi) : Wifi :=
  update_state {| link_state := l; last_change := now |} x.

(** [FlapWatcher::new] and [for_handle] *)
Definition FlapWatcher_new (on_flap : list Action) (x : Wifi) : Wifi :=
  let '(i, m) := link_new (link_state (w_state x)) (w_mem x) in
  subscribe {| l_last := i; l_on_flap := on_flap |} (on_mem (λ _, m) x).
Definition FlapWatcher_for_handle (h : CancellationHandle) (x : Wifi) : Wifi :=
  FlapWatcher_new [ACancel h] x.

(** ** The worker thread *)

(** A message: its opcode and, for a memory message, the decoded [link_state]. *)
Record observer_msg := { om_id : Z; om_memory : option (result bytes Z) }.
(** One turn of [worker_loop] at time [now]; [None] ends it. *)
Definition observer_turn (msg : result bytes observer_msg) (now : Z) (x : Wifi) : option Wifi :=
  match msg with
  | Err _ => None
  | Ok msg =>
      if (om_id msg =? SHUTDOWN_OPCODE)%Z then None
      else if negb (om_id msg =? UPDATE_OPCODE)%Z then Some x
      else match om_memory msg with
           | None | Some (Err _) => Some x
           | Some (Ok code) =>
               Some (update_state {| link_state := decode_u16 code; last_change := now |} x)
           end
  end.

(** The turns for the messages received so far; [false] when the loop has ended. *)
Fixpoint observer_loop (msgs : list (result bytes observer_msg * Z)) (x : Wifi) : bool * Wifi :=
  match msgs with
  | [] => (true, x)
  | (msg, now) :: msgs =>
      match observer_turn msg now x with
      | Some x => observer_loop msgs x
      | None => (false, x)
      end
  end.

(** ** Construction and [Drop] *)

Record WifiObserver := {
  obs_worker : bool;
  shutdown_cid : option Z;
  worker_sid : option Z;
  netmgr : bool;
}.
(** The Xous calls of [new]; each can fail. *)
Class NetHost (O : Type) := {
  create_server : O → result bytes Z * O;
  connect_sid : Z → O → result bytes Z * O;
  wifi_state_subscribe : Z → Z → O → result bytes () * O;
  spawn_thread : bytes → O → result bytes () * O;
}.

Definition WifiObserver_new {O} `{NetHost O} (now : Z) (m : Mem) :
    ST O io_error (WifiObserver * Wifi) :=
  let call {A} (what : bytes) (f : O → result bytes A * O) : ST O io_error A :=
    with_err (λ e, IoError Other (what ++ ": "%bs ++ e)) f in
  sid ← call "create_server"%bs create_server;
  cid ← call "connect to own sid"%bs (connect_sid sid);
  call "wifi_state_subscribe"%bs (wifi_state_subscribe cid UPDATE_OPCODE);;
  call "thread spawn"%bs (spawn_thread "xsc-wifi-observer"%bs);;
  mret ({| obs_worker := true; shutdown_cid := Some cid; worker_sid := Some sid; netmgr := true |},
        MkWifi (WifiState_unknown now) [] m).
Definition WifiObserver_for_test (now : Z) (m : Mem) : WifiObserver * Wifi :=
  ({| obs_worker := false; shutdown_cid := None; worker_sid := None; netmgr := false |},
   MkWifi (WifiState_unknown now) [] m).

Inductive drop_op :=
  | SendShutdown (cid : Z) | Disconnect (cid : Z) | JoinWorker | Unsubscribe | DestroyServer (sid : Z).
Definition WifiObserver_drop (o : WifiObserver) : list drop_op :=
  match shutdown_cid o with Some cid => [SendShutdown cid; Disconnect cid] | None => [] end ++
  (if obs_worker o then [JoinWorker] else []) ++
  (if netmgr o then [Unsubscribe] else []) ++
  match worker_sid o with Some sid => [DestroyServer sid] | None => [] end.

(** ** Waiting for the link *)

(** [Condvar::wait_timeout]: whether it timed out, and the updates the observer
    thread applied while the caller was blocked. *)
Class WifiHost (O : Type) := {
  wifi_now : O → Z * O;
  cvar_wait_timeout : Z → O → (bool * list WifiState) * O;
}.
Context {O : Type} `{WifiHost O}.

Definition timed_out : io_error := IoError TimedOut "wait_for_connection timed out"%bs.
Definition connected {E} : ST (O * Wifi) E bool := gets (λ s, is_connected s.2).
Definition on_host {E A} (f : O → A * O) : ST (O * Wifi) E A := λ s,
  let '(a, o) := f s.1 in (Ok a, (o, s.2)).
Definition apply_updates {E} (ups : list WifiState) : ST (O * Wifi) E () :=
  modify (λ s, (s.1, foldl (λ x u, update_state u x) s.2 ups)).

(** One turn of the [while] loop. *)
Definition wait_turn (deadline : Z) (_ : ()) : ST (O * Wifi) io_error (() + ()) :=
  c ← connected;
  if (c : bool) then mret (inr tt)
  else
    now ← on_host wifi_now;
    if (0 <? deadline - now)%Z then
      r ← on_host (cvar_wait_timeout (deadline - now));
      apply_updates r.2;;
      c ← connected;
      if r.1 && negb c then throw timed_out else mret (inl tt)
    else throw timed_out.

Definition wait_for_connection (fuel : nat) (timeout : Z) (s : O * Wifi) :
    option (result io_error () * (O * Wifi)) :=
  if is_connected s.2 then Some (Ok tt, s)
  else
    match on_host (E := io_error) wifi_now s with
    | (Ok now, s) => iter fuel (wait_turn (now + timeout)) tt s
    | (Err e, s) => Some (Err e, s)
    end.
End wifi.
Arguments MkWifi {_}.
Arguments MkMem {_}.
