(* ===== verification/WifiSpec.v ===== *)
(** What the observer, the watchers and the tokens guarantee. *)

From S2P Require Import Prelude Hoare RustStd Base64 Pddb Signal Stores World Wifi.

Section spec.
Context `{ComRs}.
Implicit Types (x : Wifi) (m : Mem) (u : WifiState) (l : Listener) (i j : nat).

(** * Cells *)

Lemma flag_store_eq i m b : i < length (m_flags m) → flag_load i (flag_store i b m) = b.
Proof. intros Hi. unfold flag_load, flag_store. simpl. by rewrite list_lookup_insert_eq. Qed.
Lemma flag_store_ne i j m b : i ≠ j → flag_load i (flag_store j b m) = flag_load i m.
Proof. intros Hi. unfold flag_load, flag_store. simpl. by rewrite list_lookup_insert_ne. Qed.
Lemma flag_load_lt i m : flag_load i m = true → i < length (m_flags m).
Proof.
  unfold flag_load. intros Hf. apply lookup_lt_is_Some.
  destruct (m_flags m !! i); [eauto|done].
Qed.
(** setting a flag that exists or not *)
Lemma flag_set i j m :
  i < length (m_flags m) → flag_load i (flag_store j true m) = flag_load i m || bool_decide (i = j).
Proof.
  intros Hi. case_bool_decide as Hij; [subst j|].
  - by rewrite flag_store_eq, orb_true_r.
  - by rewrite flag_store_ne, orb_false_r.
Qed.

(** * One action, one listener, all of them *)

Definition flag_of (a : Action) : nat :=
  match a with ACancel h => handle_inner h | AFlap h => flap_signaled h end.
Definition touches i l : bool := existsb (λ a, bool_decide (i = flag_of a)) (l_on_flap l).

Lemma action_flags a m :
  m_links (run_action m a) = m_links m ∧ length (m_flags (run_action m a)) = length (m_flags m) ∧
  (∀ i, i < length (m_flags m) →
     flag_load i (run_action m a) = flag_load i m || bool_decide (i = flag_of a)).
Proof.
  destruct a as [h|h]; simpl.
  - unfold CancellationHandle_cancel. split_and!; [done|by simpl; rewrite length_insert|].
    intros i Hi. by apply flag_set.
  - unfold cancel_flap, flag_swap. destruct (flag_load (flap_signaled h) m).
    + split_and!; [done|by simpl; rewrite length_insert|]. intros i Hi. by apply flag_set.
    + split_and!; [done|by simpl; rewrite length_insert|]. intros i Hi. by apply (flag_set i).
Qed.
Lemma actions_flags acts m :
  m_links (foldl run_action m acts) = m_links m ∧
  length (m_flags (foldl run_action m acts)) = length (m_flags m) ∧
  (∀ i, i < length (m_flags m) → flag_load i (foldl run_action m acts) =
     flag_load i m || existsb (λ a, bool_decide (i = flag_of a)) acts).
Proof.
  revert m. induction acts as [|a acts IH]; intros m; simpl.
  { split_and!; [done..|]. intros. by rewrite orb_false_r. }
  destruct (action_flags a m) as (Hl & Hn & Hf). destruct (IH (run_action m a)) as (Hl' & Hn' & Hf').
  split_and!; [congruence..|]. intros i Hi. rewrite Hf' by lia. rewrite Hf by done.
  by rewrite orb_assoc.
Qed.

(** Losing the link. *)
Definition loses (was new : LinkState) : bool :=
  bool_decide (was = Connected) && negb (bool_decide (new = Connected)).

Lemma listener_spec was u l m :
  m_links m !! l_last l = Some was →
  m_links (run_listener u m l) = <[l_last l := link_state u]> (m_links m) ∧
  length (m_flags (run_listener u m l)) = length (m_flags m) ∧
  (∀ i, i < length (m_flags m) → flag_load i (run_listener u m l) =
     flag_load i m || (loses was (link_state u) && touches i l)).
Proof.
  intros Hw. unfold run_listener. unfold link_load. rewrite Hw. simpl. fold (loses was (link_state u)).
  set (m1 := link_store (l_last l) (link_state u) m).
  destruct (loses was (link_state u)) eqn:E.
  - destruct (actions_flags (l_on_flap l) m1) as (Hl & Hn & Hf). split_and!; [done..|].
    intros i Hi. by apply Hf.
  - split_and!; [done..|]. intros i Hi. by rewrite orb_false_r.
Qed.

(** All of [ls] remember [was], each in a cell of its own. *)
Definition remember (was : LinkState) (ls : list Listener) m : Prop :=
  NoDup (l_last <$> ls) ∧ ∀ l, l ∈ ls → m_links m !! l_last l = Some was.

Lemma listeners_spec was u ls m :
  remember was ls m →
  let m' := foldl (run_listener u) m ls in
  remember (link_state u) ls m' ∧ length (m_links m') = length (m_links m) ∧
  length (m_flags m') = length (m_flags m) ∧
  (∀ i, i ∉ (l_last <$> ls) → m_links m' !! i = m_links m !! i) ∧
  (∀ i, i < length (m_flags m) → flag_load i m' =
     flag_load i m || (loses was (link_state u) && existsb (touches i) ls)).
Proof.
  revert m. induction ls as [|l ls IH]; intros m [Hnd Hw]; simpl.
  { split_and!; [split; [constructor|by intros l ?%not_elem_of_nil]|done..|].
    intros i Hi. by rewrite andb_false_r, orb_false_r. }
  apply NoDup_cons in Hnd as [Hni Hnd].
  destruct (listener_spec was u l m) as (Hl & Hn & Hf); [apply Hw; by left|].
  assert (∀ l', l' ∈ ls → l_last l' ≠ l_last l) as Hne.
  { intros l' Hl' E. apply Hni. rewrite <- E. by apply list_elem_of_fmap_2. }
  destruct (IH (run_listener u m l)) as ([_ Hr] & Hlen & Hn' & Ho & Hf').
  { split; [done|]. intros l' Hl'. rewrite Hl, list_lookup_insert_ne by (apply not_eq_sym; auto).
    apply Hw. by right. }
  split_and!.
  - split; [by apply NoDup_cons|]. intros l' [->|Hl']%elem_of_cons; [|by apply Hr].
    rewrite Ho by done. rewrite Hl. apply list_lookup_insert_eq.
    eapply lookup_lt_Some. apply Hw. by left.
  - rewrite Hlen, Hl. apply length_insert.
  - congruence.
  - intros i Hi. apply not_elem_of_cons in Hi as [Hi Hi']. rewrite Ho by done.
    rewrite Hl. by apply list_lookup_insert_ne.
  - intros i Hi. rewrite Hf' by lia. rewrite Hf by done.
    by rewrite andb_orb_distrib_r, orb_assoc.
Qed.

(** * Messages *)

(** The flap reports sent to [c], and the actions that may send them: those to
    [c] all share the flag [f], which nothing else sets. *)
Definition reports (c : Z) m : nat := length (filter (λ s, s = (c, 2%Z)) (m_sent m)).
Definition exclusive (c : Z) (f : nat) (a : Action) : Prop :=
  match a with
  | ACancel h => handle_inner h ≠ f
  | AFlap h => ch_cid h = c ↔ flap_signaled h = f
  end.
Definition reported c f m : Prop := reports c m = if flag_load f m then 1 else 0.

Lemma action_reports c f a m :
  f < length (m_flags m) → exclusive c f a → reported c f m → reported c f (run_action m a).
Proof.
  intros Hf He Hr. unfold reported in *. destruct a as [h|h]; simpl in *.
  - unfold CancellationHandle_cancel. rewrite flag_store_ne by done. exact Hr.
  - unfold cancel_flap, flag_swap. destruct (decide (flap_signaled h = f)) as [E|E].
    + apply He in E as Hc. rewrite E. destruct (flag_load f m) eqn:Ef.
      * rewrite flag_store_eq by done. exact Hr.
      * change (flag_load f (send_scalar (ch_cid h) 2 (flag_store f true m))) with
          (flag_load f (flag_store f true m)). rewrite flag_store_eq by done.
        unfold reports, send_scalar in *. simpl. rewrite filter_app, length_app, Hr, Hc.
        by rewrite filter_cons_True by done.
    + assert (ch_cid h ≠ c) as Hc by tauto.
      destruct (flag_load (flap_signaled h) m).
      * rewrite flag_store_ne by congruence. exact Hr.
      * change (flag_load f (send_scalar (ch_cid h) 2 (flag_store (flap_signaled h) true m))) with
          (flag_load f (flag_store (flap_signaled h) true m)). rewrite flag_store_ne by congruence.
        unfold reports, send_scalar in *. simpl. rewrite filter_app, length_app, Hr.
        rewrite filter_cons_False by congruence. simpl. lia.
Qed.
Lemma actions_reports c f acts m :
  f < length (m_flags m) → Forall (exclusive c f) acts → reported c f m →
  reported c f (foldl run_action m acts).
Proof.
  intros Hf Ha. revert m Hf. induction Ha as [|a acts Ha _ IH]; intros m Hf Hr; [done|].
  apply IH; [|by apply action_reports]. destruct (action_flags a m) as (_ & -> & _). done.
Qed.
Lemma listeners_reports c f u ls m :
  f < length (m_flags m) → Forall (λ l, Forall (exclusive c f) (l_on_flap l)) ls →
  reported c f m → reported c f (foldl (run_listener u) m ls).
Proof.
  intros Hf Ha. revert m Hf. induction Ha as [|l ls Ha _ IH]; intros m Hf Hr; [done|].
  simpl. assert (length (m_flags (run_listener u m l)) = length (m_flags m) ∧
    reported c f (run_listener u m l)) as [Hn Hr'].
  { unfold run_listener. set (m1 := link_store _ _ m). destruct (_ && _); [|done].
    destruct (actions_flags (l_on_flap l) m1) as (_ & Hn & _). split; [done|].
    by apply actions_reports. }
  apply IH; [by rewrite Hn|done].
Qed.

(** * The observer *)

(** Every watcher remembers the link state the observer shows. *)
Definition synced x : Prop := remember (link_state (w_state x)) (w_listeners x) (w_mem x).

Lemma update_state_spec u x :
  synced x →
  synced (update_state u x) ∧ w_listeners (update_state u x) = w_listeners x ∧
  length (m_flags (w_mem (update_state u x))) = length (m_flags (w_mem x)) ∧
  (∀ i, i < length (m_flags (w_mem x)) → flag_load i (w_mem (update_state u x)) =
     flag_load i (w_mem x) ||
     (negb (last_change u <? last_change (w_state x))%Z &&
      loses (link_state (w_state x)) (link_state u) && existsb (touches i) (w_listeners x))).
Proof.
  intros Hs. unfold update_state. destruct (_ <? _)%Z; simpl.
  { split_and!; [done..|]. intros. by rewrite orb_false_r. }
  destruct (listeners_spec _ u _ _ Hs) as (Hr & _ & Hn & _ & Hf). by split_and!.
Qed.

Lemma watch_spec acts x :
  synced x →
  synced (FlapWatcher_new acts x) ∧
  m_flags (w_mem (FlapWatcher_new acts x)) = m_flags (w_mem x) ∧
  m_sent (w_mem (FlapWatcher_new acts x)) = m_sent (w_mem x) ∧
  w_state (FlapWatcher_new acts x) = w_state x ∧
  w_listeners (FlapWatcher_new acts x) =
    w_listeners x ++ [{| l_last := length (m_links (w_mem x)); l_on_flap := acts |}].
Proof.
  intros [Hnd Hw]. split_and!; [|done..]. unfold synced, FlapWatcher_new. simpl. split.
  - rewrite fmap_app. apply NoDup_app. split_and!; [done| |apply NoDup_singleton].
    intros i Hi Hi'. apply list_elem_of_singleton in Hi' as ->.
    apply list_elem_of_fmap in Hi as (l & E & Hl). apply Hw, lookup_lt_Some in Hl. simpl in E. lia.
  - intros l [Hl|Hl]%elem_of_app; simpl.
    + rewrite lookup_app_l; [by apply Hw|]. eapply lookup_lt_Some. by apply Hw.
    + apply list_elem_of_singleton in Hl as ->. simpl. by rewrite lookup_app_r, Nat.sub_diag.
Qed.

(** ** Reachable states *)

Inductive wifi_step : Wifi → Wifi → Prop :=
  | step_update u x : wifi_step x (update_state u x)
  | step_watch acts x : wifi_step x (FlapWatcher_new acts x)
  | step_token x : wifi_step x (on_mem (λ m, (CancellationToken_new m).2) x)
  | step_cancel h x : wifi_step x (on_mem (CancellationHandle_cancel h) x)
  | step_flap h x : wifi_step x (on_mem (cancel_flap h) x).

Lemma actions_links a m : m_links (run_action m a) = m_links m.
Proof. by destruct (action_flags a m) as (? & _). Qed.
Lemma action_stays i a m : flag_load i m = true → flag_load i (run_action m a) = true.
Proof.
  intros Hi. destruct (action_flags a m) as (_ & _ & Hf).
  by rewrite Hf, Hi by by apply flag_load_lt.
Qed.

Lemma step_synced x y : synced x → wifi_step x y → synced y.
Proof.
  intros Hs Hst. destruct Hst as [u z|acts z|z|h z|h z].
  - by destruct (update_state_spec u z Hs).
  - by destruct (watch_spec acts z Hs).
  - exact Hs.
  - exact Hs.
  - destruct Hs as [Hnd Hw]. split; [done|]. intros l Hl.
    pose proof (actions_links (AFlap h) (w_mem z)) as E. cbn [run_action] in E.
    cbn [on_mem w_mem w_state]. rewrite E. by apply Hw.
Qed.
Lemma step_stays x y i :
  synced x → wifi_step x y → flag_load i (w_mem x) = true → flag_load i (w_mem y) = true.
Proof.
  intros Hs Hst Hi. pose proof (flag_load_lt _ _ Hi) as Hlt.
  destruct Hst as [u z|acts z|z|h z|h z].
  - destruct (update_state_spec u z Hs) as (_ & _ & _ & Hf). by rewrite Hf, Hi.
  - exact Hi.
  - unfold flag_load in *. simpl. by rewrite lookup_app_l.
  - by apply (action_stays i (ACancel h)).
  - by apply (action_stays i (AFlap h)).
Qed.

Lemma steps_stay x y (t : CancellationToken) :
  synced x → rtc wifi_step x y →
  synced y ∧ (CancellationToken_is_cancelled t (w_mem x) = true →
              CancellationToken_is_cancelled t (w_mem y) = true).
Proof.
  intros Hs Hst. revert Hs. induction Hst as [x|x y z Hxy _ IH]; intros Hs; [done|].
  destruct (IH (step_synced _ _ Hs Hxy)) as [Hz Hc]. split; [done|].
  intros Hx. apply Hc. exact (step_stays _ _ _ Hs Hxy Hx).
Qed.

(** Cancellation is permanent.  Whatever the observer, the watchers and the
    handles do, in any order and any number of times, a token that is cancelled
    stays cancelled, and every watcher keeps remembering the state the observer
    shows, so the next loss of the link reaches all of them. *)
Theorem cancellation_permanent x y (t : CancellationToken) :
  synced x → rtc wifi_step x y →
  synced y ∧ (CancellationToken_is_cancelled t (w_mem x) = true →
              CancellationToken_is_cancelled t (w_mem y) = true).
Proof. apply steps_stay. Qed.

(** * Watching *)

(** The reference: the link was up and then reported down, among the updates the
    observer accepts. *)
Fixpoint link_lost u (us : list WifiState) : bool :=
  match us with
  | [] => false
  | v :: us =>
      if (last_change v <? last_change u)%Z then link_lost u us
      else loses (link_state u) (link_state v) || link_lost v us
  end.
Definition updates (us : list WifiState) x : Wifi := foldl (λ x u, update_state u x) x us.

Lemma updates_flag i us x :
  synced x → i < length (m_flags (w_mem x)) → existsb (touches i) (w_listeners x) = true →
  flag_load i (w_mem (updates us x)) = flag_load i (w_mem x) || link_lost (w_state x) us.
Proof.
  revert x. induction us as [|u us IH]; intros x Hs Hi Ht; simpl; [by rewrite orb_false_r|].
  destruct (update_state_spec u x Hs) as (Hs' & Hl & Hn & Hf).
  change (updates (u :: us) x) with (updates us (update_state u x)). rewrite IH by (rewrite ?Hn, ?Hl; done). rewrite Hf by done.
  rewrite Ht, andb_true_r. unfold update_state. destruct (last_change u <? _)%Z; simpl.
  - by rewrite orb_false_r.
  - by rewrite orb_assoc.
Qed.
Lemma updates_reports c f us x :
  synced x → f < length (m_flags (w_mem x)) →
  Forall (λ l, Forall (exclusive c f) (l_on_flap l)) (w_listeners x) →
  reported c f (w_mem x) → reported c f (w_mem (updates us x)).
Proof.
  revert x. induction us as [|u us IH]; intros x Hs Hf He Hr; [done|].
  destruct (update_state_spec u x Hs) as (Hs' & Hl & Hn & _).
  apply IH; [done|by rewrite Hn|by rewrite Hl|].
  unfold update_state. destruct (_ <? _)%Z; [done|]. by apply listeners_reports.
Qed.

(** The setting of a provisioning attempt: a fresh token, a fresh [CancelHandle]
    for the connection [c] that nobody has used, and a watch for both. *)
Definition watched (c : Z) x : CancellationToken * CancelHandle * Wifi :=
  let '(t, m) := CancellationToken_new (w_mem x) in
  let '(f, m) := flag_new m in
  let h := {| ch_cid := c; flap_signaled := f |} in
  (t, h, FlapWatcher_new [ACancel (CancellationToken_handle t); AFlap h] (on_mem (λ _, m) x)).
(** [c] is new to the observer. *)
Definition unused (c : Z) x : Prop :=
  reports c (w_mem x) = 0 ∧
  ∀ l a, l ∈ w_listeners x → a ∈ l_on_flap l → flag_of a < length (m_flags (w_mem x)) ∧
    match a with AFlap h => ch_cid h ≠ c | ACancel _ => True end.

Lemma watched_spec c us x :
  synced x → unused c x →
  let '(t, h, y) := watched c x in
  let m := w_mem (updates us y) in
  CancellationToken_is_cancelled t m = link_lost (w_state x) us ∧
  reports c m = if link_lost (w_state x) us then 1 else 0.
Proof.
  intros Hs [Hr Hu]. unfold watched. simpl.
  set (m1 := MkMem _ _ _). set (n := length (m_flags (w_mem x))).
  set (acts := [_; _]). set (x1 := on_mem (λ _, m1) x).
  destruct (watch_spec acts x1 Hs) as (Hsy & Hfl & Hse & Hst & Hls).
  set (y := FlapWatcher_new acts x1) in *.
  assert (length (m_flags (w_mem y)) = S (S n)) as Hlen.
  { rewrite Hfl. simpl. rewrite !length_app. simpl. lia. }
  assert (∀ i, i = n ∨ i = S n → flag_load i (w_mem y) = false) as Hfalse.
  { intros i Hi. unfold flag_load. rewrite Hfl. simpl. rewrite <- app_assoc.
    rewrite lookup_app_r by (fold n; lia). fold n.
    by destruct Hi as [->| ->]; [rewrite Nat.sub_diag|rewrite Nat.sub_succ_l, Nat.sub_diag by lia]. }
  assert (∀ i, i = n ∨ i = S n → flag_load i (w_mem (updates us y)) = link_lost (w_state x) us) as Hupd.
  { intros i Hi. rewrite updates_flag; [by rewrite Hfalse|done|lia|]. rewrite Hls.
    rewrite existsb_app. apply orb_true_iff. right. simpl. unfold touches. simpl.
    rewrite length_app. fold n. simpl.
    destruct Hi as [->| ->]; repeat case_bool_decide; try done; lia. }
  split; [by apply Hupd; left|].
  assert (reported c (S n) (w_mem (updates us y))) as Hrep.
  { apply updates_reports; [done|lia| |].
    - rewrite Hls. apply Forall_app. split.
      + apply Forall_forall. intros l Hl. apply Forall_forall. intros a Ha.
        destruct (Hu l a Hl Ha) as [Hlt Hc]. fold n in Hlt.
        destruct a as [h|h]; simpl in *; [lia|]. split; [done|lia].
      + repeat constructor; simpl; rewrite ?length_app; fold n; simpl; try lia.
    - unfold reported. rewrite Hfalse by auto. unfold reports. by rewrite Hse. }
  unfold reported in Hrep. rewrite Hrep. by rewrite Hupd by auto.
Qed.

(** C20: a watch sees every loss of the link and reports it once.  Over any
    sequence of updates after the watch began, the token is cancelled exactly
    when some accepted update took the link from connected to anything else, and
    then exactly one flap report has been sent to the worker, however often the
    link was lost. *)
Theorem watch_reports_flap c us x :
  synced x → unused c x →
  let '(t, h, y) := watched c x in
  let m := w_mem (updates us y) in
  CancellationToken_is_cancelled t m = link_lost (w_state x) us ∧
  reports c m = if link_lost (w_state x) us then 1 else 0.
Proof. apply watched_spec. Qed.

Lemma actions_silent c acts m :
  Forall (λ a, match a with AFlap h => ch_cid h ≠ c | ACancel _ => True end) acts →
  reports c (foldl run_action m acts) = reports c m.
Proof.
  intros Ha. revert m. induction Ha as [|a acts Ha _ IH]; intros m; [done|]. simpl. rewrite IH.
  destruct a as [h|h]; [done|]. simpl. unfold cancel_flap, flag_swap.
  destruct (flag_load _ m); [done|]. unfold reports, send_scalar. simpl.
  rewrite filter_app, length_app, filter_cons_False by congruence. simpl. lia.
Qed.
Lemma listeners_silent c u ls m :
  (∀ l a, l ∈ ls → a ∈ l_on_flap l → match a with AFlap h => ch_cid h ≠ c | ACancel _ => True end) →
  reports c (foldl (run_listener u) m ls) = reports c m.
Proof.
  revert m. induction ls as [|l ls IH]; intros m Ha; [done|]. simpl. rewrite IH.
  - unfold run_listener. destruct (_ && _); [|done]. rewrite actions_silent; [done|]. apply Forall_forall.
    intros a Hin. apply (Ha l); [by left|done].
  - intros l' a Hl'. apply Ha. by right.
Qed.
Lemma unused_update c u x : synced x → unused c x → unused c (update_state u x).
Proof.
  intros Hs [Hr Hu]. destruct (update_state_spec u x Hs) as (_ & Hl & Hn & _). split.
  - unfold update_state. destruct (_ <? _)%Z; [done|]. simpl. rewrite listeners_silent; [done|].
    intros l a Hin Ha. by apply (Hu l a).
  - rewrite Hl, Hn. exact Hu.
Qed.

Lemma down_not_lost u us :
  link_state u ≠ Connected → Forall (λ v, link_state v ≠ Connected) us → link_lost u us = false.
Proof.
  intros Hu Hus. revert u Hu. induction Hus as [|v us Hv _ IH]; intros u Hu; simpl; [done|].
  destruct (_ <? _)%Z; [by apply IH|]. unfold loses. rewrite bool_decide_false by done. by apply IH.
Qed.

(** A loss of the link between the creation of the observer and the watch is not
    reported: the watch starts from the state the observer shows by then. *)
Theorem flap_before_watch_lost c v us x :
  synced x → unused c x → link_state (w_state x) = Connected →
  (last_change (w_state x) ≤ last_change v)%Z →
  Forall (λ u, link_state u ≠ Connected) (v :: us) →
  let '(t, h, y) := watched c (update_state v x) in
  CancellationToken_is_cancelled t (w_mem (updates us y)) = false.
Proof.
  intros Hs Hu Hc Hle [Hv Hus]%Forall_cons.
  pose proof (watched_spec c us (update_state v x) (proj1 (update_state_spec v x Hs))
    (unused_update c v x Hs Hu)) as Hw.
  destruct (watched c (update_state v x)) as [[t h] y]. destruct Hw as [-> _].
  apply down_not_lost; [|done]. unfold update_state.
  destruct (Z.ltb_spec (last_change v) (last_change (w_state x))); [lia|done].
Qed.

(** * Waiting for the link *)
Section wait.
Context {O : Type} `{!WifiHost O}.

(** Time passes while the caller is blocked. *)
Class WaitLaws := {
  wait_clock : O → Z;
  now_clock o : (wifi_now o).1 = wait_clock o ∧ (wait_clock o ≤ wait_clock (wifi_now o).2)%Z;
  wait_later d o : (0 < d)%Z → (wait_clock o < wait_clock (cvar_wait_timeout d o).2)%Z;
}.

Lemma wp_on_host {E A} (f : O → A * O) (Q : A → O * Wifi → Prop) (R : E → O * Wifi → Prop) s :
  Q (f s.1).1 ((f s.1).2, s.2) → wp (on_host f) Q R s.
Proof. unfold wp, on_host. by destruct (f s.1). Qed.

(** What a turn of the loop ends with, and by how much it comes closer to the
    deadline. *)
Lemma wait_turn_spec `{WaitLaws} deadline o x :
  wp (wait_turn deadline tt) (λ y s, match y with
      | inr _ => is_connected s.2 = true
      | inl _ => (wait_clock o < wait_clock s.1)%Z ∧ (wait_clock o < deadline)%Z
      end) (λ e s, e = timed_out ∧ is_connected s.2 = false) (o, x).
Proof.
  unfold wait_turn. apply wp_bind, wp_gets. simpl.
  destruct (is_connected x) eqn:Hc; [by apply wp_ret|]. apply wp_bind, wp_on_host. simpl.
  destruct (now_clock o) as [Hn Hle]. destruct (wifi_now o) as [now o1]. simpl in *.
  destruct (Z.ltb_spec 0 (deadline - now)) as [Hlt|Hge]; [|by apply wp_throw].
  apply wp_bind, wp_on_host. simpl. pose proof (wait_later _ o1 Hlt) as Hl.
  destruct (cvar_wait_timeout (deadline - now) o1) as [[timed ups] o2]. simpl in *.
  apply wp_bind, wp_modify, wp_bind, wp_gets. simpl.
  destruct (timed && _) eqn:Ht; [apply wp_throw|apply wp_ret; simpl; lia].
  apply andb_true_iff in Ht as [_ Ht]. split; [done|]. by apply negb_true_iff in Ht.
Qed.

Lemma wait_loop `{WaitLaws} n deadline o x :
  (deadline - wait_clock o < Z.of_nat n)%Z →
  ∃ r s, iter (S n) (wait_turn deadline) tt (o, x) = Some (r, s) ∧
    match r with
    | Ok _ => is_connected s.2 = true
    | Err e => e = timed_out ∧ is_connected s.2 = false
    end.
Proof.
  revert o x. induction n as [|n IH]; intros o x Hn;
    cbn [iter]; pose proof (wait_turn_spec deadline o x) as Ht; unfold wp in Ht;
    destruct (wait_turn deadline tt (o, x)) as [[[[]|[]]|e] [o' x']].
  - lia.
  - eauto.
  - eauto.
  - apply IH. simpl in Ht. lia.
  - eauto.
  - eauto.
Qed.

(** Whatever happens while waiting, the observer only applies updates. *)
Lemma update_steps us x : rtc wifi_step x (foldl (λ x u, update_state u x) x us).
Proof.
  revert x. induction us as [|u us IH]; intros x; simpl; [apply rtc_refl|].
  eapply rtc_l; [apply step_update|apply IH].
Qed.
Lemma wait_turn_steps deadline x0 (s : O * Wifi) :
  rtc wifi_step x0 s.2 →
  wp (wait_turn deadline tt) (λ _ s', rtc wifi_step x0 s'.2) (λ _ s', rtc wifi_step x0 s'.2) s.
Proof.
  intros Hs. unfold wait_turn. apply wp_bind, wp_gets. destruct (is_connected _); [by apply wp_ret|].
  apply wp_bind, wp_on_host. destruct (_ <? _)%Z; [|by apply wp_throw].
  apply wp_bind, wp_on_host, wp_bind, wp_modify, wp_bind, wp_gets. simpl.
  match goal with |- wp _ _ _ ?z => assert (rtc wifi_step x0 z.2) as Hz end.
  { etrans; [exact Hs|]. apply update_steps. }
  destruct (_ && _); [by apply wp_throw|by apply wp_ret].
Qed.
Lemma wait_steps fuel timeout o x r o' x' :
  wait_for_connection fuel timeout (o, x) = Some (r, (o', x')) → rtc wifi_step x x'.
Proof.
  unfold wait_for_connection. simpl. destruct (is_connected x); [by intros [= _ _ <-]|].
  unfold on_host. simpl. destruct (wifi_now o) as [now o1]. intros Hw.
  pose proof (iter_inv (wait_turn (now + timeout)) (λ _ s, rtc wifi_step x s.2)
    (λ _ s, rtc wifi_step x s.2) (λ _ s, rtc wifi_step x s.2) fuel tt (o1, x) (rtc_refl _ _)) as Hinv.
  rewrite Hw in Hinv. destruct r; apply Hinv; intros [] s Hs;
    (eapply wp_mono; [by apply wait_turn_steps|by intros [[]|[]]|done]).
Qed.

(** C35: waiting for the link ends.  With one turn per tick of the timeout the
    wait always returns; it returns [Ok] only with the link up, and the timeout
    error only with the link down. *)
Theorem wait_for_connection_ends `{WaitLaws} timeout o x :
  (0 ≤ timeout)%Z →
  ∃ r s, wait_for_connection (S (S (Z.to_nat timeout))) timeout (o, x) = Some (r, s) ∧
    match r with
    | Ok _ => is_connected s.2 = true
    | Err e => e = timed_out ∧ is_connected s.2 = false
    end.
Proof.
  intros Ht. unfold wait_for_connection. simpl snd. destruct (is_connected x) eqn:Hc; [eauto|].
  unfold on_host. simpl fst. destruct (now_clock o) as [Hn Hle]. destruct (wifi_now o) as [now o1].
  cbn [fst snd] in *. apply wait_loop. lia.
Qed.
End wait.
End spec.

(** * The theorems at a concrete link *)

Module ToyLink.
#[global] Instance link : ComRs :=
  {| LinkState := Z; LinkState_eq_dec := Z.eq_dec; Connected := 3%Z; Unknown := 0%Z;
     decode_u16 z := z |}.
#[global] Instance link_laws : ComRsLaws.
Proof. by constructor. Qed.

(** A clock that advances by the time waited, and the updates of each wait. *)
Record clocked := Clocked { ck_now : Z; ck_ups : list (list WifiState) }.
#[global] Instance clocked_host : WifiHost clocked := {|
  wifi_now o := (ck_now o, o);
  cvar_wait_timeout d o :=
    match ck_ups o with
    | u :: us => ((false, u), Clocked (ck_now o + Z.max 1 (d `div` 2)) us)
    | [] => ((true, []), Clocked (ck_now o + Z.max 1 d) [])
    end;
|}.
#[global] Instance clocked_laws : WaitLaws (O := clocked).
Proof.
  refine {| wait_clock := ck_now |}; [done|]. intros d [n [|u us]] Hd; simpl; lia.
Defined.

Definition up (t : Z) : WifiState := {| link_state := 3%Z : @LinkState link; last_change := t |}.
Definition down (t : Z) : WifiState := {| link_state := 1%Z : @LinkState link; last_change := t |}.
Definition start : Wifi := MkWifi (WifiState_unknown 0) [] (MkMem [] [] []).
End ToyLink.
Import ToyLink.

Lemma start_synced : synced start.
Proof. split; [constructor|]. by intros l ?%not_elem_of_nil. Qed.
Lemma start_unused c : unused c start.
Proof. split; [done|]. by intros l a ?%not_elem_of_nil. Qed.

Lemma cancellation_permanent_witness :
  synced (update_state (up 1) (on_mem (CancellationHandle_cancel {| handle_inner := 0 |}) start)).
Proof.
  destruct (cancellation_permanent start (update_state (up 1)
    (on_mem (CancellationHandle_cancel {| handle_inner := 0 |}) start)) {| token_inner := 0 |})
    as [Hs _]; [apply start_synced| |exact Hs].
  eapply rtc_l; [apply (step_cancel {| handle_inner := 0 |})|].
  eapply rtc_l; [apply (step_update (up 1))|]. apply rtc_refl.
Defined.

Lemma watch_reports_flap_witness :
  let '(t, h, y) := watched 7 start in
  let m := w_mem (updates [up 1; down 2; up 3; down 4] y) in
  CancellationToken_is_cancelled t m = true ∧ reports 7 m = 1.
Proof.
  exact (watch_reports_flap 7 [up 1; down 2; up 3; down 4] start start_synced (start_unused 7)).
Defined.

Lemma wait_for_connection_ends_witness :
  ∃ r s, wait_for_connection 12 10 (Clocked 0 [[down 1]; [up 2]], start) = Some (r, s) ∧
    match r with
    | Ok _ => is_connected s.2 = true
    | Err e => e = timed_out ∧ is_connected s.2 = false
    end.
Proof. apply (wait_for_connection_ends 10 (Clocked 0 [[down 1]; [up 2]]) start). lia. Defined.
