(* ===== verification/Keys.v ===== *)
(** Key generation, signatures and symmetric primitives.

    The rest of libsignal-protocol the link flow calls ([KeyOps]), the
    primitives of the RustCrypto crates ([Crypto]) and the operating system's
    random generator ([OsRng]), with the documented facts the client relies
    on.  [ToyKeys] discharges the laws with concrete functions. *)

From S2P Require Import Prelude RustStd Pddb Signal Stores World.

(** [OsRng]: [try_fill_bytes] can fail; [unwrap_err()] turns a failure into a
    panic, so the draws through it have no error value. *)
Class OsRng (O : Type) := {
  rng_try_fill : nat → O → result bytes bytes * O;
  rng_next_u32 : O → Z * O;
}.
Class OsRngLaws (O : Type) `{OsRng O} := {
  rng_fill_length n o b o' : rng_try_fill n o = (Ok b, o') → length b = n;
  rng_u32_range o : in_u32 (rng_next_u32 o).1;
}.

(** Elliptic-curve and KEM operations.  An error is its [Debug] text; [bytes]
    in front of a result is the entropy the call draws. *)
Class KeyOps `{Libsignal} := {
  KeyPair_generate : bytes → PublicKey * PrivateKey;
  private_serialize : PrivateKey → bytes;
  private_public_key : PrivateKey → result bytes PublicKey;
  calculate_agreement : PrivateKey → PublicKey → result bytes bytes;
  calculate_signature : PrivateKey → bytes → bytes → result bytes bytes;
  verify_signature : PublicKey → bytes → bytes → bool;
  PreKeyRecord_new : Z → PublicKey * PrivateKey → PreKeyRecord;
  SignedPreKeyRecord_new : Z → Z → PublicKey * PrivateKey → bytes → SignedPreKeyRecord;
  SignedPreKeyRecord_id : SignedPreKeyRecord → result SignalProtocolError Z;
  kem_serialize : kem_PublicKey → bytes;
  KyberPreKeyRecord_generate :
    Z → PrivateKey → bytes → result SignalProtocolError KyberPreKeyRecord;
  KyberPreKeyRecord_id : KyberPreKeyRecord → result SignalProtocolError Z;
  KyberPreKeyRecord_public_key : KyberPreKeyRecord → result SignalProtocolError kem_PublicKey;
  KyberPreKeyRecord_signature : KyberPreKeyRecord → result SignalProtocolError bytes;
}.
Class KeyLaws `{KeyOps} := {
  private_deserialize_serialize k : private_deserialize (private_serialize k) = Ok k;
  (** 0x05 and 32 bytes *)
  KeyPair_public_length g : length (public_serialize (KeyPair_generate g).1) = 33;
  KeyPair_public g : private_public_key (KeyPair_generate g).2 = Ok (KeyPair_generate g).1;
  agreement_sym priv pub priv' pub' :
    private_public_key priv = Ok pub → private_public_key priv' = Ok pub' →
    calculate_agreement priv pub' = calculate_agreement priv' pub;
  agreement_total priv pub : is_ok (calculate_agreement priv pub) = true;
  PreKeyRecord_serializes id kp : is_ok (serialize (PreKeyRecord_new id kp)) = true;
  SignedPreKeyRecord_new_id id t kp sig : in_u32 id →
    SignedPreKeyRecord_id (SignedPreKeyRecord_new id t kp sig) = Ok id;
  SignedPreKeyRecord_serializes id t kp sig :
    is_ok (serialize (SignedPreKeyRecord_new id t kp sig)) = true;
  KyberPreKeyRecord_generated id priv g r : in_u32 id →
    KyberPreKeyRecord_generate id priv g = Ok r →
    KyberPreKeyRecord_id r = Ok id ∧ is_ok (serialize r) = true;
}.

(** HMAC-SHA-256, HKDF-SHA-256 (no salt), AES-256 in CBC with PKCS#7, AES-256
    on one block, AES-256-GCM.  [None] is the primitive's length error, the
    inner [None] of CBC a padding error. *)
Class Crypto := {
  hmac_sha256 : bytes → bytes → option bytes;
  hkdf_sha256 : bytes → bytes → nat → option bytes;
  aes256_cbc_decrypt : bytes → bytes → bytes → option (option bytes);
  aes256_block : bytes → bytes → bytes;
  aes256_gcm_encrypt : bytes → bytes → bytes → bytes → option bytes;
}.
Class CryptoLaws `{Crypto} := {
  (** an HMAC key may have any length, and the tag has 32 bytes *)
  hmac_total k m : ∃ t, hmac_sha256 k m = Some t ∧ length t = 32;
  hkdf_total ikm info n : n ≤ 255 * 32 →
    ∃ k, hkdf_sha256 ikm info n = Some k ∧ length k = n;
  (** the encryption a peer performs *)
  aes256_cbc_encrypt : bytes → bytes → bytes → bytes;
  cbc_decrypt_encrypt k iv m : length k = 32 → length iv = 16 →
    aes256_cbc_decrypt k iv (aes256_cbc_encrypt k iv m) = Some (Some m);
  cbc_encrypt_length k iv m :
    16 ≤ length (aes256_cbc_encrypt k iv m) ≤ length m + 16;
  aes_block_length k b : length k = 32 → length b = 16 → length (aes256_block k b) = 16;
  gcm_total k n m a : length k = 32 → length n = 12 →
    ∃ c, aes256_gcm_encrypt k n m a = Some c ∧ length c = length m + 16;
}.

Section draws.
Context {P O : Type} `{OsRng O}.

(** [OsRng.try_fill_bytes(&mut [0; n])] with the caller's error, and
    [OsRng.unwrap_err().next_u32()] *)
Definition fill_bytes {E} (on_err : bytes → E) (n : nat) : ST (World P O) E bytes :=
  r ← on_out (rng_try_fill n);
  lift (map_err on_err r).
Definition next_u32 {E} : ST (World P O) E Z := on_out rng_next_u32.
End draws.

(** * Concrete primitives *)
Module ToyKeys.
Definition fit (n : nat) (b : bytes) : bytes := take n (b ++ replicate n Byte.x00).
Lemma fit_length n b : length (fit n b) = n.
Proof. unfold fit. rewrite length_take, length_app, length_replicate. lia. Qed.

Definition id_of (r : bytes) : result SignalProtocolError Z :=
  ok_or (LibError "no id"%bs) (parse_u32 r).

(** A public key is its private key, a signature the message, a record its id. *)
#[global] Instance key_ops : KeyOps (H := Toy.libsignal) := {|
  KeyPair_generate g := (fit 32 g, fit 32 g) : @PublicKey Toy.libsignal * @PrivateKey Toy.libsignal;
  private_serialize := Toy.tag_enc Byte.x05;
  private_public_key k := Ok k;
  calculate_agreement a b := Ok (fit 32 []);
  calculate_signature k m g := Ok m;
  verify_signature k m s := bool_decide (m = s);
  PreKeyRecord_new id kp := show_u id ++ ":"%bs ++ kp.1;
  SignedPreKeyRecord_new id t kp sig := show_u id;
  SignedPreKeyRecord_id := id_of;
  kem_serialize := Toy.tag_enc Byte.x08;
  KyberPreKeyRecord_generate id k g := Ok (show_u id);
  KyberPreKeyRecord_id := id_of;
  KyberPreKeyRecord_public_key r := Ok ([] : bytes);
  KyberPreKeyRecord_signature r := Ok [Byte.x08];
|}.

Lemma id_of_show id : in_u32 id → id_of (show_u id) = Ok id.
Proof. intros. unfold id_of. by rewrite parse_u32_show. Qed.

#[global] Instance key_laws : KeyLaws.
Proof.
  constructor; try (intros; done).
  - intros g. simpl. by rewrite fit_length.
  - intros id t kp sig Hid. by apply id_of_show.
  - intros id priv g r Hid [= <-]. split; [by apply id_of_show|done].
Qed.

(** A keyed checksum in place of HMAC, the identity in place of AES. *)
Definition mix (k m : bytes) : bytes := fit 32 (m ++ k).
#[global] Instance crypto : Crypto := {|
  hmac_sha256 k m := Some (mix k m);
  hkdf_sha256 ikm info n :=
    if bool_decide (n ≤ 255 * 32) then Some (fit n (ikm ++ info)) else None;
  aes256_cbc_decrypt k iv c :=
    if bool_decide (length k = 32 ∧ length iv = 16) then Some (Some (drop 16 c)) else None;
  aes256_block k b := fit 16 b;
  aes256_gcm_encrypt k n m a :=
    if bool_decide (length k = 32 ∧ length n = 12) then Some (m ++ fit 16 k) else None;
|}.
#[global] Instance crypto_laws : CryptoLaws.
Proof.
  refine {| aes256_cbc_encrypt k iv m := fit 16 iv ++ m |}; simpl.
  - intros k m. eexists. split; [done|]. apply fit_length.
  - intros ikm info n Hn. rewrite bool_decide_true by lia. eexists. split; [done|].
    apply fit_length.
  - intros k iv m Hk Hiv. rewrite bool_decide_true by done.
    by rewrite drop_app_length' by (by rewrite fit_length).
  - intros. rewrite length_app, fit_length. lia.
  - intros. apply fit_length.
  - intros k n m a Hk Hn. rewrite bool_decide_true by done. eexists. split; [done|].
    by rewrite length_app, fit_length.
Defined.
End ToyKeys.
