(* ===== verification/StoreTests.v ===== *)
(** The on-device store tests (bin/test_stores.rs).

    The program runs every protocol store against the device's PDDB and ends the
    process with 0 when no check failed.  Each block returns its verdicts, the name
    logged with [PASS] or [FAIL] and which of the two it was; an [unwrap] that
    fails is [TestPanic].

    The theorem: on every lawful PDDB the program ends with 0, all of its checks
    pass, and it changes nothing outside its own dictionaries, so it is safe to run
    on a linked device. *)

From S2P Require Import Prelude Hoare RustStd Base64 Pddb Signal Stores World SendWorld Keys.

Inductive test_panic := TestPanic.
Record verdict := Verdict { v_name : bytes; v_pass : bool }.
Abbreviation PASS n := (Verdict n true).
Abbreviation FAIL n := (Verdict n false).

(** [IdentityKey::new] *)
Class IdentityOps `{Libsignal} := { IdentityKey_new : PublicKey → IdentityKey }.

Definition TEST_PREKEY : bytes := "sigchat.test.prekey"%bs.
Definition TEST_SIGNED : bytes := "sigchat.test.signed_prekey"%bs.
Definition TEST_KYBER : bytes := "sigchat.test.kyber_prekey"%bs.
Definition TEST_SESSION : bytes := "sigchat.test.session"%bs.
Definition TEST_IDENTITY : bytes := "sigchat.test.identity"%bs.

Section tests.
Context `{KeyOps, !IdentityOps, Base64} {P O : Type} `{Pddb P, Host O}.
Abbreviation M := (ST (World P O) test_panic).

Definition unwrap {E A} (r : result E A) : M A := lift (map_err (λ _, TestPanic) r).
(** [block_on(store.method(..))] *)
Definition store_call {E A} (c : ST P E A) : M (result E A) := try (on_pddb c).
Definition assert_ok {E A} (name : bytes) (r : result E A) : verdict :=
  Verdict name (is_ok r).

(** [KeyPair::generate] and [IdentityKeyPair::generate], whose private half is used *)
Definition generate_pair : M (PublicKey * PrivateKey) := g ← draw_entropy; mret (KeyPair_generate g).

(** [record.serialize().unwrap() == loaded.serialize().unwrap()] after a load *)
Definition round_trip `{Codec R} (load match_name : bytes)
    (record : R) (loaded : result SignalProtocolError R) : M verdict :=
  match loaded with
  | Ok loaded =>
      a ← unwrap (serialize record);
      b ← unwrap (serialize loaded);
      mret (Verdict match_name (bool_decide (a = b)))
  | Err _ => mret (FAIL load)
  end.

Definition test_prekey : M (list verdict) :=
  let store := {| prekey_dict := TEST_PREKEY |} in
  kp ← generate_pair;
  let record := PreKeyRecord_new 42 kp in
  saved ← store_call (PreKey_save_pre_key store 42 record);
  loaded ← store_call (PreKey_get_pre_key store 42);
  v ← round_trip "prekey/load"%bs "prekey/round-trip bytes match"%bs record loaded;
  removed ← store_call (PreKey_remove_pre_key store 42);
  after_remove ← store_call (PreKey_get_pre_key store 42);
  mret [assert_ok "prekey/save"%bs saved; v; assert_ok "prekey/remove"%bs removed;
        Verdict "prekey/missing-after-remove"%bs
          match after_remove with Err InvalidPreKeyId => true | _ => false end].

Definition test_signed_prekey : M (list verdict) :=
  let store := {| signed_dict := TEST_SIGNED |} in
  id_pair ← generate_pair;
  kp ← generate_pair;
  g ← draw_entropy;
  sig ← unwrap (calculate_signature id_pair.2 (public_serialize kp.1) g);
  let record := SignedPreKeyRecord_new 1 0 kp sig in
  saved ← store_call (SignedPreKey_save_signed_pre_key store 1 record);
  loaded ← store_call (SignedPreKey_get_signed_pre_key store 1);
  v ← round_trip "signed_prekey/load"%bs "signed_prekey/round-trip bytes match"%bs record loaded;
  mret [assert_ok "signed_prekey/save"%bs saved; v].

Definition test_kyber_prekey : M (list verdict) :=
  let store := {| kyber_dict := TEST_KYBER |} in
  id_pair ← generate_pair;
  g ← draw_entropy;
  record ← unwrap (KyberPreKeyRecord_generate 1 id_pair.2 g);
  saved ← store_call (KyberPreKey_save_kyber_pre_key store 1 record);
  loaded ← store_call (KyberPreKey_get_kyber_pre_key store 1);
  v ← round_trip "kyber_prekey/load"%bs "kyber_prekey/round-trip bytes match"%bs record loaded;
  mret [assert_ok "kyber_prekey/save"%bs saved; v].

Definition NIL_UUID : bytes := "00000000-0000-0000-0000-000000000000"%bs.
Definition test_session : M (list verdict) :=
  let store := {| session_dict := TEST_SESSION |} in
  dev ← unwrap (DeviceId_new 1);
  result ← store_call (Session_load_session store (Addr NIL_UUID dev));
  mret [Verdict "session/missing-returns-none"%bs
          match result with Ok None => true | _ => false end].

Definition test_identity : M (list verdict) :=
  let store := {| account_dict := ACCOUNT_DICT; identity_dict := TEST_IDENTITY |} in
  kp ← generate_pair;
  let identity := IdentityKey_new kp.1 in
  dev ← unwrap (DeviceId_new 2);
  let addr := Addr "aaaaaaaa-bbbb-cccc-dddd-eeeeeeeeeeee"%bs dev in
  change ← store_call (Identity_save_identity store addr identity);
  got ← store_call (Identity_get_identity store addr);
  trusted ← store_call (Identity_is_trusted_identity store addr identity Receiving);
  mret [assert_ok "identity/save-new"%bs change;
        match got with
        | Ok (Some loaded) =>
            Verdict "identity/round-trip bytes match"%bs
              (bool_decide (identity_serialize identity = identity_serialize loaded))
        | _ => FAIL "identity/get"%bs
        end;
        Verdict "identity/trusted-after-save"%bs
          match trusted with Ok true => true | _ => false end].

(** Skipped on a device without an account. *)
Definition test_key_pair : M (list verdict) :=
  let store := {| account_dict := ACCOUNT_DICT; identity_dict := IDENTITY_DICT |} in
  result ← store_call (Identity_get_identity_key_pair store);
  mret match result with
       | Ok kp =>
           match identity_decode (identity_serialize kp.1) with
           | Ok _ => [PASS "identity/get_identity_key_pair (linked account)"%bs]
           | Err _ => [FAIL "identity/keypair-serialize-roundtrip"%bs]
           end
       | Err _ => []
       end.

(** The verdicts, and the exit code of the process. *)
Definition exit_code (vs : list verdict) : Z :=
  let failed := length (filter (λ v, v_pass v = false) vs) in
  if bool_decide (0 < failed) then 1%Z else 0%Z.
Definition run_tests : M (list verdict * Z) :=
  v1 ← test_prekey;
  v2 ← test_signed_prekey;
  v3 ← test_kyber_prekey;
  v4 ← test_session;
  v5 ← test_identity;
  v6 ← test_key_pair;
  let vs := v1 ++ v2 ++ v3 ++ v4 ++ v5 ++ v6 in
  mret (vs, exit_code vs).
End tests.

(** * The tests pass *)

(** Signing and Kyber key generation succeed. *)
Class Generates `{KeyOps} := {
  signs k m g : is_ok (calculate_signature k m g) = true;
  generates id k g : is_ok (KyberPreKeyRecord_generate id k g) = true;
}.

Section spec.
Context `{KeyLaws, !LibsignalLaws, !IdentityOps, !Generates, Base64} {P O : Type}.
Context `{PddbLaws P, Host O}.
Implicit Types w : World P O.

(** Only dictionary [d] has changed. *)
Definition only_dict (d : bytes) w w' : Prop :=
  w_log w' = w_log w ∧
  ∀ d' k, d' ≠ d → contents (w_pddb w') !! (d', k) = contents (w_pddb w) !! (d', k).
(** A block passes all of its [n] checks and stays in dictionary [d]. *)
Definition passes (d : bytes) (n : nat) w (vs : list verdict) w' : Prop :=
  Forall (λ v, v_pass v = true) vs ∧ length vs = n ∧ only_dict d w w'.

Lemma only_same d w w' :
  contents (w_pddb w') = contents (w_pddb w) → w_log w' = w_log w → only_dict d w w'.
Proof. intros Hc Hl. split; [done|]. intros d' k _. by rewrite Hc. Qed.
Lemma only_trans d w1 w2 w3 : only_dict d w1 w2 → only_dict d w2 w3 → only_dict d w1 w3.
Proof.
  intros [Hl1 Hc1] [Hl2 Hc2]. split; [congruence|]. intros d' k Hd. by rewrite Hc2, Hc1.
Qed.

Lemma wp_unwrap {E A} (r : result E A) (Q : A → World P O → Prop) R w :
  is_ok r = true → (∀ a, r = Ok a → Q a w) → wp (unwrap r) Q R w.
Proof. destruct r; [|done]. intros _ HQ. apply wp_lift. by apply HQ. Qed.
Lemma wp_generate (Q : PublicKey * PrivateKey → World P O → Prop) R w :
  (∀ g w', contents (w_pddb w') = contents (w_pddb w) → w_log w' = w_log w →
    Q (KeyPair_generate g) w') → wp generate_pair Q R w.
Proof. intros HQ. unfold wp, generate_pair, mbind, ST_bind, draw_entropy, on_out. destruct (os_entropy _). by apply HQ. Qed.
Lemma wp_entropy {E} (Q : bytes → World P O → Prop) (R : E → World P O → Prop) w :
  (∀ g w', contents (w_pddb w') = contents (w_pddb w) → w_log w' = w_log w → Q g w') →
  wp draw_entropy Q R w.
Proof. intros HQ. unfold wp, draw_entropy, on_out. destruct (os_entropy _). by apply HQ. Qed.
Lemma wp_store {E A} (c : ST P E A) r m (Q : result E A → World P O → Prop) R w :
  runs c (w_pddb w) r m →
  (∀ w', contents (w_pddb w') = m → w_log w' = w_log w → Q r w') →
  wp (store_call c) Q R w.
Proof.
  intros (p' & Ec & Hc) HQ. unfold wp, store_call, try, on_pddb. rewrite Ec. by apply HQ.
Qed.
Lemma wp_round_trip `{CodecLaws A} l n (a : A) (Q : verdict → World P O → Prop) R w :
  is_ok (serialize a) = true → Q (PASS n) w → wp (round_trip l n a (Ok a)) Q R w.
Proof.
  intros Hs HQ. apply wp_bind, wp_unwrap; [done|]. intros b Hb.
  apply wp_bind, wp_unwrap; [done|]. intros b' Hb'. apply wp_ret.
  assert (b' = b) as -> by congruence. by rewrite bool_decide_true.
Qed.

Lemma prekey_passes w : wp test_prekey (passes TEST_PREKEY 4 w) (λ _ _, False) w.
Proof.
  apply wp_bind, wp_generate. intros g w1 Hc1 Hl1.
  pose proof (PreKeyRecord_serializes 42 (KeyPair_generate g)) as Hs.
  destruct (serialize (PreKeyRecord_new 42 (KeyPair_generate g))) as [b|] eqn:Hb; [|done].
  apply wp_bind. eapply wp_store; [by apply save_pre_key_spec|]. intros w2 Hc2 Hl2.
  apply wp_bind. eapply wp_store; [apply get_pre_key_spec|]. intros w3 Hc3 Hl3.
  rewrite Hc2. simpl prekey_dict. rewrite lookup_insert_eq, (deserialize_serialize _ _ Hb).
  apply wp_bind, wp_round_trip; [by rewrite Hb|].
  apply wp_bind. eapply wp_store; [apply remove_pre_key_spec|]. intros w4 Hc4 Hl4.
  apply wp_bind. eapply wp_store; [apply get_pre_key_spec|]. intros w5 Hc5 Hl5.
  simpl prekey_dict in *. rewrite Hc4, lookup_delete_eq. apply wp_ret.
  split; [by repeat constructor|]. split; [done|]. split; [congruence|]. intros d' k Hd.
  rewrite Hc5, Hc4, Hc3, Hc2, lookup_delete_ne, lookup_insert_ne by congruence. by rewrite Hc1.
Qed.

Lemma signed_prekey_passes w : wp test_signed_prekey (passes TEST_SIGNED 2 w) (λ _ _, False) w.
Proof.
  apply wp_bind, wp_generate. intros g0 w0 Hc0 Hl0. apply wp_bind, wp_generate. intros g w1 Hc1 Hl1.
  apply wp_bind, wp_entropy. intros g2 w2 Hc2 Hl2.
  apply wp_bind, wp_unwrap; [apply signs|]. intros sig _.
  pose proof (SignedPreKeyRecord_serializes 1 0 (KeyPair_generate g) sig) as Hs.
  apply wp_bind. eapply wp_store; [apply save_record_runs|]. intros w3 Hc3 Hl3.
  destruct (serialize _) as [b|] eqn:Hb; [|done].
  apply wp_bind. eapply wp_store; [apply get_signed_pre_key_spec|]. intros w4 Hc4 Hl4.
  simpl signed_dict in *. rewrite Hc3, lookup_insert_eq, (deserialize_serialize _ _ Hb).
  apply wp_bind, wp_round_trip; [by rewrite Hb|]. apply wp_ret.
  split; [by repeat constructor|]. split; [done|]. split; [congruence|]. intros d' k Hd.
  rewrite Hc4, Hc3, lookup_insert_ne by congruence. congruence.
Qed.

Lemma kyber_prekey_passes w : wp test_kyber_prekey (passes TEST_KYBER 2 w) (λ _ _, False) w.
Proof.
  apply wp_bind, wp_generate. intros g w1 Hc1 Hl1. apply wp_bind, wp_entropy. intros g2 w2 Hc2 Hl2.
  apply wp_bind, wp_unwrap; [apply generates|]. intros record Hr.
  apply KyberPreKeyRecord_generated in Hr as [_ Hs]; [|by unfold in_u32, u32_max; lia].
  apply wp_bind. eapply wp_store; [apply save_record_runs|]. intros w3 Hc3 Hl3.
  destruct (serialize record) as [b|] eqn:Hb; [|done].
  apply wp_bind. eapply wp_store; [apply get_kyber_spec|]. intros w4 Hc4 Hl4.
  simpl kyber_dict in *. rewrite Hc3, lookup_insert_eq, (deserialize_serialize _ _ Hb).
  apply wp_bind, wp_round_trip; [by rewrite Hb|]. apply wp_ret.
  split; [by repeat constructor|]. split; [done|]. split; [congruence|]. intros d' k Hd.
  rewrite Hc4, Hc3, lookup_insert_ne by congruence. congruence.
Qed.

(** [DeviceId::new] of a small id *)
Lemma wp_device d (Q : Z → World P O → Prop) R w :
  (1 ≤ d ≤ 127)%Z → Q d w → wp (unwrap (DeviceId_new d)) Q R w.
Proof.
  intros Hd HQ. assert (DeviceId_new d = Ok d) as -> by (by apply DeviceId_new_range). by apply wp_lift.
Qed.

Lemma session_passes w :
  contents (w_pddb w) !! (TEST_SESSION, address_key (Addr NIL_UUID 1)) = None →
  wp test_session (passes TEST_SESSION 1 w) (λ _ _, False) w.
Proof.
  intros Hn. apply wp_bind, wp_device; [lia|]. apply wp_bind.
  eapply wp_store; [apply load_session_runs|]. intros w1 Hc1 Hl1. simpl session_dict. rewrite Hn.
  apply wp_ret. split; [by repeat constructor|]. split; [done|]. by apply only_same.
Qed.

Lemma identity_passes w : wp test_identity (passes TEST_IDENTITY 3 w) (λ _ _, False) w.
Proof.
  apply wp_bind, wp_generate. intros g w1 Hc1 Hl1. apply wp_bind, wp_device; [lia|].
  set (store := {| account_dict := ACCOUNT_DICT; identity_dict := TEST_IDENTITY |}).
  set (a := Addr _ 2). set (k := IdentityKey_new _).
  destruct (save_identity_spec store a k (w_pddb w1)) as (p2 & E2 & Hpin & Hother).
  apply wp_bind. eapply wp_store; [by exists p2|]. intros w2 Hc2 Hl2.
  assert (pinned store (w_pddb w2) a = Some (Ok k)) as Hpin2 by (unfold pinned in *; by rewrite Hc2).
  assert (runs (Identity_get_identity store a) (w_pddb w2) (Ok (Some k)) (contents (w_pddb w2))) as Hget.
  { eapply runs_bind; [apply read_record_spec|]. intros p Hp. unfold pinned in Hpin2.
    destruct (contents (w_pddb w2) !! _) as [b|]; [|done]. injection Hpin2 as Hdec. rewrite Hdec.
    eapply runs_bind; [by apply runs_lift|]. intros. by apply runs_ret. }
  apply wp_bind. eapply wp_store; [exact Hget|]. intros w3 Hc3 Hl3.
  apply wp_bind. eapply wp_store; [apply is_trusted_spec|]. intros w4 Hc4 Hl4. apply wp_ret.
  assert (pinned store (w_pddb w3) a = Some (Ok k)) as -> by (unfold pinned in *; by rewrite Hc3).
  simpl. rewrite !bool_decide_true by done.
  split; [by repeat constructor|]. split; [done|]. split; [congruence|]. intros d' key Hd.
  rewrite Hc4, Hc3, Hc2, Hother by (simpl; congruence). by rewrite Hc1.
Qed.

(** Calls that only read. *)
Definition same_contents (p p' : P) : Prop := contents p' = contents p.
#[local] Instance same_contents_preorder : PreOrder same_contents.
Proof. split; [done|]. intros p1 p2 p3 H12 H23. exact (eq_trans H23 H12). Qed.
Lemma account_string_same {E} d k : preserved same_contents (read_account_string (E := E) d k).
Proof. intros p. destruct (read_account_string_runs (E := E) d k p) as (r & p' & -> & Hc). exact Hc. Qed.
Lemma key_pair_same self : preserved same_contents (Identity_get_identity_key_pair self).
Proof.
  unfold Identity_get_identity_key_pair. pose proof @account_string_same as Ha.
  repeat (apply preserved_bind; [exact _| |intros ?]);
    first [apply Ha|apply preserved_lift; exact _|apply preserved_ret; exact _].
Qed.

Lemma key_pair_passes w :
  wp test_key_pair (λ vs w', ∃ n, n ≤ 1 ∧ passes TEST_IDENTITY n w vs w') (λ _ _, False) w.
Proof.
  unfold test_key_pair. set (store := {| account_dict := _ |}).
  pose proof (key_pair_same store (w_pddb w)) as Hc. apply wp_bind. eapply wp_store.
  { by eexists _; split; [apply surjective_pairing|]. }
  intros w1 Hc1 Hl1. apply wp_ret.
  assert (only_dict TEST_IDENTITY w w1) as Ho by (apply only_same; [congruence|done]).
  destruct (Identity_get_identity_key_pair _ _) as [[kp|e] p']; simpl in *.
  - rewrite identity_decode_serialize. exists 1. split; [lia|]. split; [by repeat constructor|done].
  - exists 0. split; [lia|]. split; [constructor|done].
Qed.

Definition TEST_DICTS : list bytes :=
  [TEST_PREKEY; TEST_SIGNED; TEST_KYBER; TEST_SESSION; TEST_IDENTITY].
Lemma exit_zero vs : Forall (λ v, v_pass v = true) vs → exit_code vs = 0%Z.
Proof.
  intros Hvs. unfold exit_code. rewrite (bool_decide_false); [done|].
  assert (filter (λ v, v_pass v = false) vs = []) as ->; [|simpl; lia].
  induction Hvs as [|v vs Hv _ IH]; [done|]. rewrite filter_cons_False; [done|]. congruence.
Qed.
Lemma passes_more d n w1 vs w2 :
  passes d n w1 vs w2 → d ∈ TEST_DICTS →
  Forall (λ v, v_pass v = true) vs ∧ length vs = n ∧ w_log w2 = w_log w1 ∧
  ∀ d' k, d' ∉ TEST_DICTS → contents (w_pddb w2) !! (d', k) = contents (w_pddb w1) !! (d', k).
Proof.
  intros (Hp & Hn & Hl & Hc) Hd. split_and!; [done..|]. intros d' k Hd'. apply Hc. by intros ->.
Qed.

(** Run the next block, whose specification is [L]. *)
Ltac block L vs w' H :=
  apply wp_bind; eapply wp_mono; [apply L| |done]; intros vs w' H; simpl.

(** The on-device store tests pass.  On every PDDB that behaves as documented,
    and with no session under the nil address in the test dictionary, the test
    program runs to its end without a panic, all of its 12 checks pass, and the
    13th on a linked device, it exits with 0, shows nothing to the user, and
    leaves every dictionary of the client as it was. *)
Theorem store_tests_pass w :
  contents (w_pddb w) !! (TEST_SESSION, address_key (Addr NIL_UUID 1)) = None →
  ∃ vs w', run_tests w = (Ok (vs, 0%Z), w') ∧ Forall (λ v, v_pass v = true) vs ∧
    12 ≤ length vs ≤ 13 ∧ w_log w' = w_log w ∧
    ∀ d k, d ∉ TEST_DICTS → contents (w_pddb w') !! (d, k) = contents (w_pddb w) !! (d, k).
Proof.
  intros Hn.
  assert (wp run_tests (λ r w', Forall (λ v, v_pass v = true) r.1 ∧ r.2 = exit_code r.1 ∧
    12 ≤ length r.1 ≤ 13 ∧ w_log w' = w_log w ∧
    ∀ d k, d ∉ TEST_DICTS → contents (w_pddb w') !! (d, k) = contents (w_pddb w) !! (d, k))
    (λ _ _, False) w) as Hwp.
  { block prekey_passes v1 w1 B1. block signed_prekey_passes v2 w2 B2.
    block kyber_prekey_passes v3 w3 B3.
    assert (contents (w_pddb w3) !! (TEST_SESSION, address_key (Addr NIL_UUID 1)) = None) as Hn3
      by (by rewrite (proj2 (proj2 (proj2 B3))), (proj2 (proj2 (proj2 B2))), (proj2 (proj2 (proj2 B1)))).
    block (session_passes w3 Hn3) v4 w4 B4. block identity_passes v5 w5 B5.
    block key_pair_passes v6 w6 B6. destruct B6 as (n & Hn6 & B6). apply wp_ret. simpl.
    apply passes_more in B1 as (P1 & L1 & G1 & C1); [|set_solver].
    apply passes_more in B2 as (P2 & L2 & G2 & C2); [|set_solver].
    apply passes_more in B3 as (P3 & L3 & G3 & C3); [|set_solver].
    apply passes_more in B4 as (P4 & L4 & G4 & C4); [|set_solver].
    apply passes_more in B5 as (P5 & L5 & G5 & C5); [|set_solver].
    apply passes_more in B6 as (P6 & L6 & G6 & C6); [|set_solver].
    split_and!; [by repeat apply Forall_app_2|done|rewrite !length_app; lia..|congruence|].
    intros d k Hd. by rewrite C6, C5, C4, C3, C2, C1. }
  unfold wp in Hwp. destruct (run_tests w) as [[[vs c]|] w']; [|done].
  simpl in Hwp. destruct Hwp as (Hp & -> & Hlen & Hl & Hc). rewrite (exit_zero vs Hp). by exists vs, w'.
Qed.
End spec.

(** * The theorem at a device in memory *)

Module TestDevice.
#[global] Instance identity_ops : IdentityOps (H := Toy.libsignal) := {| IdentityKey_new k := k |}.
#[global] Instance generates : Generates.
Proof. by split. Qed.
(** A host without a network. *)
#[global] Instance bare_host : Host () := {|
  instant_now o := (0%Z, o); system_now o := (0%Z, o); os_entropy o := ([Byte.x07], o);
  host_sleep _ o := o; ureq_call _ o := (UreqTransport [], o); env_var _ _ := None;
|}.
Definition fresh : World flash () := MkWorld ∅ tt [].
End TestDevice.
Import TestDevice.

Lemma store_tests_pass_witness :
  ∃ vs w', run_tests fresh = (Ok (vs, 0%Z), w') ∧ Forall (λ v, v_pass v = true) vs ∧
    12 ≤ length vs ≤ 13 ∧ w_log w' = w_log fresh ∧
    ∀ d k, d ∉ TEST_DICTS → contents (w_pddb w') !! (d, k) = contents (w_pddb fresh) !! (d, k).
Proof. apply (store_tests_pass fresh). reflexivity. Defined.
