(* ===== verification/SendTests.v ===== *)
(** The tests of manager/send.rs, run on the model.

    The test doubles of the file ([MockHttp], [StatefulMockHttp], [CountingDeleter],
    [TrackingSessionStore] over libsignal's in-memory stores) are one more environment
    of the generic send path: a [Rig] holds their state, and each test is a function
    that returns whether all of its assertions hold.  A panic of a double marks the rig.
    The tests run at the concrete libraries; what [OsRng] returned is fixed.

    Left out: the tests of the accessors of [Url] and [PreKeyBundle]. *)

From S2P Require Import Prelude RustStd Wire Base64 Json JsonLaws Pddb Signal Stores World Outgoing Server Send SendSpec SendLive SendWorld Keys StoreTests.

(** * Doubles *)

Inductive Expect :=
  | ExpectPut (url : bytes) (status : Z) (body : bytes)
  | ExpectGet (url : bytes) (status : Z) (body : bytes)
  | TransportErr.
Record MockHttp := { program : list Expect; calls : nat }.
Definition MockHttp_new (program : list Expect) : MockHttp := {| program := program; calls := 0 |}.

(** [url.contains(&expected)] *)
Definition contains (url expected : bytes) : bool :=
  match find_sub expected url with Some _ => true | None => false end.

(** An HTTP double: [None] is a panic. *)
Class Mock (H : Type) := {
  mock_put : bytes → bytes → bytes → H → option (result io_error HttpResponse) * H;
  mock_get : bytes → bytes → H → option (result io_error HttpResponse) * H;
}.
(** [self.program.drain(..1)] *)
Definition expectation (self : MockHttp) : option Expect * MockHttp :=
  match program self with
  | e :: p => (Some e, {| program := p; calls := S (calls self) |})
  | [] => (None, {| program := []; calls := S (calls self) |})
  end.
Definition MockHttp_put_json (url auth body : bytes) (self : MockHttp) :
    option (result io_error HttpResponse) * MockHttp :=
  let '(exp, self) := expectation self in
  (match exp with
   | Some (ExpectPut expected s b) =>
       if contains url expected then Some (Ok {| status := s; World.body := b |}) else None
   | Some TransportErr => Some (Err (IoError Other "simulated transport error"%bs))
   | Some (ExpectGet _ _ _) | None => None
   end, self).
Definition MockHttp_get_json (url auth : bytes) (self : MockHttp) :
    option (result io_error HttpResponse) * MockHttp :=
  let '(exp, self) := expectation self in
  (match exp with
   | Some (ExpectGet expected s b) =>
       if contains url expected then Some (Ok {| status := s; World.body := b |}) else None
   | Some TransportErr => Some (Err (IoError Other "simulated transport error"%bs))
   | Some (ExpectPut _ _ _) | None => None
   end, self).
#[global] Instance mock_http : Mock MockHttp :=
  {| mock_put := MockHttp_put_json; mock_get := MockHttp_get_json |}.
#[global] Instance mock_stateful `{SerdeJson} : Mock StatefulMockHttp :=
  {| mock_put := server_put_json; mock_get := server_get_json |}.

(** ** [InMemSignalProtocolStore] *)
Section lib_store.
Context `{Libsignal}.

Record LibStore := {
  identity_pair : IdentityKey * PrivateKey;
  store_registration_id : Z;
  mem_sessions : gmap (bytes * Z) SessionRecord;
  known_keys : gmap (bytes * Z) IdentityKey;
  mem_pre_keys : gmap Z PreKeyRecord;
  mem_signed_pre_keys : gmap Z SignedPreKeyRecord;
  mem_kyber_pre_keys : gmap Z KyberPreKeyRecord;
}.
Definition set_session (a : bytes * Z) (r : SessionRecord) (s : LibStore) : LibStore :=
  {| identity_pair := identity_pair s; store_registration_id := store_registration_id s;
     mem_sessions := <[a := r]> (mem_sessions s); known_keys := known_keys s;
     mem_pre_keys := mem_pre_keys s; mem_signed_pre_keys := mem_signed_pre_keys s;
     mem_kyber_pre_keys := mem_kyber_pre_keys s |}.
Definition set_known (a : bytes * Z) (k : IdentityKey) (s : LibStore) : LibStore :=
  {| identity_pair := identity_pair s; store_registration_id := store_registration_id s;
     mem_sessions := mem_sessions s; known_keys := <[a := k]> (known_keys s);
     mem_pre_keys := mem_pre_keys s; mem_signed_pre_keys := mem_signed_pre_keys s;
     mem_kyber_pre_keys := mem_kyber_pre_keys s |}.
Definition add_pre_keys (i j k : Z) (p : PreKeyRecord) (q : SignedPreKeyRecord) (r : KyberPreKeyRecord)
    (s : LibStore) : LibStore :=
  {| identity_pair := identity_pair s; store_registration_id := store_registration_id s;
     mem_sessions := mem_sessions s; known_keys := known_keys s;
     mem_pre_keys := <[i := p]> (mem_pre_keys s);
     mem_signed_pre_keys := <[j := q]> (mem_signed_pre_keys s);
     mem_kyber_pre_keys := <[k := r]> (mem_kyber_pre_keys s) |}.
End lib_store.

(** ** The rig *)
Section rig.
Context `{Libsignal} {C : Type} `{Mock C}.

Record Rig := MkRig {
  rig_http : C;
  rig_store : LibStore;
  seen : gset (bytes * Z);
  deletes : list ProtocolAddress;
  rig_panicked : bool;
}.
Definition at_addr (a : ProtocolAddress) : bytes * Z := (addr_name a, addr_device a).

Definition with_store (s : LibStore) (w : Rig) : Rig :=
  MkRig (rig_http w) s (seen w) (deletes w) (rig_panicked w).
(** [TrackingSessionStore] *)
Definition Tracking_load_session (address : ProtocolAddress) :
    ST Rig SignalProtocolError (option SessionRecord) :=
  gets (λ w, mem_sessions (rig_store w) !! at_addr address).
Definition Tracking_store_session (address : ProtocolAddress) (record : SessionRecord) :
    ST Rig SignalProtocolError () :=
  modify (λ w,
    MkRig (rig_http w) (set_session (at_addr address) record (rig_store w))
      ({[at_addr address]} ∪ seen w) (deletes w) (rig_panicked w)).
Definition Tracking_device_ids_for {E} (recipient_uuid : bytes) : ST Rig E (list Z) :=
  gets (λ w, sort_unstable (snd <$> filter (λ ud, ud.1 = recipient_uuid) (elements (seen w)))).
#[export] Instance rig_sessions : SessionStore Rig :=
  {| load_session := Tracking_load_session; store_session := Tracking_store_session |}.
#[export] Instance rig_enum : DeviceSessionEnum Rig := {| device_ids_for _ := Tracking_device_ids_for |}.

(** libsignal's in-memory identity store: trust on first use. *)
#[export] Instance rig_identities : IdentityKeyStore Rig := {|
  get_identity_key_pair := gets (λ w, identity_pair (rig_store w));
  get_local_registration_id := gets (λ w, store_registration_id (rig_store w));
  save_identity a k :=
    old ← gets (λ w, known_keys (rig_store w) !! at_addr a);
    modify (λ w, with_store (set_known (at_addr a) k (rig_store w)) w);;
    mret (match old with
          | Some k' => if bool_decide (k' = k) then NewOrUnchanged else ReplacedExisting
          | None => NewOrUnchanged
          end);
  is_trusted_identity a k _ :=
    gets (λ w, match known_keys (rig_store w) !! at_addr a with
               | Some k' => bool_decide (k' = k)
               | None => true
               end);
  get_identity a := gets (λ w, known_keys (rig_store w) !! at_addr a);
|}.

(** [CountingDeleter] *)
Definition Counting_delete {E} (address : ProtocolAddress) : ST Rig E () :=
  modify (λ w, MkRig (rig_http w) (rig_store w) (seen w) (deletes w ++ [address]) (rig_panicked w)).
Definition delete_count (w : Rig) : nat := length (deletes w).
#[export] Instance rig_deleter : SessionDeleter Rig := {| delete_at _ := Counting_delete |}.

(** [no_sleep]; the clock does not move within a test. *)
#[export] Instance rig_runtime : Runtime Rig := {|
  now _ := mret 0%Z; system_time _ := mret 0%Z; os_rng _ := mret [Byte.x07]; sleeper _ _ := mret tt
|}.

Definition on_http (f : C → option (result io_error HttpResponse) * C) : ST Rig io_error HttpResponse :=
  λ w, let '(r, h) := f (rig_http w) in
    match r with
    | Some r => (r, MkRig h (rig_store w) (seen w) (deletes w) (rig_panicked w))
    | None => (Err (IoError Other "panic"%bs), MkRig h (rig_store w) (seen w) (deletes w) true)
    end.
#[export] Instance rig_client : HttpClient Rig := {|
  put_json url auth body := on_http (mock_put url auth body);
  get_json url auth := on_http (mock_get url auth);
|}.
End rig.
Arguments Rig {_} _.

(** * Fixtures *)

(** [kem::KeyPair] and [KyberPreKeyRecord::new] of libsignal *)
Class KemOps `{Libsignal} := {
  kem_KeyPair : Type;
  kem_generate : bytes → kem_KeyPair;
  kem_public : kem_KeyPair → kem_PublicKey;
  KyberPreKeyRecord_new : Z → Z → kem_KeyPair → bytes → KyberPreKeyRecord;
}.
#[global] Instance toy_kem : KemOps (H := Toy.libsignal) := {|
  kem_KeyPair := bytes; kem_generate g := g; kem_public k := k;
  KyberPreKeyRecord_new id _ _ _ := show_u id : @KyberPreKeyRecord Toy.libsignal;
|}.

(** What the [n]-th draw of a test from [OsRng] returned. *)
Definition draw (n : nat) : bytes := [Zbyte (Z.of_nat n)].
Definition draw_u32 (n : nat) : Z := (1000 + Z.of_nat n)%Z.

Section fixtures.
Context `{KeyOps, !IdentityOps, !KemOps, Base64, SerdeJson}.

Definition fresh_lib_store (n : nat) : LibStore :=
  let kp := KeyPair_generate (draw n) in
  {| identity_pair := (IdentityKey_new kp.1, kp.2); store_registration_id := Z.of_nat (n + 1);
     mem_sessions := ∅; known_keys := ∅; mem_pre_keys := ∅; mem_signed_pre_keys := ∅;
     mem_kyber_pre_keys := ∅ |}.

(** The key pairs and signatures of a device; [None] is a failed [unwrap]. *)
Record device_keys := {
  dk_pre : PublicKey * PrivateKey; dk_signed : PublicKey * PrivateKey; dk_kyber : kem_KeyPair;
  dk_signed_sig : bytes; dk_kyber_sig : bytes;
  dk_pre_id : Z; dk_signed_id : Z; dk_kyber_id : Z;
}.
Definition generate_device_keys (identity : PrivateKey) (n : nat) : option device_keys :=
  let pre := KeyPair_generate (draw n) in
  let signed := KeyPair_generate (draw (n + 1)) in
  let kyber := kem_generate (draw (n + 2)) in
  signed_sig ← ok (calculate_signature identity (public_serialize signed.1) (draw (n + 3)));
  kyber_sig ← ok (calculate_signature identity (kem_serialize (kem_public kyber)) (draw (n + 4)));
  Some {| dk_pre := pre; dk_signed := signed; dk_kyber := kyber; dk_signed_sig := signed_sig;
          dk_kyber_sig := kyber_sig; dk_pre_id := draw_u32 n; dk_signed_id := draw_u32 (n + 1);
          dk_kyber_id := draw_u32 (n + 2) |}.
Definition save_device_keys (k : device_keys) : LibStore → LibStore :=
  add_pre_keys (dk_pre_id k) (dk_signed_id k) (dk_kyber_id k)
    (PreKeyRecord_new (dk_pre_id k) (dk_pre k))
    (SignedPreKeyRecord_new (dk_signed_id k) 42 (dk_signed k) (dk_signed_sig k))
    (KyberPreKeyRecord_new (dk_kyber_id k) 43 (dk_kyber k) (dk_kyber_sig k)).

Definition make_bundle (store : LibStore) (device_id : Z) (n : nat) : option (PreKeyBundle * LibStore) :=
  k ← generate_device_keys (identity_pair store).2 n;
  bundle ← ok (PreKeyBundle_new (store_registration_id store) device_id
                 (Some (dk_pre_id k, (dk_pre k).1)) (dk_signed_id k) (dk_signed k).1 (dk_signed_sig k)
                 (dk_kyber_id k) (kem_public (dk_kyber k)) (dk_kyber_sig k) (identity_pair store).1);
  Some (bundle, save_device_keys k store).

(** [STANDARD.encode(b).trim_end_matches('=')] *)
Definition unpad (b : bytes) : bytes := trim_end_matches "="%byte (b64_encode STANDARD b).
Definition prekey_json (identity : IdentityKey) (device_id registration_id : Z) (k : device_keys) : json :=
  JObj [("identityKey"%bs : bytes, JStr (unpad (identity_serialize identity)));
        ("devices"%bs : bytes, JArr [JObj
          [("deviceId"%bs : bytes, JInt device_id);
           ("registrationId"%bs : bytes, JInt registration_id);
           ("signedPreKey"%bs : bytes, JObj
             [("keyId"%bs : bytes, JInt (dk_signed_id k));
              ("publicKey"%bs : bytes, JStr (unpad (public_serialize (dk_signed k).1)));
              ("signature"%bs : bytes, JStr (unpad (dk_signed_sig k)))]);
           ("preKey"%bs : bytes, JObj
             [("keyId"%bs : bytes, JInt (dk_pre_id k));
              ("publicKey"%bs : bytes, JStr (unpad (public_serialize (dk_pre k).1)))]);
           ("pqPreKey"%bs : bytes, JObj
             [("keyId"%bs : bytes, JInt (dk_kyber_id k));
              ("publicKey"%bs : bytes, JStr (unpad (kem_serialize (kem_public (dk_kyber k)))));
              ("signature"%bs : bytes, JStr (unpad (dk_kyber_sig k)))])]])].
Definition make_registered_device (store : LibStore) (identity_kp : IdentityKey * PrivateKey)
    (device_id : Z) (n : nat) : option (RegisteredDevice * LibStore) :=
  k ← generate_device_keys identity_kp.2 n;
  body ← ok (to_vec (prekey_json identity_kp.1 device_id (Z.of_nat (n + 1)) k));
  Some ({| reg_device_id := device_id; prekey_response_body := body |}, save_device_keys k store).
End fixtures.

(** * Single submissions *)
Definition BOB_UUID : bytes := "00000000-0000-0000-0000-000000000002"%bs.
Definition fake_enc : EncryptedMessage :=
  {| ciphertext_bytes := replicate 16 Byte.xaa; ciphertext_type := 1; destination_device_id := 2;
     destination_registration_id := 100; timestamp_ms := 1700000000000 |}.
Definition fake_account : AccountInfo :=
  {| aci_service_id := "00000000-0000-0000-0000-000000000001"%bs; acct_device_id := 1;
     acct_password := "pw"%bs; acct_host := "signal.org"%bs |}.

Definition tracking {C} (http : C) (store : LibStore) (seed : list (bytes * Z)) : Rig C :=
  MkRig http store (list_to_set seed) [] false.
(** A test over a run: the assertions hold and no double panicked. *)
Definition checked {C A} (run : result SendError A * Rig C) (P : result SendError A → Rig C → bool) : bool :=
  negb (rig_panicked run.2) && P run.1 run.2.
Definition submit_once (program : list Expect) : result SendError () * Rig MockHttp :=
  submit_encrypted_message fake_account fake_enc BOB_UUID
    (tracking (MockHttp_new program) (fresh_lib_store 0) []).
Definition answered_with (s : Z) (b : bytes) : list Expect := [ExpectPut "/v1/messages/"%bs s b].

Definition submit_200_returns_ok : bool :=
  checked (submit_once (answered_with 200 "{}"%bs)) (λ r _, is_ok r).
Definition submit_401_returns_auth_failed : bool :=
  checked (submit_once (answered_with 401 [])) (λ r _, match r with Err AuthFailed => true | _ => false end).
Definition submit_404_returns_service_id_not_found : bool :=
  checked (submit_once (answered_with 404 []))
    (λ r _, match r with Err ServiceIdNotFound => true | _ => false end).
Definition submit_413_returns_payload_too_large : bool :=
  checked (submit_once (answered_with 413 []))
    (λ r _, match r with Err PayloadTooLarge => true | _ => false end).
Definition submit_428_returns_challenge_required : bool :=
  checked (submit_once (answered_with 428 []))
    (λ r _, match r with Err ChallengeRequired => true | _ => false end).
Definition submit_5xx_returns_unexpected : bool :=
  checked (submit_once (answered_with 502 []))
    (λ r _, match r with Err (Unexpected 502) => true | _ => false end).
(** The literal of an object with one field. *)
Definition ids_json (key ids : bytes) : bytes := "{"%bs ++ dq ++ key ++ dq ++ ":"%bs ++ ids ++ "}"%bs.
(** [Err(BadResponse(m)) if m.starts_with(marker)], the rest parsed *)
Definition marked (marker : bytes) (r : result SendError ()) (P : DeviceMismatchResponse → bool) : bool :=
  match r with
  | Err (BadResponse m) =>
      match strip_prefix marker m with
      | Some rest => match parse_mismatch rest with Ok mm => P mm | Err _ => false end
      | None => false
      end
  | _ => false
  end.
Definition devices_are (mm : DeviceMismatchResponse) (missing extra stale : list Z) : bool :=
  bool_decide (missing_devices mm = missing) && bool_decide (extra_devices mm = extra) &&
  bool_decide (stale_devices mm = stale).
Definition submit_409_carries_mismatch_marker : bool :=
  checked (submit_once (answered_with 409 (ids_json "missingDevices"%bs "[2,3]"%bs)))
    (λ r _, marked "MISMATCH 409 "%bs r (λ mm, devices_are mm [2; 3]%Z [] [])).
Definition submit_410_carries_mismatch_marker : bool :=
  checked (submit_once (answered_with 410 (ids_json "staleDevices"%bs "[4]"%bs)))
    (λ r _, marked "MISMATCH 410 "%bs r (λ mm, bool_decide (stale_devices mm = [4]%Z))).
Definition submit_transport_error_returns_transport : bool :=
  checked (submit_once [TransportErr]) (λ r _, match r with Err (Transport _) => true | _ => false end).

(** * Parsing, backoff, credentials, bodies *)
Definition parses (b : bytes) (P : DeviceMismatchResponse → bool) : bool :=
  match parse_mismatch b with Ok mm => P mm | Err _ => false end.
Definition mismatch_parse_missing_only : bool :=
  parses (ids_json "missingDevices"%bs "[2,3]"%bs) (λ mm, devices_are mm [2; 3]%Z [] []).
Definition mismatch_parse_missing_and_extra : bool :=
  parses ("{"%bs ++ dq ++ "missingDevices"%bs ++ dq ++ ":[],"%bs ++ dq ++ "extraDevices"%bs ++ dq ++ ":[4,5]}"%bs)
    (λ mm, bool_decide (missing_devices mm = []) && bool_decide (extra_devices mm = [4; 5]%Z)).
Definition mismatch_parse_stale_only : bool :=
  parses (ids_json "staleDevices"%bs "[7]"%bs) (λ mm, bool_decide (stale_devices mm = [7]%Z)).
Definition mismatch_parse_empty_object_ok : bool := parses "{}"%bs (λ mm, devices_are mm [] [] []).
Definition backoff_grows_then_caps : bool :=
  forallb (λ ab, (backoff ab.1 =? ab.2)%Z)
    [(1, 500); (2, 1000); (3, 2000); (4, 4000); (5, 4000); (20, 4000)]%Z.
Definition basic_auth_uses_aci_dot_device_id_form : bool :=
  match strip_prefix "Basic "%bs (basic_auth fake_account) with
  | Some h => bool_decide (b64_decode STANDARD h =
                           Some ("00000000-0000-0000-0000-000000000001.1:pw"%bs : bytes))
  | None => false
  end.
Definition int_is (z : Z) (v : json) : bool := match v with JInt x => (x =? z)%Z | _ => false end.
Definition bool_is (b : bool) (v : json) : bool := match v with JBool x => Bool.eqb x b | _ => false end.
Definition outgoing_entity_serializes_in_camel_case : bool :=
  let v := entity_json {| message_type := 1; entity_device_id := 2; entity_registration_id := 22;
                          content := "//8="%bs |} in
  int_is 1 (index "type"%bs v) && int_is 2 (index "destinationDeviceId"%bs v) &&
  int_is 22 (index "destinationRegistrationId"%bs v) &&
  match index "content"%bs v with JStr s => bool_decide (s = "//8="%bs) | _ => false end.
Definition submit_request_has_required_top_level_fields : bool :=
  let v := request_json {| messages := []; online := false; urgent := true; timestamp := 1700000000000 |} in
  match index "messages"%bs v with JNull => false | _ => true end &&
  bool_is false (index "online"%bs v) && bool_is true (index "urgent"%bs v) &&
  int_is 1700000000000 (index "timestamp"%bs v).
Definition submit_encrypted_message_request_url_includes_uuid : bool :=
  checked (submit_once [ExpectPut ("/v1/messages/"%bs ++ BOB_UUID) 200 "{}"%bs])
    (λ r w, is_ok r && bool_decide (calls (rig_http w) = 1)).

(** * Routing *)
Definition classify_ok_is_done : bool :=
  match classify_attempt (Ok tt) with Done => true | _ => false end.
Definition classify_409_carries_body : bool :=
  match classify_attempt (Err (BadResponse ("MISMATCH 409 "%bs ++ ids_json "missingDevices"%bs "[2]"%bs))) with
  | Mismatch409 b => bool_decide (b = ids_json "missingDevices"%bs "[2]"%bs)
  | _ => false
  end.
Definition classify_410_carries_body : bool :=
  match classify_attempt (Err (BadResponse ("MISMATCH 410 "%bs ++ ids_json "staleDevices"%bs "[3]"%bs))) with
  | Mismatch410 b => bool_decide (b = ids_json "staleDevices"%bs "[3]"%bs)
  | _ => false
  end.
Definition backs_off (e : SendError) : bool :=
  match classify_attempt (Err e) with Backoff => true | _ => false end.
Definition classify_5xx_is_backoff : bool := forallb (λ c, backs_off (Unexpected c)) [500; 502; 503; 599]%Z.
Definition classify_429_is_backoff : bool := backs_off (Unexpected 429).
Definition classify_transport_is_backoff : bool := backs_off (Transport "network down"%bs).
Definition classify_auth_failed_is_fatal : bool :=
  match classify_attempt (Err AuthFailed) with Fatal AuthFailed => true | _ => false end.
Definition classify_404_is_fatal : bool :=
  match classify_attempt (Err ServiceIdNotFound) with Fatal ServiceIdNotFound => true | _ => false end.
Definition classify_413_is_fatal : bool :=
  match classify_attempt (Err PayloadTooLarge) with Fatal PayloadTooLarge => true | _ => false end.
Definition classify_428_is_fatal : bool :=
  match classify_attempt (Err ChallengeRequired) with Fatal ChallengeRequired => true | _ => false end.
Definition classify_unexpected_4xx_is_fatal : bool :=
  match classify_attempt (Err (Unexpected 418)) with Fatal (Unexpected 418) => true | _ => false end.

(** * Base64 of the server *)
Definition bytes_0_64 : bytes := (λ n, Zbyte (Z.of_nat n)) <$> seq 0 64.
Definition ends_with_pad (s : bytes) : bool := bool_decide (last s = Some "="%byte).
Definition permissive_decoder_accepts_both_padding_modes : bool :=
  let padded := b64_encode STANDARD bytes_0_64 in
  let unpadded := trim_end_matches "="%byte padded in
  ends_with_pad padded && negb (ends_with_pad unpadded) &&
  bool_decide (b64_decode PERMISSIVE padded = Some bytes_0_64) &&
  bool_decide (b64_decode PERMISSIVE unpadded = Some bytes_0_64).
Definition standard_rejects_unpadded_input_pre_fix_repro : bool :=
  bool_decide (b64_decode STANDARD (unpad bytes_0_64) = None).

(** * The retry loop *)

(** [process_prekey_bundle(..).unwrap()] on the plain in-memory stores *)
Definition establish (a : ProtocolAddress) (bundle : PreKeyBundle) (store : LibStore) : option LibStore :=
  let '(r, w) := process_prekey_bundle a bundle 0 (draw 9) (tracking (MockHttp_new []) store []) in
  match r with Ok _ => Some (rig_store w) | Err _ => None end.
Definition alice_with_session_to_bob : option (LibStore * ProtocolAddress * ProtocolAddress) :=
  let alice := fresh_lib_store 0 in
  let bob := fresh_lib_store 1 in
  let alice_addr := Addr "alice-uuid"%bs 1 in
  let bob_addr := Addr "bob-uuid"%bs 2 in
  '(bob_bundle, bob) ← make_bundle bob 2 10;
  alice ← establish bob_addr bob_bundle alice;
  Some (alice, alice_addr, bob_addr).

Definition retry_with {C} `{Mock C} (http : C) (P : result SendError () → Rig C → bool) : bool :=
  match alice_with_session_to_bob with
  | Some (alice, alice_addr, bob_addr) =>
      checked (submit_with_retry_generic fake_account "hello"%bs 1700000000000 bob_addr alice_addr
                 (tracking http alice [("bob-uuid"%bs : bytes, 2%Z)])) P
  | None => false
  end.
Definition to_bob (s : Z) (b : bytes) : Expect := ExpectPut "/v1/messages/bob-uuid"%bs s b.

Definition retry_loop_happy_path_one_attempt : bool :=
  retry_with (MockHttp_new [to_bob 200 "{}"%bs])
    (λ r w, is_ok r && bool_decide (calls (rig_http w) = 1) && bool_decide (delete_count w = 0)).
Definition retry_loop_410_recovers_then_succeeds : bool :=
  retry_with (MockHttp_new [to_bob 410 (ids_json "staleDevices"%bs "[2]"%bs); to_bob 200 "{}"%bs])
    (λ _ w, bool_decide (delete_count w = 1) && bool_decide (1 ≤ calls (rig_http w))).
Definition retry_loop_5xx_exhausts_after_max_attempts : bool :=
  retry_with (MockHttp_new [to_bob 503 []; to_bob 503 []; to_bob 503 []])
    (λ r w, match r with Err RetryExhausted => true | _ => false end && bool_decide (calls (rig_http w) = 3)).
Definition retry_loop_401_fails_immediately_no_retry : bool :=
  retry_with (MockHttp_new [to_bob 401 []])
    (λ r w, match r with Err AuthFailed => true | _ => false end && bool_decide (calls (rig_http w) = 1)).
Definition retry_loop_404_fails_immediately_no_retry : bool :=
  retry_with (MockHttp_new [to_bob 404 []])
    (λ r w, match r with Err ServiceIdNotFound => true | _ => false end &&
            bool_decide (calls (rig_http w) = 1)).
Definition retry_loop_network_error_then_200_succeeds : bool :=
  retry_with (MockHttp_new [TransportErr; to_bob 200 "{}"%bs])
    (λ r w, is_ok r && bool_decide (calls (rig_http w) = 2)).
Definition send_with_stale_device_drops_session_and_succeeds : bool :=
  retry_with (MockHttp_new [to_bob 410 (ids_json "staleDevices"%bs "[2]"%bs); to_bob 200 "{}"%bs])
    (λ _ w, bool_decide (delete_count w = 1)).

(** * Fan-out against the server *)

(** The devices the last PUT addressed. *)
Definition last_addressed (http : StatefulMockHttp) : option (list Z) :=
  b ← last_put_body http;
  req ← from_slice b;
  entries ← as_array (index "messages"%bs req);
  mapM (λ e, as_u32 <$> as_u64 (index "destinationDeviceId"%bs e)) entries.

Definition bob_server : option StatefulMockHttp :=
  let state := fresh_lib_store 2 in
  '(dev1, state) ← make_registered_device state (identity_pair state) 1 20;
  '(dev2, state) ← make_registered_device state (identity_pair state) 2 30;
  Some (register_device "bob-uuid"%bs dev2 (register_device "bob-uuid"%bs dev1 StatefulMockHttp_new)).
Definition send_with_two_recipient_devices_fans_out_after_409 : bool :=
  match bob_server with
  | Some http =>
      retry_with http (λ r w,
        is_ok r && bool_decide (2 ≤ put_count (rig_http w)) && bool_decide (1 ≤ get_count (rig_http w)) &&
        match last_addressed (rig_http w) with
        | Some ids => bool_decide (1%Z ∈ ids) && bool_decide (2%Z ∈ ids)
        | None => false
        end)
  | None => false
  end.

Definition sync_with (http : StatefulMockHttp) (alice : LibStore) (seed : list (bytes * Z))
    (P : result SendError () → Rig StatefulMockHttp → bool) : bool :=
  checked (submit_sync_transcript_generic fake_account "hello sync"%bs "bob-uuid"%bs 1700000000000
             "alice-uuid"%bs 1 (Addr "alice-uuid"%bs 1) (tracking http alice seed)) P.
Definition sync_transcript_fans_out_to_own_other_devices : bool :=
  let test :=
    let alice := fresh_lib_store 0 in
    '(other_bundle, other) ← make_bundle (fresh_lib_store 3) 7 40;
    alice ← establish (Addr "alice-uuid"%bs 7) other_bundle alice;
    '(dev7, _) ← make_registered_device (fresh_lib_store 4) (identity_pair alice) 7 50;
    let http := register_device "alice-uuid"%bs dev7 StatefulMockHttp_new in
    Some (sync_with http alice [("alice-uuid"%bs : bytes, 7%Z)] (λ r w,
      is_ok r && bool_decide (put_count (rig_http w) = 1) &&
      bool_decide (last_addressed (rig_http w) = Some [7%Z])))
  in default false test.
Definition sync_transcript_skipped_when_own_account_has_no_other_devices : bool :=
  sync_with StatefulMockHttp_new (fresh_lib_store 0) [] (λ r w,
    is_ok r && bool_decide (put_count (rig_http w) = 0) && bool_decide (get_count (rig_http w) = 1)).

(** * All of them *)
Definition send_tests : list bool :=
  [submit_200_returns_ok; submit_401_returns_auth_failed; submit_404_returns_service_id_not_found;
   submit_413_returns_payload_too_large; submit_428_returns_challenge_required;
   submit_5xx_returns_unexpected; submit_409_carries_mismatch_marker;
   submit_410_carries_mismatch_marker; submit_transport_error_returns_transport;
   mismatch_parse_missing_only; mismatch_parse_missing_and_extra; mismatch_parse_stale_only;
   mismatch_parse_empty_object_ok; backoff_grows_then_caps; basic_auth_uses_aci_dot_device_id_form;
   outgoing_entity_serializes_in_camel_case; submit_request_has_required_top_level_fields;
   submit_encrypted_message_request_url_includes_uuid; classify_ok_is_done;
   classify_409_carries_body; classify_410_carries_body; classify_5xx_is_backoff;
   classify_429_is_backoff; classify_transport_is_backoff; classify_auth_failed_is_fatal;
   classify_404_is_fatal; classify_413_is_fatal; classify_428_is_fatal;
   classify_unexpected_4xx_is_fatal; permissive_decoder_accepts_both_padding_modes;
   standard_rejects_unpadded_input_pre_fix_repro; retry_loop_happy_path_one_attempt;
   retry_loop_410_recovers_then_succeeds; retry_loop_5xx_exhausts_after_max_attempts;
   retry_loop_401_fails_immediately_no_retry; retry_loop_404_fails_immediately_no_retry;
   retry_loop_network_error_then_200_succeeds; send_with_stale_device_drops_session_and_succeeds;
   send_with_two_recipient_devices_fans_out_after_409; sync_transcript_fans_out_to_own_other_devices;
   sync_transcript_skipped_when_own_account_has_no_other_devices].

Ltac all_pass := repeat (constructor; [by vm_compute|]); constructor.
(** Every test of manager/send.rs that is modelled here, played with its doubles on the
    model of the send path, has all of its assertions hold and no double panics. *)
Lemma send_tests_all : Forall (λ passed, passed = true) send_tests.
Proof. unfold send_tests. all_pass. Qed.

(** * The convergence theorem at a concrete run

    Alice has a session with Bob's device 1 only; the server knows his devices 1 and 2. *)
Definition two_device_server : StatefulMockHttp :=
  default StatefulMockHttp_new (
    let state := fresh_lib_store 2 in
    '(dev1, state) ← make_registered_device state (identity_pair state) 1 20;
    '(dev2, _) ← make_registered_device state (identity_pair state) 2 30;
    Some (register_device "bob"%bs dev2 (register_device "bob"%bs dev1 StatefulMockHttp_new))).
Definition key_answer (d : Z) : ureq_result :=
  match server_get_json ("https://chat.example.org/v2/keys/bob/"%bs ++ show_u d) [] two_device_server with
  | (Some (Ok resp), _) => UreqOk (status resp) (Ok (body resp))
  | _ => UreqTransport []
  end.
Definition missing_2 : ureq_result :=
  match to_vec (devices_json [2%Z] []) with
  | Ok b => UreqStatus 409 (Ok b)
  | Err _ => UreqTransport []
  end.
Definition served_world : World flash sim :=
  demo_world [missing_2; key_answer 2; UreqOk 200 (Ok ("{}"%bs : bytes))].
Definition served_run : result SendError bool * World flash sim :=
  submit_padded_with_retry_generic demo_account padded_hi 1000 "bob"%bs 1 None demo_local served_world.

Lemma two_devices d : d ∈ registered_device_ids two_device_server "bob"%bs ↔ d = 1%Z ∨ d = 2%Z.
Proof.
  assert (registered_device_ids two_device_server "bob"%bs = list_to_set [1%Z; 2%Z]) as -> by by vm_compute.
  rewrite elem_of_list_to_set, elem_of_cons, list_elem_of_singleton. done.
Qed.
Lemma served_log : Forall (answered_by two_device_server) (w_log served_run.2).
Proof.
  remember (w_log served_run.2) as l eqn:El. vm_compute in El. subst l.
  repeat (apply Forall_cons; split; [by vm_compute|]). constructor.
Qed.
Lemma two_attempts_suffice_witness :
  served_run.1 = Ok true ∧
  (∃ start w1, now (E := SendError) served_world = (Ok start, w1) ∧
     iter 2 (send_attempt demo_account padded_hi 1000 "bob"%bs 1 None demo_local start) 0%Z w1 =
       Some (served_run.1, served_run.2)) ∧
  quiet (w_log served_run.2) 2 ∧
  converged demo_account 1000 "bob"%bs None two_device_server served_run.1 served_run.2 (w_log served_run.2).
Proof.
  split; [by vm_compute|].
  apply (two_attempts_suffice demo_account padded_hi 1000 "bob"%bs 1 None demo_local two_device_server).
  - intros base Hbase. vm_compute in Hbase. injection Hbase as <-. by vm_compute.
  - intros base d [->| ->]%two_devices Hbase; vm_compute in Hbase; injection Hbase as <-; by vm_compute.
  - by vm_compute.
  - intros d [->| ->]%two_devices; lia.
  - apply demo_wf.
  - exists 1%Z. apply two_devices. by left.
  - done.
  - symmetry. apply surjective_pairing.
  - reflexivity.
  - apply served_log.
Defined.
