(* ===== verification/OutgoingTests.v ===== *)
(** The encryption tests of manager/outgoing.rs, run on the model.

    The tests encrypt on one side, decrypt on the other, and tell the first messages of a
    session from the later ones.  [Handshake] is a concrete library that does: a session
    is unacknowledged until a message of the peer has been read in it, and until then
    messages travel as pre-key messages.  It satisfies the laws of Signal.v and of
    EndToEnd.v, the second with both kinds of message. *)

From S2P Require Import Prelude RustStd Wire Base64 Json Pddb Signal Stores World Outgoing Server Send SendSpec SendWorld Peers Receive ReceiveSpec EndToEnd Keys SendTests.

(** * A library with a handshake

    A session record is the peer's registration id and whether the peer is still to
    answer; a pre-key message starts with the id of the one-time pre-key. *)
Module Handshake.
Section api.
Context {W : Type} `{!SessionStore W, !IdentityKeyStore W}.

Definition awaiting (r : bytes) : bool := match r with [_; s] => bool_decide (s = Byte.x01) | _ => false end.
Definition acknowledged (r : bytes) : bytes := take 1 r ++ [Byte.x00].
Definition encrypt (m : bytes) (a l : ProtocolAddress) (t : Z) (g : bytes) :
    ST W SignalProtocolError CiphertextMessage :=
  s ← load_session a;
  match s with
  | None => throw (SessionNotFound a)
  | Some r => store_session a r;;
              mret (if awaiting r then PreKeySignalMessage (Byte.x00 :: m) else SignalMessage m)
  end.
Definition process (a : ProtocolAddress) (b : PreKeyBundle) (t : Z) (g : bytes) :
    ST W SignalProtocolError () :=
  trusted ← is_trusted_identity a b.2 Sending;
  if (trusted : bool) then save_identity a b.2;; store_session a [Zbyte b.1; Byte.x01]
  else throw (UntrustedIdentity a).
Definition decrypt_signal (m : bytes) (a : ProtocolAddress) (g : bytes) : ST W SignalProtocolError bytes :=
  s ← load_session a;
  match s with
  | None => throw (SessionNotFound a)
  | Some r => store_session a (acknowledged r);; mret m
  end.
Context `{!PreKeyStore W, !SignedPreKeyStore W, !KyberPreKeyStore W}.
Definition decrypt_prekey (m : bytes) (a l : ProtocolAddress) (g : bytes) : ST W SignalProtocolError bytes :=
  get_identity_key_pair (W := W);;
  match m with
  | i :: body => remove_pre_key (W := W) (byteZ i);; store_session (W := W) a (acknowledged [i]);; mret body
  | [] => throw (LibError "empty"%bs)
  end.
End api.

Definition protocol : Protocol := {|
  message_encrypt W _ _ := encrypt;
  process_prekey_bundle W _ _ := process;
  message_decrypt_prekey W _ _ _ _ _ := decrypt_prekey;
  message_decrypt_signal W _ _ := decrypt_signal;
  prekey_message_try_from b := Ok b;
  signal_message_try_from b := Ok b;
  SenderCertificate := bool;
  USMC := bool * CiphertextMessageType * bytes;
  sealed_sender_decrypt_to_usmc W _ c := throw (LibError "not supported"%bs);
  usmc_sender u := Ok u.1.1;
  usmc_msg_type u := Ok u.1.2;
  usmc_contents u := Ok u.2;
  validate_with_trust_roots c _ _ := Ok c;
  sender_uuid _ := Err (LibError "not supported"%bs);
  sender_device_id _ := Err (LibError "not supported"%bs);
|}.

Lemma protocol_laws : ProtocolLaws (H0 := protocol).
Proof.
  constructor; simpl.
  - intros W S I R m a l t g HR [Hl Hs] _. unfold encrypt.
    apply preserved_bind; [done|done|]. intros [r|]; auto with frame.
  - intros W S I R a b t g HR [Hl Hs] (? & ? & Hsave & Ht & ?). unfold process.
    apply preserved_bind; [done|done|]. intros []; auto with frame.
  - intros W S I Q a b t g w w' Hrun Hst _. unfold process, mbind, ST_bind in Hrun.
    repeat case_match; naive_solver.
  - intros W S I P SP K R m a l g HR [Hl Hs] (Hp & _) (? & Hr & _). unfold decrypt_prekey.
    apply preserved_bind; [done|done|]. intros _. destruct m; auto 10 with frame.
  - intros W S I R m a g HR [Hl Hs] _. unfold decrypt_signal.
    apply preserved_bind; [done|done|]. intros [r|]; auto with frame.
  - intros W I R c HR Hp. auto with frame.
Qed.

Lemma encrypt_Ok {W} `{!SessionStore W} m a l t g (w w' : W) c :
  encrypt m a l t g w = (Ok c, w') → c = SignalMessage m ∨ c = PreKeySignalMessage (Byte.x00 :: m).
Proof.
  intros ([r|] & w1 & _ & Hr)%bind_Ok; [|done]. apply bind_Ok in Hr as (? & w2 & _ & [= <- _]).
  destruct (awaiting r); auto.
Qed.
Lemma decrypt_laws : DecryptLaws (H0 := protocol).
Proof.
  constructor; simpl.
  - intros until pt. intros [[= ->]|[=]]%encrypt_Ok [= <-] ([r|] & v2 & _ & Hr)%bind_Ok; [|done].
    by apply bind_Ok in Hr as (? & v3 & _ & [= <- _]).
  - intros until pt. intros [[=]|[= ->]]%encrypt_Ok [= <-] (? & v2 & _ & Hr)%bind_Ok.
    apply bind_Ok in Hr as (? & v3 & _ & Hr). by apply bind_Ok in Hr as (? & v4 & _ & [= <- _]).
Qed.
End Handshake.
#[local] Existing Instance Handshake.protocol | 0.

(** * The decoders of the sender's own structs *)
Section decode.
Context `{WireFormat}.
Definition DataMessage_default : DataMessageProto := {| dm_body := None; dm_timestamp := None |}.
Definition DataMessage_step (m : DataMessageProto) (f : field) : option DataMessageProto :=
  let '(t, w) := f in
  match t with
  | 1%Z => v ← get_string w; Some {| dm_body := Some v; dm_timestamp := dm_timestamp m |}
  | 7%Z => v ← get_u64 w; Some {| dm_body := dm_body m; dm_timestamp := Some v |}
  | _ => Some m
  end.
Definition Sent_step (m : SentMessageProto) (f : field) : option SentMessageProto :=
  let '(t, w) := f in
  match t with
  | 2%Z => v ← get_u64 w; Some {| sent_timestamp := Some v; sent_message := sent_message m;
             sent_destination_service_id := sent_destination_service_id m |}
  | 3%Z => v ← get_message DataMessage_step DataMessage_default (sent_message m) w;
           Some {| sent_timestamp := sent_timestamp m; sent_message := Some v;
             sent_destination_service_id := sent_destination_service_id m |}
  | 7%Z => v ← get_string w; Some {| sent_timestamp := sent_timestamp m; sent_message := sent_message m;
             sent_destination_service_id := Some v |}
  | _ => Some m
  end.
Definition Sync_step (m : SyncMessageProto) (f : field) : option SyncMessageProto :=
  let '(t, w) := f in
  match t with
  | 1%Z => v ← get_message Sent_step {| sent_timestamp := None; sent_message := None;
             sent_destination_service_id := None |} (sync_sent m) w; Some {| sync_sent := Some v |}
  | _ => Some m
  end.
Definition Content_step (m : ContentProto) (f : field) : option ContentProto :=
  let '(t, w) := f in
  match t with
  | 1%Z => v ← get_message DataMessage_step DataMessage_default (content_data_message m) w;
           Some {| content_data_message := Some v; content_sync_message := content_sync_message m |}
  | 2%Z => v ← get_message Sync_step {| sync_sent := None |} (content_sync_message m) w;
           Some {| content_data_message := content_data_message m; content_sync_message := Some v |}
  | _ => Some m
  end.
Definition Content_decode : bytes → option ContentProto :=
  merge Content_step {| content_data_message := None; content_sync_message := None |}.
End decode.

(** * The tests *)

(** libsignal's in-memory pre-key stores *)
Definition mem_get {A} (f : LibStore → gmap Z A) (e : SignalProtocolError) (i : Z) :
    ST (Rig MockHttp) SignalProtocolError A :=
  r ← gets (λ w, f (rig_store w) !! i); lift (ok_or e r).
Definition drop_pre_key (i : Z) (s : LibStore) : LibStore :=
  {| identity_pair := identity_pair s; store_registration_id := store_registration_id s;
     mem_sessions := mem_sessions s; known_keys := known_keys s;
     mem_pre_keys := delete i (mem_pre_keys s); mem_signed_pre_keys := mem_signed_pre_keys s;
     mem_kyber_pre_keys := mem_kyber_pre_keys s |}.
Definition put_pre_keys (p : gmap Z PreKeyRecord) (q : gmap Z SignedPreKeyRecord) (r : gmap Z KyberPreKeyRecord)
    (s : LibStore) : LibStore :=
  {| identity_pair := identity_pair s; store_registration_id := store_registration_id s;
     mem_sessions := mem_sessions s; known_keys := known_keys s;
     mem_pre_keys := p ∪ mem_pre_keys s; mem_signed_pre_keys := q ∪ mem_signed_pre_keys s;
     mem_kyber_pre_keys := r ∪ mem_kyber_pre_keys s |}.
Definition on_store (f : LibStore → LibStore) : ST (Rig MockHttp) SignalProtocolError () :=
  modify (λ w, with_store (f (rig_store w)) w).
#[local] Instance rig_prekeys : PreKeyStore (Rig MockHttp) := {|
  get_pre_key := mem_get mem_pre_keys InvalidPreKeyId;
  save_pre_key i r := on_store (put_pre_keys {[i := r]} ∅ ∅);
  remove_pre_key i := on_store (drop_pre_key i);
|}.
#[local] Instance rig_signed : SignedPreKeyStore (Rig MockHttp) := {|
  get_signed_pre_key := mem_get mem_signed_pre_keys InvalidSignedPreKeyId;
  save_signed_pre_key i r := on_store (put_pre_keys ∅ {[i := r]} ∅);
|}.
#[local] Instance rig_kyber : KyberPreKeyStore (Rig MockHttp) := {|
  get_kyber_pre_key := mem_get mem_kyber_pre_keys InvalidKyberPreKeyId;
  save_kyber_pre_key i r := on_store (put_pre_keys ∅ ∅ {[i := r]});
  mark_kyber_pre_key_used _ _ _ := mret tt;
|}.

(** The file has its own copies of two fixtures of send.rs. *)
Definition fresh_store : nat → LibStore := fresh_lib_store.
Definition publish_bundle : LibStore → Z → nat → option (PreKeyBundle * LibStore) := make_bundle.
(** [c.unwrap()] on one side's stores; [None] is the panic *)
Definition unwrap_on {E A} (c : ST (Rig MockHttp) E A) (store : LibStore) : option (A * LibStore) :=
  let '(r, w) := c (tracking (MockHttp_new []) store []) in
  match r with Ok a => Some (a, rig_store w) | Err _ => None end.
Definition alice_addr : ProtocolAddress := Addr "alice-uuid"%bs 1.
Definition bob_addr : ProtocolAddress := Addr "bob-uuid"%bs 2.
Definition encrypt_on (text : bytes) (ts : Z) (to from : ProtocolAddress) :=
  unwrap_on (build_encrypted_message_with_stores text ts to from).
Definition holds (o : option bool) : bool := default false o.

Definition encrypt_roundtrip_first_message_is_prekey_bundle : bool :=
  let alice := fresh_store 0 in
  let bob := fresh_store 1 in
  holds
    ('(bob_bundle, bob) ← publish_bundle bob 2 10;
     '(_, alice) ← unwrap_on (process_prekey_bundle bob_addr bob_bundle 0 (draw 20)) alice;
     '(enc, alice) ← encrypt_on "hello world"%bs 1700000000000 bob_addr alice_addr alice;
     bob_view ← ok (prekey_message_try_from (ciphertext_bytes enc));
     '(decrypted_padded, bob) ← unwrap_on (message_decrypt_prekey bob_view alice_addr bob_addr (draw 21)) bob;
     content ← Content_decode (strip_signal_padding decrypted_padded);
     dm ← content_data_message content;
     Some (bool_decide (ciphertext_type enc = ENVELOPE_PREKEY_BUNDLE) &&
           bool_decide (destination_device_id enc = 2%Z) && bool_decide (timestamp_ms enc = 1700000000000%Z) &&
           bool_decide (ciphertext_bytes enc ≠ []) && bool_decide (dm_body dm = Some ("hello world"%bs : bytes)) &&
           bool_decide (dm_timestamp dm = Some 1700000000000%Z))).

Definition encrypt_second_message_is_ciphertext : bool :=
  let alice := fresh_store 0 in
  let bob := fresh_store 1 in
  holds
    ('(bob_bundle, bob) ← publish_bundle bob 2 10;
     '(_, alice) ← unwrap_on (process_prekey_bundle bob_addr bob_bundle 0 (draw 20)) alice;
     '(enc1, alice) ← encrypt_on "first"%bs 1 bob_addr alice_addr alice;
     pkm ← ok (prekey_message_try_from (ciphertext_bytes enc1));
     '(_, bob) ← unwrap_on (message_decrypt_prekey pkm alice_addr bob_addr (draw 21)) bob;
     '(enc_bob, bob) ← encrypt_on "ack"%bs 2 alice_addr bob_addr bob;
     sm ← ok (signal_message_try_from (ciphertext_bytes enc_bob));
     '(_, alice) ← unwrap_on (message_decrypt_signal sm bob_addr (draw 22)) alice;
     '(enc2, alice) ← encrypt_on "second"%bs 3 bob_addr alice_addr alice;
     Some (bool_decide (ciphertext_type enc1 = ENVELOPE_PREKEY_BUNDLE) &&
           bool_decide (ciphertext_type enc2 = ENVELOPE_CIPHERTEXT))).

Definition outgoing_tests : list bool :=
  [encrypt_roundtrip_first_message_is_prekey_bundle; encrypt_second_message_is_ciphertext].
Lemma outgoing_tests_all : Forall (λ passed, passed = true) outgoing_tests.
Proof. unfold outgoing_tests. all_pass. Qed.
