(* ===== verification/Rest.v ===== *)
(** The link and key REST calls (manager/rest.rs, manager/account_attrs.rs).

    Every struct of the request bodies with its serialized shape, the derived
    and hand-written deserializers of the answers, and one definition per call,
    on the exchange of the world.  Only the log of a body is left out: on the
    hosted build [try_put] also dumps the redacted body to a file. *)

From S2P Require Import Prelude RustStd Base64 Json Pddb Signal Stores World Keys.

(** [ureq::Response::into_string] of what the stream yields. *)
Class UreqText := { into_string : result io_error bytes → result io_error bytes }.
#[export] Instance lossy_text : UreqText := {| into_string r := from_utf8_lossy <$> r |}.

(** * Account attributes *)

Record Capabilities := {
  cap_storage : bool; versioned_expiration_timer : bool; attachment_backfill : bool;
  ssre2 : bool; spqr : bool;
}.
Record AccountAttributes := {
  aa_registration_id : Z;
  fetches_messages : bool;
  registration_lock : option bytes;
  unidentified_access_key : bytes;
  unrestricted_unidentified_access : bool;
  discoverable_by_phone_number : bool;
  capabilities : Capabilities;
  aa_name : bytes;
  aa_pni_registration_id : Z;
  recovery_password : option bytes;
}.

Definition jopt (o : option bytes) : json := match o with Some s => JStr s | None => JNull end.
Definition Capabilities_json (c : Capabilities) : json :=
  JObj [("storage"%bs : bytes, JBool (cap_storage c));
        ("versionedExpirationTimer"%bs : bytes, JBool (versioned_expiration_timer c));
        ("attachmentBackfill"%bs : bytes, JBool (attachment_backfill c));
        ("ssre2"%bs : bytes, JBool (ssre2 c));
        ("spqr"%bs : bytes, JBool (spqr c))].
Definition AccountAttributes_json (a : AccountAttributes) : json :=
  JObj [("registrationId"%bs : bytes, JInt (aa_registration_id a));
        ("fetchesMessages"%bs : bytes, JBool (fetches_messages a));
        ("registrationLock"%bs : bytes, jopt (registration_lock a));
        ("unidentifiedAccessKey"%bs : bytes, JStr (unidentified_access_key a));
        ("unrestrictedUnidentifiedAccess"%bs : bytes,
           JBool (unrestricted_unidentified_access a));
        ("discoverableByPhoneNumber"%bs : bytes, JBool (discoverable_by_phone_number a));
        ("capabilities"%bs : bytes, Capabilities_json (capabilities a));
        ("name"%bs : bytes, JStr (aa_name a));
        ("pniRegistrationId"%bs : bytes, JInt (aa_pni_registration_id a));
        ("recoveryPassword"%bs : bytes, jopt (recovery_password a))].

Section attrs.
Context `{Base64, Crypto} {P O : Type} `{OsRng O}.

Definition generate_link_password : ST (World P O) io_error bytes :=
  bs ← fill_bytes (λ _, IoError Other "rng failure"%bs) 18;
  mret (b64_encode STANDARD bs).

Definition derive_unidentified_access_key (profile_key : bytes) : result io_error bytes :=
  if bool_decide (length profile_key ≠ 32) then
    Err (IoError InvalidInput "profile_key must be 32 bytes"%bs)
  else
    encrypted ← ok_or (IoError Other "UAK AES-GCM failure"%bs)
      (aes256_gcm_encrypt profile_key (replicate 12 Byte.x00) (replicate 16 Byte.x00) []);
    Ok (take 16 encrypted).

Definition generate_registration_id {E} : ST (World P O) E Z :=
  v ← next_u32;
  mret (v mod 16380 + 1)%Z.

Definition build_account_attributes (encrypted_device_name_b64 profile_key : bytes)
    (registration_id pni_registration_id : Z) : result io_error AccountAttributes :=
  uak ← derive_unidentified_access_key profile_key;
  Ok {| aa_registration_id := registration_id;
        fetches_messages := true;
        registration_lock := None;
        unidentified_access_key := b64_encode STANDARD uak;
        unrestricted_unidentified_access := false;
        discoverable_by_phone_number := false;
        capabilities := {| cap_storage := true; versioned_expiration_timer := true;
                           attachment_backfill := true; ssre2 := true; spqr := true |};
        aa_name := encrypted_device_name_b64;
        aa_pni_registration_id := pni_registration_id;
        recovery_password := None |}.
End attrs.

(** * Request and response bodies *)

(** [prekeys::SignedPreKeyJson], [KyberPreKeyJson] and the entities made of
    them have the same three fields. *)
Record SignedPreKeyJson := { spj_key_id : Z; spj_public_key : bytes; spj_signature : bytes }.
Record KyberPreKeyJson := { kpj_key_id : Z; kpj_public_key : bytes; kpj_signature : bytes }.
Record OneTimePreKeyJson := { otj_key_id : Z; otj_public_key : bytes }.

Record SignedPreKeyEntity := { spe_key_id : Z; spe_public_key : bytes; spe_signature : bytes }.
Record KyberPreKeyEntity := { kpe_key_id : Z; kpe_public_key : bytes; kpe_signature : bytes }.
Record OneTimePreKeyEntity := { ote_key_id : Z; ote_public_key : bytes }.

Definition spk_to_entity (k : SignedPreKeyJson) : SignedPreKeyEntity :=
  {| spe_key_id := spj_key_id k; spe_public_key := spj_public_key k;
     spe_signature := spj_signature k |}.
Definition kpk_to_entity (k : KyberPreKeyJson) : KyberPreKeyEntity :=
  {| kpe_key_id := kpj_key_id k; kpe_public_key := kpj_public_key k;
     kpe_signature := kpj_signature k |}.

Record LinkDeviceRequestBody := {
  verification_code : bytes;
  account_attributes : AccountAttributes;
  aci_signed_pre_key : SignedPreKeyEntity;
  pni_signed_pre_key : SignedPreKeyEntity;
  aci_pq_last_resort_pre_key : KyberPreKeyEntity;
  pni_pq_last_resort_pre_key : KyberPreKeyEntity;
}.
Record LinkDeviceResponse := { resp_uuid : bytes; resp_pni : bytes; resp_device_id : Z }.
Record PreKeyCount := { count : Z; pq_count : Z }.
Record SetKeysRequest := {
  pre_keys : list OneTimePreKeyEntity;
  sk_signed_pre_key : option SignedPreKeyEntity;
  pq_pre_keys : list KyberPreKeyEntity;
  pq_last_resort_pre_key : option KyberPreKeyEntity;
}.
Definition SetKeysRequest_default : SetKeysRequest :=
  {| pre_keys := []; sk_signed_pre_key := None; pq_pre_keys := [];
     pq_last_resort_pre_key := None |}.

Definition SignedPreKeyEntity_json (e : SignedPreKeyEntity) : json :=
  JObj [("keyId"%bs : bytes, JInt (spe_key_id e));
        ("publicKey"%bs : bytes, JStr (spe_public_key e));
        ("signature"%bs : bytes, JStr (spe_signature e))].
Definition KyberPreKeyEntity_json (e : KyberPreKeyEntity) : json :=
  JObj [("keyId"%bs : bytes, JInt (kpe_key_id e));
        ("publicKey"%bs : bytes, JStr (kpe_public_key e));
        ("signature"%bs : bytes, JStr (kpe_signature e))].
Definition OneTimePreKeyEntity_json (e : OneTimePreKeyEntity) : json :=
  JObj [("keyId"%bs : bytes, JInt (ote_key_id e));
        ("publicKey"%bs : bytes, JStr (ote_public_key e))].

(** [gcmToken] is always [None] and skipped. *)
Definition LinkDeviceRequestBody_json (b : LinkDeviceRequestBody) : json :=
  JObj [("verificationCode"%bs : bytes, JStr (verification_code b));
        ("accountAttributes"%bs : bytes, AccountAttributes_json (account_attributes b));
        ("aciSignedPreKey"%bs : bytes, SignedPreKeyEntity_json (aci_signed_pre_key b));
        ("pniSignedPreKey"%bs : bytes, SignedPreKeyEntity_json (pni_signed_pre_key b));
        ("aciPqLastResortPreKey"%bs : bytes,
           KyberPreKeyEntity_json (aci_pq_last_resort_pre_key b));
        ("pniPqLastResortPreKey"%bs : bytes,
           KyberPreKeyEntity_json (pni_pq_last_resort_pre_key b))].
(** [skip_serializing_if] on each field *)
Definition SetKeysRequest_json (r : SetKeysRequest) : json :=
  JObj (match pre_keys r with
        | [] => []
        | l => [("preKeys"%bs : bytes, JArr (OneTimePreKeyEntity_json <$> l))]
        end ++
        match sk_signed_pre_key r with
        | Some k => [("signedPreKey"%bs : bytes, SignedPreKeyEntity_json k)]
        | None => []
        end ++
        match pq_pre_keys r with
        | [] => []
        | l => [("pqPreKeys"%bs : bytes, JArr (KyberPreKeyEntity_json <$> l))]
        end ++
        match pq_last_resort_pre_key r with
        | Some k => [("pqLastResortPreKey"%bs : bytes, KyberPreKeyEntity_json k)]
        | None => []
        end).

Definition de_u32_from_str_or_num (j : json) : option Z :=
  match j with
  | JInt z => if (0 <=? z)%Z && (z <=? u32_max)%Z then Some z else None
  | JStr s => parse_u32 s
  | _ => None
  end.
Definition de_link_response (j : json) : option LinkDeviceResponse :=
  l ← struct_fields ["uuid"%bs : bytes; "pni"%bs : bytes; "deviceId"%bs : bytes] j;
  match l with
  | [u; p; d] =>
      u ← required de_string u; p ← required de_string p;
      d ← required de_u32_from_str_or_num d;
      Some {| resp_uuid := u; resp_pni := p; resp_device_id := d |}
  | _ => None
  end.
Definition de_prekey_count (j : json) : option PreKeyCount :=
  l ← struct_fields ["count"%bs : bytes; "pqCount"%bs : bytes] j;
  match l with
  | [c; q] =>
      c ← required de_u32 c; q ← required de_u32 q; Some {| count := c; pq_count := q |}
  | _ => None
  end.

(** [redact_verification_code]: the diagnostic copy of a body *)
Definition redact_verification_code (json : bytes) : bytes :=
  let key := dq ++ "verificationCode"%bs ++ dq ++ ":"%bs ++ dq in
  match find_sub key json with
  | Some start =>
      let vstart := start + length key in
      match find_sub dq (drop vstart json) with
      | Some rel_end => take vstart json ++ "<redacted>"%bs ++ drop (vstart + rel_end) json
      | None => json
      end
  | None => json
  end.

(** * The calls *)
Section calls.
Context `{Base64, SerdeJson, UrlLib, UreqText} {P O : Type} `{Host O}.
Abbreviation call := (ST (World P O) io_error).

Definition basic_auth_header (identifier password : bytes) : bytes :=
  "Basic "%bs ++ b64_encode STANDARD (identifier ++ ":"%bs ++ password).

Definition link_error_kind (code : Z) : ErrorKind :=
  if (code =? 403)%Z then PermissionDenied
  else if (code =? 422)%Z then InvalidData else Other.

(** What [try_put] makes of the answer. *)
Definition link_response (resp : ureq_result) : result io_error LinkDeviceResponse :=
  match resp with
  | UreqOk _ r =>
      resp_str ← map_err (λ _, IoError InvalidData "failed to read response body"%bs)
                   (into_string r);
      map_err (λ _, IoError InvalidData "failed to parse link response"%bs)
        (from_slice_as "LinkDeviceResponse"%bs de_link_response resp_str)
  | UreqStatus code _ => Err (IoError (link_error_kind code) ("HTTP "%bs ++ show_u code))
  | UreqTransport _ => Err (IoError Other "transport error"%bs)
  end.

Definition try_put (url auth_value : bytes) (body : LinkDeviceRequestBody) :
    call LinkDeviceResponse :=
  json ← lift (map_err (λ _, IoError Other "failed to serialize link body"%bs)
                 (to_vec (LinkDeviceRequestBody_json body)));
  resp ← exchange (put_request url auth_value json);
  lift (link_response resp).

Definition put_devices_link (base_url : Url) (phone_number password : bytes)
    (body : LinkDeviceRequestBody) : call LinkDeviceResponse :=
  let link_url := as_str (set_path "/v1/devices/link"%bs base_url) in
  r ← try (try_put link_url (basic_auth_header (phone_number ++ ".-1"%bs) password) body);
  match r with
  | Ok r => mret r
  | Err e =>
      if bool_decide (kind e = PermissionDenied) then
        try_put link_url (basic_auth_header phone_number password) body
      else throw e
  end.

(** The two errors the other calls share, a status and no answer; and the
    result of a PUT whose answer has no body to read. *)
Definition status_error (what : bytes) (code : Z) : io_error :=
  IoError Other (what ++ " returned "%bs ++ show_u code).
Definition request_error (what e : bytes) : io_error :=
  IoError ConnectionAborted (what ++ " request failed: "%bs ++ e).
Definition put_result (what : bytes) (resp : ureq_result) : result io_error () :=
  match resp with
  | UreqOk _ _ => Ok tt
  | UreqStatus code _ => Err (status_error what code)
  | UreqTransport e => Err (request_error what e)
  end.

Definition put_accounts_attributes (base_url : Url) (identifier password : bytes)
    (attrs : AccountAttributes) : call () :=
  let url := as_str (set_path "/v1/accounts/attributes"%bs base_url) in
  json ← lift (map_err (λ _, IoError Other "failed to serialize attrs body"%bs)
                 (to_vec (AccountAttributes_json attrs)));
  resp ← exchange (put_request url (basic_auth_header identifier password) json);
  lift (put_result "PUT /v1/accounts/attributes"%bs resp).

Definition keys_url (base_url : Url) : bytes :=
  as_str (set_query (Some ("identity=aci"%bs : bytes)) (set_path "/v2/keys"%bs base_url)).

Definition parse_prekey_count (body : bytes) : result io_error PreKeyCount :=
  map_err (λ e, IoError InvalidData ("PreKeyCount parse: "%bs ++ e))
    (from_slice_as "PreKeyCount"%bs de_prekey_count body).

(** What [get_keys_status] makes of the answer. *)
Definition keys_status (resp : ureq_result) : result io_error PreKeyCount :=
  match resp with
  | UreqOk _ r =>
      body ← map_err (λ e, IoError Other ("read body: "%bs ++ message e)) (into_string r);
      parse_prekey_count body
  | UreqStatus code _ => Err (status_error "GET /v2/keys"%bs code)
  | UreqTransport e => Err (request_error "GET /v2/keys"%bs e)
  end.

Definition get_keys_status (base_url : Url) (identifier password : bytes) : call PreKeyCount :=
  resp ← exchange (get_request (keys_url base_url) (basic_auth_header identifier password));
  lift (keys_status resp).

Definition put_keys (base_url : Url) (identifier password : bytes) (body : SetKeysRequest) :
    call () :=
  json ← lift (map_err (λ _, IoError Other "failed to serialize SetKeysRequest"%bs)
                 (to_vec (SetKeysRequest_json body)));
  resp ← exchange (put_request (keys_url base_url) (basic_auth_header identifier password) json);
  lift (put_result "PUT /v2/keys"%bs resp).
End calls.

(** * Properties of the link call *)
Section link_spec.
Context `{Base64, SerdeJson, UrlLib, UreqText} {P O : Type} `{Host O}.
Implicit Types w : World P O.

Definition link_url (base_url : Url) : bytes :=
  as_str (set_path "/v1/devices/link"%bs base_url).
(** The link request under one of the two identifiers. *)
Definition link_request (base_url : Url) (identifier password json : bytes) : http_request :=
  put_request (link_url base_url) (basic_auth_header identifier password) json.

Lemma exchange_spec {E} r w :
  ∃ o, exchange (E := E) r w =
    (Ok (ureq_call r (w_out w)).1,
     MkWorld (w_pddb w) o (w_log w ++ [EvHttp r (ureq_call r (w_out w)).1])).
Proof.
  unfold exchange, on_out, emit, mbind, ST_bind, mret, ST_ret.
  destruct (ureq_call r (w_out w)) as [a o]. by exists o.
Qed.

Lemma link_denied a e :
  link_response a = Err e → kind e = PermissionDenied ↔ ∃ r, a = UreqStatus 403 r.
Proof.
  destruct a as [s r|c r|t]; simpl.
  - destruct (into_string r); simpl.
    + destruct (from_slice_as _ _ _); simpl; [done|]. intros [= <-]. naive_solver.
    + intros [= <-]. naive_solver.
  - intros [= <-]. unfold link_error_kind.
    destruct (Z.eqb_spec c 403) as [->|?]; [naive_solver|].
    destruct (c =? 422)%Z; naive_solver.
  - intros [= <-]. naive_solver.
Qed.

Lemma try_put_spec url auth body json w :
  to_vec (LinkDeviceRequestBody_json body) = Ok json →
  ∃ a o, try_put url auth body w =
    (link_response a, MkWorld (w_pddb w) o (w_log w ++ [EvHttp (put_request url auth json) a])).
Proof.
  intros Hj. destruct (exchange_spec (E := io_error) (put_request url auth json) w) as (o & Hx).
  unfold try_put, lift, mbind, ST_bind, map_err. rewrite Hj, Hx. by eexists _, o.
Qed.

Lemma put_devices_link_spec base phone password body json w :
  to_vec (LinkDeviceRequestBody_json body) = Ok json →
  ∃ r w' a, put_devices_link base phone password body w = (r, w') ∧
    w_pddb w' = w_pddb w ∧
    let first := EvHttp (link_request base (phone ++ ".-1"%bs) password json) a in
    ((∀ b, a ≠ UreqStatus 403 b) ∧ w_log w' = w_log w ++ [first] ∧ r = link_response a ∨
     ∃ b a2, a = UreqStatus 403 b ∧ r = link_response a2 ∧
       w_log w' = w_log w ++ [first; EvHttp (link_request base phone password json) a2]).
Proof.
  intros Hj. unfold put_devices_link. fold (link_url base).
  destruct (try_put_spec (link_url base) (basic_auth_header (phone ++ ".-1"%bs) password)
    body json w Hj) as (a & o & E1).
  unfold mbind, ST_bind, try. rewrite E1.
  destruct (link_response a) as [resp|e] eqn:Ea.
  { eexists _, _, a. split; [done|]. split; [done|]. left. split_and!; [|done|done].
    intros b ->. done. }
  case_bool_decide as Hk.
  - apply (link_denied a e Ea) in Hk as [b ->].
    destruct (try_put_spec (link_url base) (basic_auth_header phone password) body json
      (MkWorld (w_pddb w) o (w_log w ++ [EvHttp (link_request base (phone ++ ".-1"%bs)
         password json) (UreqStatus 403 b)])) Hj) as (a2 & o2 & E2).
    fold (link_request base (phone ++ ".-1"%bs) password json). rewrite E2.
    eexists _, _, _. split; [done|]. split; [done|]. right. exists b, a2.
    split_and!; [done|done|]. simpl. by rewrite <- app_assoc.
  - eexists _, _, a. split; [done|]. split; [done|]. left. split_and!; [|done|done].
    intros b ->. apply Hk. apply (link_denied _ _ Ea). eauto.
Qed.

(** The link call.  It asks once under the [<number>.-1] identifier, and a
    second time, with the same body and without the suffix, exactly when the
    first answer was 403; the result is what the last answer says, so [Ok] needs
    a 2xx answer that parses.  Nothing is stored either way. *)
Theorem link_retried_once base phone password body json w :
  to_vec (LinkDeviceRequestBody_json body) = Ok json →
  ∃ r w' a, put_devices_link base phone password body w = (r, w') ∧
    w_pddb w' = w_pddb w ∧
    let first := EvHttp (link_request base (phone ++ ".-1"%bs) password json) a in
    ((∀ b, a ≠ UreqStatus 403 b) ∧ w_log w' = w_log w ++ [first] ∧ r = link_response a ∨
     ∃ b a2, a = UreqStatus 403 b ∧ r = link_response a2 ∧
       w_log w' = w_log w ++ [first; EvHttp (link_request base phone password json) a2]).
Proof. apply put_devices_link_spec. Qed.
End link_spec.
