(* ===== verification/Prekeys.v ===== *)
(** Pre-key generation and replenishment (manager/prekeys.rs,
    manager/prekey_replenish.rs).

    The link flow's signed and last-resort Kyber pre-keys, the one-time batch
    with its persistent id counter, and the threshold-driven replenishment over
    the two REST calls.  The theorems: a batch has consecutive ids that wrap at
    2^24 - 1 and never reach 0, each stored under its id before anything is
    uploaded, and the counter goes on where the batch stopped; the
    replenishment uploads exactly what it stored and only below the threshold;
    the link pre-keys verify under their identity. *)

From S2P Require Import Prelude RustStd Base64 Json Pddb Signal Stores World SendWorld Keys Rest.

Definition MEDIUM_MAX : Z := 16777215.
Definition ACI_NEXT_PREKEY_ID_KEY : bytes := "aci.next_prekey_id"%bs.
Definition PRE_KEY_MINIMUM : Z := 10.
Definition PRE_KEY_BATCH_SIZE : Z := 100.

Section defs.
Context `{KeyOps, Base64} {P O : Type} `{Pddb P, Host O, OsRng O}.
Abbreviation M := (ST (World P O) io_error).

Record Prekeys := {
  aci_signed : SignedPreKeyJson;
  pni_signed : SignedPreKeyJson;
  aci_kyber_last_resort : KyberPreKeyJson;
  pni_kyber_last_resort : KyberPreKeyJson;
  aci_signed_record : SignedPreKeyRecord;
  pni_signed_record : SignedPreKeyRecord;
  aci_kyber_record : KyberPreKeyRecord;
  pni_kyber_record : KyberPreKeyRecord;
}.

Definition map_signal_err (e : SignalProtocolError) : io_error :=
  IoError Other ("libsignal: "%bs ++ debug_err e).

Definition random_prekey_id : M Z :=
  v ← next_u32;
  mret (v mod MEDIUM_MAX + 1)%Z.

(** The public half of an identity key, and the check both kinds of pre-key
    end with. *)
Definition identity_public (identity_private : PrivateKey) : result io_error PublicKey :=
  map_err (λ _, IoError Other "identity public key derivation failed"%bs)
    (private_public_key identity_private).
Definition self_verify (msg : bytes) (pub : PublicKey) (serialized signature : bytes) :
    result io_error () :=
  if verify_signature pub serialized signature then Ok tt else Err (IoError InvalidData msg).

Definition generate_signed_prekey (identity_private : PrivateKey) :
    M (SignedPreKeyJson * SignedPreKeyRecord) :=
  key_id ← random_prekey_id;
  g ← draw_entropy;
  let keypair := KeyPair_generate g in
  let public_serialized := public_serialize keypair.1 in
  g ← draw_entropy;
  signature ← lift (map_err (λ _, IoError Other "signed prekey signing failed"%bs)
    (calculate_signature identity_private public_serialized g));
  pub ← lift (identity_public identity_private);
  lift (self_verify "signed prekey self-verification failed"%bs pub public_serialized signature);;
  mret ({| spj_key_id := key_id;
           spj_public_key := b64_encode STANDARD_NO_PAD public_serialized;
           spj_signature := b64_encode STANDARD_NO_PAD signature |},
        SignedPreKeyRecord_new key_id 0 keypair signature).

Definition generate_kyber_last_resort (identity_private : PrivateKey) :
    M (KyberPreKeyJson * KyberPreKeyRecord) :=
  key_id ← random_prekey_id;
  g ← draw_entropy;
  record ← lift (map_err (λ _, IoError Other "kyber last-resort generation failed"%bs)
    (KyberPreKeyRecord_generate key_id identity_private g));
  public ← lift (map_err (λ _, IoError Other "kyber public_key() failed"%bs)
    (KyberPreKeyRecord_public_key record));
  let public_serialized := kem_serialize public in
  signature ← lift (map_err (λ _, IoError Other "kyber signature() failed"%bs)
    (KyberPreKeyRecord_signature record));
  pub ← lift (identity_public identity_private);
  lift (self_verify "kyber prekey self-verification failed"%bs pub public_serialized signature);;
  mret ({| kpj_key_id := key_id;
           kpj_public_key := b64_encode STANDARD_NO_PAD public_serialized;
           kpj_signature := b64_encode STANDARD_NO_PAD signature |}, record).

Definition generate_prekeys (aci_identity_private pni_identity_private : PrivateKey) :
    M Prekeys :=
  aci_s ← generate_signed_prekey aci_identity_private;
  pni_s ← generate_signed_prekey pni_identity_private;
  aci_k ← generate_kyber_last_resort aci_identity_private;
  pni_k ← generate_kyber_last_resort pni_identity_private;
  mret {| aci_signed := aci_s.1; pni_signed := pni_s.1;
          aci_kyber_last_resort := aci_k.1; pni_kyber_last_resort := pni_k.1;
          aci_signed_record := aci_s.2; pni_signed_record := pni_s.2;
          aci_kyber_record := aci_k.2; pni_kyber_record := pni_k.2 |}.

(** [id()] and save, for one record of each kind *)
Definition save_signed (r : SignedPreKeyRecord) : M () :=
  id ← lift (map_err map_signal_err (SignedPreKeyRecord_id r));
  on_pddb (with_err map_signal_err
    (SignedPreKey_save_signed_pre_key signed_pre_key_store id r)).
Definition save_kyber (r : KyberPreKeyRecord) : M () :=
  id ← lift (map_err map_signal_err (KyberPreKeyRecord_id r));
  on_pddb (with_err map_signal_err (KyberPreKey_save_kyber_pre_key kyber_pre_key_store id r)).

Definition save_to_pddb (prekeys : Prekeys) : M () :=
  save_signed (aci_signed_record prekeys);;
  save_signed (pni_signed_record prekeys);;
  save_kyber (aci_kyber_record prekeys);;
  save_kyber (pni_kyber_record prekeys).

(** ** The one-time batch *)

Record OneTimePreKeyBatch := { batch_json : list OneTimePreKeyJson; batch_count : Z }.

Definition write_prekey_counter (next : Z) : ST P io_error () :=
  pddb_overwrite (λ e, IoError Other ("counter get: "%bs ++ message e))
                 (λ e, IoError Other ("counter write: "%bs ++ message e))
    ACCOUNT_DICT ACI_NEXT_PREKEY_ID_KEY (show_u next).

(** The stored counter, when it is a number of the right range. *)
Definition stored_counter (s : option bytes) : option Z :=
  v ← s ≫= λ s, parse_u32 (trim s);
  if (1 <=? v)%Z && (v <=? MEDIUM_MAX)%Z then Some v else None.

Definition read_or_init_prekey_counter : M Z :=
  s ← on_pddb (pddb_get_string ACCOUNT_DICT ACI_NEXT_PREKEY_ID_KEY);
  match stored_counter s with
  | Some v => mret v
  | None =>
      r ← next_u32;
      let seed := (r mod 1000 + 1)%Z in
      on_pddb (write_prekey_counter seed);;
      mret seed
  end.

Definition advance (next : Z) : Z := if (MEDIUM_MAX <=? next)%Z then 1%Z else (next + 1)%Z.

(** One turn of the loop: the id is taken, the key generated and stored. *)
Definition one_time_prekey (id : Z) : M OneTimePreKeyJson :=
  g ← draw_entropy;
  let kp := KeyPair_generate g in
  on_pddb (with_err map_signal_err
    (PreKey_save_pre_key pre_key_store id (PreKeyRecord_new id kp)));;
  mret {| otj_key_id := id;
          otj_public_key := b64_encode STANDARD_NO_PAD (public_serialize kp.1) |}.

Fixpoint one_time_loop (n : nat) (next : Z) : M (list OneTimePreKeyJson * Z) :=
  match n with
  | 0 => mret ([], next)
  | S n =>
      j ← one_time_prekey next;
      rest ← one_time_loop n (advance next);
      mret (j :: rest.1, rest.2)
  end.

Definition generate_one_time_prekeys (count : Z) : M OneTimePreKeyBatch :=
  if (count =? 0)%Z then mret {| batch_json := []; batch_count := 0 |}
  else
    start_id ← read_or_init_prekey_counter;
    r ← one_time_loop (Z.to_nat count) start_id;
    on_pddb (write_prekey_counter r.2);;
    mret {| batch_json := r.1; batch_count := count |}.
End defs.

(** ** Replenishment *)

Inductive ReplenishOutcome :=
  | Skipped (server_count : Z)
  | Replenished (uploaded : Z)
  | Failed (reason : bytes).

Definition one_time_entity (k : OneTimePreKeyJson) : OneTimePreKeyEntity :=
  {| ote_key_id := otj_key_id k; ote_public_key := otj_public_key k |}.
Definition set_keys_request (ks : list OneTimePreKeyJson) : SetKeysRequest :=
  {| pre_keys := one_time_entity <$> ks;
     sk_signed_pre_key := sk_signed_pre_key SetKeysRequest_default;
     pq_pre_keys := pq_pre_keys SetKeysRequest_default;
     pq_last_resort_pre_key := pq_last_resort_pre_key SetKeysRequest_default |}.

(** [run_replenish] never fails: the outcome is its value.  [F] is the error
    type of the caller. *)
Definition run_replenish {W F : Type} (threshold batch_size : Z)
    (get_status : ST W io_error PreKeyCount)
    (generate : Z → ST W io_error (list OneTimePreKeyJson))
    (put_keys : SetKeysRequest → ST W io_error ()) : ST W F ReplenishOutcome :=
  status ← try get_status;
  match status with
  | Err e => mret (Failed ("get_keys_status: "%bs ++ message e))
  | Ok status =>
      if (threshold <=? count status)%Z then mret (Skipped (count status))
      else
        json_keys ← try (generate batch_size);
        match json_keys with
        | Err e => mret (Failed ("generate_one_time_prekeys: "%bs ++ message e))
        | Ok json_keys =>
            let body := set_keys_request json_keys in
            let uploaded := (Z.of_nat (length (pre_keys body)) mod (u32_max + 1))%Z in
            r ← try (put_keys body);
            match r with
            | Err e => mret (Failed ("put_keys: "%bs ++ message e))
            | Ok _ => mret (Replenished uploaded)
            end
        end
  end.

Section replenish.
Context `{KeyOps, Base64, SerdeJson, UrlLib, UreqText} {P O : Type} `{Pddb P, Host O, OsRng O}.

Definition replenish_aci_one_time_prekeys {F} (base_url : Url) (aci : bytes) (device_id : Z)
    (password : bytes) : ST (World P O) F ReplenishOutcome :=
  let identifier := aci ++ "."%bs ++ show_u device_id in
  run_replenish PRE_KEY_MINIMUM PRE_KEY_BATCH_SIZE
    (get_keys_status base_url identifier password)
    (λ n, batch ← generate_one_time_prekeys n; mret (batch_json batch))
    (put_keys base_url identifier password).
End replenish.

(** * Properties *)

(** The id [i] places after [start] on the ring 1..=[MEDIUM_MAX]. *)
Definition id_at (start i : Z) : Z := ((start - 1 + i) mod MEDIUM_MAX + 1)%Z.
Definition id_ok (id : Z) : Prop := (1 ≤ id ≤ MEDIUM_MAX)%Z.

Lemma id_at_ok start i : id_ok (id_at start i).
Proof. unfold id_ok, id_at, MEDIUM_MAX. Z.to_euclidean_division_equations. lia. Qed.
Lemma id_at_0 start : id_ok start → id_at start 0 = start.
Proof. unfold id_ok, id_at, MEDIUM_MAX. intros. Z.to_euclidean_division_equations. lia. Qed.
Lemma id_at_advance start i : id_ok start → id_at (advance start) i = id_at start (i + 1).
Proof.
  unfold id_ok, id_at, advance, MEDIUM_MAX. intros.
  destruct (Z.leb_spec 16777215 start); Z.to_euclidean_division_equations; lia.
Qed.
Lemma id_at_inj start i j :
  (0 ≤ i < MEDIUM_MAX)%Z → (0 ≤ j < MEDIUM_MAX)%Z → id_at start i = id_at start j → i = j.
Proof. unfold id_at, MEDIUM_MAX. intros. Z.to_euclidean_division_equations. lia. Qed.
Lemma advance_ok id : id_ok id → id_ok (advance id).
Proof. unfold id_ok, advance, MEDIUM_MAX. destruct (Z.leb_spec 16777215 id); lia. Qed.
Lemma id_ok_u32 id : id_ok id → in_u32 id.
Proof. unfold id_ok, in_u32, MEDIUM_MAX, u32_max. lia. Qed.

Lemma stored_counter_show v :
  id_ok v → stored_counter (Some (show_u v) ≫= from_utf8) = Some v.
Proof.
  intros Hv. pose proof (id_ok_u32 v Hv) as Hu. unfold id_ok, MEDIUM_MAX in Hv.
  assert (0 ≤ v)%Z as H0 by lia. pose proof (show_u_digits v H0) as Hd. simpl.
  unfold from_utf8. rewrite (ascii_utf8_valid (show_u v)).
  2: { apply forallb_forall. intros b Hb. rewrite forallb_forall in Hd. apply Hd in Hb.
       unfold is_ascii_digit in Hb. lia. }
  unfold stored_counter. simpl. rewrite trim_graphic by by apply digits_graphic.
  rewrite parse_u32_show by done. simpl. unfold MEDIUM_MAX.
  destruct (Z.leb_spec 1 v), (Z.leb_spec v 16777215); done || lia.
Qed.

Lemma seqZ_S i n : seqZ i (Z.of_nat (S n)) = i :: seqZ (i + 1) (Z.of_nat n).
Proof. rewrite seqZ_cons by lia. do 2 f_equal; lia. Qed.

(** The id counter a store holds. *)
Abbreviation counter m := (stored_counter (m !! (ACCOUNT_DICT, ACI_NEXT_PREKEY_ID_KEY) ≫= from_utf8)).

Section spec.
Context `{LibsignalLaws} `{!KeyOps} `{!KeyLaws} `{Base64} {P O : Type}.
Context `{PddbLaws P, Host O, OsRng O} `{!OsRngLaws O}.
Implicit Types w : World P O.
Implicit Types m : gmap (bytes * bytes) bytes.

(** [j] was generated here and its private record is stored under its id. *)
Definition staged m (j : OneTimePreKeyJson) : Prop :=
  ∃ kp b, otj_public_key j = b64_encode STANDARD_NO_PAD (public_serialize kp.1) ∧
    serialize (PreKeyRecord_new (otj_key_id j) kp) = Ok b ∧
    m !! (PREKEY_DICT, show_u (otj_key_id j)) = Some b.

Lemma staged_get m p j :
  contents p = m → staged m j → ∃ kp,
    (PreKey_get_pre_key pre_key_store (otj_key_id j) p).1 =
      Ok (PreKeyRecord_new (otj_key_id j) kp) ∧
    otj_public_key j = b64_encode STANDARD_NO_PAD (public_serialize kp.1).
Proof.
  intros <- (kp & b & Hpub & Hser & Hlook). exists kp. split; [|done].
  destruct (get_pre_key_spec pre_key_store (otj_key_id j) p) as (p1 & -> & _). simpl.
  rewrite Hlook. by apply deserialize_serialize.
Qed.

Lemma one_time_prekey_spec id w :
  ∃ j b, wruns (one_time_prekey id) w (Ok j)
      (<[(PREKEY_DICT, show_u id) := b]> (contents (w_pddb w))) [] ∧
    otj_key_id j = id ∧ staged (<[(PREKEY_DICT, show_u id) := b]> (contents (w_pddb w))) j.
Proof.
  set (g := (os_entropy (w_out w)).1). set (kp := KeyPair_generate g).
  pose proof (PreKeyRecord_serializes id kp) as Hs.
  destruct (serialize (PreKeyRecord_new id kp)) as [b|] eqn:Hb; [|done].
  eexists _, b. split.
  - eapply wruns_then; [by apply wruns_out|]. fold g. intros w1 Hw1.
    eapply wruns_then.
    + apply wruns_pddb, (runs_with_err _ _ _ (Ok tt)), save_pre_key_spec, Hb.
    + intros w2 Hw2. apply wruns_ret. by rewrite Hw2, Hw1.
  - split; [done|]. exists kp, b. split; [done|]. split; [done|]. apply lookup_insert_eq.
Qed.

(** [m'] is [m] but for the pre-keys with the given ids. *)
Definition only_ids (ids : list Z) m m' : Prop :=
  ∀ k, (∀ id, id ∈ ids → k ≠ (PREKEY_DICT, show_u id)) → m' !! k = m !! k.

Lemma staged_only ids m m' j :
  only_ids ids m m' → id_ok (otj_key_id j) → Forall id_ok ids → otj_key_id j ∉ ids →
  staged m j → staged m' j.
Proof.
  intros Ho Hj Hids Hni (kp & b & Hp & Hs & Hl). exists kp, b. split; [done|]. split; [done|].
  rewrite Ho; [done|]. intros id Hid [= E]. apply show_u_32_inj in E; [congruence|..].
  - by apply id_ok_u32.
  - apply id_ok_u32. rewrite Forall_forall in Hids. auto.
Qed.

Lemma ids_ok start n : Forall id_ok (id_at start <$> seqZ 0 n).
Proof. apply Forall_fmap, Forall_true. intros. apply id_at_ok. Qed.
Lemma ids_NoDup start n : (n ≤ MEDIUM_MAX)%Z → NoDup (id_at start <$> seqZ 0 n).
Proof.
  intros Hn. apply (NoDup_fmap_2_strong _ (seqZ 0 n)); [|apply NoDup_seqZ].
  intros x y Hx%elem_of_seqZ Hy%elem_of_seqZ. apply id_at_inj; lia.
Qed.
Lemma ids_cons start n :
  id_ok start →
  id_at start <$> seqZ 0 (Z.of_nat (S n)) =
  start :: (id_at (advance start) <$> seqZ 0 (Z.of_nat n)).
Proof.
  intros Hs. rewrite seqZ_S. simpl. rewrite id_at_0 by done. f_equal.
  rewrite <- (fmap_add_seqZ 1 0), <- list_fmap_compose. apply list_fmap_ext.
  intros i x _. simpl. rewrite id_at_advance by done. f_equal. lia.
Qed.

Lemma one_time_loop_spec n start w :
  id_ok start → (Z.of_nat n ≤ MEDIUM_MAX)%Z →
  ∃ js m', wruns (one_time_loop n start) w (Ok (js, id_at start (Z.of_nat n))) m' [] ∧
    otj_key_id <$> js = id_at start <$> seqZ 0 (Z.of_nat n) ∧ Forall (staged m') js ∧
    only_ids (otj_key_id <$> js) (contents (w_pddb w)) m'.
Proof.
  revert start w. induction n as [|n IH]; intros start w Hs Hn.
  { exists [], (contents (w_pddb w)). split; [|done].
    change (Z.of_nat 0) with 0%Z. rewrite id_at_0 by done. by apply wruns_ret. }
  destruct (one_time_prekey_spec start w) as (j & b & (w1 & E1 & Hc1 & Hl1) & Hj & Hst).
  destruct (IH (advance start) w1 (advance_ok _ Hs) ltac:(lia)) as (js & m' & Hrun & Hids & Hall & Hon).
  assert (otj_key_id <$> (j :: js) = id_at start <$> seqZ 0 (Z.of_nat (S n))) as Hids'.
  { rewrite ids_cons by done. by rewrite fmap_cons, Hj, Hids. }
  exists (j :: js), m'. split_and!; [|done| |].
  - apply (wruns_step _ _ w j w1 [] _ _ []); [done|done|].
    eapply wruns_then; [done|]. intros w2 Hw2. simpl.
    rewrite id_at_advance by done. replace (Z.of_nat n + 1)%Z with (Z.of_nat (S n)) by lia.
    by apply wruns_ret.
  - constructor; [|done]. rewrite Hc1 in Hon.
    eapply staged_only; [done| | | |done].
    + by rewrite Hj.
    + rewrite Hids. apply ids_ok.
    + pose proof (ids_NoDup start (Z.of_nat (S n)) Hn) as Hnd. rewrite <- Hids' in Hnd.
      by apply NoDup_cons in Hnd as [? _].
  - intros k Hk. rewrite Hon.
    + rewrite Hc1, lookup_insert_ne; [done|]. intros <-. apply (Hk start); [|done].
      rewrite fmap_cons, Hj. by left.
    + intros id Hid. apply Hk. by right.
Qed.


Lemma write_counter_spec v w :
  wruns (on_pddb (write_prekey_counter v)) w (Ok tt)
    (<[(ACCOUNT_DICT, ACI_NEXT_PREKEY_ID_KEY) := show_u v]> (contents (w_pddb w))) [].
Proof. apply wruns_pddb. destruct (overwrite_spec
    (λ e, IoError Other ("counter get: "%bs ++ message e))
    (λ e, IoError Other ("counter write: "%bs ++ message e)) ACCOUNT_DICT
    ACI_NEXT_PREKEY_ID_KEY (show_u v) (w_pddb w)) as (p & E & Hc). by exists p. Qed.

Lemma read_counter_spec w :
  ∃ v m', wruns read_or_init_prekey_counter w (Ok v) m' [] ∧ id_ok v ∧
    (∀ v', counter (contents (w_pddb w)) = Some v' → v = v') ∧
    ∀ k, k ≠ (ACCOUNT_DICT, ACI_NEXT_PREKEY_ID_KEY) → m' !! k = contents (w_pddb w) !! k.
Proof.
  destruct (get_string_spec (E := io_error) ACCOUNT_DICT ACI_NEXT_PREKEY_ID_KEY (w_pddb w))
    as (p & E & Hc).
  assert (wruns (on_pddb (pddb_get_string ACCOUNT_DICT ACI_NEXT_PREKEY_ID_KEY)) w
    (Ok (contents (w_pddb w) !! (ACCOUNT_DICT, ACI_NEXT_PREKEY_ID_KEY) ≫= from_utf8))
    (contents (w_pddb w)) []) as (w1 & E1 & Hc1 & Hl1) by (apply wruns_pddb; by exists p).
  destruct (counter (contents (w_pddb w))) as [v|] eqn:Ev.
  - exists v, (contents (w_pddb w)). split_and!; [|..|done].
    + eapply (wruns_step _ _ w _ w1 [] _ _ []); [done|done|]. rewrite Ev. by apply wruns_ret.
    + unfold stored_counter in Ev. apply bind_Some in Ev as (v0 & _ & Ev).
      destruct (Z.leb_spec 1 v0), (Z.leb_spec v0 MEDIUM_MAX); simplify_eq/=; by split.
    + congruence.
  - set (v := ((rng_next_u32 (w_out w1)).1 mod 1000 + 1)%Z).
    exists v, (<[(ACCOUNT_DICT, ACI_NEXT_PREKEY_ID_KEY) := show_u v]> (contents (w_pddb w))).
    split_and!; [|..|done|].
    + eapply (wruns_step _ _ w _ w1 [] _ _ []); [done|done|]. rewrite Ev.
      eapply wruns_then; [by apply wruns_out|]. intros w2 Hw2. fold v.
      eapply wruns_then; [apply write_counter_spec|]. intros w3 Hw3. apply wruns_ret. congruence.
    + unfold id_ok, MEDIUM_MAX, v. Z.to_euclidean_division_equations. lia.
    + intros k Hk. by rewrite lookup_insert_ne.
Qed.

Lemma batch_spec n w :
  (0 < n ≤ MEDIUM_MAX)%Z →
  ∃ start js m', wruns (generate_one_time_prekeys n) w
      (Ok {| batch_json := js; batch_count := n |}) m' [] ∧
    (∀ v, counter (contents (w_pddb w)) = Some v → start = v) ∧ id_ok start ∧
    otj_key_id <$> js = id_at start <$> seqZ 0 n ∧
    counter m' = Some (id_at start n) ∧ Forall (staged m') js ∧
    ∀ k, k ≠ (ACCOUNT_DICT, ACI_NEXT_PREKEY_ID_KEY) →
      (∀ id, id ∈ otj_key_id <$> js → k ≠ (PREKEY_DICT, show_u id)) →
      m' !! k = contents (w_pddb w) !! k.
Proof.
  intros Hn. destruct (read_counter_spec w) as (start & m1 & (w1 & E1 & Hc1 & Hl1) & Hs & Hv & Hf).
  destruct (one_time_loop_spec (Z.to_nat n) start w1 Hs ltac:(lia))
    as (js & m2 & (w2 & E2 & Hc2 & Hl2) & Hids & Hst & Ho).
  rewrite Z2Nat.id in * by lia.
  set (k0 := (ACCOUNT_DICT, ACI_NEXT_PREKEY_ID_KEY)).
  assert (∀ id, k0 ≠ (PREKEY_DICT, show_u id)) as Hk0.
  { assert (ACCOUNT_DICT ≠ PREKEY_DICT) as Hd by by vm_compute. intros id. unfold k0. congruence. }
  exists start, js, (<[k0 := show_u (id_at start n)]> m2). split_and!; [|done|done|done| | |].
  - unfold generate_one_time_prekeys. destruct (Z.eqb_spec n 0); [lia|].
    apply (wruns_step _ _ w start w1 [] _ _ []); [done|done|].
    eapply (wruns_step _ _ w1 _ w2 [] _ _ []); [done|done|].
    eapply wruns_then; [apply write_counter_spec|]. intros w3 Hw3. apply wruns_ret.
    by rewrite Hw3, Hc2.
  - rewrite lookup_insert_eq. apply stored_counter_show, id_at_ok.
  - eapply Forall_impl; [done|]. intros j (kp & b & ? & ? & Hl). exists kp, b.
    split_and!; [done|done|]. by rewrite lookup_insert_ne.
  - intros k Hk Hid. rewrite lookup_insert_ne by done. rewrite Ho by done. rewrite Hc1. by apply Hf.
Qed.

(** C28: a one-time batch.  Asked for [n] keys it stores and returns exactly [n],
    with consecutive ids on the ring 1..=2^24-1 from the persistent counter (a
    fresh one in 1..=1000 when none is readable), no id twice and never 0; every
    returned key is the public half of a record [get_pre_key] returns for its
    id; the counter goes on behind the last id; nothing else of the store
    changes and nothing is sent. *)
Theorem one_time_batch n w :
  (0 < n ≤ MEDIUM_MAX)%Z →
  ∃ start js w', generate_one_time_prekeys n w =
      (Ok {| batch_json := js; batch_count := n |}, w') ∧
    w_log w' = w_log w ∧ length js = Z.to_nat n ∧
    (∀ v, counter (contents (w_pddb w)) = Some v → start = v) ∧ id_ok start ∧
    otj_key_id <$> js = id_at start <$> seqZ 0 n ∧
    NoDup (otj_key_id <$> js) ∧ Forall id_ok (otj_key_id <$> js) ∧
    counter (contents (w_pddb w')) = Some (id_at start n) ∧
    (∀ j, j ∈ js → ∃ kp,
       (PreKey_get_pre_key pre_key_store (otj_key_id j) (w_pddb w')).1 =
         Ok (PreKeyRecord_new (otj_key_id j) kp) ∧
       otj_public_key j = b64_encode STANDARD_NO_PAD (public_serialize kp.1)) ∧
    ∀ k, k ≠ (ACCOUNT_DICT, ACI_NEXT_PREKEY_ID_KEY) →
      (∀ id, id ∈ otj_key_id <$> js → k ≠ (PREKEY_DICT, show_u id)) →
      contents (w_pddb w') !! k = contents (w_pddb w) !! k.
Proof.
  intros Hn. destruct (batch_spec n w Hn)
    as (start & js & m' & (w' & E & Hc & Hl) & Hv & Hs & Hids & Hcnt & Hst & Hf).
  exists start, js, w'. rewrite app_nil_r in Hl. split_and!; try done.
  - rewrite <- (length_fmap otj_key_id), Hids, length_fmap. apply length_seqZ.
  - rewrite Hids. apply ids_NoDup. lia.
  - rewrite Hids. apply ids_ok.
  - by rewrite Hc.
  - intros j Hj. rewrite Forall_forall in Hst. eapply staged_get; [done|auto].
  - by rewrite Hc.
Qed.
End spec.

(** ** The pre-keys of a link *)
Section link_prekeys.
Context `{LibsignalLaws} `{!KeyOps} `{!KeyLaws} `{Base64} {P O : Type}.
Context `{PddbLaws P, Host O, OsRng O} `{!OsRngLaws O}.
Implicit Types w : World P O.

(** A public form [(id, key, signature)] whose signature verifies under the
    public half of [priv]. *)
Definition signed_by (priv : PrivateKey) (id : Z) (key sig : bytes) : Prop :=
  id_ok id ∧ ∃ pub raw_key raw_sig, private_public_key priv = Ok pub ∧
    key = b64_encode STANDARD_NO_PAD raw_key ∧ sig = b64_encode STANDARD_NO_PAD raw_sig ∧
    verify_signature pub raw_key raw_sig = true.
Definition signed_ok (priv : PrivateKey) (j : SignedPreKeyJson) (r : SignedPreKeyRecord) : Prop :=
  signed_by priv (spj_key_id j) (spj_public_key j) (spj_signature j) ∧
  SignedPreKeyRecord_id r = Ok (spj_key_id j) ∧ is_ok (serialize r) = true.
Definition kyber_ok (priv : PrivateKey) (j : KyberPreKeyJson) (r : KyberPreKeyRecord) : Prop :=
  signed_by priv (kpj_key_id j) (kpj_public_key j) (kpj_signature j) ∧
  KyberPreKeyRecord_id r = Ok (kpj_key_id j) ∧ is_ok (serialize r) = true.

(** Generation touches neither the store nor the log. *)
Definition unstored w w' : Prop :=
  contents (w_pddb w') = contents (w_pddb w) ∧ w_log w' = w_log w.

Lemma self_verify_inv msg pub k sg u : self_verify msg pub k sg = Ok u → verify_signature pub k sg = true.
Proof. unfold self_verify. by destruct (verify_signature pub k sg). Qed.
Lemma out_unstored {E A} (f : O → A * O) w r w' : on_out (E := E) f w = (r, w') → unstored w w'.
Proof. unfold on_out. destruct (f (w_out w)). by intros [= <- <-]. Qed.

Lemma random_id_spec w id w' :
  random_prekey_id w = (Ok id, w') → id_ok id ∧ unstored w w'.
Proof.
  intros (v & w1 & E1 & E2)%bind_Ok. injection E2 as <- <-. split.
  - pose proof (rng_u32_range (w_out w)) as Hr. unfold next_u32, on_out in E1.
    destruct (rng_next_u32 (w_out w)) as [v0 o]. injection E1 as <- <-. simpl in Hr.
    unfold id_ok, MEDIUM_MAX. unfold in_u32 in Hr. Z.to_euclidean_division_equations. lia.
  - by eapply out_unstored.
Qed.

Lemma signed_prekey_spec priv w j r w' :
  generate_signed_prekey priv w = (Ok (j, r), w') → signed_ok priv j r ∧ unstored w w'.
Proof.
  intros (id & w1 & E1 & E)%bind_Ok. apply bind_Ok in E as (g & w2 & E2 & E).
  apply bind_Ok in E as (g' & w3 & E3 & E). apply bind_Ok in E as (sg & w4 & E4 & E).
  apply bind_Ok in E as (pub & w5 & E5 & E). apply bind_Ok in E as (u & w6 & E6 & E).
  injection E as <- <- <-. apply random_id_spec in E1 as [Hid [Hc1 Hl1]].
  apply out_unstored in E2 as [Hc2 Hl2], E3 as [Hc3 Hl3].
  apply lift_Ok in E4 as [Hsg ->], E5 as [Hpub%map_err_Ok ->], E6 as [Hv%self_verify_inv ->].
  split; [|split; congruence]. split; [|split].
  - split; [done|]. by eexists _, _, _.
  - apply SignedPreKeyRecord_new_id, id_ok_u32, Hid.
  - apply SignedPreKeyRecord_serializes.
Qed.

Lemma kyber_prekey_spec priv w j r w' :
  generate_kyber_last_resort priv w = (Ok (j, r), w') → kyber_ok priv j r ∧ unstored w w'.
Proof.
  intros (id & w1 & E1 & E)%bind_Ok. apply bind_Ok in E as (g & w2 & E2 & E).
  apply bind_Ok in E as (rec & w3 & E3 & E). apply bind_Ok in E as (kp & w4 & E4 & E).
  apply bind_Ok in E as (sg & w5 & E5 & E). apply bind_Ok in E as (pub & w6 & E6 & E).
  apply bind_Ok in E as (u & w7 & E7 & E).
  injection E as <- <- <-. apply random_id_spec in E1 as [Hid [Hc1 Hl1]].
  apply out_unstored in E2 as [Hc2 Hl2]. apply lift_Ok in E3 as [Hrec%map_err_Ok ->].
  apply lift_Ok in E4 as [_ ->], E5 as [_ ->], E6 as [Hpub%map_err_Ok ->],
    E7 as [Hv%self_verify_inv ->].
  destruct (KyberPreKeyRecord_generated id priv g rec (id_ok_u32 _ Hid) Hrec) as [Hrid Hser].
  split; [|split; congruence]. split; [|done]. split; [done|]. by eexists _, _, _.
Qed.

(** [r] saved under its id. *)
Lemma save_signed_spec priv j r w :
  signed_ok priv j r → ∃ b, serialize r = Ok b ∧
    wruns (save_signed r) w (Ok tt)
      (<[(SIGNED_PREKEY_DICT, show_u (spj_key_id j)) := b]> (contents (w_pddb w))) [].
Proof.
  intros (_ & Hid & Hs). destruct (serialize r) as [b|] eqn:Hb; [|done]. exists b.
  split; [done|]. unfold save_signed. rewrite Hid.
  eapply wruns_then; [by apply wruns_lift|]. intros w1 <-.
  apply wruns_pddb, (runs_with_err _ _ _ (Ok tt)).
  unfold SignedPreKey_save_signed_pre_key. rewrite Hb.
  eapply runs_bind; [by apply runs_lift|]. intros p1 <-. apply write_record_spec.
Qed.
Lemma save_kyber_spec priv j r w :
  kyber_ok priv j r → ∃ b, serialize r = Ok b ∧
    wruns (save_kyber r) w (Ok tt)
      (<[(KYBER_PREKEY_DICT, show_u (kpj_key_id j)) := b]> (contents (w_pddb w))) [].
Proof.
  intros (_ & Hid & Hs). destruct (serialize r) as [b|] eqn:Hb; [|done]. exists b.
  split; [done|]. unfold save_kyber. rewrite Hid.
  eapply wruns_then; [by apply wruns_lift|]. intros w1 <-.
  apply wruns_pddb, (runs_with_err _ _ _ (Ok tt)).
  unfold KyberPreKey_save_kyber_pre_key. rewrite Hb.
  eapply runs_bind; [by apply runs_lift|]. intros p1 <-. apply write_record_spec.
Qed.

Definition prekeys_ok (aci pni : PrivateKey) (pk : Prekeys) : Prop :=
  signed_ok aci (aci_signed pk) (aci_signed_record pk) ∧
  signed_ok pni (pni_signed pk) (pni_signed_record pk) ∧
  kyber_ok aci (aci_kyber_last_resort pk) (aci_kyber_record pk) ∧
  kyber_ok pni (pni_kyber_last_resort pk) (pni_kyber_record pk).

Lemma generate_prekeys_spec aci pni w pk w' :
  generate_prekeys aci pni w = (Ok pk, w') → prekeys_ok aci pni pk ∧ unstored w w'.
Proof.
  intros ([j1 r1] & w1 & E1 & E)%bind_Ok. apply bind_Ok in E as ([j2 r2] & w2 & E2 & E).
  apply bind_Ok in E as ([j3 r3] & w3 & E3 & E). apply bind_Ok in E as ([j4 r4] & w4 & E4 & E).
  injection E as <- <-.
  apply signed_prekey_spec in E1 as [HA [Hc1 Hl1]], E2 as [HB [Hc2 Hl2]].
  apply kyber_prekey_spec in E3 as [HC [Hc3 Hl3]], E4 as [HD [Hc4 Hl4]].
  split; [done|]. split; congruence.
Qed.

(** The store after [save_to_pddb]. *)
Lemma save_to_pddb_spec aci pni pk w :
  prekeys_ok aci pni pk → ∃ b1 b2 b3 b4,
    serialize (aci_signed_record pk) = Ok b1 ∧ serialize (pni_signed_record pk) = Ok b2 ∧
    serialize (aci_kyber_record pk) = Ok b3 ∧ serialize (pni_kyber_record pk) = Ok b4 ∧
    wruns (save_to_pddb pk) w (Ok tt)
      (<[(KYBER_PREKEY_DICT, show_u (kpj_key_id (pni_kyber_last_resort pk))) := b4]>
      (<[(KYBER_PREKEY_DICT, show_u (kpj_key_id (aci_kyber_last_resort pk))) := b3]>
      (<[(SIGNED_PREKEY_DICT, show_u (spj_key_id (pni_signed pk))) := b2]>
      (<[(SIGNED_PREKEY_DICT, show_u (spj_key_id (aci_signed pk))) := b1]>
        (contents (w_pddb w)))))) [].
Proof.
  intros (H1' & H2' & H3' & H4').
  destruct (save_signed_spec _ _ _ w H1') as (b1 & Hb1 & (w1 & E1 & Hc1 & Hl1)).
  destruct (save_signed_spec _ _ _ w1 H2') as (b2 & Hb2 & (w2 & E2 & Hc2 & Hl2)).
  destruct (save_kyber_spec _ _ _ w2 H3') as (b3 & Hb3 & (w3 & E3 & Hc3 & Hl3)).
  destruct (save_kyber_spec _ _ _ w3 H4') as (b4 & Hb4 & (w4 & E4 & Hc4 & Hl4)).
  exists b1, b2, b3, b4. split_and!; [done..|].
  eapply (wruns_step _ _ w _ w1 [] _ _ []); [done|done|].
  eapply (wruns_step _ _ w1 _ w2 [] _ _ []); [done|done|].
  eapply (wruns_step _ _ w2 _ w3 [] _ _ []); [done|done|].
  exists w4. split; [done|]. split; [|done]. by rewrite Hc4, Hc3, Hc2, Hc1.
Qed.

Lemma get_signed_spec id p :
  (SignedPreKey_get_signed_pre_key signed_pre_key_store id p).1 =
    match contents p !! (SIGNED_PREKEY_DICT, show_u id) with
    | Some b => deserialize b | None => Err InvalidSignedPreKeyId end.
Proof. by destruct (get_signed_pre_key_spec signed_pre_key_store id p) as (p1 & -> & _). Qed.

Lemma get_kyber_eq id p :
  (KyberPreKey_get_kyber_pre_key kyber_pre_key_store id p).1 =
    match contents p !! (KYBER_PREKEY_DICT, show_u id) with
    | Some b => deserialize b | None => Err InvalidKyberPreKeyId end.
Proof. by destruct (get_kyber_spec kyber_pre_key_store id p) as (p1 & -> & _). Qed.

(** The pre-keys of a link.  Generation stores and sends nothing, and every
    pre-key it returns has an id in 1..=2^24-1 that is also its record's, and a
    signature that verifies under the public half of its identity.  Saving them
    succeeds, and the stores then return the PNI records under their ids and the
    ACI records under theirs, except that an ACI id equal to the PNI id of the
    same kind has been overwritten by the PNI record. *)
Theorem link_prekeys aci pni w pk w' :
  generate_prekeys aci pni w = (Ok pk, w') →
  prekeys_ok aci pni pk ∧ unstored w w' ∧
  ∃ w2, save_to_pddb pk w' = (Ok tt, w2) ∧ w_log w2 = w_log w ∧
    let get_s i := (SignedPreKey_get_signed_pre_key signed_pre_key_store i (w_pddb w2)).1 in
    let get_k i := (KyberPreKey_get_kyber_pre_key kyber_pre_key_store i (w_pddb w2)).1 in
    let sa := spj_key_id (aci_signed pk) in
    let sp := spj_key_id (pni_signed pk) in
    let ka := kpj_key_id (aci_kyber_last_resort pk) in
    let kp := kpj_key_id (pni_kyber_last_resort pk) in
    get_s sp = Ok (pni_signed_record pk) ∧
    get_s sa = Ok (if decide (sa = sp) then pni_signed_record pk else aci_signed_record pk) ∧
    get_k kp = Ok (pni_kyber_record pk) ∧
    get_k ka = Ok (if decide (ka = kp) then pni_kyber_record pk else aci_kyber_record pk).
Proof.
  intros [Hok [Hc Hl]]%generate_prekeys_spec. split; [done|]. split; [done|].
  destruct (save_to_pddb_spec aci pni pk w' Hok)
    as (b1 & b2 & b3 & b4 & Hb1 & Hb2 & Hb3 & Hb4 & (w2 & E2 & Hc2 & Hl2)).
  exists w2. split; [done|]. split; [by rewrite Hl2, app_nil_r|]. cbv zeta.
  assert (SIGNED_PREKEY_DICT ≠ KYBER_PREKEY_DICT) as Hd by by vm_compute.
  destruct Hok as (((Hi1 & _) & _) & ((Hi2 & _) & _) & ((Hi3 & _) & _) & ((Hi4 & _) & _)).
  apply id_ok_u32 in Hi1, Hi2, Hi3, Hi4.
  assert (∀ (d : bytes) i j, in_u32 i → in_u32 j → j ≠ i → (d, show_u i) ≠ (d, show_u j)) as Hne.
  { intros d i j Hi Hj Hij E. apply Hij. symmetry. apply show_u_32_inj; [done|done|].
    by apply (f_equal snd) in E. }
  rewrite !get_signed_spec, !get_kyber_eq, !Hc2. split_and!.
  - rewrite !(lookup_insert_ne _ (KYBER_PREKEY_DICT, _)), lookup_insert_eq by congruence.
    by apply deserialize_serialize.
  - rewrite !(lookup_insert_ne _ (KYBER_PREKEY_DICT, _)) by congruence. case_decide as Hs.
    + rewrite Hs, lookup_insert_eq. by apply deserialize_serialize.
    + rewrite lookup_insert_ne by (by apply Hne).
      rewrite lookup_insert_eq. by apply deserialize_serialize.
  - rewrite lookup_insert_eq. by apply deserialize_serialize.
  - case_decide as Hs.
    + rewrite Hs, lookup_insert_eq. by apply deserialize_serialize.
    + rewrite lookup_insert_ne by (by apply Hne).
      rewrite lookup_insert_eq. by apply deserialize_serialize.
Qed.
End link_prekeys.

(** ** Replenishment *)
Section replenish_spec.
Context `{LibsignalLaws} `{!KeyOps} `{!KeyLaws} `{Base64, SerdeJson, UrlLib, UreqText} {P O : Type}.
Context `{PddbLaws P, Host O, OsRng O} `{!OsRngLaws O}.
Implicit Types w : World P O.

Variables (base : Url) (aci password : bytes) (device_id : Z).
Definition keys_auth : bytes := basic_auth_header (aci ++ "."%bs ++ show_u device_id) password.
Definition status_request : http_request := get_request (keys_url base) keys_auth.

(** The upload of [js]: the request it makes, if the body serializes, and what
    its answer says. *)
Definition uploads (js : list OneTimePreKeyJson) (o : ReplenishOutcome) (l : list event) : Prop :=
  match to_vec (SetKeysRequest_json (set_keys_request js)) with
  | Err _ => l = [] ∧ ∃ e, o = Failed e
  | Ok json => ∃ a, l = [EvHttp (put_request (keys_url base) keys_auth json) a] ∧
      match put_result "PUT /v2/keys"%bs a with
      | Ok _ => o = Replenished (Z.of_nat (length js))
      | Err e => o = Failed ("put_keys: "%bs ++ message e)
      end
  end.

Lemma put_keys_spec js w :
  ∃ r l, wruns (put_keys base (aci ++ "."%bs ++ show_u device_id) password
      (set_keys_request js)) w r (contents (w_pddb w)) l ∧
    match to_vec (SetKeysRequest_json (set_keys_request js)) with
    | Err _ => l = [] ∧ ∃ e, r = Err e
    | Ok json => ∃ a, l = [EvHttp (put_request (keys_url base) keys_auth json) a] ∧
        r = put_result "PUT /v2/keys"%bs a
    end.
Proof.
  unfold put_keys. destruct (to_vec _) as [json|e].
  - set (q := put_request _ _ json). set (a := (ureq_call q (w_out w)).1).
    exists (put_result "PUT /v2/keys"%bs a), [EvHttp q a]. split; [|by exists a].
    eapply (wruns_step _ _ w json w [] _ _ [EvHttp q a]); [done|by rewrite app_nil_r|].
    eapply wruns_last; [by apply wruns_exchange|].
    intros. by apply wruns_lift.
  - eexists _, []. split; [|eauto]. by apply wruns_bind_err, wruns_lift.
Qed.

(** C27: replenishment.  One status request; at a count of ten or more, or on any
    failure of it, nothing is generated, stored or uploaded.  Below ten, exactly
    100 keys with consecutive fresh ids are generated and are all in the store
    before the one upload, which carries exactly these keys; the outcome is
    [Replenished 100] exactly when the server accepted them.  The replenishment
    itself never fails. *)
Theorem replenish_batch w :
  ∃ a1 outcome w' l, replenish_aci_one_time_prekeys (F := io_error) base aci device_id password w =
      (Ok outcome, w') ∧ w_log w' = w_log w ++ EvHttp status_request a1 :: l ∧
    match keys_status a1 with
    | Err e => outcome = Failed ("get_keys_status: "%bs ++ message e) ∧ l = [] ∧
        contents (w_pddb w') = contents (w_pddb w)
    | Ok c =>
        if (PRE_KEY_MINIMUM <=? count c)%Z
        then outcome = Skipped (count c) ∧ l = [] ∧ contents (w_pddb w') = contents (w_pddb w)
        else ∃ start js, length js = 100 ∧
          otj_key_id <$> js = id_at start <$> seqZ 0 100 ∧
          (∃ w1, Forall (staged (contents (w_pddb w1))) js ∧
             w' = (put_keys base (aci ++ "."%bs ++ show_u device_id) password
                     (set_keys_request js) w1).2) ∧
          Forall (staged (contents (w_pddb w'))) js ∧ uploads js outcome l
    end.
Proof.
  set (a1 := (ureq_call status_request (w_out w)).1).
  assert (∃ w1, get_keys_status base (aci ++ "."%bs ++ show_u device_id) password w =
      (keys_status a1, w1) ∧ contents (w_pddb w1) = contents (w_pddb w) ∧
      w_log w1 = w_log w ++ [EvHttp status_request a1]) as (w1 & E1 & Hc1 & Hl1).
  { eapply wruns_last; [by apply wruns_exchange|].
    intros. by apply wruns_lift. }
  exists a1. unfold replenish_aci_one_time_prekeys, run_replenish, try, mbind, ST_bind.
  rewrite E1. destruct (keys_status a1) as [c|e].
  2: { eexists _, w1, []. split; [done|]. by split_and!. }
  destruct (PRE_KEY_MINIMUM <=? count c)%Z.
  { eexists _, w1, []. split; [done|]. by split_and!. }
  destruct (batch_spec PRE_KEY_BATCH_SIZE w1 ltac:(done))
    as (start & js & m' & (w2 & E2 & Hc2 & Hl2) & _ & _ & Hids & _ & Hst & _).
  rewrite E2. unfold mret, ST_ret. cbn [batch_json].
  assert (length js = 100) as Hlen.
  { rewrite <- (length_fmap otj_key_id), Hids, length_fmap. apply length_seqZ. }
  destruct (put_keys_spec js w2) as (r & l & (w3 & E3 & Hc3 & Hl3) & Hr). rewrite E3.
  rewrite app_nil_r in Hl2. rewrite Hl2, Hl1, <- app_assoc in Hl3. rewrite Hc2 in Hc3.
  assert (Z.of_nat (length (pre_keys (set_keys_request js))) = 100%Z) as Hup.
  { simpl. by rewrite length_fmap, Hlen. }
  assert (∃ o, (match r with
      | Ok _ => (Ok (Replenished (Z.of_nat (length (pre_keys (set_keys_request js)))
                                  mod (u32_max + 1))), w3)
      | Err e => (Ok (Failed ("put_keys: "%bs ++ message e)), w3)
      end : result io_error ReplenishOutcome * World P O) = (Ok o, w3) ∧ uploads js o l) as (o & Ho & Hu).
  { unfold uploads. destruct (to_vec _) as [json|e].
    - destruct Hr as (a & -> & ->). destruct (put_result _ a) as [[]|e] eqn:Ep.
      + eexists. split; [done|]. exists a. split; [done|]. rewrite Ep, Hup, Hlen. done.
      + eexists. split; [done|]. exists a. by rewrite Ep.
    - destruct Hr as (-> & e' & ->). eexists. split; [done|]. eauto. }
  exists o, w3, l. split; [destruct r; exact Ho|]. split; [done|].
  exists start, js. rewrite Hc3. split_and!; [done|done| |done|done].
  exists w2. split; [by rewrite Hc2|by rewrite E3].
Qed.
End replenish_spec.

(** * The theorems at a concrete device *)

#[global] Instance sim_rng : OsRng sim := {|
  rng_try_fill n o := (Ok (replicate n Byte.x2a), o);
  rng_next_u32 o := (4242%Z, o);
|}.
#[global] Instance sim_rng_laws : OsRngLaws sim.
Proof.
  constructor.
  - intros n o b o' [= <- _]. apply length_replicate.
  - intros o. simpl. unfold in_u32, u32_max. lia.
Qed.

(** A device whose counter is two short of the wrap-around. *)
Definition wrap_world : World flash sim :=
  MkWorld {[(ACCOUNT_DICT, ACI_NEXT_PREKEY_ID_KEY) := "16777214"%bs : bytes]} (Sim 0 [] []) [].
Example wrap_ids : match (generate_one_time_prekeys 3 wrap_world).1 with
                   | Ok b => (otj_key_id <$> batch_json b) = [16777214; 16777215; 1]%Z
                   | Err _ => False
                   end.
Proof. by vm_compute. Qed.

Lemma one_time_batch_witness :
  ∃ start js w', generate_one_time_prekeys 3 wrap_world =
      (Ok {| batch_json := js; batch_count := 3 |}, w') ∧
    w_log w' = [] ∧ length js = 3 ∧
    (∀ v, counter (contents (w_pddb wrap_world)) = Some v → start = v) ∧ id_ok start ∧
    otj_key_id <$> js = id_at start <$> seqZ 0 3 ∧
    NoDup (otj_key_id <$> js) ∧ Forall id_ok (otj_key_id <$> js) ∧
    counter (contents (w_pddb w')) = Some (id_at start 3) ∧
    (∀ j, j ∈ js → ∃ kp,
       (PreKey_get_pre_key pre_key_store (otj_key_id j) (w_pddb w')).1 =
         Ok (PreKeyRecord_new (otj_key_id j) kp) ∧
       otj_public_key j = b64_encode STANDARD_NO_PAD (public_serialize kp.1)) ∧
    ∀ k, k ≠ (ACCOUNT_DICT, ACI_NEXT_PREKEY_ID_KEY) →
      (∀ id, id ∈ otj_key_id <$> js → k ≠ (PREKEY_DICT, show_u id)) →
      contents (w_pddb w') !! k = contents (w_pddb wrap_world) !! k.
Proof. apply (one_time_batch 3 wrap_world). unfold MEDIUM_MAX. lia. Defined.

Definition low_stock : ureq_result :=
  UreqOk 200 (Ok ("{"%bs ++ dq ++ "count"%bs ++ dq ++ ":3,"%bs ++ dq ++ "pqCount"%bs ++ dq ++
                  ":0}"%bs)).
Definition low_world : World flash sim := MkWorld ∅ (Sim 0 [low_stock; ok_200] []) [].
Example low_replenished :
  (replenish_aci_one_time_prekeys (F := io_error) ("https://chat.example.org"%bs : bytes, [])
     "alice"%bs 2 "pw"%bs low_world).1 = Ok (Replenished 100).
Proof. by vm_compute. Qed.

Lemma replenish_batch_witness :
  let base := (("https://chat.example.org"%bs : bytes), [] : bytes) : Url in
  ∃ a1 outcome w' l, replenish_aci_one_time_prekeys (F := io_error) base "alice"%bs 2 "pw"%bs
      low_world = (Ok outcome, w') ∧
    w_log w' = [] ++ EvHttp (status_request base "alice"%bs "pw"%bs 2) a1 :: l ∧
    match keys_status a1 with
    | Err e => outcome = Failed ("get_keys_status: "%bs ++ message e) ∧ l = [] ∧
        contents (w_pddb w') = contents (w_pddb low_world)
    | Ok c =>
        if (PRE_KEY_MINIMUM <=? count c)%Z
        then outcome = Skipped (count c) ∧ l = [] ∧
          contents (w_pddb w') = contents (w_pddb low_world)
        else ∃ start js, length js = 100 ∧
          otj_key_id <$> js = id_at start <$> seqZ 0 100 ∧
          (∃ w1, Forall (staged (contents (w_pddb w1))) js ∧
             w' = (put_keys base ("alice"%bs ++ "."%bs ++ show_u 2) "pw"%bs
                     (set_keys_request js) w1).2) ∧
          Forall (staged (contents (w_pddb w'))) js ∧
          uploads base "alice"%bs "pw"%bs 2 js outcome l
    end.
Proof. intros base. exact (replenish_batch base "alice"%bs "pw"%bs 2 low_world). Defined.

Definition link_keys_world : World flash sim := MkWorld ∅ (Sim 0 [] []) [].
Definition link_keys_run :=
  generate_prekeys ([Byte.x01] : @PrivateKey Toy.libsignal) [Byte.x02] link_keys_world.
Lemma link_prekeys_witness :
  match link_keys_run with
  | (Ok pk, w') => prekeys_ok [Byte.x01] [Byte.x02] pk ∧ unstored link_keys_world w' ∧
      ∃ w2, save_to_pddb pk w' = (Ok tt, w2) ∧
        (SignedPreKey_get_signed_pre_key signed_pre_key_store (spj_key_id (pni_signed pk))
           (w_pddb w2)).1 = Ok (pni_signed_record pk)
  | (Err _, _) => False
  end.
Proof.
  assert (is_ok link_keys_run.1 = true) as Hok by (vm_compute; reflexivity).
  destruct link_keys_run as [[pk|e] w'] eqn:E; [|done].
  destruct (link_prekeys ([Byte.x01] : @PrivateKey Toy.libsignal) [Byte.x02] link_keys_world
    pk w' E) as (H1 & H2 & w2 & E2 & _ & Hp & _).
  split; [exact H1|]. split; [exact H2|]. exists w2. split; [exact E2|exact Hp].
Defined.
