(* ===== verification/ProvisionSpec.v ===== *)
(** Properties of provisioning: the counter mode against its definition by
    blocks, the device-name round trip, the provisioning-envelope round trip
    and its authenticity. *)

From S2P Require Import Prelude RustStd Wire Base64 Json Pddb Signal Stores World SendWorld Keys Provision.

(** * Counter mode *)

(** The 16-byte big-endian form of [n mod 2^128]. *)
Fixpoint le_bytes (k : nat) (n : Z) : bytes :=
  match k with 0 => [] | S k => Zbyte n :: le_bytes k (n / 256) end.
Definition be128 (n : Z) : bytes := rev (le_bytes 16 n).

Lemma Zbyte_eq a b : (a mod 256 = b mod 256)%Z → Zbyte a = Zbyte b.
Proof. intros E. unfold Zbyte. by rewrite E. Qed.

Lemma increment_le_bytes k n : increment_le (le_bytes k n) = le_bytes k (n + 1).
Proof.
  revert n. induction k as [|k IH]; intros n; [done|]. simpl.
  assert (Zbyte (byteZ (Zbyte n) + 1) = Zbyte (n + 1)) as ->.
  { apply Zbyte_eq. rewrite byteZ_Zbyte. by rewrite Zplus_mod_idemp_l. }
  case_bool_decide as Hz.
  - rewrite IH. do 2 f_equal. apply (f_equal byteZ) in Hz. rewrite byteZ_Zbyte in Hz.
    change (byteZ Byte.x00) with 0%Z in Hz. Z.to_euclidean_division_equations. lia.
  - do 2 f_equal. assert (((n + 1) mod 256)%Z ≠ 0%Z) as Hne.
    { intros E. apply Hz. change Byte.x00 with (Zbyte 0). by apply Zbyte_eq. }
    Z.to_euclidean_division_equations. lia.
Qed.
Lemma increment_be128 n : increment (be128 n) = be128 (n + 1).
Proof. unfold increment, be128. by rewrite rev_involutive, increment_le_bytes. Qed.
Lemma be128_length n : length (be128 n) = 16.
Proof. done. Qed.

Lemma xor_byte_twice a b : xor_byte (xor_byte a b) b = a.
Proof.
  unfold xor_byte. rewrite byteZ_Zbyte_small.
  - by rewrite Z.lxor_assoc, Z.lxor_nilpotent, Z.lxor_0_r, Zbyte_byteZ.
  - pose proof (byteZ_range a). pose proof (byteZ_range b). split.
    + apply Z.lxor_nonneg. lia.
    + destruct (Z.eq_dec (Z.lxor (byteZ a) (byteZ b)) 0) as [->|Hne]; [lia|].
      apply (Z.log2_lt_pow2 _ 8).
      { assert (0 ≤ Z.lxor (byteZ a) (byteZ b))%Z by (apply Z.lxor_nonneg; lia). lia. }
      eapply Z.le_lt_trans; [apply Z.log2_lxor; lia|]. apply Z.max_lub_lt.
      * destruct (Z.eq_dec (byteZ a) 0) as [->|]; [done|]. apply (Z.log2_lt_pow2 _ 8); lia.
      * destruct (Z.eq_dec (byteZ b) 0) as [->|]; [done|]. apply (Z.log2_lt_pow2 _ 8); lia.
Qed.

Lemma chunks_aux_fuel n f l : 0 < n → length l ≤ f → chunks_aux f n l = chunks n l.
Proof.
  intros Hn. unfold chunks. remember (length l) as k eqn:Hk. revert f l Hk.
  induction (lt_wf k) as [k _ IH]. intros f l Hk Hf.
  destruct l as [|b l]; [by destruct f, k|].
  destruct f as [|f]; [simpl in Hk; lia|]. destruct k as [|k]; [done|].
  cbn [chunks_aux]. f_equal. simpl in Hk.
  assert (length (drop n (b :: l)) ≤ k) as Hd by (rewrite length_drop; simpl; lia).
  rewrite (IH (length (drop n (b :: l))) ltac:(lia) f _ eq_refl ltac:(lia)).
  by rewrite (IH (length (drop n (b :: l))) ltac:(lia) k _ eq_refl ltac:(lia)).
Qed.
Lemma chunks_cons n l : 0 < n → l ≠ [] → chunks n l = take n l :: chunks n (drop n l).
Proof.
  intros Hn Hl. destruct l as [|b l]; [done|]. unfold chunks at 1. cbn [length chunks_aux].
  f_equal. apply chunks_aux_fuel; [done|]. rewrite length_drop. simpl. lia.
Qed.

Lemma zip_with_app_l {A B C} (f : A → B → C) l k k' :
  length l ≤ length k → zip_with f l (k ++ k') = zip_with f l k.
Proof.
  revert k. induction l as [|x l IH]; intros [|y k] Hl; simpl in *; try done; [lia|].
  f_equal. apply IH. lia.
Qed.

Section ctr.
Context `{CryptoLaws}.

(** The key stream: the cipher on consecutive counter values. *)
Fixpoint keystream (key : bytes) (n : Z) (blocks : nat) : bytes :=
  match blocks with
  | 0 => []
  | S blocks => aes256_block key (be128 n) ++ keystream key (n + 1) blocks
  end.

Lemma keystream_length key n blocks :
  length key = 32 → length (keystream key n blocks) = 16 * blocks.
Proof.
  intros Hk. revert n. induction blocks as [|b IH]; intros n; simpl; [done|].
  rewrite length_app, aes_block_length, IH by done. lia.
Qed.

Lemma ctr_loop_stream key blocks n m :
  length key = 32 → length m ≤ 16 * blocks →
  ctr_loop key (be128 n) (chunks 16 m) = zip_with xor_byte m (keystream key n blocks).
Proof.
  intros Hk. revert n m. induction blocks as [|b IH]; intros n m Hm.
  { destruct m; [done|simpl in Hm; lia]. }
  destruct (decide (m = [])) as [->|Hne]; [done|].
  rewrite chunks_cons by (lia || done). cbn [ctr_loop keystream].
  rewrite increment_be128, IH by (rewrite length_drop; lia).
  pose proof (aes_block_length key (be128 n) Hk (be128_length n)) as Hb.
  destruct (decide (16 ≤ length m)) as [Hle|Hlt].
  - rewrite <- (take_drop 16 m) at 3. rewrite zip_with_app; [done|].
    rewrite length_take. lia.
  - rewrite take_ge, drop_ge by lia. simpl. rewrite app_nil_r.
    by rewrite zip_with_app_l by lia.
Qed.

Lemma ctr_spec key m blocks :
  length key = 32 → length m ≤ 16 * blocks →
  aes256_ctr_encrypt key m = Ok (zip_with xor_byte m (keystream key 0 blocks)).
Proof.
  intros Hk Hm. unfold aes256_ctr_encrypt. rewrite bool_decide_false by (intros E; by apply E).
  change (replicate 16 Byte.x00) with (be128 0). by erewrite ctr_loop_stream.
Qed.

Lemma zip_xor_twice l s : length l ≤ length s → zip_with xor_byte (zip_with xor_byte l s) s = l.
Proof.
  revert s. induction l as [|a l IH]; intros [|b s] Hs; simpl in *; try done; [lia|].
  rewrite xor_byte_twice. f_equal. apply IH. lia.
Qed.

(** Encrypting the ciphertext gives the plaintext back. *)
Lemma ctr_inverse key m : length key = 32 →
  ∃ c, aes256_ctr_encrypt key m = Ok c ∧ length c = length m ∧ aes256_ctr_encrypt key c = Ok m.
Proof.
  intros Hk. exists (zip_with xor_byte m (keystream key 0 (length m))).
  assert (length m ≤ length (keystream key 0 (length m))) as Hl.
  { rewrite keystream_length by done. lia. }
  split; [apply ctr_spec; [done|lia]|].
  assert (length (zip_with xor_byte m (keystream key 0 (length m))) = length m) as Hz.
  { rewrite length_zip_with. lia. }
  split; [done|]. erewrite (ctr_spec key _ (length m)) by (rewrite ?Hz; done || lia).
  by rewrite zip_xor_twice.
Qed.
End ctr.

(** * Field lookups *)
Section fields.
Context `{WireFormat}.

Abbreviation step t get := (λ old f, if (f.1 =? t)%Z then Some <$> get f.2 else Some old).

Lemma skip_put_len {A} t t' (get : wire → option A) o old fs :
  (t' =? t)%Z = false →
  merge_fields (step t get) old (put_len t' o ++ fs) = merge_fields (step t get) old fs.
Proof. intros Ht. destruct o; simpl; [|done]. by rewrite Ht. Qed.
Lemma skip_put_varint {A} t t' (get : wire → option A) o old fs :
  (t' =? t)%Z = false →
  merge_fields (step t get) old (put_varint t' o ++ fs) = merge_fields (step t get) old fs.
Proof. intros Ht. destruct o; simpl; [|done]. by rewrite Ht. Qed.

(** the field asked for, with [get] reading what was put *)
Lemma take_put_len {A} t (get : wire → option A) (o : option bytes) (v : option A) fs :
  (∀ b, o = Some b → Some <$> get (WLen b) = Some v) → (o = None → v = None) →
  (∀ old, merge_fields (step t get) old fs = Some old) →
  merge_fields (step t get) None (put_len t o ++ fs) = Some v.
Proof.
  intros Hs Hn Hold. destruct o as [b|]; simpl.
  - rewrite Z.eqb_refl, (Hs b eq_refl). apply Hold.
  - rewrite (Hn eq_refl). apply Hold.
Qed.
Lemma take_put_bool t (o : option bool) fs :
  (∀ old, merge_fields (step t get_bool) old fs = Some old) →
  merge_fields (step t get_bool) None
    (put_varint t ((λ b : bool, if b then 1 else 0)%Z <$> o) ++ fs) = Some o.
Proof.
  intros Hold. destruct o as [[]|]; simpl; rewrite ?Z.eqb_refl; apply Hold.
Qed.
End fields.

(** * The device name *)
Section device_name.
Context `{LibsignalLaws} `{!KeyOps} `{!KeyLaws} `{Base64Laws, WireFormatLaws, CryptoLaws}.
Context {P O : Type} `{Host O}.

Definition fits (b : bytes) : Prop := (Z.of_nat (length b) ≤ 2 ^ 62)%Z.

(** What the primary device does with the text: decode it, agree on the secret
    with its identity key, derive the cipher key from the synthetic IV, decrypt,
    and recompute the IV from the plaintext. *)
Definition read_device_name (identity : PrivateKey) (text : bytes) : option bytes :=
  bs ← b64_decode STANDARD text;
  fs ← pb_decode bs;
  e ← opt_field 1 get_bytes fs; iv ← opt_field 2 get_bytes fs; ct ← opt_field 3 get_bytes fs;
  e ← e; iv ← iv; ct ← ct;
  pub ← ok (public_deserialize e);
  secret ← ok (calculate_agreement identity pub);
  k1 ← hmac_sha256 secret "cipher"%bs;
  key ← hmac_sha256 k1 iv;
  name ← ok (aes256_ctr_encrypt key ct);
  k2 ← hmac_sha256 secret "auth"%bs;
  iv' ← hmac_sha256 k2 name;
  if bool_decide (take 16 iv' = iv) then Some name else None.

Lemma seal_name_spec secret name :
  ∃ iv ct k1 key k2 iv', seal_name secret name = Ok (iv, ct) ∧ length iv = 16 ∧
    length ct = length name ∧ hmac_sha256 secret "cipher"%bs = Some k1 ∧
    hmac_sha256 k1 iv = Some key ∧ aes256_ctr_encrypt key ct = Ok name ∧
    hmac_sha256 secret "auth"%bs = Some k2 ∧ hmac_sha256 k2 name = Some iv' ∧ take 16 iv' = iv.
Proof.
  unfold seal_name, mac.
  destruct (hmac_total secret "auth"%bs) as (k2 & E2 & L2). rewrite E2. cbn [ok_or mbind result_bind].
  destruct (hmac_total k2 name) as (iv' & Ei & Li). rewrite Ei. cbn [ok_or mbind result_bind].
  destruct (hmac_total secret "cipher"%bs) as (k1 & E1 & L1). rewrite E1. cbn [ok_or mbind result_bind].
  destruct (hmac_total k1 (take 16 iv')) as (key & Ek & Lk). rewrite Ek. cbn [ok_or mbind result_bind].
  destruct (ctr_inverse key name Lk) as (ct & Ec & Lc & Ed). rewrite Ec. cbn [ok_or mbind result_bind].
  exists (take 16 iv'), ct, k1, key, k2, iv'. split_and!; try done.
  rewrite length_take. lia.
Qed.

(** The device name.  For a private identity key with a public half,
    encrypting a name succeeds, changes nothing in the store, and the primary
    device, which has the same identity key, reads exactly that name back from
    the text: the ECDH, the two HMAC chains and the counter mode agree. *)
Theorem device_name_readable name identity pub (w : World P O) :
  private_public_key identity = Ok pub → fits name →
  ∃ text w', encrypt_device_name name
      (b64_encode URL_SAFE_NO_PAD (private_serialize identity)) w = (Ok text, w') ∧
    w_pddb w' = w_pddb w ∧ w_log w' = w_log w ∧ read_device_name identity text = Some name.
Proof.
  intros Hpub Hfit. unfold encrypt_device_name.
  rewrite b64_decode_encode. unfold mbind, ST_bind, lift, ok_or.
  rewrite private_deserialize_serialize. cbn [map_err]. rewrite Hpub. cbn [map_err].
  unfold draw_entropy, on_out. destruct (os_entropy (w_out w)) as [g o].
  set (eph := KeyPair_generate g).
  pose proof (KeyPair_public g) as Heph. fold eph in Heph.
  pose proof (agreement_total eph.2 pub) as Htot.
  destruct (calculate_agreement eph.2 pub) as [secret|] eqn:Hag; [|done]. cbn [map_err].
  destruct (seal_name_spec secret name)
    as (iv & ct & k1 & key & k2 & iv' & Hseal & Liv & Lct & E1 & Ek & Ed & E2 & Ei & Eiv).
  rewrite Hseal. unfold mret, ST_ret. cbn [fst snd].
  eexists _, _. split; [done|]. split; [done|]. split; [done|].
  unfold read_device_name. rewrite b64_decode_encode. cbn [mbind option_bind].
  rewrite pb_decode_encode.
  2: { unfold DeviceName_fields, fits in *. pose proof (KeyPair_public_length g) as Hs. fold eph in Hs.
       repeat (apply Forall_app; split); apply put_len_wf; try lia; intros ? [= <-];
         unfold in_u64, u64_max; lia. }
  cbn [mbind option_bind opt_field merge_fields DeviceName_fields put_len app fst snd
    ephemeral_public synthetic_iv dn_ciphertext get_bytes Z.eqb Pos.eqb fmap option_fmap option_map].
  rewrite public_deserialize_serialize. cbn [ok mbind option_bind].
  rewrite (agreement_sym identity pub eph.2 eph.1 Hpub Heph), Hag. cbn [ok mbind option_bind].
  rewrite E1. cbn [mbind option_bind]. rewrite Ek. cbn [mbind option_bind]. rewrite Ed.
  cbn [ok mbind option_bind]. rewrite E2. cbn [mbind option_bind]. rewrite Ei.
  cbn [mbind option_bind]. by rewrite bool_decide_true.
Qed.
End device_name.

(** * The provisioning envelope *)
Section envelope.
Context `{LibsignalLaws} `{!KeyOps} `{!KeyLaws} `{Base64Laws, WireFormatLaws, CryptoLaws}.

(** The wire form of a [ProvisionMessage] as the primary writes it. *)
Definition ProvisionMessage_fields (m : ProvisionMessageProto) : list field :=
  put_len 1 (aci_identity_key_public m) ++ put_len 2 (aci_identity_key_private m) ++
  put_len 3 (pm_number m) ++ put_len 4 (pm_provisioning_code m) ++
  put_len 6 (pm_profile_key m) ++
  put_varint 7 ((λ b : bool, if b then 1 else 0)%Z <$> read_receipts m) ++
  put_len 8 (pm_aci m) ++ put_len 10 (pm_pni m) ++ put_len 11 (pni_identity_key_public m) ++
  put_len 12 (pni_identity_key_private m) ++ put_len 15 (pm_account_entropy_pool m) ++ [].

Definition opt_fits (o : option bytes) : Prop := ∀ b, o = Some b → fits b.
Definition opt_text (o : option bytes) : Prop := ∀ b, o = Some b → fits b ∧ utf8_valid b = true.
Definition message_ok (m : ProvisionMessageProto) : Prop :=
  opt_fits (aci_identity_key_public m) ∧ opt_fits (aci_identity_key_private m) ∧
  opt_text (pm_number m) ∧ opt_text (pm_provisioning_code m) ∧ opt_fits (pm_profile_key m) ∧
  opt_text (pm_aci m) ∧ opt_text (pm_pni m) ∧ opt_fits (pni_identity_key_public m) ∧
  opt_fits (pni_identity_key_private m) ∧ opt_text (pm_account_entropy_pool m).

Lemma opt_fits_wf t o : (1 ≤ t ≤ 15)%Z → opt_fits o → Forall field_wf (put_len t o).
Proof.
  intros Ht Ho. apply put_len_wf; [lia|]. intros b Hb. apply Ho in Hb.
  unfold fits in Hb. unfold in_u64, u64_max. lia.
Qed.
Lemma opt_text_fits o : opt_text o → opt_fits o.
Proof. intros Ho b Hb. by apply Ho. Qed.
Lemma get_bytes_put o b : o = Some b → Some <$> get_bytes (WLen b) = Some o.
Proof. by intros ->. Qed.
Lemma get_string_put o b : opt_text o → o = Some b → Some <$> get_string (WLen b) = Some o.
Proof. intros Ho Hb. destruct (Ho b Hb) as [_ Hu]. subst o. simpl. unfold from_utf8. by rewrite Hu. Qed.

(** step over every field but the one asked for, and take that one *)
Ltac skip_fields :=
  repeat ((rewrite skip_put_len by done) || (rewrite skip_put_varint by done)).
Ltac read_bytes := unfold opt_field, ProvisionMessage_fields; skip_fields; apply take_put_len;
  [intros b; apply get_bytes_put|done|intros; skip_fields; done].
Ltac read_text := unfold opt_field, ProvisionMessage_fields; skip_fields; apply take_put_len;
  [intros b; by apply get_string_put|done|intros; skip_fields; done].

Lemma message_wf m : message_ok m → Forall field_wf (ProvisionMessage_fields m).
Proof.
  intros (H1' & H2' & H3' & H4' & H5' & H6' & H7' & H8' & H9' & H10').
  apply opt_text_fits in H3', H4', H6', H7', H10'. unfold ProvisionMessage_fields.
  repeat (apply Forall_app; split); try (apply opt_fits_wf; done || lia); [|constructor].
  apply put_varint_wf; [lia|]. intros v. destruct (read_receipts m) as [[]|]; intros [= <-];
    unfold in_u64, u64_max; lia.
Qed.

Lemma message_decodes m :
  message_ok m → ProvisionMessage_decode (pb_encode (ProvisionMessage_fields m)) = Some m.
Proof.
  intros Hm. unfold ProvisionMessage_decode.
  rewrite pb_decode_encode by by apply message_wf.
  destruct Hm as (_ & _ & H3' & H4' & _ & H6' & H7' & _ & _ & H10').
  cbn [mbind option_bind].
  assert (opt_field 1 get_bytes (ProvisionMessage_fields m) = Some (aci_identity_key_public m))
    as -> by read_bytes.
  assert (opt_field 2 get_bytes (ProvisionMessage_fields m) = Some (aci_identity_key_private m))
    as -> by read_bytes.
  assert (opt_field 3 get_string (ProvisionMessage_fields m) = Some (pm_number m))
    as -> by read_text.
  assert (opt_field 4 get_string (ProvisionMessage_fields m) = Some (pm_provisioning_code m))
    as -> by read_text.
  assert (opt_field 6 get_bytes (ProvisionMessage_fields m) = Some (pm_profile_key m))
    as -> by read_bytes.
  assert (opt_field 7 get_bool (ProvisionMessage_fields m) = Some (read_receipts m)) as ->.
  { unfold opt_field, ProvisionMessage_fields. skip_fields. apply take_put_bool.
    intros. by skip_fields. }
  assert (opt_field 8 get_string (ProvisionMessage_fields m) = Some (pm_aci m))
    as -> by read_text.
  assert (opt_field 10 get_string (ProvisionMessage_fields m) = Some (pm_pni m))
    as -> by read_text.
  assert (opt_field 11 get_bytes (ProvisionMessage_fields m) = Some (pni_identity_key_public m))
    as -> by read_bytes.
  assert (opt_field 12 get_bytes (ProvisionMessage_fields m) = Some (pni_identity_key_private m))
    as -> by read_bytes.
  assert (opt_field 15 get_string (ProvisionMessage_fields m) = Some (pm_account_entropy_pool m))
    as -> by read_text.
  by destruct m.
Qed.

(** The keys both sides derive from the shared secret. *)
Definition derived_keys (secret : bytes) : option (bytes * bytes) :=
  d ← hkdf_sha256 secret HKDF_INFO 64; Some (take 32 d, drop 32 d).

(** What the primary sends: the version, the IV and the ciphertext under the
    AES key, followed by the tag of all that under the MAC key, next to its
    ephemeral public key. *)
Definition seal_envelope (eph : PublicKey * PrivateKey) (ours : PublicKey) (iv plain : bytes) :
    option bytes :=
  secret ← ok (calculate_agreement eph.2 ours);
  keys ← derived_keys secret;
  let body := [Byte.x01] ++ iv ++ aes256_cbc_encrypt keys.1 iv plain in
  tag ← hmac_sha256 keys.2 body;
  Some (pb_encode (put_len 1 (Some (public_serialize eph.1)) ++ put_len 2 (Some (body ++ tag)))).

Lemma derived_keys_spec secret :
  ∃ k1 k2, derived_keys secret = Some (k1, k2) ∧ length k1 = 32 ∧
    hkdf_sha256 secret HKDF_INFO 64 = Some (k1 ++ k2).
Proof.
  destruct (hkdf_total secret HKDF_INFO 64) as (d & E & L); [lia|].
  exists (take 32 d), (drop 32 d). unfold derived_keys. rewrite E.
  split; [done|]. split; [rewrite length_take; lia|]. by rewrite take_drop.
Qed.

Lemma envelope_decodes k b :
  fits k → fits b →
  ProvisionEnvelope_decode (pb_encode (put_len 1 (Some k) ++ put_len 2 (Some b))) =
    Some {| penv_public_key := Some k; penv_body := Some b |}.
Proof.
  intros Hk Hb. unfold ProvisionEnvelope_decode. rewrite pb_decode_encode; [done|].
  apply Forall_app. split; apply opt_fits_wf; try lia; by intros ? [= <-].
Qed.

Lemma open_sealed k1 k2 iv plain tag :
  length k1 = 32 → length iv = 16 →
  let body := [Byte.x01] ++ iv ++ aes256_cbc_encrypt k1 iv plain in
  hmac_sha256 k2 body = Some tag → length tag = 32 →
  open_body k1 k2 (body ++ tag) = Ok plain.
Proof.
  intros Hk Hiv body Htag Hlen. unfold open_body.
  replace (length (body ++ tag) - 32) with (length body) by (rewrite length_app; lia).
  rewrite take_app_length, drop_app_length, Htag. cbn [ok_or mbind result_bind].
  rewrite bool_decide_true by done.
  assert (take 16 (drop 1 (body ++ tag)) = iv) as ->.
  { unfold body. rewrite <- !app_assoc. change (drop 1 ([Byte.x01] ++ ?l)) with l.
    by rewrite take_app_length' by done. }
  assert (drop 17 body = aes256_cbc_encrypt k1 iv plain) as ->.
  { unfold body. change (drop 17 ([Byte.x01] ++ ?l)) with (drop 16 l).
    by rewrite drop_app_length' by done. }
  by rewrite cbc_decrypt_encrypt.
Qed.

(** C31: the provisioning round trip.  The envelope a primary device seals for the
    public half of the temporary key pair (any ephemeral pair, any IV) decrypts,
    with that pair as the client stored it, to the sealed message: the result is
    [provision_message] of it, [Ok] exactly when both ACI keys are present. *)
Theorem provision_roundtrip g g' iv m service :
  let temp := KeyPair_generate g in
  let eph := KeyPair_generate g' in
  let plain := pb_encode (ProvisionMessage_fields m) in
  message_ok m → length iv = 16 → (Z.of_nat (length plain) ≤ 2 ^ 61)%Z →
  ∃ envelope, seal_envelope eph temp.1 iv plain = Some envelope ∧
    decrypt {| service_id := service;
               djb_identity_key := b64_encode URL_SAFE_NO_PAD (public_serialize temp.1);
               djb_private_key := b64_encode URL_SAFE_NO_PAD (private_serialize temp.2) |}
      envelope = provision_message m.
Proof.
  intros temp eph plain Hm Hiv Hplain.
  pose proof (agreement_total eph.2 temp.1) as Htot.
  destruct (calculate_agreement eph.2 temp.1) as [secret|] eqn:Hag; [|done].
  destruct (derived_keys_spec secret) as (k1 & k2 & Hkeys & Hk1 & Hhkdf).
  set (body := [Byte.x01] ++ iv ++ aes256_cbc_encrypt k1 iv plain).
  destruct (hmac_total k2 body) as (tag & Htag & Ltag).
  eexists. split.
  { unfold seal_envelope. rewrite Hag. cbn [ok mbind option_bind]. rewrite Hkeys.
    cbn [mbind option_bind fst snd]. fold body. by rewrite Htag. }
  pose proof (cbc_encrypt_length k1 iv plain) as Hcbc.
  assert (length body = 17 + length (aes256_cbc_encrypt k1 iv plain)) as Lbody.
  { unfold body. rewrite !length_app. simpl. lia. }
  unfold decrypt. rewrite envelope_decodes.
  2: { unfold fits, eph. rewrite KeyPair_public_length. lia. }
  2: { unfold fits. rewrite length_app. lia. }
  cbn [ok_or mbind result_bind penv_public_key penv_body djb_private_key].
  rewrite bool_decide_false by (rewrite length_app; lia).
  rewrite bool_decide_true by done. cbn [negb].
  unfold envelope_keys. rewrite b64_decode_encode. cbn [ok_or mbind result_bind].
  rewrite private_deserialize_serialize. cbn [map_err mbind result_bind].
  rewrite public_deserialize_serialize. cbn [map_err mbind result_bind].
  rewrite (agreement_sym temp.2 temp.1 eph.2 eph.1) by apply KeyPair_public.
  rewrite Hag. cbn [map_err mbind result_bind]. rewrite Hhkdf. cbn [ok_or mbind result_bind fst snd].
  rewrite take_app_length', drop_app_length' by done.
  unfold body. rewrite open_sealed by done. cbn [mbind result_bind].
  unfold plain. by rewrite message_decodes.
Qed.

(** C30: no message without a valid tag.  Whatever arrives on the provisioning
    socket, a message comes out only of an envelope with a body of at least 65
    bytes and version 1 whose last 32 bytes are the HMAC of everything before
    them under the key agreed with the envelope's public key; and the message is
    the decryption of exactly that body. *)
Theorem provision_authentic temp bs msg :
  decrypt temp bs = Ok msg →
  ∃ eph body keys tag plain m,
    ProvisionEnvelope_decode bs =
      Some {| penv_public_key := Some eph; penv_body := Some body |} ∧
    65 ≤ length body ∧ body !! 0 = Some Byte.x01 ∧
    envelope_keys (djb_private_key temp) eph = Ok keys ∧
    hmac_sha256 keys.2 (take (length body - 32) body) = Some tag ∧
    body = take (length body - 32) body ++ tag ∧
    aes256_cbc_decrypt keys.1 (take 16 (drop 1 body))
      (drop 17 (take (length body - 32) body)) = Some (Some plain) ∧
    ProvisionMessage_decode plain = Some m ∧ provision_message m = Ok msg.
Proof.
  unfold decrypt, open_body. intros Hd.
  destruct (ProvisionEnvelope_decode bs) as [[[eph|] [body|]]|]; try done.
  cbn [ok_or mbind result_bind penv_public_key penv_body] in Hd.
  case_bool_decide as Hlen; [done|]. case_bool_decide as Hver; [|done]. cbn [negb] in Hd.
  destruct (envelope_keys _ eph) as [keys|] eqn:Hkeys; [|done].
  cbn [mbind result_bind] in Hd. destruct (hmac_sha256 keys.2 _) as [tag|] eqn:Htag; [|done].
  cbn [ok_or mbind result_bind] in Hd. case_bool_decide as Heq; [|done].
  destruct (aes256_cbc_decrypt _ _ _) as [[plain|]|] eqn:Hcbc; [|done..].
  cbn [ok_or mbind result_bind] in Hd.
  destruct (ProvisionMessage_decode plain) as [m|] eqn:Hm; [|done].
  exists eph, body, keys, tag, plain, m. split_and!; try done; [lia|].
  rewrite Heq. by rewrite take_drop.
Qed.
End envelope.

(** * The theorems at concrete keys *)

Definition demo_identity : @PrivateKey Toy.libsignal := [Byte.x01].
Lemma device_name_readable_witness :
  ∃ text w', encrypt_device_name "phone"%bs
      (b64_encode URL_SAFE_NO_PAD (private_serialize demo_identity)) (demo_world []) = (Ok text, w') ∧
    w_pddb w' = w_pddb (demo_world []) ∧ w_log w' = w_log (demo_world []) ∧
    read_device_name demo_identity text = Some ("phone"%bs : bytes).
Proof.
  apply (device_name_readable "phone"%bs demo_identity demo_identity (demo_world []));
    [reflexivity|by vm_compute].
Defined.

Definition demo_message : ProvisionMessageProto :=
  {| aci_identity_key_public := Some [Byte.x05]; aci_identity_key_private := Some [Byte.x05];
     pm_number := Some ("+15550100"%bs : bytes); pm_provisioning_code := Some ("code"%bs : bytes);
     pm_profile_key := Some (replicate 32 Byte.x01); read_receipts := Some true;
     pm_aci := Some ("alice"%bs : bytes); pm_pni := None; pni_identity_key_public := None;
     pni_identity_key_private := None; pm_account_entropy_pool := None |}.
Definition demo_temp : IdentityKeyPair :=
  let temp := KeyPair_generate [] in
  {| service_id := []; djb_identity_key := b64_encode URL_SAFE_NO_PAD (public_serialize temp.1);
     djb_private_key := b64_encode URL_SAFE_NO_PAD (private_serialize temp.2) |}.
Definition demo_iv : bytes := replicate 16 Byte.x09.
Definition demo_envelope : option bytes :=
  seal_envelope (KeyPair_generate [Byte.x02]) (KeyPair_generate []).1 demo_iv
    (pb_encode (ProvisionMessage_fields demo_message)).

Lemma demo_message_ok : message_ok demo_message.
Proof.
  unfold message_ok, opt_fits, opt_text. cbn. repeat split; intros; by simplify_eq.
Qed.

Lemma provision_roundtrip_witness :
  ∃ envelope, demo_envelope = Some envelope ∧
    decrypt demo_temp envelope = provision_message demo_message.
Proof.
  apply (provision_roundtrip [] [Byte.x02] demo_iv demo_message []);
    [apply demo_message_ok|reflexivity|by vm_compute].
Defined.

Definition demo_decrypted : result io_error ProvisionMessage :=
  decrypt demo_temp (default [] demo_envelope).
Lemma provision_authentic_witness :
  match demo_decrypted with
  | Ok msg => ∃ eph body, ProvisionEnvelope_decode (default [] demo_envelope) =
        Some {| penv_public_key := Some eph; penv_body := Some body |} ∧ 65 ≤ length body
  | Err _ => False
  end.
Proof.
  assert (is_ok demo_decrypted = true) as Hok by (vm_compute; reflexivity).
  destruct demo_decrypted as [msg|e] eqn:E; [|done].
  destruct (provision_authentic demo_temp (default [] demo_envelope) msg E)
    as (eph & body & keys & tag & plain & m & H1 & H2 & _).
  exists eph, body. split; [exact H1|exact H2].
Defined.
