(* ===== verification/Account.v ===== *)
(** The account (account.rs, account/service_environment.rs).

    [Account] is a cache over a PDDB dictionary: [new] writes the defaults and
    reads them back, [set] and [set_new] write one key and mirror it, [link]
    registers this device with the server and stores its credentials.  A method
    on [&mut self] runs on the pair of the record and the world, so that what it
    did before an error stays done. *)

From S2P Require Import Prelude RustStd Wire Base64 Json Pddb Signal Stores World Outgoing Send.
From S2P Require Import Keys Rest Prekeys Provision.

Inductive ServiceEnvironment := Live | Staging.
#[global] Instance ServiceEnvironment_eq_dec : EqDecision ServiceEnvironment.
Proof. solve_decision. Defined.
Definition ServiceEnvironment_to_string (e : ServiceEnvironment) : bytes :=
  match e with Live => "Live"%bs | Staging => "Staging"%bs end.
Definition ServiceEnvironment_from_str (input : bytes) : option ServiceEnvironment :=
  if bool_decide (input = "Live"%bs) then Some Live
  else if bool_decide (input = "Staging"%bs) then Some Staging
  else None.

(** [url::Host] *)
Class UrlHost := {
  UHost : Type;
  host_parse : bytes → result bytes UHost;
  host_to_string : UHost → bytes;
}.
Class UrlHostLaws `{UrlHost} := {
  host_parse_to_string h : host_parse (host_to_string h) = Ok h;
}.

(** An [io::Error], or a panic ([unwrap], [expect]). *)
Inductive failure := Io (e : io_error) | Panic.

Definition DEFAULT_HOST : bytes := "signal.org"%bs.
Definition ACCOUNT_ENTROPY_POOL_KEY : bytes := "aep"%bs.
Definition ACI_IDENTITY_PRIVATE_KEY : bytes := "aci.identity.private"%bs.
Definition ACI_IDENTITY_PUBLIC_KEY : bytes := "aci.identity.public"%bs.
Definition ENCRYPTED_DEVICE_NAME_KEY : bytes := "encrypted_device_name"%bs.
Definition IS_MULTI_DEVICE_KEY : bytes := "is_multi_device"%bs.
Definition NUMBER_KEY : bytes := "number"%bs.
Definition PIN_MASTER_KEY_KEY : bytes := "pin_master_key"%bs.
Definition PNI_IDENTITY_PRIVATE_KEY : bytes := "pni.identity.private"%bs.
Definition PNI_IDENTITY_PUBLIC_KEY : bytes := "pni.identity.public"%bs.
Definition PNI_REGISTRATION_ID_KEY : bytes := "pni.registration_id"%bs.
Definition PNI_SERVICE_ID_KEY : bytes := "pni.service_id"%bs.
Definition PROFILE_KEY_KEY : bytes := "profile_key"%bs.
Definition REGISTERED_KEY : bytes := "registered"%bs.
Definition REGISTRATION_ID_KEY : bytes := "registration_id"%bs.
Definition SERVICE_ENVIRONMENT_KEY : bytes := "service_environment"%bs.
Definition STORAGE_KEY_KEY : bytes := "storage_key"%bs.
Definition STORE_LAST_RECEIVE_TIMESTAMP_KEY : bytes := "store_last_receive_timestamp"%bs.
Definition STORE_MANIFEST_VERSION_KEY : bytes := "store_manifest_version"%bs.
Definition STORE_MANIFEST_KEY : bytes := "store_manifest"%bs.

Section account.
Context `{UrlHost}.

Record Account := MkAccount {
  pddb_dict : bytes;
  aci_identity_private : option bytes;
  aci_identity_public : option bytes;
  acc_aci_service_id : option bytes;
  acc_device_id : Z;
  acc_encrypted_device_name : option bytes;
  acc_host : UHost;
  acc_is_multi_device : bool;
  acc_number : option bytes;
  acc_password : option bytes;
  pin_master_key : option bytes;
  pni_identity_private : option bytes;
  pni_identity_public : option bytes;
  acc_pni_service_id : option bytes;
  acc_profile_key : option bytes;
  acc_registered : bool;
  acc_service_environment : ServiceEnvironment;
  storage_key : option bytes;
  store_last_receive_timestamp : Z;
  store_manifest_version : Z;
  store_manifest : option bytes;
}.

Definition set_aci_identity_private (v : option bytes) (self : Account) : Account :=
  let 'MkAccount d _ iu si dv en h md nu pw pm pp pu ps pk rg se sk ts mv mf := self in
  MkAccount d v iu si dv en h md nu pw pm pp pu ps pk rg se sk ts mv mf.
Definition set_aci_identity_public (v : option bytes) (self : Account) : Account :=
  let 'MkAccount d ip _ si dv en h md nu pw pm pp pu ps pk rg se sk ts mv mf := self in
  MkAccount d ip v si dv en h md nu pw pm pp pu ps pk rg se sk ts mv mf.
Definition set_acc_aci_service_id (v : option bytes) (self : Account) : Account :=
  let 'MkAccount d ip iu _ dv en h md nu pw pm pp pu ps pk rg se sk ts mv mf := self in
  MkAccount d ip iu v dv en h md nu pw pm pp pu ps pk rg se sk ts mv mf.
Definition set_acc_device_id (v : Z) (self : Account) : Account :=
  let 'MkAccount d ip iu si _ en h md nu pw pm pp pu ps pk rg se sk ts mv mf := self in
  MkAccount d ip iu si v en h md nu pw pm pp pu ps pk rg se sk ts mv mf.
Definition set_acc_encrypted_device_name (v : option bytes) (self : Account) : Account :=
  let 'MkAccount d ip iu si dv _ h md nu pw pm pp pu ps pk rg se sk ts mv mf := self in
  MkAccount d ip iu si dv v h md nu pw pm pp pu ps pk rg se sk ts mv mf.
Definition set_acc_is_multi_device (v : bool) (self : Account) : Account :=
  let 'MkAccount d ip iu si dv en h _ nu pw pm pp pu ps pk rg se sk ts mv mf := self in
  MkAccount d ip iu si dv en h v nu pw pm pp pu ps pk rg se sk ts mv mf.
Definition set_acc_number (v : option bytes) (self : Account) : Account :=
  let 'MkAccount d ip iu si dv en h md _ pw pm pp pu ps pk rg se sk ts mv mf := self in
  MkAccount d ip iu si dv en h md v pw pm pp pu ps pk rg se sk ts mv mf.
Definition set_acc_password (v : option bytes) (self : Account) : Account :=
  let 'MkAccount d ip iu si dv en h md nu _ pm pp pu ps pk rg se sk ts mv mf := self in
  MkAccount d ip iu si dv en h md nu v pm pp pu ps pk rg se sk ts mv mf.
Definition set_pin_master_key (v : option bytes) (self : Account) : Account :=
  let 'MkAccount d ip iu si dv en h md nu pw _ pp pu ps pk rg se sk ts mv mf := self in
  MkAccount d ip iu si dv en h md nu pw v pp pu ps pk rg se sk ts mv mf.
Definition set_pni_identity_private (v : option bytes) (self : Account) : Account :=
  let 'MkAccount d ip iu si dv en h md nu pw pm _ pu ps pk rg se sk ts mv mf := self in
  MkAccount d ip iu si dv en h md nu pw pm v pu ps pk rg se sk ts mv mf.
Definition set_pni_identity_public (v : option bytes) (self : Account) : Account :=
  let 'MkAccount d ip iu si dv en h md nu pw pm pp _ ps pk rg se sk ts mv mf := self in
  MkAccount d ip iu si dv en h md nu pw pm pp v ps pk rg se sk ts mv mf.
Definition set_acc_pni_service_id (v : option bytes) (self : Account) : Account :=
  let 'MkAccount d ip iu si dv en h md nu pw pm pp pu _ pk rg se sk ts mv mf := self in
  MkAccount d ip iu si dv en h md nu pw pm pp pu v pk rg se sk ts mv mf.
Definition set_acc_profile_key (v : option bytes) (self : Account) : Account :=
  let 'MkAccount d ip iu si dv en h md nu pw pm pp pu ps _ rg se sk ts mv mf := self in
  MkAccount d ip iu si dv en h md nu pw pm pp pu ps v rg se sk ts mv mf.
Definition set_acc_registered (v : bool) (self : Account) : Account :=
  let 'MkAccount d ip iu si dv en h md nu pw pm pp pu ps pk _ se sk ts mv mf := self in
  MkAccount d ip iu si dv en h md nu pw pm pp pu ps pk v se sk ts mv mf.
Definition set_acc_service_environment (v : ServiceEnvironment) (self : Account) : Account :=
  let 'MkAccount d ip iu si dv en h md nu pw pm pp pu ps pk rg _ sk ts mv mf := self in
  MkAccount d ip iu si dv en h md nu pw pm pp pu ps pk rg v sk ts mv mf.
Definition set_storage_key (v : option bytes) (self : Account) : Account :=
  let 'MkAccount d ip iu si dv en h md nu pw pm pp pu ps pk rg se _ ts mv mf := self in
  MkAccount d ip iu si dv en h md nu pw pm pp pu ps pk rg se v ts mv mf.

(** * The key-value layer: [get], [set] and [set_new] *)
Section store.
Context {P : Type} `{Pddb P}.

(** [get]: one read into a 256-byte buffer; never an error *)
Definition get {E} (dict key : bytes) : ST P E (option bytes) := read_account_string dict key.

(** [set]: every failure is logged and dropped *)
Definition set {E} (dict key : bytes) (value : option bytes) : ST P E () :=
  ignore (pddb_delete_key dict key);;
  match value with
  | None => mret ()
  | Some value =>
      r ← try (pddb_get dict key true);
      match r with
      | Err _ => mret ()
      | Ok _ =>
          r ← try (pddb_write dict key value);
          match r with
          | Ok _ => ignore pddb_sync
          | Err _ => mret ()
          end
      end
  end.

Definition set_new (dict key : bytes) (value : option bytes) : ST P io_error () :=
  match value with
  | None => mret ()
  | Some value => pddb_get dict key true;; pddb_write dict key value;; mret ()
  end.

(** * [Account::new], [read] and [delete] *)

Definition parse_or {A} (parse : bytes → option A) (d : A) (s : bytes) : A := default d (parse s).

(** [Host::parse(&host).unwrap_or_else(..)]: the fallback is an [expect] *)
Definition parse_host (s : bytes) : result failure UHost :=
  match host_parse s with
  | Ok h => Ok h
  | Err _ => map_err (λ _, Panic) (host_parse DEFAULT_HOST)
  end.

Definition read (dict : bytes) : ST P failure Account :=
  ip ← get dict ACI_IDENTITY_PRIVATE_KEY;
  iu ← get dict ACI_IDENTITY_PUBLIC_KEY;
  si ← get dict ACI_SERVICE_ID_KEY;
  dv ← get dict DEVICE_ID_KEY;
  en ← get dict ENCRYPTED_DEVICE_NAME_KEY;
  h ← get dict HOST_KEY;
  md ← get dict IS_MULTI_DEVICE_KEY;
  nu ← get dict NUMBER_KEY;
  pw ← get dict PASSWORD_KEY;
  pm ← get dict PIN_MASTER_KEY_KEY;
  pp ← get dict PNI_IDENTITY_PRIVATE_KEY;
  pu ← get dict PNI_IDENTITY_PUBLIC_KEY;
  ps ← get dict PNI_SERVICE_ID_KEY;
  pk ← get dict PROFILE_KEY_KEY;
  rg ← get dict REGISTERED_KEY;
  se ← get dict SERVICE_ENVIRONMENT_KEY;
  sk ← get dict STORAGE_KEY_KEY;
  ts ← get dict STORE_LAST_RECEIVE_TIMESTAMP_KEY;
  mv ← get dict STORE_MANIFEST_VERSION_KEY;
  mf ← get dict STORE_MANIFEST_KEY;
  match dv, h, md, rg, se, mv with
  | Some dv, Some h, Some md, Some rg, Some se, Some mv =>
      h ← lift (parse_host h);
      mret (MkAccount dict ip iu si (parse_or parse_u32 0%Z dv) en h
        (parse_or parse_bool false md) nu pw pm pp pu ps pk (parse_or parse_bool false rg)
        (parse_or ServiceEnvironment_from_str Live se) sk (default 0%Z (ts ≫= parse_i64))
        (parse_or parse_i64 (-1)%Z mv) mf)
  | _, _, _, _, _, _ => throw (Io (IoError InvalidData []))
  end.

(** The 13 keys [new] deletes and the 7 it writes, in its order. *)
Definition cleared_keys : list bytes :=
  [ACI_IDENTITY_PRIVATE_KEY; ACI_IDENTITY_PUBLIC_KEY; ACI_SERVICE_ID_KEY;
   ENCRYPTED_DEVICE_NAME_KEY; NUMBER_KEY; PASSWORD_KEY; PIN_MASTER_KEY_KEY;
   PNI_IDENTITY_PRIVATE_KEY; PNI_IDENTITY_PUBLIC_KEY; PNI_SERVICE_ID_KEY; PROFILE_KEY_KEY;
   STORAGE_KEY_KEY; STORE_MANIFEST_KEY].
Definition default_values (host : UHost) (env : ServiceEnvironment) : list (bytes * bytes) :=
  [(DEVICE_ID_KEY, "0"%bs : bytes); (HOST_KEY, host_to_string host);
   (IS_MULTI_DEVICE_KEY, show_bool false); (REGISTERED_KEY, show_bool false);
   (SERVICE_ENVIRONMENT_KEY, ServiceEnvironment_to_string env);
   (STORE_LAST_RECEIVE_TIMESTAMP_KEY, "0"%bs : bytes);
   (STORE_MANIFEST_VERSION_KEY, "-1"%bs : bytes)].

Definition new (dict : bytes) (host : UHost) (env : ServiceEnvironment) : ST P failure Account :=
  for_each (λ k, ignore (pddb_delete_key dict k)) cleared_keys;;
  with_err Io (for_each (λ kv, set_new dict kv.1 (Some kv.2)) (default_values host env));;
  with_err (λ _, Io (IoError Other "PDDB sync failed after Account::new init"%bs)) pddb_sync;;
  read dict.

Definition delete_account (dict : bytes) : ST P io_error () := pddb_delete_dict dict.
End store.

(** * Accessors *)

Definition chat_host (self : Account) : bytes :=
  match acc_service_environment self with
  | Live => "chat."%bs ++ host_to_string (acc_host self)
  | Staging => "chat.staging."%bs ++ host_to_string (acc_host self)
  end.
Definition is_registered (self : Account) : bool :=
  acc_registered self ||
  (negb (acc_device_id self =? 0)%Z && bool_decide (is_Some (acc_aci_service_id self)) &&
   bool_decide (is_Some (acc_password self))).
Definition is_primary_device (self : Account) : bool :=
  is_registered self && (acc_device_id self =? DEFAULT_DEVICE_ID)%Z.

(** * Updating a field *)

(** [owned_value.unwrap().parse().unwrap()] *)
Definition unwrap_parse {A} (parse : bytes → option A) (value : option bytes) : result failure A :=
  ok_or Panic (value ≫= parse).

(** The [match key] of [set] and [set_new]: the assignment, or [None] for a key
    that is no field. *)
Definition assign (key : bytes) (value : option bytes) (self : Account) :
    option (result failure Account) :=
  if bool_decide (key = ACI_IDENTITY_PRIVATE_KEY) then
    Some (Ok (set_aci_identity_private value self))
  else if bool_decide (key = ACI_IDENTITY_PUBLIC_KEY) then
    Some (Ok (set_aci_identity_public value self))
  else if bool_decide (key = ACI_SERVICE_ID_KEY) then
    Some (Ok (set_acc_aci_service_id value self))
  else if bool_decide (key = DEVICE_ID_KEY) then
    Some (v ← unwrap_parse parse_u32 value; Ok (set_acc_device_id v self))
  else if bool_decide (key = ENCRYPTED_DEVICE_NAME_KEY) then
    Some (Ok (set_acc_encrypted_device_name value self))
  else if bool_decide (key = IS_MULTI_DEVICE_KEY) then
    Some (v ← unwrap_parse parse_bool value; Ok (set_acc_is_multi_device v self))
  else if bool_decide (key = NUMBER_KEY) then Some (Ok (set_acc_number value self))
  else if bool_decide (key = PASSWORD_KEY) then Some (Ok (set_acc_password value self))
  else if bool_decide (key = PIN_MASTER_KEY_KEY) then Some (Ok (set_pin_master_key value self))
  else if bool_decide (key = PNI_IDENTITY_PRIVATE_KEY) then
    Some (Ok (set_pni_identity_private value self))
  else if bool_decide (key = PNI_IDENTITY_PUBLIC_KEY) then
    Some (Ok (set_pni_identity_public value self))
  else if bool_decide (key = PNI_SERVICE_ID_KEY) then
    Some (Ok (set_acc_pni_service_id value self))
  else if bool_decide (key = PROFILE_KEY_KEY) then Some (Ok (set_acc_profile_key value self))
  else if bool_decide (key = REGISTERED_KEY) then
    Some (v ← unwrap_parse parse_bool value; Ok (set_acc_registered v self))
  else if bool_decide (key = SERVICE_ENVIRONMENT_KEY) then
    Some (v ← unwrap_parse ServiceEnvironment_from_str value;
          Ok (set_acc_service_environment v self))
  else if bool_decide (key = STORAGE_KEY_KEY) then Some (Ok (set_storage_key value self))
  else if bool_decide (key ∈ [ACCOUNT_ENTROPY_POOL_KEY; REGISTRATION_ID_KEY;
      PNI_REGISTRATION_ID_KEY; STORE_LAST_RECEIVE_TIMESTAMP_KEY; STORE_MANIFEST_VERSION_KEY;
      STORE_MANIFEST_KEY]) then Some (Ok self)
  else None.

Section methods.
Context {P O : Type} `{Pddb P}.
Abbreviation M := (ST (Account * World P O) failure).

Definition in_world {E A} (c : ST (World P O) E A) : ST (Account * World P O) E A :=
  λ s, let '(r, w) := c s.2 in (r, (s.1, w)).

(** Mirror a written key, or take the write back. *)
Definition mirror (key : bytes) (value : option bytes) : M () := λ s,
  match assign key value s.1 with
  | Some (Ok self) => (Ok tt, (self, s.2))
  | Some (Err e) => (Err e, s)
  | None => (in_world (on_pddb (ignore (pddb_delete_key (pddb_dict s.1) key)));;
             throw (Io (IoError NotFound []))) s
  end.

Definition Account_set (key : bytes) (value : option bytes) : M () :=
  dict ← gets (λ s, pddb_dict s.1);
  in_world (on_pddb (set dict key value));;
  mirror key value.
Definition Account_set_new (key : bytes) (value : option bytes) : M () :=
  dict ← gets (λ s, pddb_dict s.1);
  with_err Io (in_world (on_pddb (set_new dict key value)));;
  mirror key value.

Definition set_number (value : bytes) : M () :=
  r ← try (Account_set NUMBER_KEY (Some value));
  match r with
  | Ok _ => modify (λ s, (set_acc_number (Some value) s.1, s.2))
  | Err (Io _) => mret ()
  | Err Panic => throw Panic
  end.
End methods.

(** * Linking *)
Section link.
Context `{KeyOps, Base64, WireFormat, Crypto, SerdeJson, UrlLib, UreqText}.
Context {P O : Type} `{Pddb P, Host O, OsRng O}.
Abbreviation M := (ST (Account * World P O) failure).

Definition chat_url (self : Account) : result io_error Url :=
  map_err (λ _, IoError InvalidData "invalid chat URL"%bs)
    (url_parse ("https://"%bs ++ chat_host self)).

Definition decode_private_key (key_b64url : bytes) : result io_error PrivateKey :=
  bs ← ok_or (IoError InvalidData "identity private key not valid base64"%bs)
         (b64_decode URL_SAFE_NO_PAD key_b64url);
  map_err (λ _, IoError InvalidData "identity private key invalid"%bs) (private_deserialize bs).

(** [LinkDeviceRequestBody::from_parts] *)
Definition from_parts (verification_code : bytes) (attrs : AccountAttributes)
    (prekeys : Prekeys) : LinkDeviceRequestBody :=
  {| Rest.verification_code := verification_code;
     account_attributes := attrs;
     aci_signed_pre_key := spk_to_entity (aci_signed prekeys);
     pni_signed_pre_key := spk_to_entity (pni_signed prekeys);
     aci_pq_last_resort_pre_key := kpk_to_entity (aci_kyber_last_resort prekeys);
     pni_pq_last_resort_pre_key := kpk_to_entity (pni_kyber_last_resort prekeys) |}.

(** What the first half of [link] hands to the second: everything generated,
    and the server's answer. *)
Record link_data := {
  ld_password : bytes;
  ld_registration_id : Z;
  ld_pni_registration_id : Z;
  ld_encrypted_name : bytes;
  ld_profile_key : bytes;
  ld_attrs : AccountAttributes;
  ld_prekeys : Prekeys;
  ld_base_url : Url;
  ld_response : LinkDeviceResponse;
}.

(** Up to and including [put_devices_link]; only the world is involved. *)
Definition link_request_phase (self : Account) (device_name : bytes) (msg : ProvisionMessage) :
    ST (World P O) io_error link_data :=
  verification_code ← lift (ok_or (IoError InvalidData "missing provisioningCode"%bs)
                              (provisioning_code msg));
  profile_key_b64 ← lift (ok_or (IoError InvalidData "missing profile_key"%bs) (profile_key msg));
  profile_key_bytes ← lift (ok_or (IoError InvalidData "profile_key not valid base64"%bs)
                              (b64_decode URL_SAFE_NO_PAD profile_key_b64));
  password ← generate_link_password;
  registration_id ← generate_registration_id;
  pni_registration_id ← generate_registration_id;
  encrypted_name ← encrypt_device_name device_name (djb_private_key (aci msg));
  attrs ← lift (build_account_attributes encrypted_name profile_key_bytes registration_id
                  pni_registration_id);
  aci_priv ← lift (decode_private_key (djb_private_key (aci msg)));
  pni_priv ← lift (decode_private_key (djb_private_key (pni msg)));
  generated ← generate_prekeys aci_priv pni_priv;
  base_url ← lift (chat_url self);
  response ← put_devices_link base_url (number msg) password
               (from_parts verification_code attrs generated);
  mret {| ld_password := password; ld_registration_id := registration_id;
          ld_pni_registration_id := pni_registration_id; ld_encrypted_name := encrypted_name;
          ld_profile_key := profile_key_b64; ld_attrs := attrs; ld_prekeys := generated;
          ld_base_url := base_url; ld_response := response |}.

(** The [set_new] calls, in order. *)
Definition credentials (msg : ProvisionMessage) (d : link_data) : list (bytes * option bytes) :=
  [(PASSWORD_KEY, Some (ld_password d));
   (DEVICE_ID_KEY, Some (show_u (resp_device_id (ld_response d))));
   (ACI_IDENTITY_PRIVATE_KEY, Some (djb_private_key (aci msg)));
   (ACI_IDENTITY_PUBLIC_KEY, Some (djb_identity_key (aci msg)));
   (ACI_SERVICE_ID_KEY, Some (service_id (aci msg)));
   (PNI_IDENTITY_PRIVATE_KEY, Some (djb_private_key (pni msg)));
   (PNI_IDENTITY_PUBLIC_KEY, Some (djb_identity_key (pni msg)));
   (PNI_SERVICE_ID_KEY, Some (service_id (pni msg)));
   (ENCRYPTED_DEVICE_NAME_KEY, Some (ld_encrypted_name d));
   (IS_MULTI_DEVICE_KEY, Some (show_bool true));
   (NUMBER_KEY, Some (number msg));
   (PROFILE_KEY_KEY, Some (ld_profile_key d))] ++
  match account_entropy_pool msg with
  | Some aep => [(ACCOUNT_ENTROPY_POOL_KEY, Some aep)]
  | None => []
  end ++
  [(REGISTRATION_ID_KEY, Some (show_u (ld_registration_id d)));
   (PNI_REGISTRATION_ID_KEY, Some (show_u (ld_pni_registration_id d)));
   (STORAGE_KEY_KEY, None);
   (STORE_LAST_RECEIVE_TIMESTAMP_KEY, Some ("0"%bs : bytes));
   (STORE_MANIFEST_VERSION_KEY, Some ("-1"%bs : bytes));
   (STORE_MANIFEST_KEY, None);
   (REGISTERED_KEY, Some (show_bool true))].

(** From the answer on: persist, flush, save the pre-keys, refresh. *)
Definition link_persist_phase (msg : ProvisionMessage) (d : link_data) : M () :=
  for_each (λ kv, Account_set_new kv.1 kv.2) (credentials msg d);;
  with_err Io (in_world (on_pddb (with_err
    (λ _, IoError Other "PDDB sync failed after credentials persist"%bs) pddb_sync)));;
  with_err Io (in_world (save_to_pddb (ld_prekeys d)));;
  try (in_world (put_accounts_attributes (ld_base_url d)
    (service_id (aci msg) ++ "."%bs ++ show_u (resp_device_id (ld_response d)))
    (ld_password d) (ld_attrs d)));;
  mret ().

Definition link (device_name : bytes) (msg : ProvisionMessage) : M bool :=
  self ← gets fst;
  if is_primary_device self then mret false
  else
    d ← with_err Io (in_world (link_request_phase self device_name msg));
    link_persist_phase msg d;;
    mret true.
End link.
End account.
