(* ===== verification/AccountSpec.v ===== *)
(** Properties of the account: [read] as a function of the stored dictionary,
    [new] on a fresh dictionary, what a link leaves behind, and what a later
    [read] makes of it. *)

From S2P Require Import Prelude RustStd Wire Base64 Json Pddb Signal Stores World Outgoing Send.
From S2P Require Import SendWorld Keys Rest Prekeys Provision Account.

Section store.
Context `{UrlHost} {P : Type} `{PddbLaws P}.
Implicit Types p : P.
Implicit Types m : gmap (bytes * bytes) bytes.

(** The text a read of a key returns: at most 256 bytes of it, if UTF-8. *)
Definition text_at m (dict key : bytes) : option bytes :=
  m !! (dict, key) ≫= λ v, from_utf8 (take 256 v).

(** The account a dictionary holds. *)
Definition account_of m (dict : bytes) : result failure Account :=
  let f := text_at m dict in
  match f DEVICE_ID_KEY, f HOST_KEY, f IS_MULTI_DEVICE_KEY, f REGISTERED_KEY,
        f SERVICE_ENVIRONMENT_KEY, f STORE_MANIFEST_VERSION_KEY with
  | Some dv, Some h, Some md, Some rg, Some se, Some mv =>
      h ← parse_host h;
      Ok (MkAccount dict (f ACI_IDENTITY_PRIVATE_KEY) (f ACI_IDENTITY_PUBLIC_KEY)
        (f ACI_SERVICE_ID_KEY) (parse_or parse_u32 0%Z dv) (f ENCRYPTED_DEVICE_NAME_KEY) h
        (parse_or parse_bool false md) (f NUMBER_KEY) (f PASSWORD_KEY) (f PIN_MASTER_KEY_KEY)
        (f PNI_IDENTITY_PRIVATE_KEY) (f PNI_IDENTITY_PUBLIC_KEY) (f PNI_SERVICE_ID_KEY)
        (f PROFILE_KEY_KEY) (parse_or parse_bool false rg)
        (parse_or ServiceEnvironment_from_str Live se) (f STORAGE_KEY_KEY)
        (default 0%Z (f STORE_LAST_RECEIVE_TIMESTAMP_KEY ≫= parse_i64))
        (parse_or parse_i64 (-1)%Z mv) (f STORE_MANIFEST_KEY))
  | _, _, _, _, _, _ => Err (Io (IoError InvalidData []))
  end.

Lemma get_spec {E} d k p m :
  contents p = m → runs (E := E) (get d k) p (Ok (text_at m d k)) m.
Proof.
  intros <-. unfold get, read_account_string, runs, text_at.
  destruct (get_law d k false p) as (r & p1 & -> & Hg).
  destruct (contents p !! (d, k)) as [v|] eqn:Ev.
  - destruct Hg as [-> Hc]. rewrite <- Hc in Ev.
    destruct (read_law 256 d k p1 v Ev) as (p2 & -> & Hc2).
    eexists _. split; [done|congruence].
  - destruct Hg as [(e & -> & _) Hc]. by eexists _.
Qed.

Lemma account_of_ext m m' d :
  (∀ k, m !! (d, k) = m' !! (d, k)) → account_of m d = account_of m' d.
Proof.
  intros Hm. assert (∀ k, text_at m d k = text_at m' d k) as Ht.
  { intros k. unfold text_at. by rewrite Hm. }
  unfold account_of. by rewrite !Ht.
Qed.

Lemma read_spec d p m : contents p = m → runs (read d) p (account_of m d) m.
Proof.
  intros Hm. unfold read.
  do 20 (eapply runs_bind; [by apply get_spec|]; clear p Hm; intros p Hm).
  unfold account_of.
  repeat match goal with
  | |- context [match text_at ?m ?d ?k with _ => _ end] =>
      destruct (text_at m d k); [|by apply runs_throw]
  end.
  destruct (parse_host _) as [h|e].
  - eapply runs_bind; [by apply runs_lift|]. intros. by apply runs_ret.
  - by apply runs_bind_err, runs_lift.
Qed.

(** [set_new] merges the value into the head of what is stored. *)
Definition merged m (dict : bytes) (kv : bytes * option bytes) : gmap (bytes * bytes) bytes :=
  match kv.2 with
  | Some v => <[(dict, kv.1) := overlay v (default [] (m !! (dict, kv.1)))]> m
  | None => m
  end.
Definition merged_all (dict : bytes) (kvs : list (bytes * option bytes)) m :
    gmap (bytes * bytes) bytes := foldl (λ m kv, merged m dict kv) m kvs.

Lemma set_new_spec d k v p m :
  contents p = m → runs (set_new d k v) p (Ok tt) (merged m d (k, v)).
Proof.
  intros <-. destruct v as [v|]; [|by apply runs_ret]. unfold set_new, merged. simpl.
  destruct (get_create_spec d k p) as (p1 & E1 & Hc1).
  eapply runs_bind; [by exists p1|]. intros p2 Hp2.
  assert (contents p2 !! (d, k) = Some (default [] (contents p !! (d, k)))) as Hk.
  { rewrite Hp2. destruct (contents p !! (d, k)) eqn:E; [done|]. by rewrite lookup_insert_eq. }
  destruct (write_law d k v p2 _ Hk) as (p3 & E3 & Hc3).
  eapply runs_bind; [by exists p3|]. intros p4 Hp4. apply runs_ret.
  rewrite Hp4, Hp2. destruct (contents p !! (d, k)); [done|]. apply insert_insert_eq.
Qed.

Lemma set_all_spec d kvs p m :
  contents p = m →
  runs (for_each (λ kv, set_new d kv.1 (Some kv.2)) kvs) p (Ok tt)
    (merged_all d ((λ kv, (kv.1, Some kv.2)) <$> kvs) m).
Proof.
  revert p m. induction kvs as [|[k v] kvs IH]; intros p m Hm; [by apply runs_ret|].
  eapply runs_bind; [by apply set_new_spec|]. intros p1 Hp1. by apply IH.
Qed.

Lemma clear_all_spec {E} d ks p m :
  contents p = m →
  runs (E := E) (for_each (λ k, ignore (pddb_delete_key d k)) ks) p (Ok tt)
    (foldl (λ m k, delete (d, k) m) m ks).
Proof.
  revert p m. induction ks as [|k ks IH]; intros p m Hm; [by apply runs_ret|].
  destruct (delete_key_law d k p) as (r & p1 & E1 & Hc1 & _).
  eapply runs_bind; [exists p1; unfold ignore; by rewrite E1|]. intros p2 Hp2.
  apply IH. rewrite Hp2. by subst m.
Qed.

(** The store [new] leaves. *)
Definition renewed m (dict : bytes) (host : UHost) (env : ServiceEnvironment) :
    gmap (bytes * bytes) bytes :=
  merged_all dict ((λ kv, (kv.1, Some kv.2)) <$> default_values host env)
    (foldl (λ m k, delete (dict, k) m) m cleared_keys).

Lemma new_spec d host env p m :
  contents p = m →
  runs (new d host env) p (account_of (renewed m d host env) d) (renewed m d host env).
Proof.
  intros Hm. unfold new.
  eapply runs_bind; [by apply clear_all_spec|]. intros p1 Hp1.
  eapply runs_bind; [by apply (runs_with_err _ _ _ (Ok tt)), set_all_spec|]. intros p2 Hp2.
  destruct (sync_law p2) as (p3 & E3 & Hc3).
  eapply runs_bind; [apply (runs_with_err _ _ _ (Ok tt)); by exists p3|]. intros p4 Hp4.
  apply read_spec. by rewrite Hp4.
Qed.

(** Looking a key up in a merged store. *)
Lemma merged_all_ne d kvs m d' k :
  (d' ≠ d ∨ k ∉ kvs.*1) → merged_all d kvs m !! (d', k) = m !! (d', k).
Proof.
  revert m. induction kvs as [|[k0 v0] kvs IH]; intros m Hk; [done|].
  change (merged_all d ((k0, v0) :: kvs) m) with (merged_all d kvs (merged m d (k0, v0))).
  rewrite IH.
  - unfold merged. simpl. destruct v0; [|done]. apply lookup_insert_ne.
    intros [= -> ->]. destruct Hk as [?|Hk]; [done|]. apply Hk. by left.
  - destruct Hk as [?|Hk]; [by left|]. right. intros Hin. apply Hk. by right.
Qed.
Lemma merged_all_eq d kvs m k v :
  NoDup kvs.*1 → (k, Some v) ∈ kvs →
  merged_all d kvs m !! (d, k) = Some (overlay v (default [] (m !! (d, k)))).
Proof.
  revert m. induction kvs as [|[k0 v0] kvs IH]; intros m Hnd Hin; [by apply not_elem_of_nil in Hin|].
  apply NoDup_cons in Hnd as [Hni Hnd]. apply elem_of_cons in Hin as [[= <- <-]|Hin].
  - change (merged_all d ((k, Some v) :: kvs) m) with (merged_all d kvs (merged m d (k, Some v))).
    rewrite merged_all_ne by by right. unfold merged. simpl. by rewrite lookup_insert_eq.
  - change (merged_all d ((k0, v0) :: kvs) m) with (merged_all d kvs (merged m d (k0, v0))).
    rewrite (IH _ Hnd Hin). f_equal. f_equal. f_equal. unfold merged. simpl.
    destruct v0; [|done]. apply lookup_insert_ne. intros [= ->].
    apply Hni, list_elem_of_fmap. by exists (k, Some v).
Qed.

(** ** A new account *)

Definition default_keys : list bytes :=
  [DEVICE_ID_KEY; HOST_KEY; IS_MULTI_DEVICE_KEY; REGISTERED_KEY; SERVICE_ENVIRONMENT_KEY;
   STORE_LAST_RECEIVE_TIMESTAMP_KEY; STORE_MANIFEST_VERSION_KEY].
Definition readable (v : bytes) : Prop := length v ≤ 256 ∧ utf8_valid v = true.

Lemma readable_bool v : bool_decide (length v ≤ 256) && utf8_valid v = true → readable v.
Proof. intros [Hl%bool_decide_eq_true_1 Hu]%andb_true_iff. by split. Qed.

Lemma cleared_lookup d ks m k :
  k ∈ ks → foldl (λ m k, delete (d, k) m) m ks !! (d, k) = None.
Proof.
  assert (∀ ks m, m !! (d, k) = None →
    foldl (λ m k, delete (d, k) m) m ks !! (d, k) = None) as Hnone.
  { intros ks0. induction ks0 as [|k0 ks0 IH]; intros m0 Hm0; [done|]. apply IH.
    by rewrite lookup_delete_None; right. }
  revert m. induction ks as [|k0 ks IH]; intros m Hin; [by apply not_elem_of_nil in Hin|].
  simpl. apply elem_of_cons in Hin as [->|Hin]; [|by apply IH].
  apply Hnone, lookup_delete_eq.
Qed.
Lemma cleared_lookup_ne d ks m d' k :
  d' ≠ d ∨ k ∉ ks → foldl (λ m k, delete (d, k) m) m ks !! (d', k) = m !! (d', k).
Proof.
  revert m. induction ks as [|k0 ks IH]; intros m Hk; [done|]. simpl. rewrite IH.
  - apply lookup_delete_ne. intros [= -> ->]. destruct Hk as [?|Hk]; [done|]. apply Hk. by left.
  - destruct Hk as [?|Hk]; [by left|]. right. intros ?. apply Hk. by right.
Qed.

Lemma text_at_Some m d k v : m !! (d, k) = Some v → readable v → text_at m d k = Some v.
Proof.
  intros Hk [Hl Hu]. unfold text_at. rewrite Hk. simpl. rewrite take_ge by lia.
  unfold from_utf8. by rewrite Hu.
Qed.

Lemma renewed_cleared m d host env k :
  k ∈ cleared_keys → k ∉ default_keys → text_at (renewed m d host env) d k = None.
Proof.
  intros Hc Hd. unfold text_at, renewed. rewrite merged_all_ne by by right.
  by rewrite cleared_lookup.
Qed.
Lemma renewed_value m d host env k v :
  k ∉ cleared_keys → (k, v) ∈ default_values host env → m !! (d, k) = None →
  renewed m d host env !! (d, k) = Some v.
Proof.
  intros Hc Hin Hnone. unfold renewed.
  rewrite (merged_all_eq _ _ _ k v).
  - rewrite cleared_lookup_ne, Hnone by by right. by rewrite overlay_nil.
  - change (NoDup default_keys). apply (bool_decide_unpack _). by vm_compute.
  - apply list_elem_of_fmap. by exists (k, v).
Qed.
Lemma renewed_default m d host env k v :
  k ∉ cleared_keys → (k, v) ∈ default_values host env → m !! (d, k) = None → readable v →
  text_at (renewed m d host env) d k = Some v.
Proof. intros. apply text_at_Some; [|done]. by apply renewed_value. Qed.
Lemma renewed_other m d host env d' k :
  d' ≠ d → renewed m d host env !! (d', k) = m !! (d', k).
Proof.
  intros Hd. unfold renewed. rewrite merged_all_ne by by left. apply cleared_lookup_ne. by left.
Qed.

Definition fresh_account (dict : bytes) (host : UHost) (env : ServiceEnvironment) : Account :=
  MkAccount dict None None None 0 None host false None None None None None None None false
    env None 0 (-1) None.

Context `{!UrlHostLaws}.

Lemma account_of_renewed m d host env :
  (∀ k, k ∈ default_keys → m !! (d, k) = None) → readable (host_to_string host) →
  account_of (renewed m d host env) d = Ok (fresh_account d host env).
Proof.
  intros Hm Hh.
  assert (∀ k, bool_decide ((k ∈ cleared_keys) ∧ (k ∉ default_keys)) = true →
    text_at (renewed m d host env) d k = None) as Hc.
  { intros k [? ?]%bool_decide_eq_true_1. by apply renewed_cleared. }
  assert (∀ k v, bool_decide ((k ∉ cleared_keys) ∧ (k ∈ default_keys)) = true →
    (k, v) ∈ default_values host env → readable v →
    text_at (renewed m d host env) d k = Some v) as Hd.
  { intros k v [? ?]%bool_decide_eq_true_1 ? ?. apply renewed_default; auto. }
  assert (∀ i k v, default_values host env !! i = Some (k, v) →
    bool_decide ((k ∉ cleared_keys) ∧ (k ∈ default_keys)) = true → readable v →
    text_at (renewed m d host env) d k = Some v) as Hi.
  { intros i k v Hi%list_elem_of_lookup_2 ? ?. auto. }
  assert (readable (ServiceEnvironment_to_string env)) as He.
  { destruct env; apply readable_bool; by vm_compute. }
  unfold account_of.
  rewrite (Hi 0 DEVICE_ID_KEY "0"%bs), (Hi 1 HOST_KEY (host_to_string host)),
    (Hi 2 IS_MULTI_DEVICE_KEY (show_bool false)), (Hi 3 REGISTERED_KEY (show_bool false)),
    (Hi 4 SERVICE_ENVIRONMENT_KEY (ServiceEnvironment_to_string env)),
    (Hi 5 STORE_LAST_RECEIVE_TIMESTAMP_KEY "0"%bs), (Hi 6 STORE_MANIFEST_VERSION_KEY "-1"%bs)
    by (exact eq_refl || assumption || (apply readable_bool; by vm_compute)).
  rewrite !Hc by by vm_compute.
  unfold parse_host. rewrite host_parse_to_string. cbn [mbind result_bind].
  by destruct env.
Qed.

(** A new account.  Whatever the dictionary held of the fields that default
    to nothing, and provided it held none of the seven that have a default,
    [new] returns the account with every default, the given host and the given
    environment, not registered; a later [read] returns the same; and no other
    dictionary changes. *)
Theorem new_account_defaults d host env p :
  (∀ k, k ∈ default_keys → contents p !! (d, k) = None) → readable (host_to_string host) →
  ∃ p', new d host env p = (Ok (fresh_account d host env), p') ∧
    (read d p').1 = Ok (fresh_account d host env) ∧
    is_registered (fresh_account d host env) = false ∧
    ∀ d' k, d' ≠ d → contents p' !! (d', k) = contents p !! (d', k).
Proof.
  intros Hd Hh. destruct (new_spec d host env p (contents p) eq_refl) as (p' & E & Hc).
  rewrite account_of_renewed in E by done. exists p'. split; [done|].
  destruct (read_spec d p' _ Hc) as (p2 & E2 & _). rewrite account_of_renewed in E2 by done.
  split; [by rewrite E2|]. split; [done|]. intros d' k Hne. rewrite Hc. by apply renewed_other.
Qed.
End store.

(** * Linking *)
Section link_spec.
Context `{UrlHost} `{LibsignalLaws} `{!KeyOps} `{!KeyLaws}.
Context `{Base64, WireFormat, Crypto, SerdeJson, UrlLib, UreqText}.
Context {P O : Type} `{PddbLaws P, Host O, OsRng O} `{!OsRngLaws O}.
Implicit Types w : World P O.

(** ** The request phase only talks to the outside *)

Definition same_store w w' : Prop := contents (w_pddb w') = contents (w_pddb w).
#[local] Instance same_store_preorder : PreOrder same_store.
Proof. split; [done|]. intros w1 w2 w3. unfold same_store. congruence. Qed.
#[local] Instance unstored_preorder : PreOrder (unstored (P := P) (O := O)).
Proof.
  split; [done|]. intros w1 w2 w3 [Hc1 Hl1] [Hc2 Hl2]. split; congruence.
Qed.

#[local] Hint Extern 0 (PreOrder _) => apply _ : frame.

Lemma out_unstored' {E A} (f : O → A * O) :
  preserved (unstored (P := P)) (on_out (E := E) f).
Proof. intros w. destruct (on_out f w) as [r w'] eqn:E1. by eapply out_unstored. Qed.
Lemma unstored_same {E A} (c : ST (World P O) E A) :
  preserved unstored c → preserved same_store c.
Proof. intros Hc w. apply (Hc w). Qed.

Lemma random_unstored : preserved (unstored (P := P)) random_prekey_id.
Proof. apply preserved_bind; [apply _|apply out_unstored'|auto with frame]. Qed.
Lemma password_unstored : preserved (unstored (P := P)) generate_link_password.
Proof.
  repeat (apply preserved_bind; [apply _|..]; intros); try apply out_unstored'; auto with frame.
Qed.
Lemma registration_id_unstored {E} : preserved (unstored (P := P)) (generate_registration_id (E := E)).
Proof. apply preserved_bind; [apply _|apply out_unstored'|auto with frame]. Qed.
Lemma device_name_unstored name key :
  preserved (unstored (P := P)) (encrypt_device_name name key).
Proof.
  repeat (apply preserved_bind; [apply _|..]; intros); try apply out_unstored'; auto with frame.
Qed.
Lemma prekeys_unstored a b : preserved (unstored (P := P)) (generate_prekeys a b).
Proof.
  repeat (apply preserved_bind; [apply _|..]; intros); try apply out_unstored';
    try apply random_unstored; auto with frame.
Qed.

Lemma exchange_same {E} q : preserved same_store (exchange (E := E) q).
Proof.
  intros w. destruct (wruns_exchange (E := E) q w _ eq_refl) as (w' & -> & Hc & _). exact Hc.
Qed.
Lemma try_put_same url auth body : preserved same_store (try_put url auth body).
Proof.
  apply preserved_bind; [apply _|auto with frame|]. intros json.
  apply preserved_bind; [apply _|apply exchange_same|auto with frame].
Qed.
Lemma put_link_same base phone pw body :
  preserved same_store (put_devices_link base phone pw body).
Proof.
  apply preserved_bind; [apply _|apply preserved_try, try_put_same|].
  intros [resp|e]; [auto with frame|]. case_bool_decide; [apply try_put_same|auto with frame].
Qed.

Lemma request_phase_same self name msg :
  preserved same_store (link_request_phase self name msg).
Proof.
  do 13 (apply preserved_bind; [apply _|
    first [apply put_link_same
      | apply unstored_same; first [apply password_unstored | apply registration_id_unstored
          | apply device_name_unstored | apply prekeys_unstored]
      | apply preserved_lift, _]|intros ?]).
  apply preserved_ret, _.
Qed.

(** What a request phase that went through hands over. *)
Lemma link_response_u32 a resp : link_response a = Ok resp → in_u32 (resp_device_id resp).
Proof.
  destruct a as [c r|c r|t]; simpl; [|done..].
  destruct (into_string r) as [s|e]; simpl; [|done]. unfold from_slice_as.
  intros Hd%map_err_Ok. destruct (from_slice s ≫= de_link_response) as [x|] eqn:Ej; [|done].
  injection Hd as <-. apply bind_Some in Ej as (j & _ & Ej). unfold de_link_response in Ej.
  apply bind_Some in Ej as (l & _ & Ej).
  destruct l as [|u [|p [|d [|]]]]; try done.
  apply bind_Some in Ej as (u' & _ & Ej). apply bind_Some in Ej as (p' & _ & Ej).
  apply bind_Some in Ej as (d' & Hd & Ej). injection Ej as <-. simpl.
  apply bind_Some in Hd as (jd & _ & Hd). destruct jd; simpl in Hd; try done.
  - case_match eqn:Hz; [|done]. injection Hd as <-. unfold in_u32. lia.
  - by eapply parse_u32_range.
Qed.

Lemma try_put_u32 url auth body w resp w' :
  try_put url auth body w = (Ok resp, w') → in_u32 (resp_device_id resp).
Proof.
  intros (j & w1 & _ & E)%bind_Ok. apply bind_Ok in E as (a & w2 & _ & E).
  apply lift_Ok in E as [E _]. by eapply link_response_u32.
Qed.
Lemma put_link_u32 base phone pw body w resp w' :
  put_devices_link base phone pw body w = (Ok resp, w') → in_u32 (resp_device_id resp).
Proof.
  intros (r & w1 & Et & E)%bind_Ok. unfold try in Et.
  destruct (try_put _ _ body w) as [r0 w0] eqn:E0. injection Et as <- <-.
  destruct r0 as [x|e]; [injection E as <- <-; by eapply try_put_u32|].
  case_bool_decide; [by eapply try_put_u32|done].
Qed.

Lemma request_phase_Ok self name msg w d w' :
  link_request_phase self name msg w = (Ok d, w') →
  in_u32 (resp_device_id (ld_response d)) ∧ ∃ a p, prekeys_ok a p (ld_prekeys d).
Proof.
  intros E. unfold link_request_phase in E.
  do 10 (apply bind_Ok in E as (? & ? & _ & E)).
  apply bind_Ok in E as (pk & w1 & Epk & E). apply bind_Ok in E as (u & w2 & _ & E).
  apply bind_Ok in E as (resp & w3 & Er & E). injection E as <- <-. simpl.
  split; [by eapply put_link_u32|]. apply generate_prekeys_spec in Epk as [Hpk _]. eauto.
Qed.

(** ** The credentials *)

Fixpoint assigned (kvs : list (bytes * option bytes)) (self : Account) : option Account :=
  match kvs with
  | [] => Some self
  | (k, v) :: kvs =>
      match assign k v self with Some (Ok self) => assigned kvs self | _ => None end
  end.

Lemma assign_dict k v self self' :
  assign k v self = Some (Ok self') → pddb_dict self' = pddb_dict self.
Proof.
  destruct self. unfold assign.
  repeat (case_bool_decide; [intros E; injection E as E; try (by subst);
    try (destruct (unwrap_parse _ v); [by injection E as <-|done])|]).
  done.
Qed.

Lemma set_new_step k v self self' w :
  assign k v self = Some (Ok self') →
  ∃ w', Account_set_new k v (self, w) = (Ok tt, (self', w')) ∧
    contents (w_pddb w') = merged (contents (w_pddb w)) (pddb_dict self) (k, v) ∧
    w_log w' = w_log w.
Proof.
  intros Ha. destruct (set_new_spec (pddb_dict self) k v (w_pddb w) _ eq_refl) as (p & E & Hc).
  exists (MkWorld p (w_out w) (w_log w)). split; [|done].
  unfold Account_set_new, gets, mbind, ST_bind, with_err, in_world, on_pddb, mirror. simpl.
  rewrite E. simpl. by rewrite Ha.
Qed.

Lemma set_new_all kvs self self' w :
  assigned kvs self = Some self' →
  ∃ w', for_each (λ kv, Account_set_new kv.1 kv.2) kvs (self, w) = (Ok tt, (self', w')) ∧
    contents (w_pddb w') = merged_all (pddb_dict self) kvs (contents (w_pddb w)) ∧
    w_log w' = w_log w.
Proof.
  revert self w. induction kvs as [|[k v] kvs IH]; intros self w; simpl.
  { intros [= ->]. by exists w. }
  destruct (assign k v self) as [[self1|]|] eqn:Ha; try done. intros Hall.
  destruct (set_new_step k v self self1 w Ha) as (w1 & E1 & Hc1 & Hl1).
  destruct (IH self1 w1 Hall) as (w2 & E2 & Hc2 & Hl2). exists w2. split_and!.
  - unfold mbind at 1, ST_bind. by rewrite E1.
  - rewrite Hc2, Hc1. apply assign_dict in Ha. by rewrite Ha.
  - congruence.
Qed.

(** The account a link leaves. *)
Definition linked (self : Account) (msg : ProvisionMessage) (d : link_data) : Account :=
  MkAccount (pddb_dict self) (Some (djb_private_key (aci msg)))
    (Some (djb_identity_key (aci msg))) (Some (service_id (aci msg)))
    (resp_device_id (ld_response d)) (Some (ld_encrypted_name d)) (acc_host self) true
    (Some (number msg)) (Some (ld_password d)) (pin_master_key self)
    (Some (djb_private_key (pni msg))) (Some (djb_identity_key (pni msg)))
    (Some (service_id (pni msg))) (Some (ld_profile_key d)) true
    (acc_service_environment self) None (store_last_receive_timestamp self)
    (store_manifest_version self) (store_manifest self).

Lemma assign_device_id v n self :
  parse_u32 v = Some n → assign DEVICE_ID_KEY (Some v) self = Some (Ok (set_acc_device_id n self)).
Proof.
  intros Hv. change (assign DEVICE_ID_KEY (Some v) self) with
    (Some (n ← unwrap_parse parse_u32 (Some v); Ok (set_acc_device_id n self))).
  unfold unwrap_parse. simpl. by rewrite Hv.
Qed.

Lemma credentials_assigned self msg d :
  in_u32 (resp_device_id (ld_response d)) →
  assigned (credentials msg d) self = Some (linked self msg d).
Proof.
  intros Hd. unfold credentials. cbn [app assigned].
  change (assign PASSWORD_KEY ?v self) with (Some (Ok (E := failure) (set_acc_password v self))).
  cbv iota. rewrite (assign_device_id _ _ _ (parse_u32_show _ Hd)). cbv iota.
  generalize (show_u (ld_registration_id d)) (show_u (ld_pni_registration_id d)).
  intros r1 r2. destruct self. by destruct (account_entropy_pool msg).
Qed.

Lemma credentials_NoDup msg d : NoDup (credentials msg d).*1.
Proof.
  unfold credentials. destruct (account_entropy_pool msg); cbn [app fmap list_fmap fst];
    apply (bool_decide_unpack _); by vm_compute.
Qed.

Lemma save_elsewhere a p pk w :
  prekeys_ok a p pk → ∃ w', save_to_pddb pk w = (Ok tt, w') ∧
    ∀ d k, d ≠ SIGNED_PREKEY_DICT → d ≠ KYBER_PREKEY_DICT →
      contents (w_pddb w') !! (d, k) = contents (w_pddb w) !! (d, k).
Proof.
  intros Hpk. destruct (save_to_pddb_spec a p pk w Hpk)
    as (b1 & b2 & b3 & b4 & _ & _ & _ & _ & w' & E & Hc & _).
  exists w'. split; [done|]. intros d k Hs Hk. rewrite Hc.
  by rewrite !lookup_insert_ne by congruence.
Qed.

Lemma attributes_same base identifier pw attrs :
  preserved same_store (put_accounts_attributes base identifier pw attrs).
Proof.
  apply preserved_bind; [apply _|auto with frame|]. intros json.
  apply preserved_bind; [apply _|apply exchange_same|auto with frame].
Qed.

Lemma persist_phase_spec self msg d a p w :
  in_u32 (resp_device_id (ld_response d)) → prekeys_ok a p (ld_prekeys d) →
  ∃ w', link_persist_phase msg d (self, w) = (Ok tt, (linked self msg d, w')) ∧
    ∀ d' k, d' ≠ SIGNED_PREKEY_DICT → d' ≠ KYBER_PREKEY_DICT →
      contents (w_pddb w') !! (d', k) =
        merged_all (pddb_dict self) (credentials msg d) (contents (w_pddb w)) !! (d', k).
Proof.
  intros Hd Hpk. pose proof (credentials_assigned self msg d Hd) as Ha.
  destruct (set_new_all _ _ _ w Ha) as (w1 & E1 & Hc1 & _).
  destruct (sync_law (w_pddb w1)) as (p2 & E2 & Hc2).
  destruct (save_elsewhere a p _ (MkWorld p2 (w_out w1) (w_log w1)) Hpk) as (w3 & E3 & Hc3).
  pose proof (attributes_same (ld_base_url d) (service_id (aci msg) ++ "."%bs ++
    show_u (resp_device_id (ld_response d))) (ld_password d) (ld_attrs d) w3) as Hat.
  destruct (put_accounts_attributes _ _ _ _ w3) as [r4 w4] eqn:E4. exists w4. split.
  - unfold link_persist_phase. unfold mbind at 1, ST_bind at 1. rewrite E1.
    unfold mbind, ST_bind, with_err, try, in_world, on_pddb. cbn [fst snd]. rewrite E2.
    cbn [fst snd map_err]. rewrite E3. cbn [fst snd map_err]. by rewrite E4.
  - intros d' k Hs Hk. simpl in Hat. rewrite Hat, Hc3 by done. simpl. by rewrite Hc2, Hc1.
Qed.

Lemma link_eq name msg self w :
  is_primary_device self = false →
  link name msg (self, w) =
    match link_request_phase self name msg w with
    | (Err e, w1) => (Err (Io e), (self, w1))
    | (Ok d, w1) => (link_persist_phase msg d;; mret true) (self, w1)
    end.
Proof.
  intros Hp. unfold link, gets, with_err, in_world, mbind, ST_bind. cbn [fst snd].
  rewrite Hp. cbn [fst snd]. by destruct (link_request_phase self name msg w) as [[d|e] w1].
Qed.

(** Both phases together. *)
Lemma link_spec name msg self w :
  is_primary_device self = false →
  match link_request_phase self name msg w with
  | (Err e, w1) => link name msg (self, w) = (Err (Io e), (self, w1)) ∧ same_store w w1
  | (Ok d, _) => ∃ w', link name msg (self, w) = (Ok true, (linked self msg d, w')) ∧
      ∀ d' k, d' ≠ SIGNED_PREKEY_DICT → d' ≠ KYBER_PREKEY_DICT →
        contents (w_pddb w') !! (d', k) =
          merged_all (pddb_dict self) (credentials msg d) (contents (w_pddb w)) !! (d', k)
  end.
Proof.
  intros Hp. pose proof (request_phase_same self name msg w) as Hs.
  rewrite link_eq by done.
  destruct (link_request_phase self name msg w) as [[d|e] w1] eqn:E1; [|done].
  destruct (request_phase_Ok _ _ _ _ _ _ E1) as (Hd & a & p & Hpk).
  destruct (persist_phase_spec self msg d a p w1 Hd Hpk) as (w' & E2 & Hc).
  exists w'. simpl in Hs. split; [|by rewrite Hs in Hc].
  unfold mbind, ST_bind. by rewrite E2.
Qed.

Lemma link_true_inv name msg self w self' w' :
  is_primary_device self = false → link name msg (self, w) = (Ok true, (self', w')) →
  ∃ d, self' = linked self msg d ∧ in_u32 (resp_device_id (ld_response d)) ∧
    ∀ d' k, d' ≠ SIGNED_PREKEY_DICT → d' ≠ KYBER_PREKEY_DICT →
      contents (w_pddb w') !! (d', k) =
        merged_all (pddb_dict self) (credentials msg d) (contents (w_pddb w)) !! (d', k).
Proof.
  intros Hp El. pose proof (link_spec name msg self w Hp) as Hl.
  destruct (link_request_phase self name msg w) as [[d|e] w1] eqn:E1.
  2: { destruct Hl as [El' _]. rewrite El in El'. discriminate El'. }
  destruct Hl as (w2 & El' & Hc). rewrite El in El'. injection El' as Hself <-.
  destruct (request_phase_Ok _ _ _ _ _ _ E1) as (Hd & _). eauto.
Qed.


(** ** Reading a linked account back *)
Context `{!UrlHostLaws}.

Lemma overlay_longer data old : length old ≤ length data → overlay data old = data.
Proof. intros. unfold overlay. by rewrite drop_ge, app_nil_r. Qed.
Lemma show_aux_length fuel n acc : length (show_aux fuel n acc) ≤ fuel + length acc.
Proof.
  revert n acc. induction fuel as [|fuel IH]; intros n acc; simpl; [done|].
  destruct (n / 10 =? 0)%Z; simpl; [lia|]. etrans; [apply IH|]. simpl. lia.
Qed.
Lemma readable_show_u n : in_u32 n → readable (show_u n).
Proof.
  intros [Hn _]. split.
  - pose proof (show_aux_length 20 n []) as Hl. unfold show_u. cbn [length] in Hl. lia.
  - apply ascii_utf8_valid. pose proof (show_u_digits n Hn) as Hd.
    rewrite forallb_forall in *. intros b Hb. specialize (Hd b Hb).
    unfold is_ascii_digit in Hd. lia.
Qed.

Section after_link.
Variables (dict : bytes) (host : UHost) (env : ServiceEnvironment).
Variables (msg : ProvisionMessage) (d : link_data) (m : gmap (bytes * bytes) bytes).
Hypothesis Hfresh : ∀ k, k ∈ default_keys → m !! (dict, k) = None.
Abbreviation after := (merged_all dict (credentials msg d) (renewed m dict host env)).

(** A key with no default, and one with: the credential goes over the default. *)
Lemma after_cleared i k v :
  credentials msg d !! i = Some (k, Some v) →
  bool_decide ((k ∈ cleared_keys) ∧ (k ∉ default_keys)) = true → readable v →
  text_at after dict k = Some v.
Proof.
  intros Hi%list_elem_of_lookup_2 [Hc Hd]%bool_decide_eq_true_1 Hr.
  apply text_at_Some; [|done].
  rewrite (merged_all_eq _ _ _ k v (credentials_NoDup msg d) Hi).
  unfold renewed. rewrite merged_all_ne by by right. rewrite cleared_lookup by done.
  simpl. by rewrite overlay_nil.
Qed.
Lemma after_overlaid k v old t :
  (k, Some v) ∈ credentials msg d → (k, old) ∈ default_values host env →
  bool_decide ((k ∉ cleared_keys) ∧ (k ∈ default_keys)) = true → overlay v old = t → readable t →
  text_at after dict k = Some t.
Proof.
  intros Hi Ho [Hc Hd]%bool_decide_eq_true_1 <- Hr. apply text_at_Some; [|done].
  rewrite (merged_all_eq _ _ _ k v (credentials_NoDup msg d) Hi).
  by rewrite (renewed_value m dict host env k old Hc Ho) by auto.
Qed.
Lemma after_untouched k v :
  k ∉ (credentials msg d).*1 → (k, v) ∈ default_values host env →
  bool_decide ((k ∉ cleared_keys) ∧ (k ∈ default_keys)) = true → readable v →
  text_at after dict k = Some v.
Proof.
  intros Hk Ho [Hc Hd]%bool_decide_eq_true_1 Hr. apply text_at_Some; [|done].
  rewrite merged_all_ne by by right. by apply renewed_value; auto.
Qed.

Lemma after_device_id :
  in_u32 (resp_device_id (ld_response d)) →
  text_at after dict DEVICE_ID_KEY = Some (show_u (resp_device_id (ld_response d))).
Proof.
  intros Hid. eapply (after_overlaid _ _ "0"%bs); [| |done| |by apply readable_show_u].
  - by apply (list_elem_of_lookup_2 _ 1).
  - by apply (list_elem_of_lookup_2 _ 0).
  - apply overlay_longer. destruct (show_u_cons (resp_device_id (ld_response d))) as (b & r & ->).
    simpl. lia.
Qed.
(** ["true"] over ["false"] *)
Definition truee : bytes := "truee"%bs.
Lemma after_true k j :
  bool_decide ((k ∉ cleared_keys) ∧ (k ∈ default_keys)) = true →
  (k, Some (show_bool true)) ∈ credentials msg d →
  default_values host env !! j = Some (k, show_bool false) →
  text_at after dict k = Some truee.
Proof.
  intros Hk Hc Hj%list_elem_of_lookup_2.
  eapply after_overlaid; [exact Hc|exact Hj|done|done|]. apply readable_bool. by vm_compute.
Qed.
Lemma late_credential k v i :
  [(REGISTRATION_ID_KEY, Some (show_u (ld_registration_id d)));
   (PNI_REGISTRATION_ID_KEY, Some (show_u (ld_pni_registration_id d)));
   (STORAGE_KEY_KEY, None);
   (STORE_LAST_RECEIVE_TIMESTAMP_KEY, Some ("0"%bs : bytes));
   (STORE_MANIFEST_VERSION_KEY, Some ("-1"%bs : bytes));
   (STORE_MANIFEST_KEY, None);
   (REGISTERED_KEY, Some (show_bool true))] !! i = Some (k, v) → (k, v) ∈ credentials msg d.
Proof.
  intros Hi%list_elem_of_lookup_2. unfold credentials. rewrite !elem_of_app. by right; right.
Qed.
Lemma after_kept k v j :
  bool_decide (k ∈ [HOST_KEY; SERVICE_ENVIRONMENT_KEY]) = true →
  default_values host env !! j = Some (k, v) → readable v → text_at after dict k = Some v.
Proof.
  intros Hk%bool_decide_eq_true_1 Hj%list_elem_of_lookup_2 Hr.
  apply after_untouched; [|done| |done].
  - unfold credentials. destruct (account_entropy_pool msg); cbn [app fmap list_fmap fst];
      apply elem_of_cons in Hk as [->|Hk]; try apply list_elem_of_singleton in Hk as ->;
      apply (bool_decide_unpack _); by vm_compute.
  - by apply elem_of_cons in Hk as [->|Hk]; [|apply list_elem_of_singleton in Hk as ->].
Qed.

Lemma after_link_read :
  readable (host_to_string host) → in_u32 (resp_device_id (ld_response d)) →
  readable (ld_password d) → readable (service_id (aci msg)) →
  ∃ acc, account_of after dict = Ok acc ∧ acc_device_id acc = resp_device_id (ld_response d) ∧
    acc_password acc = Some (ld_password d) ∧
    acc_aci_service_id acc = Some (service_id (aci msg)) ∧
    acc_registered acc = false ∧ acc_is_multi_device acc = false.
Proof.
  intros Hh Hid Hpw Hsi.
  assert (readable (ServiceEnvironment_to_string env)) as He.
  { destruct env; apply readable_bool; by vm_compute. }
  assert (text_at after dict STORE_MANIFEST_VERSION_KEY = Some ("-1"%bs : bytes)) as Emv.
  { eapply (after_overlaid _ "-1"%bs "-1"%bs); [by apply (late_credential _ _ 4)|
      by apply (list_elem_of_lookup_2 _ 6)|done|done|apply readable_bool; by vm_compute]. }
  assert (text_at after dict IS_MULTI_DEVICE_KEY = Some truee) as Emd.
  { apply (after_true _ 2); [done|by apply (list_elem_of_lookup_2 _ 9)|done]. }
  assert (text_at after dict REGISTERED_KEY = Some truee) as Erg.
  { apply (after_true _ 3); [done|by apply (late_credential _ _ 6)|done]. }
  unfold account_of.
  rewrite after_device_id, (after_kept HOST_KEY (host_to_string host) 1), Emd, Erg,
    (after_kept SERVICE_ENVIRONMENT_KEY (ServiceEnvironment_to_string env) 4), Emv by done.
  unfold parse_host. rewrite host_parse_to_string. cbn [mbind result_bind].
  eexists. split; [done|]. cbn [acc_device_id acc_password acc_aci_service_id acc_registered
    acc_is_multi_device]. unfold parse_or at 1. rewrite (parse_u32_show _ Hid).
  split; [done|]. split; [by apply (after_cleared 0)|]. split; [by apply (after_cleared 4)|].
  by vm_compute.
Qed.
End after_link.

(** C38: what a restart makes of a link.  An account created on a fresh dictionary
    and then linked reads back, from the store the link leaves, with the same
    device id, password and service id, and counts as registered by these three;
    but the two flags the link set read back as false, because ["true"] written
    over the ["false"] of the new account leaves ["truee"], which does not
    parse. *)
Theorem link_then_read dict host env name msg p0 p1 o l self self' w' :
  (∀ k, k ∈ default_keys → contents p0 !! (dict, k) = None) → readable (host_to_string host) →
  dict ∉ [SIGNED_PREKEY_DICT; KYBER_PREKEY_DICT] →
  new dict host env p0 = (Ok self, p1) →
  link name msg (self, MkWorld p1 o l) = (Ok true, (self', w')) →
  acc_device_id self' ≠ 0%Z → from_option readable True (acc_password self') →
  from_option readable True (acc_aci_service_id self') →
  ∃ acc, (read dict (w_pddb w')).1 = Ok acc ∧
    acc_device_id acc = acc_device_id self' ∧ acc_password acc = acc_password self' ∧
    acc_aci_service_id acc = acc_aci_service_id self' ∧ is_registered acc = true ∧
    acc_registered self' = true ∧ acc_registered acc = false ∧
    acc_is_multi_device self' = true ∧ acc_is_multi_device acc = false.
Proof.
  intros Hf Hh Hdict En El Hid Hpw Hsi.
  destruct (new_spec dict host env p0 _ eq_refl) as (p1' & En' & Hp1).
  rewrite account_of_renewed, En in En' by done. injection En' as -> <-.
  apply link_true_inv in El as (d & Hself & Hd & Hc); [|reflexivity].
  rewrite Hself in *. unfold linked in Hid, Hpw, Hsi.
  cbn [acc_device_id acc_password acc_aci_service_id from_option] in Hid, Hpw, Hsi.
  destruct (after_link_read dict host env msg d (contents p0) Hf Hh Hd Hpw Hsi)
    as (acc & Ea & H1' & H2' & H3' & H4' & H5').
  destruct (read_spec dict (w_pddb w') _ eq_refl) as (p2 & Er & _).
  exists acc. split.
  - rewrite Er. cbn [fst]. rewrite <- Ea. apply account_of_ext.
    intros k. rewrite <- Hp1. apply (Hc dict k); intros ->; apply Hdict; [left|right; left].
  - unfold is_registered, linked. rewrite H1', H2', H3', H4', H5'.
    cbn [acc_device_id acc_password acc_aci_service_id acc_registered acc_is_multi_device].
    split_and!; try reflexivity. by apply Z.eqb_neq in Hid as ->.
Qed.
End link_spec.

(** * The theorems at a concrete device *)

Module ToyHost.
#[global] Instance host : UrlHost :=
  {| UHost := bytes; host_parse := Ok; host_to_string h := h |}.
#[global] Instance host_laws : UrlHostLaws.
Proof. by constructor. Qed.
End ToyHost.

Definition demo_host : @UHost ToyHost.host := DEFAULT_HOST.

Lemma new_account_defaults_witness :
  ∃ p', new ACCOUNT_DICT demo_host Live (∅ : flash) =
      (Ok (fresh_account ACCOUNT_DICT demo_host Live), p') ∧
    (read ACCOUNT_DICT p').1 = Ok (fresh_account ACCOUNT_DICT demo_host Live) ∧
    is_registered (fresh_account ACCOUNT_DICT demo_host Live) = false ∧
    ∀ d' k, d' ≠ ACCOUNT_DICT → contents p' !! (d', k) = contents (∅ : flash) !! (d', k).
Proof.
  apply (new_account_defaults ACCOUNT_DICT demo_host Live (∅ : flash)); [done|].
  apply readable_bool. by vm_compute.
Defined.

(** Over a dictionary that is not fresh the defaults merge: device id ["0"] over
    ["12"] is ["02"]. *)
Example new_over_old :
  match (new ACCOUNT_DICT demo_host Live
           ({[(ACCOUNT_DICT, DEVICE_ID_KEY) := "12"%bs : bytes]} : flash)).1 with
  | Ok a => acc_device_id a = 2%Z
  | Err _ => False
  end.
Proof. by vm_compute. Qed.

Definition demo_pair : IdentityKeyPair :=
  {| service_id := "alice"%bs; djb_identity_key := "BQE"%bs; djb_private_key := "BQE"%bs |}.
Definition demo_provision : ProvisionMessage :=
  {| number := "+15550100"%bs; aci := demo_pair; pni := demo_pair; master_key := [];
     profile_key := Some (b64_encode URL_SAFE_NO_PAD (replicate 32 Byte.x01));
     provisioning_code := Some ("code"%bs : bytes); account_entropy_pool := None |}.
(** The server refuses the first identifier and accepts the second. *)
Definition link_ok : ureq_result :=
  UreqOk 200 (Ok ("{"%bs ++ dq ++ "uuid"%bs ++ dq ++ ":"%bs ++ dq ++ "alice"%bs ++ dq ++ ","%bs ++
    dq ++ "pni"%bs ++ dq ++ ":"%bs ++ dq ++ "alice"%bs ++ dq ++ ","%bs ++
    dq ++ "deviceId"%bs ++ dq ++ ":2}"%bs)).
Definition link_sim : sim := Sim 0 [UreqStatus 403 (Ok []); link_ok; ok_200] [].
Definition new_run := new ACCOUNT_DICT demo_host Live (∅ : flash).
Definition link_run (self : Account) (p : flash) :=
  link "phone"%bs demo_provision (self, MkWorld p link_sim []).

Lemma demo_dict_ok : ACCOUNT_DICT ∉ [SIGNED_PREKEY_DICT; KYBER_PREKEY_DICT].
Proof. apply (bool_decide_unpack _). by vm_compute. Qed.

Lemma link_then_read_witness :
  match new_run with
  | (Ok self, p1) =>
      match link_run self p1 with
      | (Ok true, (self', w')) => ∃ acc, (read ACCOUNT_DICT (w_pddb w')).1 = Ok acc ∧
          acc_device_id acc = 2%Z ∧ acc_password acc = acc_password self' ∧
          is_registered acc = true ∧ acc_registered self' = true ∧ acc_registered acc = false
      | _ => False
      end
  | _ => False
  end.
Proof.
  assert (match new_run with
    | (Ok self, p1) => match link_run self p1 with
        | (Ok true, (self', _)) => bool_decide (acc_device_id self' = 2%Z) &&
            from_option (λ v, bool_decide (length v ≤ 256) && utf8_valid v) true (acc_password self') &&
            from_option (λ v, bool_decide (length v ≤ 256) && utf8_valid v) true
              (acc_aci_service_id self')
        | _ => false end
    | _ => false end = true) as Hok by (vm_compute; reflexivity).
  destruct new_run as [[self|e] p1] eqn:En; [|discriminate Hok].
  destruct (link_run self p1) as [[[]|e] [self' w']] eqn:El; [|discriminate Hok..].
  apply andb_prop in Hok as [Hok Hs]. apply andb_prop in Hok as [Hi Hp].
  apply bool_decide_eq_true_1 in Hi.
  destruct (link_then_read ACCOUNT_DICT demo_host Live "phone"%bs demo_provision ∅ p1 link_sim []
    self self' w' ltac:(done) ltac:(apply readable_bool; by vm_compute) demo_dict_ok En El)
    as (acc & Er & E1 & E2 & _ & E4 & E5 & E6 & _).
  - rewrite Hi. done.
  - destruct (acc_password self'); [by apply readable_bool|done].
  - destruct (acc_aci_service_id self'); [by apply readable_bool|done].
  - exists acc. rewrite E1. split_and!; assumption.
Defined.


Definition demo_body : LinkDeviceRequestBody :=
  {| verification_code := "code"%bs;
     account_attributes :=
       {| aa_registration_id := 7; fetches_messages := true; registration_lock := None;
          unidentified_access_key := []; unrestricted_unidentified_access := false;
          discoverable_by_phone_number := false;
          capabilities := {| cap_storage := true; versioned_expiration_timer := true;
                             attachment_backfill := true; ssre2 := true; spqr := true |};
          aa_name := []; aa_pni_registration_id := 8; recovery_password := None |};
     aci_signed_pre_key := {| spe_key_id := 1; spe_public_key := []; spe_signature := [] |};
     pni_signed_pre_key := {| spe_key_id := 2; spe_public_key := []; spe_signature := [] |};
     aci_pq_last_resort_pre_key :=
       {| kpe_key_id := 3; kpe_public_key := []; kpe_signature := [] |};
     pni_pq_last_resort_pre_key :=
       {| kpe_key_id := 4; kpe_public_key := []; kpe_signature := [] |} |}.
Definition demo_base : Url := (("https://chat.example.org"%bs : bytes), [] : bytes).
Lemma link_retried_once_witness :
  match to_vec (LinkDeviceRequestBody_json demo_body) with
  | Ok json => ∃ r w' a,
      put_devices_link demo_base "+15550100"%bs "pw"%bs demo_body
        (MkWorld (∅ : flash) link_sim []) = (r, w') ∧ w_pddb w' = ∅ ∧
      let first := EvHttp (link_request demo_base ("+15550100"%bs ++ ".-1"%bs) "pw"%bs json) a in
      ((∀ b, a ≠ UreqStatus 403 b) ∧ w_log w' = [first] ∧ r = link_response a ∨
       ∃ b a2, a = UreqStatus 403 b ∧ r = link_response a2 ∧
         w_log w' = [first; EvHttp (link_request demo_base "+15550100"%bs "pw"%bs json) a2])
  | Err _ => False
  end.
Proof.
  assert (is_ok (to_vec (LinkDeviceRequestBody_json demo_body)) = true) as Hok
    by (vm_compute; reflexivity).
  destruct (to_vec (LinkDeviceRequestBody_json demo_body)) as [json|e] eqn:E; [|discriminate Hok].
  exact (link_retried_once demo_base "+15550100"%bs "pw"%bs demo_body json
    (MkWorld (∅ : flash) link_sim []) E).
Defined.
