(* ===== verification/StoreEffect.v ===== *)
(** What the client does to the store.

    [client_write] is the abstract specification of the whole client's use of the
    PDDB: it puts an entry of the type its dictionary holds ([entry]), deletes a
    session, a one-time pre-key or an account value, or drops the account
    dictionary.  Nothing else.  The store operations are shown here to be
    sequences of such writes ([effect]); EffectSpec.v extends this to the send
    path, the receive worker, linking, replenishment and the application, whatever
    the network, the user and libsignal do.

    [preserved_yields] carries facts about a returned value across a bind. *)

From S2P Require Import Prelude Hoare RustStd Wire Base64 Json Pddb Signal Stores World Outgoing.
From S2P Require Import Send SendWorld Peers Keys Rest Prekeys Provision Account AccountSpec.

(** * Frames with values *)

(** Every value [c] returns satisfies [Q]. *)
Definition yields {W E A} (c : ST W E A) (Q : A → Prop) : Prop :=
  ∀ w a w', c w = (Ok a, w') → Q a.

Section yields.
Context {W : Type} (R : W → W → Prop) {HR : PreOrder R}.

Lemma preserved_yields {E A B} (c : ST W E A) (Q : A → Prop) (f : A → ST W E B) :
  preserved R c → yields c Q → (∀ a, Q a → preserved R (f a)) → preserved R (c ≫= f).
Proof.
  intros Hc Hq Hf w. specialize (Hc w). specialize (Hq w). unfold mbind, ST_bind.
  destruct (c w) as [[a|e] w']; simpl in *; [|done]. etrans; [done|]. apply Hf. eauto.
Qed.
Lemma preserved_lift_bind {E A B} (r : result E A) (f : A → ST W E B) :
  (∀ a, r = Ok a → preserved R (f a)) → preserved R (lift r ≫= f).
Proof.
  intros Hf. eapply preserved_yields; [by apply preserved_lift| |exact Hf].
  intros w a w'. unfold lift. by intros [= -> _].
Qed.
Lemma preserved_run_loop {E S A} n (e : E) (body : S → ST W E (S + A)) s :
  (∀ s, preserved R (body s)) → preserved R (run_loop n e body s).
Proof.
  intros Hb w. unfold run_loop.
  pose proof (iter_inv body (λ _, R w) (λ _, R w) (λ _, R w) n s w (reflexivity w)) as Hi.
  destruct (iter n body s w) as [[[x|x] w']|]; simpl; [..|reflexivity]; apply Hi; clear Hi;
    intros s' w1 H1; specialize (Hb s' w1); unfold wp;
    destruct (body s' w1) as [[[s2|x2]|x2] w2]; simpl in *; by etrans.
Qed.

Lemma yields_ret {E A} (a : A) (Q : A → Prop) : Q a → yields (mret (M := ST W E) a) Q.
Proof. intros HQ w a' w' [= <- _]. done. Qed.
Lemma yields_throw {E A} (e : E) (Q : A → Prop) : yields (W := W) (throw e) Q.
Proof. done. Qed.
Lemma yields_bind {E A B} (c : ST W E A) (f : A → ST W E B) (Q : B → Prop) :
  (∀ a, yields (f a) Q) → yields (c ≫= f) Q.
Proof.
  intros Hf w b w'. unfold mbind, ST_bind. destruct (c w) as [[a|e] w1]; [|done]. apply Hf.
Qed.
End yields.

(** * The abstract store *)

Definition dev_ok (a : ProtocolAddress) : Prop := (1 ≤ addr_device a ≤ 127)%Z.
Definition POINTER_KEYS : list bytes := [DEFAULT_PEER_KEY; FOCUSED_PEER_KEY].
(** The keys of the account's own values. *)
Definition ACCOUNT_KEYS : list bytes :=
  [ACCOUNT_ENTROPY_POOL_KEY; ACI_IDENTITY_PRIVATE_KEY; ACI_IDENTITY_PUBLIC_KEY; ACI_SERVICE_ID_KEY;
   DEVICE_ID_KEY; ENCRYPTED_DEVICE_NAME_KEY; HOST_KEY; IS_MULTI_DEVICE_KEY; NUMBER_KEY; PASSWORD_KEY;
   PIN_MASTER_KEY_KEY; PNI_IDENTITY_PRIVATE_KEY; PNI_IDENTITY_PUBLIC_KEY; PNI_REGISTRATION_ID_KEY;
   PNI_SERVICE_ID_KEY; PROFILE_KEY_KEY; REGISTERED_KEY; REGISTRATION_ID_KEY; SERVICE_ENVIRONMENT_KEY;
   STORAGE_KEY_KEY; STORE_LAST_RECEIVE_TIMESTAMP_KEY; STORE_MANIFEST_VERSION_KEY; STORE_MANIFEST_KEY].

(** The dictionaries the client deletes keys of. *)
Definition DELETABLE : list bytes := [SESSION_DICT; PREKEY_DICT; ACCOUNT_DICT].
Lemma session_deletable : SESSION_DICT ∈ DELETABLE. Proof. by left. Qed.
Lemma prekey_deletable : PREKEY_DICT ∈ DELETABLE. Proof. right. by left. Qed.
Lemma account_deletable : ACCOUNT_DICT ∈ DELETABLE. Proof. do 2 right. by left. Qed.

Section store.
Context `{KeyOps} `{!Base64}.

(** The type of an entry: what each dictionary holds under which keys. *)
Inductive entry : bytes → bytes → bytes → Prop :=
  | entry_session a (r : SessionRecord) v :
      dev_ok a → serialize r = Ok v → entry SESSION_DICT (address_key a) v
  | entry_identity a i : dev_ok a → entry IDENTITY_DICT (address_key a) (identity_serialize i)
  | entry_pre_key i (r : PreKeyRecord) v :
      id_ok i → serialize r = Ok v → entry PREKEY_DICT (show_u i) v
  | entry_signed i (r : SignedPreKeyRecord) v :
      SignedPreKeyRecord_id r = Ok i → serialize r = Ok v → entry SIGNED_PREKEY_DICT (show_u i) v
  | entry_kyber i (r : KyberPreKeyRecord) v :
      KyberPreKeyRecord_id r = Ok i → serialize r = Ok v → entry KYBER_PREKEY_DICT (show_u i) v
  | entry_used i e b : entry KYBER_PREKEY_DICT (dedup_key i e b) [Byte.x01]
  | entry_peer s : entry PEERS_DICT (uuid s) (to_json s)
  | entry_pointer k a : k ∈ POINTER_KEYS → dev_ok a → entry DIALOGUE_DICT k (peer_json a)
  | entry_counter n : id_ok n → entry ACCOUNT_DICT ACI_NEXT_PREKEY_ID_KEY (show_u n)
  | entry_account k v : k ∈ ACCOUNT_KEYS → entry ACCOUNT_DICT k v.

(** One write of the client. *)
Inductive client_write : relation (gmap (bytes * bytes) bytes) :=
  | write_put m d k v : entry d k v → client_write m (<[(d, k) := v]> m)
  | write_delete m d k :
      d ∈ DELETABLE → client_write m (delete (d, k) m)
  | write_drop m : client_write m (filter (λ kv, kv.1.1 ≠ ACCOUNT_DICT) m).

(** ** Invariants of the abstract store *)

(** The dictionaries only the client writes.  The chat server keeps dialogues of its
    own in [DIALOGUE_DICT]. *)
Definition CLIENT_DICTS : list bytes :=
  [SESSION_DICT; IDENTITY_DICT; PREKEY_DICT; SIGNED_PREKEY_DICT; KYBER_PREKEY_DICT; PEERS_DICT;
   ACCOUNT_DICT].
(** The dictionaries nothing is deleted from. *)
Definition KEPT_DICTS : list bytes :=
  [IDENTITY_DICT; SIGNED_PREKEY_DICT; KYBER_PREKEY_DICT; PEERS_DICT; DIALOGUE_DICT].

Definition well_typed (m : gmap (bytes * bytes) bytes) : Prop :=
  ∀ d k v, d ∈ CLIENT_DICTS → m !! (d, k) = Some v → entry d k v.

Lemma write_well_typed m m' : client_write m m' → well_typed m → well_typed m'.
Proof.
  intros Hw Ht d' k' v' Hd Hl. destruct Hw as [m d k v He|m d k Hk|m].
  - apply lookup_insert_Some in Hl as [[[= <- <-] <-]|[_ Hl]]; [done|by apply Ht].
  - apply lookup_delete_Some in Hl as [_ Hl]. by apply Ht.
  - apply map_lookup_filter_Some in Hl as [Hl _]. by apply Ht.
Qed.
Lemma kept_not_deletable d : d ∈ KEPT_DICTS → d ∉ DELETABLE.
Proof.
  intros Hd Hk. assert (forallb (λ d, bool_decide (d ∉ DELETABLE)) KEPT_DICTS = true) as Hb by by vm_compute.
  eapply forallb_forall in Hb; [|by apply list_elem_of_In]. by apply bool_decide_eq_true in Hb.
Qed.
Lemma write_keeps m m' d k :
  client_write m m' → d ∈ KEPT_DICTS → is_Some (m !! (d, k)) → is_Some (m' !! (d, k)).
Proof.
  intros Hw Hd%kept_not_deletable Hs. destruct Hw as [m d' k' v He|m d' k' Hk|m].
  - destruct (decide ((d, k) = (d', k'))) as [->|Hne]; [rewrite lookup_insert_eq; by eexists|].
    by rewrite lookup_insert_ne.
  - rewrite lookup_delete_ne; [done|]. by intros [= -> ->].
  - destruct Hs as [v Hv]. exists v. apply map_lookup_filter_Some. split; [done|]. simpl. intros ->.
    apply Hd, account_deletable.
Qed.
Lemma entry_dict d k v : entry d k v → d ∈ DIALOGUE_DICT :: CLIENT_DICTS.
Proof. intros He. apply (bool_decide_eq_true_1 _). by destruct He; vm_compute. Qed.
Lemma write_elsewhere m m' d k :
  client_write m m' → d ∉ DIALOGUE_DICT :: CLIENT_DICTS → m' !! (d, k) = m !! (d, k).
Proof.
  assert (∀ d, d ∈ DELETABLE → d ∈ DIALOGUE_DICT :: CLIENT_DICTS) as Hdel.
  { intros d0. unfold DELETABLE, CLIENT_DICTS. set_solver. }
  intros Hw Hd. destruct Hw as [m d' k' v He|m d' k' Hk|m].
  - apply entry_dict in He. apply lookup_insert_ne. by intros [= -> ->].
  - apply lookup_delete_ne. intros [= -> ->]. by apply Hd, Hdel.
  - destruct (m !! (d, k)) as [v|] eqn:Em.
    + apply map_lookup_filter_Some. split; [done|]. simpl. intros ->. apply Hd, Hdel, account_deletable.
    + apply map_lookup_filter_None. by left.
Qed.

(** What the entries of one dictionary are. *)
Ltac dict_inv :=
  let He := fresh "He" in intros He;
  match type of He with entry ?D _ _ => let d := fresh "d" in remember D as d end;
  destruct He; try (exfalso; match goal with E : _ = _ :> bytes |- _ => revert E end; vm_compute; discriminate).
Lemma session_entry k v :
  entry SESSION_DICT k v → ∃ a (r : SessionRecord), dev_ok a ∧ k = address_key a ∧ serialize r = Ok v.
Proof. dict_inv. eauto. Qed.
Lemma identity_entry k v : entry IDENTITY_DICT k v → ∃ i, v = identity_serialize i.
Proof. dict_inv. eauto. Qed.
Lemma pre_key_entry k v : entry PREKEY_DICT k v → ∃ r : PreKeyRecord, serialize r = Ok v.
Proof. dict_inv. eauto. Qed.
Lemma signed_entry k v :
  entry SIGNED_PREKEY_DICT k v → ∃ r : SignedPreKeyRecord, serialize r = Ok v.
Proof. dict_inv. eauto. Qed.
Lemma kyber_entry k v :
  entry KYBER_PREKEY_DICT k v →
  (∃ r : KyberPreKeyRecord, serialize r = Ok v) ∨ ∃ i e b, k = dedup_key i e b.
Proof. dict_inv; eauto 6. Qed.
Lemma counter_entry v :
  entry ACCOUNT_DICT ACI_NEXT_PREKEY_ID_KEY v → ∃ n, id_ok n ∧ v = show_u n.
Proof.
  intros He. remember ACCOUNT_DICT as d eqn:Hd. remember ACI_NEXT_PREKEY_ID_KEY as k eqn:Hk.
  destruct He as [| | | | | | | |n Hn|k v Hin]; try (exfalso; revert Hd; vm_compute; discriminate).
  - by exists n.
  - exfalso. subst k. revert Hin. apply (bool_decide_eq_true_1 (¬ _)). by vm_compute.
Qed.

Context {P : Type} `{PddbLaws P}.
Definition effect (p p' : P) : Prop := rtc client_write (contents p) (contents p').
#[export] Instance effect_preorder : PreOrder effect.
Proof. split; [intros p; apply rtc_refl|]. intros p1 p2 p3. unfold effect. by etrans. Qed.

Lemma effect_same p p' : contents p' = contents p → effect p p'.
Proof. unfold effect. by intros ->. Qed.
Lemma effect_once p p' : client_write (contents p) (contents p') → effect p p'.
Proof. apply rtc_once. Qed.
Lemma runs_same {E A} (c : ST P E A) : (∀ p, ∃ r, runs c p r (contents p)) → preserved effect c.
Proof. intros Hc p. destruct (Hc p) as (r & p' & -> & Hp). by apply effect_same. Qed.
Lemma runs_effect {E A} (c : ST P E A) :
  (∀ p, ∃ r m, runs c p r m ∧ client_write (contents p) m) → preserved effect c.
Proof. intros Hc p. destruct (Hc p) as (r & m & (p' & -> & <-) & Hm). by apply effect_once. Qed.

(** ** Reads *)
Lemma read_record_effect c d k : preserved effect (read_record c d k).
Proof. apply runs_same. intros p. eexists. apply read_record_spec. Qed.
Lemma account_string_effect {E} d k : preserved effect (read_account_string (E := E) d k).
Proof. apply runs_same. intros p. destruct (read_account_string_runs (E := E) d k p) as (r & Hr). by eexists. Qed.
Lemma get_string_effect {E} d k : preserved effect (pddb_get_string (E := E) d k).
Proof.
  apply runs_same. intros p. destruct (get_string_spec (E := E) d k p) as (p' & Ep & Hp).
  eexists. by exists p'.
Qed.
Lemma list_keys_effect d : preserved effect (pddb_list_keys d).
Proof.
  apply runs_same. intros p. destruct (list_keys_law d p) as (r & p' & Ep & Hp & _).
  exists r. by exists p'.
Qed.
Lemma sync_effect : preserved effect pddb_sync.
Proof. apply runs_same. intros p. destruct (sync_law p) as (p' & Ep & Hp). eexists. by exists p'. Qed.
Lemma ignore_effect {E F A} (c : ST P F A) : preserved effect c → preserved effect (ignore (E := E) c).
Proof. intros Hc p. apply Hc. Qed.

(** ** Writes *)
Lemma overwrite_effect {E} (f g : io_error → E) d k v :
  entry d k v → preserved effect (pddb_overwrite f g d k v).
Proof.
  intros He. apply runs_effect. intros p. destruct (overwrite_spec f g d k v p) as (p' & Ep & Hp).
  eexists _, _. split; [by exists p'|]. by constructor.
Qed.
Lemma write_record_effect c d k v : entry d k v → preserved effect (write_record c d k v).
Proof.
  intros He. apply runs_effect. intros p. eexists _, _. split; [apply write_record_spec|]. by constructor.
Qed.
Lemma delete_key_effect d k :
  d ∈ DELETABLE → preserved effect (pddb_delete_key d k).
Proof.
  intros Hd. apply runs_effect. intros p. destruct (delete_key_law d k p) as (r & p' & Ep & Hp & _).
  exists r. eexists. split; [by exists p'|]. by constructor.
Qed.
Lemma delete_dict_effect : preserved effect (pddb_delete_dict ACCOUNT_DICT).
Proof.
  apply runs_effect. intros p. destruct (delete_dict_law ACCOUNT_DICT p) as (r & p' & Ep & Hp & _).
  exists r. eexists. split; [by exists p'|]. constructor.
Qed.
End store.

(** Split a computation into the steps the [effect] hints know. *)
Create HintDb effect discriminated.
#[export] Hint Resolve preserved_ret preserved_throw preserved_lift preserved_gets preserved_with_err
  effect_preorder read_record_effect account_string_effect get_string_effect list_keys_effect
  sync_effect ignore_effect overwrite_effect write_record_effect delete_key_effect
  session_deletable prekey_deletable account_deletable : effect.
Ltac eff_step :=
  first [ solve [eauto 5 with effect nocore]
        | lazymatch goal with
          | |- preserved _ (lift _ ≫= _) => apply preserved_lift_bind; [exact _|intros ? ?]
          | |- preserved _ (_ ≫= _) => apply preserved_bind; [exact _| |intros ?]
          | |- preserved _ (try _) => apply preserved_try
          | |- preserved _ (with_err _ _) => apply preserved_with_err
          | |- preserved _ (for_each _ _) => apply preserved_for_each; [exact _|intros ?]
          | |- preserved _ (collect _ _) => apply preserved_collect; [exact _|intros ?]
          | |- preserved _ (match _ with _ => _ end) => case_match
          end ].
Ltac eff := repeat eff_step.

(** * The stores *)
Section stores.
Context `{LibsignalLaws} `{!KeyOps} `{Base64Laws} {P : Type} `{PddbLaws P}.

Lemma key_pair_effect : preserved (effect (P := P)) (Identity_get_identity_key_pair identity_store).
Proof. unfold Identity_get_identity_key_pair. eff. Qed.
Lemma local_id_effect : preserved (effect (P := P)) (Identity_get_local_registration_id identity_store).
Proof. unfold Identity_get_local_registration_id. eff. Qed.
Lemma save_identity_effect a k :
  dev_ok a → preserved (effect (P := P)) (Identity_save_identity identity_store a k).
Proof.
  intros Ha. pose proof (entry_identity a k Ha). unfold Identity_save_identity. eff.
Qed.
Lemma trusted_effect a k d : preserved (effect (P := P)) (Identity_is_trusted_identity identity_store a k d).
Proof. unfold Identity_is_trusted_identity. eff. Qed.
Lemma get_identity_effect a : preserved (effect (P := P)) (Identity_get_identity identity_store a).
Proof. unfold Identity_get_identity. eff. Qed.
Lemma load_session_effect a : preserved (effect (P := P)) (Session_load_session session_store a).
Proof. unfold Session_load_session. eff. Qed.
Lemma store_session_effect a r :
  dev_ok a → preserved (effect (P := P)) (Session_store_session session_store a r).
Proof.
  intros Ha. unfold Session_store_session. apply preserved_lift_bind; [exact _|]. intros b Hb.
  apply write_record_effect. by eapply entry_session.
Qed.
Lemma device_ids_effect {E} u : preserved (effect (P := P)) (Session_device_ids_for (E := E) session_store u).
Proof. unfold Session_device_ids_for. eff. Qed.
Lemma get_pre_key_effect i : preserved (effect (P := P)) (PreKey_get_pre_key pre_key_store i).
Proof. unfold PreKey_get_pre_key. eff. Qed.
Lemma save_pre_key_effect i r :
  id_ok i → preserved (effect (P := P)) (PreKey_save_pre_key pre_key_store i r).
Proof.
  intros Hi. unfold PreKey_save_pre_key. apply preserved_lift_bind; [exact _|].
  intros b Hb. apply write_record_effect. destruct (serialize r) as [b'|] eqn:Er; [|done].
  injection Hb as <-. by eapply entry_pre_key.
Qed.
Lemma remove_pre_key_effect i : preserved (effect (P := P)) (PreKey_remove_pre_key pre_key_store i).
Proof. unfold PreKey_remove_pre_key. eff. Qed.
Lemma get_signed_effect i : preserved (effect (P := P)) (SignedPreKey_get_signed_pre_key signed_pre_key_store i).
Proof. unfold SignedPreKey_get_signed_pre_key. eff. Qed.
Lemma save_signed_effect i r : SignedPreKeyRecord_id r = Ok i →
  preserved (effect (P := P)) (SignedPreKey_save_signed_pre_key signed_pre_key_store i r).
Proof.
  intros Hi. unfold SignedPreKey_save_signed_pre_key. apply preserved_lift_bind; [exact _|].
  intros b Hb. apply write_record_effect. by eapply entry_signed.
Qed.
Lemma get_kyber_effect i : preserved (effect (P := P)) (KyberPreKey_get_kyber_pre_key kyber_pre_key_store i).
Proof. unfold KyberPreKey_get_kyber_pre_key. eff. Qed.
Lemma save_kyber_effect i r : KyberPreKeyRecord_id r = Ok i →
  preserved (effect (P := P)) (KyberPreKey_save_kyber_pre_key kyber_pre_key_store i r).
Proof.
  intros Hi. unfold KyberPreKey_save_kyber_pre_key. apply preserved_lift_bind; [exact _|].
  intros b Hb. apply write_record_effect. by eapply entry_kyber.
Qed.
Lemma mark_used_effect i e k :
  preserved (effect (P := P)) (KyberPreKey_mark_kyber_pre_key_used kyber_pre_key_store i e k).
Proof.
  pose proof (entry_used i e k). unfold KyberPreKey_mark_kyber_pre_key_used. eff.
Qed.
End stores.
(** ** Reading a well-typed store

    Nothing the client reads back of its own dictionaries fails to decode: the only
    errors are the absence of a key, and the device ids it finds are valid. *)
Section reads.
Context `{LibsignalLaws} `{!KeyOps} `{Base64Laws} {P : Type} `{PddbLaws P}.

Record reads_ok (p : P) : Prop := {
  ro_sessions : sessions_wf session_store p;
  ro_devices u d : has_session session_store p (Addr u d) → (1 ≤ d ≤ 127)%Z;
  ro_session a : is_ok (Session_load_session session_store a p).1 = true;
  ro_identity a : is_ok (Identity_get_identity identity_store a p).1 = true;
  ro_trusted a k dir : is_ok (Identity_is_trusted_identity identity_store a k dir p).1 = true;
  ro_pre_key i : ∀ e, (PreKey_get_pre_key pre_key_store i p).1 = Err e → e = InvalidPreKeyId;
  ro_signed i : ∀ e, (SignedPreKey_get_signed_pre_key signed_pre_key_store i p).1 = Err e →
    e = InvalidSignedPreKeyId;
  ro_kyber i : in_u32 i → ∀ e, (KyberPreKey_get_kyber_pre_key kyber_pre_key_store i p).1 = Err e →
    e = InvalidKyberPreKeyId;
  ro_counter v : contents p !! (ACCOUNT_DICT, ACI_NEXT_PREKEY_ID_KEY) = Some v →
    ∃ n, id_ok n ∧ stored_counter (from_utf8 v) = Some n;
}.

Lemma get_identity_spec self a (p : P) :
  runs (Identity_get_identity self a) p
    (match contents p !! (identity_dict self, address_key a) with
     | Some b => Some <$> identity_decode b | None => Ok None end) (contents p).
Proof.
  eapply runs_bind; [apply read_record_spec|]. intros p1 Hp1.
  destruct (contents p !! _) as [b|]; [|by apply runs_ret].
  destruct (identity_decode b) as [i|e].
  - eapply runs_bind; [by apply runs_lift|]. intros. by apply runs_ret.
  - by apply runs_bind_err, runs_lift.
Qed.
Lemma dev_addr_ok a : dev_ok a → addr_ok a.
Proof. unfold dev_ok, addr_ok, in_u32, u32_max. lia. Qed.

Lemma well_typed_reads (p : P) : well_typed (contents p) → reads_ok p.
Proof.
  intros Ht.
  assert (∀ d k v, bool_decide (d ∈ CLIENT_DICTS) = true → contents p !! (d, k) = Some v → entry d k v) as Hin.
  { intros d k v Hd%bool_decide_eq_true_1. by apply Ht. }
  split.
  - intros k [v Hv]. apply Hin, session_entry in Hv as (a & r & Ha & -> & _); [|by vm_compute].
    exists a. split; [by apply dev_addr_ok|done].
  - intros u d [Hd [v Hv]]. apply Hin, session_entry in Hv as (a & r & Ha & Hk & _); [|by vm_compute].
    apply address_key_inj in Hk as <-; [done|done|by apply dev_addr_ok].
  - intros a. destruct (load_session_runs session_store a p) as (p' & -> & _). simpl.
    destruct (contents p !! _) as [v|] eqn:Hv; [|done].
    apply Hin, session_entry in Hv as (b & r & _ & _ & Hr); [|by vm_compute].
    by rewrite (deserialize_serialize r v Hr).
  - intros a. destruct (get_identity_spec identity_store a p) as (p' & -> & _). simpl. destruct (contents p !! _) as [v|] eqn:Hv; [|done].
    apply Hin, identity_entry in Hv as [i ->]; [|by vm_compute]. simpl. by rewrite identity_decode_serialize.
  - intros a k dir. destruct (is_trusted_spec identity_store a k dir p) as (p' & -> & _). simpl.
    unfold pinned. simpl. destruct (contents p !! _) as [v|] eqn:Hv; [|done].
    apply Hin, identity_entry in Hv as [i ->]; [|by vm_compute]. simpl. by rewrite identity_decode_serialize.
  - intros i e. destruct (get_pre_key_spec pre_key_store i p) as (p' & -> & _). simpl.
    destruct (contents p !! _) as [v|] eqn:Hv; [|by intros [= <-]].
    apply Hin, pre_key_entry in Hv as [r Hr]; [|by vm_compute]. by rewrite (deserialize_serialize r v Hr).
  - intros i e. destruct (get_signed_pre_key_spec signed_pre_key_store i p) as (p' & -> & _). simpl.
    destruct (contents p !! _) as [v|] eqn:Hv; [|by intros [= <-]].
    apply Hin, signed_entry in Hv as [r Hr]; [|by vm_compute]. by rewrite (deserialize_serialize r v Hr).
  - intros i Hi e. destruct (get_kyber_spec kyber_pre_key_store i p) as (p' & -> & _). simpl.
    destruct (contents p !! _) as [v|] eqn:Hv; [|by intros [= <-]].
    apply Hin, kyber_entry in Hv as [[r Hr]|(j & x & b & Hk)]; [|exfalso|by vm_compute].
    + by rewrite (deserialize_serialize r v Hr).
    + by apply (dedup_key_not_id j x b i Hi).
  - intros v Hv. apply Hin, counter_entry in Hv as (n & Hn & ->); [|by vm_compute].
    exists n. split; [done|]. by apply stored_counter_show.
Qed.
End reads.

#[export] Hint Resolve key_pair_effect local_id_effect save_identity_effect trusted_effect
  get_identity_effect load_session_effect store_session_effect device_ids_effect
  get_pre_key_effect save_pre_key_effect remove_pre_key_effect get_signed_effect
  save_signed_effect get_kyber_effect save_kyber_effect mark_used_effect : effect.

(** * Recipients and summaries *)
Section peers.
Context `{LibsignalLaws} `{!KeyOps} `{!Base64} `{!StrDebug} {P : Type} `{PddbLaws P}.

Lemma set_peer_effect k a :
  k ∈ POINTER_KEYS → dev_ok a → preserved (effect (P := P)) (set_peer k a).
Proof. intros. by apply overwrite_effect, entry_pointer. Qed.
Lemma set_current_effect a : dev_ok a → preserved (effect (P := P)) (set_current_recipient a).
Proof. apply set_peer_effect. by left. Qed.
Lemma set_focused_effect a : dev_ok a → preserved (effect (P := P)) (set_focused_peer a).
Proof. apply set_peer_effect. right. by left. Qed.
Lemma current_recipient_effect : preserved (effect (P := P)) current_recipient.
Proof. unfold current_recipient. eff. Qed.
Lemma focused_peer_effect {E} : preserved (effect (P := P)) (focused_peer_uuid (E := E)).
Proof. unfold focused_peer_uuid. eff. Qed.
Lemma local_address_effect : preserved (effect (P := P)) local_protocol_address.
Proof. unfold local_protocol_address. eff. Qed.

Lemma checked_new {E} (d d' : Z) (f : bytes → E) : map_err f (DeviceId_new d) = Ok d' → (1 ≤ d' ≤ 127)%Z.
Proof.
  destruct (DeviceId_new d) as [x|] eqn:Ed; [|done]. intros [= <-].
  by apply DeviceId_new_range in Ed as [-> ?].
Qed.
Lemma demo_peer_dev u s a : parse_demo_peer u s = Ok a → dev_ok a.
Proof.
  unfold parse_demo_peer. case_match; [done|]. intros (d & Ed & Ea)%result_bind_Ok.
  case_match; [done|]. apply result_bind_Ok in Ea as (d' & Ed' & [= <-]). by eapply checked_new.
Qed.
Lemma peer_json_ok s a : parse_peer_json s = Ok a → dev_ok a.
Proof.
  unfold parse_peer_json. intros (u & _ & (v & _ & (d & _ & Ea)%result_bind_Ok)%result_bind_Ok)%result_bind_Ok.
  case_match; [done|]. apply result_bind_Ok in Ea as (d' & Ed' & [= <-]). by eapply checked_new.
Qed.

Lemma write_summary_effect s : preserved (effect (P := P)) (write_summary s).
Proof. apply overwrite_effect, entry_peer. Qed.
Hint Resolve write_summary_effect : effect.
Lemma read_summary_effect {E} u : preserved (effect (P := P)) (Peers.read (E := E) u).
Proof. unfold Peers.read. eff. Qed.
Hint Resolve read_summary_effect : effect.
Lemma record_inbound_effect u ts t f : preserved (effect (P := P)) (record_inbound u ts t f).
Proof. unfold record_inbound. eff. Qed.
Lemma record_outbound_effect u ts t : preserved (effect (P := P)) (record_outbound u ts t).
Proof. unfold record_outbound. eff. Qed.
Lemma clear_unread_effect u : preserved (effect (P := P)) (clear_unread u).
Proof. unfold clear_unread. eff. Qed.
Lemma list_sorted_effect {E} : preserved (effect (P := P)) (list_sorted (E := E)).
Proof. unfold list_sorted. eff. Qed.
End peers.
#[export] Hint Resolve set_current_effect set_focused_effect current_recipient_effect
  focused_peer_effect local_address_effect demo_peer_dev peer_json_ok write_summary_effect
  record_inbound_effect record_outbound_effect clear_unread_effect list_sorted_effect : effect.

(** * In the world *)
Section world.
Context `{KeyOps} `{!Base64} {P O : Type} `{PddbLaws P}.
Implicit Types w : World P O.

Definition weffect w w' : Prop := effect (w_pddb w) (w_pddb w').
#[export] Instance weffect_preorder : PreOrder weffect.
Proof.
  split; [intros w; apply effect_preorder|]. intros w1 w2 w3. unfold weffect. by etrans.
Qed.

Lemma on_pddb_effect {E A} (c : ST P E A) : preserved effect c → preserved weffect (on_pddb c).
Proof.
  intros Hc w. unfold weffect, on_pddb. specialize (Hc (w_pddb w)). by destruct (c (w_pddb w)).
Qed.
Lemma on_out_effect {E A} (f : O → A * O) : preserved weffect (on_out (E := E) f).
Proof. intros w. unfold weffect, on_out. destruct (f (w_out w)). apply effect_preorder. Qed.
Lemma emit_effect {E} e : preserved weffect (emit (E := E) e).
Proof. intros w. apply effect_preorder. Qed.

Context `{Host O}.
Lemma sleep_effect {E} ms : preserved weffect (sleep_ms (E := E) ms).
Proof.
  unfold sleep_ms. apply preserved_bind; [exact _|apply on_out_effect|]. intros. apply emit_effect.
Qed.
Lemma exchange_effect {E} q : preserved weffect (exchange (E := E) q).
Proof.
  unfold exchange. apply preserved_bind; [exact _|apply on_out_effect|]. intros a.
  apply preserved_bind; [exact _|apply emit_effect|]. intros. apply preserved_ret, _.
Qed.
Lemma env_effect {E} k : preserved weffect (env (E := E) k).
Proof. intros w. apply effect_preorder. Qed.
(** A computation that leaves the contents alone. *)
Lemma same_store_effect {E A} (c : ST (World P O) E A) : preserved same_store c → preserved weffect c.
Proof. intros Hc w. apply effect_same. apply Hc. Qed.
End world.
#[export] Hint Resolve weffect_preorder on_pddb_effect on_out_effect emit_effect sleep_effect
  exchange_effect env_effect : effect.

Section prekeys.
Context `{LibsignalLaws} `{!KeyOps} `{!KeyLaws} `{Base64Laws} {P O : Type}.
Context `{PddbLaws P, Host O, OsRng O} `{!OsRngLaws O}.

Lemma counter_effect n : id_ok n → preserved (effect (P := P)) (write_prekey_counter n).
Proof. intros. by apply overwrite_effect, entry_counter. Qed.
Hint Resolve counter_effect : effect.

Lemma stored_counter_ok s v : stored_counter s = Some v → id_ok v.
Proof.
  unfold stored_counter. intros (x & _ & Hx)%bind_Some. unfold id_ok.
  destruct (Z.leb_spec 1 x), (Z.leb_spec x MEDIUM_MAX); naive_solver.
Qed.
Lemma seed_ok r : id_ok (r mod 1000 + 1).
Proof. unfold id_ok, MEDIUM_MAX. pose proof (Z.mod_pos_bound r 1000). lia. Qed.
Hint Resolve seed_ok advance_ok : effect.

Lemma read_counter_effect : preserved (weffect (P := P)) (read_or_init_prekey_counter (O := O)).
Proof. unfold read_or_init_prekey_counter, next_u32. eff. Qed.
Lemma read_counter_yields : yields (read_or_init_prekey_counter (P := P) (O := O)) id_ok.
Proof.
  unfold read_or_init_prekey_counter. apply yields_bind. intros s.
  destruct (stored_counter s) as [v|] eqn:Es; [by eapply yields_ret, stored_counter_ok|].
  apply yields_bind. intros r. apply yields_bind. intros _. apply yields_ret, seed_ok.
Qed.
Lemma one_time_effect i : id_ok i → preserved (weffect (P := P)) (one_time_prekey (O := O) i).
Proof. intros Hi. unfold one_time_prekey, draw_entropy. eff. Qed.
Hint Resolve one_time_effect : effect.
Lemma one_time_loop_effect n i : id_ok i → preserved (weffect (P := P)) (one_time_loop (O := O) n i).
Proof. revert i. induction n as [|n IH]; intros i Hi; simpl; eff. Qed.
Lemma one_time_loop_yields n i : id_ok i → yields (one_time_loop (P := P) (O := O) n i) (λ r, id_ok r.2).
Proof.
  revert i. induction n as [|n IH]; intros i Hi; simpl; [by apply yields_ret|].
  apply yields_bind. intros j w r w' Hr. apply bind_Ok in Hr as (rest & w1 & Hrest & [= <- _]).
  simpl. by apply IH in Hrest; [|apply advance_ok].
Qed.
Lemma generate_one_time_effect n : preserved (weffect (P := P)) (generate_one_time_prekeys (O := O) n).
Proof.
  unfold generate_one_time_prekeys. case_match; [eff|].
  eapply preserved_yields; [exact _|apply read_counter_effect|apply read_counter_yields|]. intros i Hi.
  eapply preserved_yields; [exact _|by apply one_time_loop_effect|by apply one_time_loop_yields|].
  intros r Hr. eff.
Qed.
Lemma save_signed_record_effect r : preserved (weffect (P := P)) (save_signed (O := O) r).
Proof.
  unfold save_signed. apply preserved_lift_bind; [exact _|]. intros i Hi%map_err_Ok. eff.
Qed.
Lemma save_kyber_record_effect r : preserved (weffect (P := P)) (save_kyber (O := O) r).
Proof.
  unfold save_kyber. apply preserved_lift_bind; [exact _|]. intros i Hi%map_err_Ok. eff.
Qed.
Hint Resolve save_signed_record_effect save_kyber_record_effect : effect.
Lemma save_prekeys_effect pk : preserved (weffect (P := P)) (save_to_pddb (O := O) pk).
Proof. unfold save_to_pddb. eff. Qed.
End prekeys.
#[export] Hint Resolve generate_one_time_effect save_prekeys_effect : effect.

(** * The account *)
Section account.
Context `{UrlHost} `{LibsignalLaws} `{!KeyOps} `{!KeyLaws}.
Context `{Base64Laws, WireFormat, Crypto, SerdeJson, UrlLib, UreqText}.
Context {P O : Type} `{PddbLaws P, Host O, OsRng O} `{!OsRngLaws O}.

(** ** Replenishment *)
Lemma replenish_effect {F} base aci d pw :
  preserved (weffect (P := P)) (replenish_aci_one_time_prekeys (O := O) (F := F) base aci d pw).
Proof.
  unfold replenish_aci_one_time_prekeys, run_replenish, get_keys_status, put_keys. eff.
Qed.

(** ** The account's dictionary *)
Lemma read_account_effect d : preserved (effect (P := P)) (Account.read d).
Proof. apply runs_same. intros p. eexists. by apply read_spec. Qed.

Lemma set_spec {E} d k v (p : P) : runs (Account.set (E := E) d k v) p (Ok tt)
  match v with
  | Some v => <[(d, k) := v]> (contents p)
  | None => delete (d, k) (contents p)
  end.
Proof.
  destruct (delete_key_law d k p) as (r & p1 & E1 & Hc1 & _).
  eapply runs_bind; [exists p1; unfold ignore; by rewrite E1|]. clear p1 E1 Hc1. intros p1 Hc1.
  destruct v as [v|]; [|by apply runs_ret].
  destruct (get_create_spec d k p1) as (p2 & E2 & Hc2). rewrite Hc1, lookup_delete_eq in Hc2.
  eapply runs_bind; [apply runs_try; by exists p2|]. clear p2 E2 Hc2. simpl. intros p2 Hc2.
  destruct (write_law d k v p2 []) as (p3 & E3 & Hc3); [by rewrite Hc2, lookup_insert_eq|].
  eapply runs_bind; [apply runs_try; by exists p3|]. clear p3 E3 Hc3. simpl. intros p3 Hc3.
  destruct (sync_law p3) as (p4 & E4 & Hc4). exists p4. unfold ignore. rewrite E4. split; [done|].
  rewrite Hc4, Hc3, Hc2, overlay_nil, insert_insert_eq. apply insert_delete_eq.
Qed.
Lemma set_effect {E} k v :
  k ∈ ACCOUNT_KEYS → preserved (effect (P := P)) (Account.set (E := E) ACCOUNT_DICT k v).
Proof.
  intros Hk. apply runs_effect. intros p. eexists _, _. split; [apply set_spec|].
  destruct v; [by constructor; constructor|constructor; apply account_deletable].
Qed.
Lemma set_new_effect k v :
  k ∈ ACCOUNT_KEYS → preserved (effect (P := P)) (Account.set_new ACCOUNT_DICT k v).
Proof.
  intros Hk p. destruct (set_new_spec ACCOUNT_DICT k v p _ eq_refl) as (p' & -> & Hp).
  unfold merged in Hp. destruct v as [v|]; [|by apply effect_same].
  apply effect_once. simpl. rewrite Hp. by constructor; constructor.
Qed.

Lemma preserved_for_each_in {W E A} (R : W → W → Prop) `{!PreOrder R} (body : A → ST W E ()) xs :
  (∀ x, x ∈ xs → preserved R (body x)) → preserved R (for_each body xs).
Proof.
  induction xs as [|x xs IH]; intros Hb; simpl; [by apply preserved_ret|].
  apply preserved_bind; [done|apply Hb; by left|]. intros _. apply IH. intros y Hy. apply Hb. by right.
Qed.

Definition account_keys_ok (ks : list bytes) : bool := forallb (λ k, bool_decide (k ∈ ACCOUNT_KEYS)) ks.
Lemma account_keys_in ks k : account_keys_ok ks = true → k ∈ ks → k ∈ ACCOUNT_KEYS.
Proof.
  unfold account_keys_ok. intros Hk Hin. eapply forallb_forall in Hk; [|by apply list_elem_of_In].
  by apply bool_decide_eq_true in Hk.
Qed.

Lemma new_effect host e : preserved (effect (P := P)) (Account.new ACCOUNT_DICT host e).
Proof.
  unfold Account.new. apply preserved_bind; [exact _| |intros _].
  { eff. }
  apply preserved_bind; [exact _| |intros _].
  { apply preserved_with_err, preserved_for_each_in; [exact _|]. intros [k v] Hkv.
    apply set_new_effect. apply (account_keys_in (default_values host e).*1); [by vm_compute|].
    apply list_elem_of_fmap. by exists (k, v). }
  apply preserved_bind; [exact _|eff|]. intros _. apply read_account_effect.
Qed.
Lemma delete_account_effect : preserved (effect (P := P)) (delete_account ACCOUNT_DICT).
Proof. apply delete_dict_effect. Qed.

(** What [read] and [new] return is of the dictionary they were given. *)
Lemma read_yields d : yields (Account.read (P := P) d) (λ a, pddb_dict a = d).
Proof.
  intros p a p' Hr. destruct (read_spec d p _ eq_refl) as (p1 & E1 & _).
  rewrite E1 in Hr. injection Hr as Ha _. unfold account_of in Ha.
  repeat case_match; try done. by apply result_bind_Ok in Ha as (h & _ & [= <-]).
Qed.
Lemma new_yields d host e : yields (Account.new (P := P) d host e) (λ a, pddb_dict a = d).
Proof. do 3 (apply yields_bind; intros _). apply read_yields. Qed.

(** ** Methods of an account of the client's dictionary *)
Implicit Types s : Account * World P O.
Definition aeffect s s' : Prop :=
  pddb_dict s'.1 = pddb_dict s.1 ∧ (pddb_dict s.1 = ACCOUNT_DICT → weffect s.2 s'.2).
#[export] Instance aeffect_preorder : PreOrder aeffect.
Proof.
  split; [intros s; by split; [|reflexivity]|].
  intros s1 s2 s3 [E1 Hs1] [E2 Hs2]. split; [congruence|]. intros Hd.
  etrans; [by apply Hs1|]. apply Hs2. congruence.
Qed.
Lemma in_world_effect {E A} (c : ST (World P O) E A) :
  preserved weffect c → preserved aeffect (in_world c).
Proof. intros Hc s. unfold in_world. specialize (Hc s.2). destruct (c s.2). by split. Qed.
Lemma mirror_effect k v : preserved aeffect (mirror k v).
Proof.
  intros s. unfold mirror. destruct (assign k v s.1) as [[self|e]|] eqn:Ea.
  - apply assign_dict in Ea. by split.
  - reflexivity.
  - split; [unfold mbind, ST_bind, in_world; by destruct (on_pddb _ _) as [[]]|]. intros Hd. rewrite Hd.
    pose proof (on_pddb_effect (O := O) _ (ignore_effect (E := failure) _
      (delete_key_effect (P := P) ACCOUNT_DICT k account_deletable)) s.2) as He.
    unfold mbind, ST_bind, in_world. by destruct (on_pddb _ s.2) as [[]].
Qed.

Lemma gets_dict_bind {E A} (f : bytes → ST (Account * World P O) E A) :
  (∀ d, preserved (λ s s', pddb_dict s.1 = d → aeffect s s') (f d)) →
  preserved aeffect (gets (λ s, pddb_dict s.1) ≫= f).
Proof. intros Hf s. by apply (Hf (pddb_dict s.1) s). Qed.
Lemma write_mirror_effect (c : bytes → ST P io_error ()) k v :
  preserved (effect (P := P)) (c ACCOUNT_DICT) →
  preserved aeffect (dict ← gets (λ s : Account * World P O, pddb_dict s.1);
    with_err Io (in_world (on_pddb (c dict)));; mirror k v).
Proof.
  intros Hc. apply gets_dict_bind. intros d s Hd.
  destruct (decide (d = ACCOUNT_DICT)) as [->|Hne].
  - assert (preserved aeffect (with_err Io (in_world (on_pddb (O := O) (c ACCOUNT_DICT)));; mirror k v))
      as Hp; [|apply Hp].
    apply preserved_bind; [exact _| |intros; apply mirror_effect].
    by apply preserved_with_err, in_world_effect, on_pddb_effect.
  - unfold mbind, ST_bind, with_err, in_world. destruct (on_pddb (c d) s.2) as [[[]|e] w]; simpl.
    + destruct (mirror_effect k v (s.1, w)) as [Hm _]. split; [done|congruence].
    + split; [done|congruence].
Qed.
Lemma account_set_new_effect k v :
  k ∈ ACCOUNT_KEYS → preserved (aeffect) (Account_set_new (P := P) (O := O) k v).
Proof. intros Hk. by apply (write_mirror_effect (λ d, set_new d k v)), set_new_effect. Qed.
Lemma account_set_effect k v :
  k ∈ ACCOUNT_KEYS → preserved aeffect (Account_set (P := P) (O := O) k v).
Proof.
  intros Hk s. pose proof (write_mirror_effect (λ d, Account.set d k v) k v (set_effect k v Hk) s) as Hw.
  unfold Account_set, mbind, ST_bind, gets, with_err, in_world, on_pddb in *.
  simpl in *. unfold Account.set, mbind, ST_bind, ignore, try in *.
  destruct v as [v|]; simpl in *; [|done].
  destruct (pddb_get _ _ true _) as [[[]|e] p1]; simpl in *; [|done].
  by destruct (pddb_write _ _ v p1) as [[n|e] p2].
Qed.
Lemma set_number_effect n : preserved aeffect (Account.set_number (P := P) (O := O) n).
Proof.
  unfold Account.set_number. apply preserved_bind; [exact _| |].
  - apply preserved_try, account_set_effect. by apply (account_keys_in [NUMBER_KEY]); [|left].
  - intros [u|[e|]]; [|by apply preserved_ret, _|by apply preserved_throw, _].
    intros [[] w]. by split.
Qed.

Lemma credentials_keys msg d k v : (k, v) ∈ credentials msg d → k ∈ ACCOUNT_KEYS.
Proof.
  intros Hin. apply (account_keys_in (credentials msg d).*1).
  - unfold credentials. by destruct (account_entropy_pool msg); vm_compute.
  - apply list_elem_of_fmap. by exists (k, v).
Qed.
Lemma link_effect name msg : preserved (aeffect) (Account.link (P := P) (O := O) name msg).
Proof.
  unfold Account.link. apply preserved_bind; [exact _|apply preserved_gets, _|]. intros self.
  case_match; [by apply preserved_ret, _|].
  apply preserved_bind; [exact _| |intros d].
  { apply preserved_with_err, in_world_effect, same_store_effect, request_phase_same. }
  apply preserved_bind; [exact _| |intros; by apply preserved_ret, _]. unfold link_persist_phase.
  apply preserved_bind; [exact _| |intros _].
  { apply preserved_for_each_in; [exact _|]. intros [k v] Hkv.
    by apply account_set_new_effect, (credentials_keys msg d k v). }
  apply preserved_bind; [exact _| |intros _].
  { apply preserved_with_err, in_world_effect, on_pddb_effect, preserved_with_err, sync_effect. }
  apply preserved_bind; [exact _| |intros _].
  { apply preserved_with_err, in_world_effect, save_prekeys_effect. }
  apply preserved_bind; [exact _| |intros; by apply preserved_ret, _].
  apply preserved_try, in_world_effect, same_store_effect, attributes_same.
Qed.
End account.
