(* ===== verification/SignalWs.v ===== *)
(** Opening a WebSocket (manager/signal_ws.rs), and the client configuration
    (manager/config.rs, manager/trust_mode.rs, manager/group_permission.rs,
    manager/link_state.rs).

    TCP, TLS and the upgrade handshake are dependencies ([WsDial]); the order of
    the calls, the upgrade request with its headers and the errors are the
    code's. *)

From S2P Require Import Prelude Hoare RustStd Base64 Json Pddb Signal Stores World.
From S2P Require Import Account.

(** * Configuration *)

(** What else the client uses of [url::Url]. *)
Class UrlMore `{UrlLib} := {
  set_scheme : bytes → Url → option Url;
  path_extend : list bytes → Url → option Url;
  host_str : Url → option bytes;
  parse_with_params : bytes → list (bytes * bytes) → result bytes Url;
}.

Inductive TrustMode := OnFirstUse | Always | Never.
Definition TrustMode_to_string (t : TrustMode) : bytes :=
  match t with OnFirstUse => "OnFirstUse"%bs | Always => "Always"%bs | Never => "Never"%bs end.
Definition TrustMode_from_str (input : bytes) : option TrustMode :=
  if bool_decide (input = "OnFirstUse"%bs) then Some OnFirstUse
  else if bool_decide (input = "Always"%bs) then Some Always
  else if bool_decide (input = "Never"%bs) then Some Never
  else None.

Inductive GroupPermission := EveryMember | OnlyAdmins.
Definition GroupPermission_to_string (g : GroupPermission) : bytes :=
  match g with EveryMember => "EveryMember"%bs | OnlyAdmins => "OnlyAdmins"%bs end.
Definition GroupPermission_from_str (input : bytes) : option GroupPermission :=
  if bool_decide (input = "EveryMember"%bs) then Some EveryMember
  else if bool_decide (input = "OnlyAdmins"%bs) then Some OnlyAdmins
  else None.

(** [manager::LinkState], the state of a group link *)
Inductive GroupLinkState := Enabled | EnabledWithApproval | Disabled.
Definition GroupLinkState_to_string (l : GroupLinkState) : bytes :=
  match l with
  | Enabled => "Enabled"%bs
  | EnabledWithApproval => "EnabledWithApproval"%bs
  | Disabled => "Disabled"%bs
  end.
Definition GroupLinkState_from_str (input : bytes) : option GroupLinkState :=
  if bool_decide (input = "Enabled"%bs) then Some Enabled
  else if bool_decide (input = "EnabledWithApproval"%bs) then Some EnabledWithApproval
  else if bool_decide (input = "Disabled"%bs) then Some Disabled
  else None.

Section config.
Context `{UrlHost, UrlLib}.

Record Config := { cfg_host : UHost; cfg_env : ServiceEnvironment; cfg_url : Url }.
(** [Config::new]; the [unwrap] of the parse is a panic *)
Definition Config_new (host : UHost) (env : ServiceEnvironment) : result failure Config :=
  let host_base := host_to_string host in
  let text := match env with
              | Live => "https://chat."%bs ++ host_base
              | Staging => "https://chat.staging."%bs ++ host_base
              end in
  url ← map_err (λ _, Panic) (url_parse text);
  Ok {| cfg_host := host; cfg_env := env; cfg_url := url |}.
End config.

(** * The upgrade request *)
Section signal_ws.
Context `{UrlMore}.

Record ws_request := { wr_uri : bytes; wr_headers : list (bytes * bytes) }.

(** [TcpStream::connect], [Tls::stream_owned], [generate_key],
    [Request::builder .. body] and [tungstenite::client] *)
Class WsDial (O : Type) := {
  tcp_connect : bytes → Z → O → result io_error () * O;
  tls_stream : bytes → O → result io_error () * O;
  generate_key : O → bytes * O;
  build_request : ws_request → result bytes ws_request;
  ws_client : ws_request → O → result bytes () * O;
}.

Context {O : Type} `{WsDial O, WsHost O}.
Abbreviation M := (ST O failure).

Definition PROVISIONING_PATH : list bytes :=
  ["v1"%bs : bytes; "websocket"%bs : bytes; "provisioning"%bs : bytes; []].
Definition REGISTRATION_PATH : list bytes :=
  ["v1"%bs : bytes; "registration"%bs : bytes; []].

Definition upgrade_headers (host key : bytes) (auth : option bytes) : list (bytes * bytes) :=
  [("Host"%bs : bytes, host); ("Connection"%bs : bytes, "Upgrade"%bs : bytes);
   ("Upgrade"%bs : bytes, "websocket"%bs : bytes);
   ("Sec-WebSocket-Version"%bs : bytes, "13"%bs : bytes);
   ("Sec-WebSocket-Key"%bs : bytes, key);
   ("X-Signal-Receive-Stories"%bs : bytes, "false"%bs : bytes)] ++
  match auth with
  | Some credentials => [("Authorization"%bs : bytes, "Basic "%bs ++ credentials)]
  | None => []
  end.

Definition build_ws_upgrade_request (url : Url) (auth : option bytes) :
    ST O io_error ws_request :=
  host ← lift (ok_or (IoError InvalidInput "url missing host"%bs) (host_str url));
  key ← (λ o, let '(k, o) := generate_key o in (Ok k, o));
  lift (map_err (λ e, IoError InvalidInput ("build ws upgrade req: "%bs ++ e))
    (build_request {| wr_uri := as_str url; wr_headers := upgrade_headers host key auth |})).

Definition dial (url : Url) (auth : option bytes) : M () :=
  host ← lift (ok_or Panic (host_str url));
  with_err Io (tcp_connect host 443);;
  with_err Io (tls_stream host);;
  request ← with_err Io (build_ws_upgrade_request url auth);
  with_err (λ _, Io (IoError ConnectionRefused [])) (ws_client request).

(** The URL [new_provision] and [new_register] make of the host's. *)
Definition ws_path (path : list bytes) (url : Url) : result failure Url :=
  url ← ok_or Panic (set_scheme "wss"%bs url);
  ok_or Panic (path_extend path url).
Definition new_provision (url : Url) : M () :=
  url ← lift (ws_path PROVISIONING_PATH url);
  dial url None.
Definition new_register (url : Url) : M () :=
  url ← lift (ws_path REGISTRATION_PATH url);
  dial url None.

(** One read with a timeout of its own. *)
Definition read_once (timeout : Z) : ST O io_error ws_message :=
  ws_set_read_timeout (Some timeout);;
  r ← (λ o, let '(r, o) := ws_read o in (Ok r, o));
  try (ws_set_read_timeout None);;
  lift match r with
       | Ok msg => Ok msg
       | Err (WsIo e) =>
           if bool_decide (kind e = WouldBlock ∨ kind e = TimedOut)
           then Err (IoError TimedOut "ws read_once timeout"%bs)
           else Err (IoError Other "ws read error"%bs)
       | Err (WsOther _) => Err (IoError Other "ws read error"%bs)
       end.

(** [WebSocket::close], whose result is ignored, and [WebSocket::flush] *)
Class WsClosing (O : Type) := {
  ws_close_frame : O → O;
  ws_flush : O → result bytes () * O;
}.
Context `{!WsClosing O}.
(** Both error arms of the loop leave it. *)
Definition flush_turn (_ : ()) : ST O () (() + ()) := λ o,
  match ws_flush o with
  | (Ok _, o) => (Ok (inl tt), o)
  | (Err _, o) => (Ok (inr tt), o)
  end.
Definition SignalWS_close (fuel : nat) (o : O) : option (result () () * O) :=
  iter fuel flush_turn tt (ws_close_frame o).

(** The state after [n] flushes. *)
Fixpoint flushed (n : nat) (o : O) : O :=
  match n with 0 => o | S n => flushed n (ws_flush o).2 end.

Lemma flush_loop_ends fuel o r :
  iter fuel flush_turn tt o = Some r → ∃ n e, n < fuel ∧ (ws_flush (flushed n o)).1 = Err e.
Proof.
  revert o. induction fuel as [|fuel IH]; intros o; [done|]. simpl. unfold flush_turn at 1.
  destruct (ws_flush o) as [[[]|e] o'] eqn:E; intros Hr.
  - destruct (IH o' Hr) as (n & e & Hn & He). exists (S n), e. simpl. rewrite E. split; [lia|done].
  - exists 0, e. simpl. rewrite E. split; [lia|done].
Qed.
Lemma flush_loop_returns n o e :
  (ws_flush (flushed n o)).1 = Err e → ∃ o', iter (S n) flush_turn tt o = Some (Ok tt, o').
Proof.
  revert o. induction n as [|n IH]; intros o He; simpl in *; unfold flush_turn at 1;
    destruct (ws_flush o) as [[[]|e'] o'] eqn:E; simpl in *; try done; eauto.
Qed.

(** Closing a socket returns exactly when a flush fails.  [close] flushes until
    the socket reports an error, the regular end of the handshake included, and
    reads nothing in between: on a connection whose flushes succeed forever it
    never returns. *)
Theorem close_returns_iff_flush_fails (o : O) :
  (∃ fuel o', SignalWS_close fuel o = Some (Ok tt, o')) ↔
  ∃ n e, (ws_flush (flushed n (ws_close_frame o))).1 = Err e.
Proof.
  split.
  - intros (fuel & o' & Hc). destruct (flush_loop_ends _ _ _ Hc) as (n & e & _ & He). eauto.
  - intros (n & e & He). destruct (flush_loop_returns _ _ _ He) as [o' Ho]. by exists (S n), o'.
Qed.
End signal_ws.

(** The text forms of the enums read back. *)
Lemma trust_mode_roundtrip t : TrustMode_from_str (TrustMode_to_string t) = Some t.
Proof. by destruct t. Qed.
Lemma group_permission_roundtrip g :
  GroupPermission_from_str (GroupPermission_to_string g) = Some g.
Proof. by destruct g. Qed.
Lemma group_link_state_roundtrip l :
  GroupLinkState_from_str (GroupLinkState_to_string l) = Some l.
Proof. by destruct l. Qed.
