(* ===== verification/Manager.v ===== *)
(** The account manager (manager.rs): linking this device, and starting to
    receive.

    [link] is where the threads meet.  The main thread dials, shows the QR code
    and waits; the provisioning worker (WsServer.v) serves the socket; the WiFi
    observer (Wifi.v) applies updates and may report a flap to the worker and
    cancel the attempt's token.  [Sys] holds what they share.  Whenever the main
    thread is blocked, the outside decides how far the others get: which messages
    the observer receives before each turn of the worker ([net_messages]), and how
    many turns the worker makes while the QR code is up ([modal_turns]).
    A call that waits for the worker is given a number of turns; [Stuck] is the
    state of a caller that is still blocked after them. *)

From S2P Require Import Prelude Hoare RustStd Wire Base64 Json Pddb Signal Stores World Outgoing Send.
From S2P Require Import WsServer Wifi Keys Rest Prekeys Provision Account SignalWs.

Inductive stop := Failed_io (e : io_error) | Panicked_main | Stuck.
Definition of_failure (f : failure) : stop :=
  match f with Io e => Failed_io e | Panic => Panicked_main end.

(** The process id of the main thread's messages, and of the observer's. *)
Definition MAIN : Z := 1.
Definition OBSERVER : Z := 2.

Section manager.
Context `{UrlHost, !UrlLib, !UrlMore, IpcBuffer, ComRs}.
Context `{KeyOps, !Base64, !WireFormat, !Crypto, !SerdeJson, !UreqText}.

(** The name server, the messages of the net service, and how far the worker gets
    while a modal blocks the main thread. *)
Class LinkHost (O : Type) := {
  xous_names_new : O → bool * O;
  net_messages : O → list (result bytes observer_msg * Z) * O;
  modal_turns : O → nat * O;
}.
(** The modal dialogs (xous [modals]); [false] and [None] are failed calls. *)
Class Modals (O : Type) := {
  modals_new : O → bool * O;
  show_notification : bytes → option bytes → O → bool * O;
  add_list_item : bytes → O → bool * O;
  get_radiobutton : bytes → O → option bytes * O;
  get_radio_index : O → option Z * O;
  alert_field : bytes → bytes → O → option bytes * O;
}.

Context {P O : Type} `{!Pddb P, !Host O, !OsRng O, !WsHost O, !WsDial O, !NetHost O, !WifiHost O}.
Context `{!LinkHost O, !Modals O}.

(** * The worker beside the other threads *)

(** The observer: its handle, whether its thread is in its loop, and what it
    shares. *)
Record Obs := MkObs { ob_handle : WifiObserver; ob_live : bool; ob_wifi : Wifi }.
Record Hst := MkHst { h_out : O; h_obs : Obs; h_queue : list Envelope; h_cid : Z }.

(** The observer's thread catches up; without a thread there are no messages. *)
Definition observe (o : O) (b : Obs) : O * Obs :=
  if obs_worker (ob_handle b) && ob_live b then
    let '(msgs, o) := net_messages o in
    let '(live, x) := observer_loop msgs (ob_wifi b) in
    (o, MkObs (ob_handle b) live x)
  else (o, b).
(** The scalars sent to connection [c]. *)
Definition scalars (c : Z) (sent : list (Z * Z)) : list Envelope :=
  omap (λ s, if (s.1 =? c)%Z then Some {| sender := OBSERVER; msg_id := s.2; memory := None |}
             else None) sent.
(** What the observer sent between two states. *)
Definition sent_since (b b' : Obs) : list (Z * Z) :=
  drop (length (m_sent (w_mem (ob_wifi b)))) (m_sent (w_mem (ob_wifi b'))).

#[global] Instance hst_server : XousServer Hst := {|
  try_receive_message h :=
    let '(o, b) := observe (h_out h) (h_obs h) in
    match h_queue h ++ scalars (h_cid h) (sent_since (h_obs h) b) with
    | m :: q => (Ok (Some m), MkHst o b q (h_cid h))
    | [] => (Ok None, MkHst o b [] (h_cid h))
    end;
|}.
Definition lift_host {A} (f : O → A * O) (h : Hst) : A * Hst :=
  let '(a, o) := f (h_out h) in (a, MkHst o (h_obs h) (h_queue h) (h_cid h)).
#[global] Instance hst_ws : WsHost Hst := {|
  ws_connect u a := lift_host (ws_connect u a);
  ws_set_read_timeout t := lift_host (ws_set_read_timeout t);
  ws_send m := lift_host (ws_send m);
  ws_read := lift_host ws_read;
  ws_close h := MkHst (ws_close (h_out h)) (h_obs h) (h_queue h) (h_cid h);
  ticktimer_new := lift_host ticktimer_new;
  elapsed_ms := lift_host elapsed_ms;
|}.

(** * The system *)

(** [NoTimer]: the thread ended before its loop, its server still exists. *)
Inductive thread := Running (s : worker) | Exited | NoTimer.
Record Server := MkServer {
  r_thread : thread;
  r_cid : Z;
  r_flag : nat;
  r_queue : list Envelope;
  r_log : list ws_event;
}.
Inductive link_event :=
  | Attempt
  | QrShown (uri : Url) (keys : IdentityKeyPair)
  | Stopped (l : list ws_event)
  | ObserverDropped (ops : list drop_op).
Record Sys := MkSys {
  y_account : Account;
  y_world : World P O;
  y_obs : Obs;
  y_server : option Server;
  y_log : list link_event;
}.
Abbreviation M := (ST Sys stop).

Definition y_wifi (y : Sys) : Wifi := ob_wifi (y_obs y).
Definition set_world (w : World P O) (y : Sys) : Sys :=
  MkSys (y_account y) w (y_obs y) (y_server y) (y_log y).
Definition set_out (o : O) (y : Sys) : Sys :=
  set_world (MkWorld (w_pddb (y_world y)) o (w_log (y_world y))) y.
Definition set_obs (b : Obs) (y : Sys) : Sys :=
  MkSys (y_account y) (y_world y) b (y_server y) (y_log y).
Definition set_wifi (x : Wifi) (y : Sys) : Sys :=
  set_obs (MkObs (ob_handle (y_obs y)) (ob_live (y_obs y)) x) y.
Definition set_server (r : option Server) (y : Sys) : Sys :=
  MkSys (y_account y) (y_world y) (y_obs y) r (y_log y).
Definition note (e : link_event) : M () :=
  modify (λ y, MkSys (y_account y) (y_world y) (y_obs y) (y_server y) (y_log y ++ [e])).
Definition on_world {A} (c : ST (World P O) stop A) : M A := λ y,
  let '(r, w) := c (y_world y) in (r, set_world w y).
Definition on_o {E A} (f : E → stop) (c : ST O E A) : M A := λ y,
  let '(r, o) := c (w_out (y_world y)) in (map_err f r, set_out o y).
(** a call of the outside that cannot fail *)
Definition on_out {A} (f : O → A * O) : M A := λ y,
  let '(a, o) := f (w_out (y_world y)) in (Ok a, set_out o y).
Definition on_mem_sys {A} (f : Mem → A * Mem) : M A := λ y,
  let '(a, m) := f (w_mem (y_wifi y)) in (Ok a, set_wifi (on_mem (λ _, m) (y_wifi y)) y).

(** The worker's view of the system, and back. *)
Definition hst_of (y : Sys) (r : Server) : Hst :=
  MkHst (w_out (y_world y)) (y_obs y) (r_queue r) (r_cid r).
Definition put_hst (y : Sys) (r : Server) (t : thread) (w : Srv Hst) : Sys :=
  let h := sv_out w in
  set_server (Some (MkServer t (r_cid r) (r_flag r) (h_queue h) (sv_log w)))
    (set_obs (h_obs h) (set_out (h_out h) y)).

(** One turn of the worker thread. *)
Definition server_turn : M () := λ y,
  match y_server y with
  | Some r =>
      match r_thread r with
      | Running s =>
          match turn s (MkSrv (hst_of y r) (r_log r)) with
          | (Ok (inl s'), w) => (Ok tt, put_hst y r (Running s') w)
          | (Ok (inr s'), w) => (Ok tt, put_hst y r Exited (worker_exit s' w).2)
          | (Err Aborted, w) => (Ok tt, put_hst y r NoTimer w)
          end
      | _ => (Ok tt, y)
      end
  | None => (Ok tt, y)
  end.
Fixpoint server_turns (n : nat) : M () :=
  match n with 0 => mret () | S n => server_turn;; server_turns n end.
(** Turns until [stop_when] holds of the server. *)
Fixpoint await {A} (n : nat) (stop_when : Server → option A) : M A := λ y,
  match y_server y ≫= stop_when with
  | Some a => (Ok a, y)
  | None => match n with
            | 0 => (Err Stuck, y)
            | S n => (server_turn;; await n stop_when) y
            end
  end.

(** * [SignalWsServer] *)

(** [spawn]: the server exists from here on, whatever its thread does. *)
Definition start_thread (deadline_secs cid : Z) (flag : nat) : M Server := λ y,
  let srv := MkServer NoTimer cid flag [] [] in
  match worker_start deadline_secs (MkSrv (hst_of y srv) []) with
  | (Ok (Some s), w) => (Ok srv, put_hst y srv (Running s) w)
  | (_, w) => (Ok srv, put_hst y srv NoTimer w)
  end.
Definition SignalWsServer_spawn (deadline_secs : Z) : M (result bytes Server) :=
  sid ← on_o (λ _, Panicked_main) create_server;
  cid ← on_o (λ _, Panicked_main) (connect_sid sid);
  r ← on_out (spawn_thread "sigchat-ws-server"%bs);
  match r with
  | Err e => mret (Err ("thread spawn: "%bs ++ e))
  | Ok _ =>
      flag ← on_mem_sys flag_new;
      srv ← start_thread deadline_secs cid flag;
      mret (Ok srv)
  end.

Definition cancel_handle (self : Server) : CancelHandle :=
  {| ch_cid := r_cid self; flap_signaled := r_flag self |}.

Definition enqueue (m : Envelope) : M () := modify (λ y, set_server
  ((λ r, MkServer (r_thread r) (r_cid r) (r_flag r) (r_queue r ++ [m]) (r_log r)) <$> y_server y) y).

(** The pages the main thread got back. *)
Definition main_pages (l : list ws_event) : list Page :=
  omap (λ e, match e with Returned t p => if (t =? MAIN)%Z then Some p else None
             | _ => None end) l.
(** The page of a call that began with [l] in the log, once it is back. *)
Definition page_since (l : list ws_event) (r : Server) : option Page :=
  main_pages (r_log r) !! length (main_pages l).

(** A destroyed server fails the messages it has not answered. *)
Definition no_server : result bytes Page := Err ("ServerNotFound"%bs : bytes).
Definition page_or_gone (l : list ws_event) (r : Server) : option (result bytes Page) :=
  match page_since l r, r_thread r with
  | Some p, _ => Some (Ok p)
  | None, Exited => Some no_server
  | None, _ => None
  end.
Definition exited (r : Server) : option (list ws_event) :=
  match r_thread r with Exited => Some (r_log r) | _ => None end.

Definition wait_and_take_binary (fuel : nat) : M WsResult :=
  match into_buf WsResultBuf_empty with
  | Err e => mret (RError (IoError Other ("ipc into_buf: "%bs ++ e)))
  | Ok page =>
      r ← gets y_server;
      match r with
      | Some r =>
          match r_thread r with
          | Exited => mret (take_result no_server)
          | _ =>
              enqueue {| sender := MAIN; msg_id := 0; memory := Some page |};;
              page ← await fuel (page_or_gone (r_log r));
              mret (take_result page)
          end
      | None => mret (take_result no_server)
      end
  end.

(** [cancel]: blocks until the worker has left its loop, and forgets the
    connection. *)
Definition cancel (fuel : nat) : M () :=
  r ← gets y_server;
  match r with
  | None => mret ()
  | Some r =>
      match r_thread r with
      | Exited => note (Stopped (r_log r));; modify (set_server None)
      | _ =>
          enqueue {| sender := MAIN; msg_id := 1; memory := None |};;
          l ← await fuel exited;
          note (Stopped l);; modify (set_server None)
      end
  end.

(** * [Manager] *)

Definition link_err : io_error := IoError Other "failed to link device"%bs.
Definition close_ws : M () := on_out (λ o, (tt, ws_close o)).
Definition fail_closed {A} : M A := close_ws;; throw (Failed_io link_err).
(** the observer catches up while the main thread is blocked; no worker yet *)
Definition interfere : M () := λ y,
  let '(o, b) := observe (w_out (y_world y)) (y_obs y) in (Ok tt, set_obs b (set_out o y)).

(** The parameters of the QR code's URI. *)
Definition link_uri (uuid pub_key : bytes) : result bytes Url :=
  parse_with_params "sgnl://linkdevice"%bs
    [("uuid"%bs : bytes, uuid); ("pub_key"%bs : bytes, pub_key);
     ("capabilities"%bs : bytes, "backup5"%bs : bytes)].

(** The provisioning address: dial, read one frame, decode it. *)
Definition provisioning_uuid (config : Config) : M bytes :=
  on_o of_failure (new_provision (cfg_url config));;
  interfere;;
  r ← on_o (λ e : (), Stuck) (try (read_once 5000));
  interfere;;
  match r with
  | Ok (Binary uuid) =>
      match ProvisioningUuid_decode uuid with
      | Ok id => mret id
      | Err _ => fail_closed
      end
  | _ => fail_closed
  end.

(** From the uuid to the QR code's URI. *)
Definition link_code (uuid : bytes) : M (Url * IdentityKeyPair) :=
  keys ← on_world generate_identity_key_pair;
  let b := default [] (b64_decode URL_SAFE_NO_PAD (djb_identity_key keys)) in
  if negb (bool_decide (length b = 33)) then fail_closed
  else
    match link_uri uuid (b64_encode STANDARD_NO_PAD b) with
    | Err _ => fail_closed
    | Ok uri => mret (uri, keys)
    end.

Definition attempt_result (r : WsResult) (keys : IdentityKeyPair) : M (bytes * IdentityKeyPair) :=
  match r with
  | RBinary b => mret (b, keys)
  | RCancelled => throw (Failed_io (IoError Interrupted "ws cancelled by flap watcher"%bs))
  | RClosed | RTimedOut | RError _ => throw (Failed_io link_err)
  end.

Definition provision_one_attempt (fuel : nat) (config : Config) (token : CancellationHandle) :
    M (bytes * IdentityKeyPair) :=
  note Attempt;;
  uuid ← provisioning_uuid config;
  code ← link_code uuid;
  xns ← on_out xous_names_new;
  if negb xns then fail_closed else
  modals ← on_out modals_new;
  if negb modals then fail_closed else
  server ← SignalWsServer_spawn 180;
  match server with
  | Err _ => throw (Failed_io link_err)
  | Ok server =>
      modify (λ y, set_wifi (FlapWatcher_new [ACancel token; AFlap (cancel_handle server)]
        (y_wifi y)) y);;
      note (QrShown code.1 code.2);;
      shown ← on_out (show_notification "sigchat.account.link.scan"%bs (Some (as_str code.1)));
      turns ← on_out modal_turns;
      server_turns turns;;
      if negb shown then cancel fuel;; throw (Failed_io link_err)
      else
        result ← wait_and_take_binary fuel;
        cancel fuel;;
        attempt_result result code.2
  end.

(** [Duration::from_secs(120)] in nanoseconds *)
Definition RECONNECT_WAIT : Z := 120 * 1000000000.

Definition wait_link (fuel : nat) : M (result io_error ()) := λ y,
  match wait_for_connection fuel RECONNECT_WAIT (w_out (y_world y), y_wifi y) with
  | None => (Err Stuck, y)
  | Some (r, (o, x)) => (Ok r, set_wifi x (set_out o y))
  end.

Definition new_token : M CancellationToken := on_mem_sys CancellationToken_new.
(** an [Err] of the attempt as a value; panics and blocked callers stay errors *)
Definition try_io {A} (c : M A) : M (result io_error A) := λ y,
  match c y with
  | (Ok a, y) => (Ok (Ok a), y)
  | (Err (Failed_io e), y) => (Ok (Err e), y)
  | (Err s, y) => (Err s, y)
  end.

(** The attempt and its one retry after a flap. *)
Definition provision (fuel : nat) (config : Config) : M (bytes * IdentityKeyPair) :=
  token ← new_token;
  attempt ← try_io (provision_one_attempt fuel config (CancellationToken_handle token));
  match attempt with
  | Ok v => mret v
  | Err e =>
      cancelled ← gets (λ y, CancellationToken_is_cancelled token (w_mem (y_wifi y)));
      if (cancelled : bool) then
        waited ← wait_link fuel;
        match waited with
        | Err _ => throw (Failed_io link_err)
        | Ok _ =>
            token2 ← new_token;
            retry ← try_io (provision_one_attempt fuel config (CancellationToken_handle token2));
            match retry with
            | Ok v => mret v
            | Err _ => throw (Failed_io link_err)
            end
        end
      else throw (Failed_io e)
  end.

(** [WifiObserver::new], or the observer without broadcasts *)
Definition make_observer : M () := λ y,
  let '(now, o) := wifi_now (w_out (y_world y)) in
  match WifiObserver_new now (MkMem [] [] []) o with
  | (Ok (h, x), o) => (Ok tt, set_obs (MkObs h true x) (set_out o y))
  | (Err _, o) =>
      let '(h, x) := WifiObserver_for_test now (MkMem [] [] []) in
      (Ok tt, set_obs (MkObs h false x) (set_out o y))
  end.
(** The observer is dropped when [link] returns. *)
Definition scoped {A} (c : M A) : M A := λ y,
  match c y with
  | (Err Panicked_main, y) => (Err Panicked_main, y)
  | (Err Stuck, y) => (Err Stuck, y)
  | (r, y) =>
      (r, (note (ObserverDropped (WifiObserver_drop (ob_handle (y_obs y)))) y).2)
  end.

Definition account_link (name : bytes) (msg : ProvisionMessage) : M (result io_error bool) := λ y,
  match Account.link name msg (y_account y, y_world y) with
  | (r, (a, w)) =>
      let y := MkSys a w (y_obs y) (y_server y) (y_log y) in
      match r with
      | Ok b => (Ok (Ok b), y)
      | Err (Io e) => (Ok (Err e), y)
      | Err Panic => (Err Panicked_main, y)
      end
  end.

Definition link_with (v : bytes * IdentityKeyPair) (name : bytes) : M bool :=
  match ProvisionMessage_decode_frame v.2 v.1 with
  | Err _ => throw (Failed_io link_err)
  | Ok msg =>
      r ← account_link name msg;
      mret match r with Ok b => b | Err _ => false end
  end.
Definition link (fuel : nat) (config : Config) (name : bytes) : M bool :=
  make_observer;;
  scoped (v ← provision fuel config; link_with v name).

(** ** The struct *)

Record Manager := MkManager {
  mgr_account : Account;
  mgr_config : Config;
  mgr_trust_mode : TrustMode;
  mgr_websocket : option ();
  log_verbose : bool;
  log_scrub : bool;
  log_send : bool;
}.
Definition Manager_new (account : Account) (trust_mode : TrustMode) : result failure Manager :=
  config ← Config_new (acc_host account) (acc_service_environment account);
  Ok (MkManager account config trust_mode None false false false).
Definition trust_mode_set (t : TrustMode) (self : Manager) : Manager :=
  MkManager (mgr_account self) (mgr_config self) t (mgr_websocket self)
    (log_verbose self) (log_scrub self) (log_send self).

(** Before [link] there is no observer and no worker. *)
Definition sys_of (self : Manager) (w : World P O) : Sys :=
  let '(h, x) := WifiObserver_for_test 0 (MkMem [] [] []) in
  MkSys (mgr_account self) w (MkObs h false x) None [].
Definition Manager_link (fuel : nat) (self : Manager) (name : bytes) (w : World P O) :
    result stop bool * Sys :=
  link fuel (mgr_config self) name (sys_of self w).

(** ** Receiving *)

(** The threads [start_receive] starts, with what their closures captured. *)
Inductive started :=
  | ReplenishThread (url : Url) (aci : bytes) (device_id : Z) (password : bytes)
  | ReceiveThread (aci : bytes) (device_id : Z) (password host : bytes) (chat_cid : Z).

(** The second component of the state is the threads started so far. *)
Abbreviation R := (ST (O * list started) io_error).
Definition spawn (name : bytes) (t : started) : R (result bytes ()) := λ s,
  match spawn_thread name s.1 with
  | (Ok _, o) => (Ok (Ok tt), (o, s.2 ++ [t]))
  | (Err e, o) => (Ok (Err e), (o, s.2))
  end.
Definition MainWsWorker_spawn (aci : bytes) (device_id : Z) (password host : bytes)
    (chat_cid : Z) : R () :=
  r ← spawn "sigchat-main-ws"%bs (ReceiveThread aci device_id password host chat_cid);
  lift (map_err (λ e, IoError Other ("main_ws spawn: "%bs ++ e)) r).
Definition Manager_start_receive (self : Manager) (chat_cid : Z) : R () :=
  let account := mgr_account self in
  aci ← lift (ok_or (IoError Other "account has no ACI service_id"%bs) (acc_aci_service_id account));
  password ← lift (ok_or (IoError Other "account has no password"%bs) (acc_password account));
  let device_id := acc_device_id account in
  let host := chat_host account in
  match url_parse ("https://"%bs ++ host) with
  | Ok url => ignore (spawn "xsc-prekey-replenish"%bs (ReplenishThread url aci device_id password))
  | Err _ => mret ()
  end;;
  with_err (λ e, IoError Other ("start_receive: "%bs ++ message e))
    (MainWsWorker_spawn aci device_id password host chat_cid).
End manager.
