(* ===== verification/ManagerSpec.v ===== *)
(** What linking guarantees.

    The worker beside the main thread keeps the invariants of WsServerSpec.v
    ([sinv]); an attempt leaves no worker behind; linking uses the envelope a
    worker of its own received, under the key pair it showed; and under a clock
    that advances nothing blocks for ever ([settles]). *)

From S2P Require Import Prelude Hoare RustStd Wire Base64 Json Pddb Signal Stores World Outgoing Send.
From S2P Require Import WsServer WsServerSpec Wifi WifiSpec Keys Rest Prekeys Provision Account SignalWs.
From S2P Require Import Manager.

Section spec.
Context `{UrlHost, !UrlLib, !UrlMore, IpcBufferLaws, ComRs}.
Context `{KeyOps, !Base64, !WireFormat, !Crypto, !SerdeJson, !UreqText}.
Context {P O : Type} `{!Pddb P, !Host O, !OsRng O, !WsHost O, !WsDial O, !NetHost O, !WifiHost O}.
Context `{!LinkHost O, !Modals O}.
Implicit Types (y : Sys (P := P) (O := O)) (r : Server) (s : worker) (h : Hst (O := O)).

(** * The worker in the system *)

(** Receiving: the head of the queue with the observer's reports behind it. *)
Lemma scalars_no_memory c l : Forall (λ m, memory m = None) (scalars c l).
Proof.
  unfold scalars. apply Forall_forall. intros m Hm. apply list_elem_of_omap in Hm as (x & _ & Hx).
  destruct (_ =? _)%Z; by simplify_eq/=.
Qed.
(** The observer's thread only applies updates. *)
Lemma observer_loop_steps msgs x : rtc wifi_step x (observer_loop msgs x).2.
Proof.
  revert x. induction msgs as [|[msg now] msgs IH]; intros x; simpl; [apply rtc_refl|].
  destruct (observer_turn msg now x) as [x'|] eqn:Ht; [|apply rtc_refl].
  etrans; [|apply IH]. unfold observer_turn in Ht. destruct msg as [m|]; [|done].
  destruct (_ =? _)%Z; [done|]. destruct (negb _); [by injection Ht as ->|].
  destruct (om_memory m) as [[code|]|]; injection Ht as <-; try apply rtc_refl.
  apply rtc_once, step_update.
Qed.
Lemma observe_steps o b : rtc wifi_step (ob_wifi b) (ob_wifi (observe o b).2).
Proof.
  unfold observe. destruct (_ && _); [|apply rtc_refl]. destruct (net_messages o) as [msgs o'].
  pose proof (observer_loop_steps msgs (ob_wifi b)). by destruct (observer_loop msgs (ob_wifi b)).
Qed.
Lemma receive_queue h :
  rtc wifi_step (ob_wifi (h_obs h)) (ob_wifi (h_obs (try_receive_message h).2)) ∧
  ∃ extra, Forall (λ m, memory m = None) extra ∧
    message_of (try_receive_message h).1 ++ h_queue (try_receive_message h).2 = h_queue h ++ extra ∧
    (length (message_of (try_receive_message h).1) = 1 ∨ h_queue h ++ extra = []).
Proof.
  pose proof (observe_steps (h_out h) (h_obs h)) as Hst.
  unfold try_receive_message, hst_server. destruct (observe _ _) as [o b].
  set (extra := scalars _ _). split; [by destruct (h_queue h ++ extra)|].
  exists extra. split; [apply scalars_no_memory|].
  destruct (h_queue h ++ extra) as [|m q]; simpl; auto.
Qed.

Definition same_queue h h' : Prop := h_queue h' = h_queue h ∧ h_obs h' = h_obs h.
#[local] Instance across_queue : Across same_queue.
Proof.
  split; unfold same_queue; simpl; unfold lift_host; [done|..]; intros o o' Ho.
  - by destruct (elapsed_ms (h_out o')).
  - by destruct (ws_send _ (h_out o')).
  - by destruct (ws_read (h_out o')).
Qed.

(** What the worker leaves alone. *)
Definition unchanged y y' : Prop :=
  y_account y' = y_account y ∧ w_pddb (y_world y') = w_pddb (y_world y) ∧
  w_log (y_world y') = w_log (y_world y) ∧ y_log y' = y_log y ∧
  rtc wifi_step (y_wifi y) (y_wifi y').
Lemma unchanged_refl y : unchanged y y.
Proof. by split_and!; try apply rtc_refl. Qed.
Lemma unchanged_trans y1 y2 y3 : unchanged y1 y2 → unchanged y2 y3 → unchanged y1 y3.
Proof. intros (?&?&?&?&?) (?&?&?&?&?). split_and!; [congruence..|by etrans]. Qed.
Lemma unchanged_put y r t w :
  rtc wifi_step (y_wifi y) (ob_wifi (h_obs (sv_out w))) → unchanged y (put_hst y r t w).
Proof. done. Qed.

(** How a turn that left the loop ends the log. *)
Definition ended s l : Prop :=
  ∃ l1 s2, wexit s l1 s2 ∧ l = l1 ++ WsClosed :: Destroyed :: dropped (waiter s2).

(** One turn of a worker in a good state. *)
Lemma turn_spec y r s :
  y_server y = Some r → r_thread r = Running s → ok_state s →
  ∃ y' r' l extra, server_turn y = (Ok tt, y') ∧ unchanged y y' ∧ y_server y' = Some r' ∧
    r_log r' = r_log r ++ l ∧ received l ++ r_queue r' = r_queue r ++ extra ∧
    Forall (λ m, memory m = None) extra ∧
    (length (received l) = 1 ∨ r_queue r ++ extra = []) ∧
    match r_thread r' with
    | Running s' => wsteps s l s' ∧ ∃ w', turn s (MkSrv (hst_of y r) (r_log r)) = (Ok (inl s'), w') ∧
        w_out (y_world y') = h_out (sv_out w') ∧ y_obs y' = h_obs (sv_out w')
    | Exited => ended s l
    | NoTimer => False
    end.
Proof.
  intros Hy Hr Hok. unfold server_turn. rewrite Hy, Hr. set (w := MkSrv (hst_of y r) (r_log r)).
  pose proof (turn_refines s w (λ _ _, False) Hok) as Hturn.
  pose proof (turn_effect same_queue s w) as Heff. cbv zeta in Heff.
  destruct (receive_queue (sv_out w)) as (Hobs & extra & Hex & Hq & Hn).
  unfold wp in *. destruct (turn s w) as [[[s'|s']|[]] w'] eqn:Ht; [| |done].
  - destruct Hturn as (l & Hl & Hs), Heff as (l' & Hl' & Hrecv & HJ & HJo).
    assert (l' = l) as -> by (unfold logs in *; rewrite Hl in Hl'; by simplify_list_eq).
    eexists _, _, l, extra. split_and!; [done|apply unchanged_put; by rewrite HJo|done|exact Hl| |done| |].
    + cbn [r_queue]. rewrite HJ, Hrecv. exact Hq.
    + by rewrite Hrecv.
    + cbn [r_thread]. split; [done|]. by exists w'.
  - destruct Hturn as (l & Hl & He), Heff as (l' & Hl' & Hrecv & HJ & HJo).
    assert (l' = l) as -> by (unfold logs in *; rewrite Hl in Hl'; by simplify_list_eq).
    pose proof (exit_logs s' w' (λ _ _, False)) as Hexit. unfold wp in Hexit.
    assert (same_queue (sv_out w') (sv_out (worker_exit s' w').2)) as [Hqe Hoe].
    { unfold worker_exit, drop_waiter, drop_envelope. simpl.
      unfold mbind, ST_bind, out, say, modify. simpl.
      destruct (waiter s') as [m|]; [|done]. by destruct (memory m). }
    destruct (worker_exit s' w') as [[[]|] w2]; [|done]. simpl in Hqe, Hoe.
    unfold logs in *. eexists _, _, (l ++ _), extra.
    split_and!; [done|apply unchanged_put; cbn [snd]; by rewrite Hoe, HJo|done| | |done| |].
    + cbn [r_log snd]. rewrite Hexit, Hl. by rewrite <- app_assoc.
    + cbn [r_queue snd]. rewrite Hqe, HJ, received_app, received_exit, app_nil_r, Hrecv. exact Hq.
    + by rewrite received_app, received_exit, app_nil_r, Hrecv.
    + by exists l, s'.
Qed.

(** ** The invariant *)

(** The pages of the main thread in the queue. *)
Definition qpages (q : list Envelope) : nat := sum_list_with (holds MAIN) q.
Lemma qpages_app q q' : qpages (q ++ q') = qpages q + qpages q'.
Proof. apply sum_list_with_app. Qed.
Lemma qpages_none q : Forall (λ m, memory m = None) q → qpages q = 0.
Proof.
  induction 1 as [|m q Hm _ IH]; [done|]. unfold qpages in *. simpl. rewrite IH.
  unfold holds. rewrite Hm, bool_decide_false; [done|]. by intros [[] _].
Qed.

(** [n] is the number of pages the main thread has sent. *)
Record sinv (n : nat) (r : Server) : Prop := {
  inv_queue : Forall (λ m, lends_empty (Received m)) (r_queue r);
  inv_log : Forall lends_empty (r_log r);
  inv_thread : match r_thread r with
    | Running s => ∃ s0, fresh_worker s0 ∧ wsteps s0 (r_log r) s
    | Exited => worker_run (r_log r) ∧ Destroyed ∈ r_log r
    | NoTimer => r_log r = []
    end;
  inv_pages : lent MAIN (r_log r) + qpages (r_queue r) = n;
}.
Lemma sinv_running n r s : sinv n r → r_thread r = Running s → ok_state s.
Proof.
  intros Hi Hr. pose proof (inv_thread _ _ Hi) as Ht. rewrite Hr in Ht.
  destruct Ht as (s0 & Hf & Hs). eapply wsteps_ok; [by apply fresh_ok|done].
Qed.
Lemma sinv_genuine n r : sinv n r → Forall (genuine (r_log r)) (r_log r).
Proof.
  intros [_ Hl Ht _]. destruct (r_thread r) as [s| |].
  - destruct Ht as (s0 & (Hp & Hw & _) & Hs).
    destruct (wsteps_genuine [] _ _ _ Hs Hl) as [_ Hg]; [|done].
    split; intros *; by rewrite ?Hp, ?Hw.
  - apply worker_run_genuine; [apply Ht|done].
  - by rewrite Ht.
Qed.

(** From [y] with worker [r] to [y'] with [r'], the worker alone moving. *)
Record evolves (n : nat) y r y' r' : Prop := {
  ev_same : unchanged y y';
  ev_server : y_server y' = Some r';
  ev_inv : sinv n r';
  ev_log : r_log r `prefix_of` r_log r';
  ev_live : r_thread r ≠ NoTimer → r_thread r' ≠ NoTimer;
}.
Lemma evolves_refl n y r : y_server y = Some r → sinv n r → evolves n y r y r.
Proof. split; [apply unchanged_refl|done..]. Qed.
Lemma evolves_trans n y1 r1 y2 r2 y3 r3 :
  evolves n y1 r1 y2 r2 → evolves n y2 r2 y3 r3 → evolves n y1 r1 y3 r3.
Proof.
  intros [] []. split; [by eapply unchanged_trans|done..|by etrans|auto].
Qed.

Lemma turn_evolves n y r :
  y_server y = Some r → sinv n r → ∃ y' r', server_turn y = (Ok tt, y') ∧ evolves n y r y' r'.
Proof.
  intros Hy Hi. destruct (r_thread r) as [s| |] eqn:Hr.
  2,3: exists y, r; split; [unfold server_turn; by rewrite Hy, Hr|by apply evolves_refl].
  destruct (turn_spec y r s Hy Hr (sinv_running _ _ _ Hi Hr))
    as (y' & r' & l & extra & Ht & Hu & Hy' & Hl & Hq & Hex & _ & Hth).
  exists y', r'. split; [done|]. pose proof (inv_thread _ _ Hi) as Hth0. rewrite Hr in Hth0.
  destruct Hth0 as (s0 & Hf & Hs0).
  assert (Forall (λ m, lends_empty (Received m)) (received l ++ r_queue r')) as Hle.
  { rewrite Hq. apply Forall_app. split; [apply Hi|]. eapply Forall_impl; [exact Hex|].
    intros m Hm p. congruence. }
  apply Forall_app in Hle as [Hle Hleq].
  split; [done..| |rewrite Hl; by eexists|by intros _ E; rewrite E in Hth]. split.
  - done.
  - rewrite Hl. apply Forall_app. split; [apply Hi|by apply lends_empty_received].
  - rewrite Hl. destruct (r_thread r') as [s'| |]; [|destruct Hth as (l1 & s2 & He & ->)|done].
    + exists s0. split; [done|]. eapply wsteps_trans; [done|apply Hth].
    + split; [by eapply run_exit|]. rewrite !elem_of_app, !elem_of_cons. auto.
  - rewrite <- (inv_pages _ _ Hi), Hl, lent_app, (lent_received_sum _ l).
    apply (f_equal qpages) in Hq. rewrite !qpages_app, (qpages_none extra) in Hq by done.
    unfold qpages in *. lia.
Qed.
Lemma turns_evolve n k y r :
  y_server y = Some r → sinv n r → ∃ y' r', server_turns k y = (Ok tt, y') ∧ evolves n y r y' r'.
Proof.
  revert y r. induction k as [|k IH]; intros y r Hy Hi; [exists y, r; by split; [|apply evolves_refl]|].
  destruct (turn_evolves n y r Hy Hi) as (y1 & r1 & Ht & He).
  destruct (IH y1 r1 (ev_server _ _ _ _ _ He) (ev_inv _ _ _ _ _ He)) as (y2 & r2 & Ht2 & He2).
  exists y2, r2. split; [|by eapply evolves_trans]. simpl. unfold mbind, ST_bind. by rewrite Ht.
Qed.
Lemma await_evolves {A} fuel (f : Server → option A) n y r :
  y_server y = Some r → sinv n r →
  wp (await fuel f) (λ a y', ∃ r', evolves n y r y' r' ∧ f r' = Some a) (λ e _, e = Stuck) y.
Proof.
  revert y r. induction fuel as [|fuel IH]; intros y r Hy Hi; unfold wp; simpl; rewrite Hy; simpl;
    destruct (f r) as [a|] eqn:Hf; try (exists r; by split; [apply evolves_refl|]); [done|].
  destruct (turn_evolves n y r Hy Hi) as (y1 & r1 & Ht & He). unfold mbind, ST_bind. rewrite Ht.
  specialize (IH y1 r1 (ev_server _ _ _ _ _ He) (ev_inv _ _ _ _ _ He)). unfold wp in IH.
  destruct (await fuel f y1) as [[a|e] y2]; [|done]. destruct IH as (r2 & He2 & Ha).
  exists r2. split; [by eapply evolves_trans|done].
Qed.

(** ** The calls of [SignalWsServer] *)

Definition with_queue (q : list Envelope) r : Server :=
  MkServer (r_thread r) (r_cid r) (r_flag r) q (r_log r).
Definition queued (m : Envelope) y r : Sys :=
  set_server (Some (with_queue (r_queue r ++ [m]) r)) y.
Lemma enqueue_run m y r : y_server y = Some r → enqueue m y = (Ok tt, queued m y r).
Proof. intros Hy. unfold enqueue, modify, queued. by rewrite Hy. Qed.
Lemma queued_inv n m r :
  sinv n r → lends_empty (Received m) → sinv (n + holds MAIN m) (with_queue (r_queue r ++ [m]) r).
Proof.
  intros [Hq Hl Ht Hp] Hm. split; simpl.
  - apply Forall_app. split; [done|by repeat constructor].
  - done.
  - done.
  - rewrite qpages_app. unfold qpages in *. simpl. lia.
Qed.
Definition wait_message (page : Page) : Envelope :=
  {| sender := MAIN; msg_id := 0; memory := Some page |}.
Definition cancel_message : Envelope := {| sender := MAIN; msg_id := 1; memory := None |}.
Lemma wait_message_holds page : holds MAIN (wait_message page) = 1.
Proof. unfold holds. rewrite bool_decide_true; [done|]. simpl. eauto. Qed.

Lemma main_pages_returned l page : page ∈ main_pages l → Returned MAIN page ∈ l.
Proof.
  intros (e & He & Hp)%list_elem_of_omap. destruct e as [|t p| | | | |]; try done.
  destruct (Z.eqb_spec t MAIN) as [->|]; [|done]. by injection Hp as ->.
Qed.
(** What the caller reads off the page is what the worker received. *)
Lemma page_genuine n r l p b :
  sinv n r → page_since l r = Some p → take_result (Ok p) = RBinary b →
  WsRead (Ok (Binary b)) ∈ r_log r.
Proof.
  intros Hi Hp Hb. apply list_elem_of_lookup_2, main_pages_returned in Hp.
  pose proof (sinv_genuine n r Hi) as Hg. rewrite Forall_forall in Hg. by apply (Hg _ Hp).
Qed.

Lemma wait_spec fuel y r :
  y_server y = Some r → sinv 0 r →
  wp (wait_and_take_binary fuel) (λ res y', ∃ n r', evolves n y r y' r' ∧
      ∀ b, res = RBinary b → WsRead (Ok (Binary b)) ∈ r_log r') (λ e _, e = Stuck) y.
Proof.
  intros Hy Hi. unfold wait_and_take_binary. destruct (into_buf WsResultBuf_empty) as [page|e] eqn:Hp.
  2: { apply wp_ret. exists 0, r. split; [by apply evolves_refl|done]. }
  apply wp_bind, wp_gets. rewrite Hy.
  assert (wp (enqueue (wait_message page);;
      page ← await fuel (page_or_gone (r_log r)); mret (take_result page))
    (λ res y', ∃ n r', evolves n y r y' r' ∧ ∀ b, res = RBinary b → WsRead (Ok (Binary b)) ∈ r_log r')
    (λ e _, e = Stuck) y) as Hgo.
  { apply wp_bind. unfold wp at 1. rewrite (enqueue_run _ y r Hy).
    set (r1 := with_queue (r_queue r ++ [wait_message page]) r).
    assert (sinv 1 r1) as Hi1.
    { rewrite <- (wait_message_holds page). apply (queued_inv 0); [done|].
      intros p [= <-]. by apply to_original_into_buf. }
    apply wp_bind. eapply wp_mono; [by apply (await_evolves fuel _ 1 _ r1)| |done].
    intros x y2 (r2 & [Hu Hy2 Hi2 Hl Hv] & Hx). apply wp_ret. exists 1, r2. split; [by split|].
    intros b Hb. unfold page_or_gone in Hx. destruct (page_since (r_log r) r2) as [p|] eqn:Hps.
    - injection Hx as <-. by eapply page_genuine.
    - destruct (r_thread r2); simplify_eq/=. }
  destruct (r_thread r); [exact Hgo| |exact Hgo].
  apply wp_ret. exists 0, r. split; [by apply evolves_refl|done].
Qed.

(** The log of a worker that was shut down. *)
Definition shut_down (l : list ws_event) : Prop :=
  worker_run l ∧ Destroyed ∈ l ∧ Forall lends_empty l.
Definition stopped_from y r y' : Prop :=
  y_server y' = None ∧ y_account y' = y_account y ∧ rtc wifi_step (y_wifi y) (y_wifi y') ∧
  ∃ l, y_log y' = y_log y ++ [Stopped l] ∧ r_log r `prefix_of` l ∧ shut_down l.

Lemma cancel_spec fuel n y r :
  y_server y = Some r → sinv n r →
  wp (cancel fuel) (λ _, stopped_from y r) (λ e _, e = Stuck) y.
Proof.
  intros Hy Hi. unfold cancel. apply wp_bind, wp_gets. rewrite Hy.
  assert (wp (enqueue cancel_message;; l ← await fuel exited; note (Stopped l);;
    modify (set_server None)) (λ _, stopped_from y r) (λ e _, e = Stuck) y) as Hgo.
  { apply wp_bind. unfold wp at 1. rewrite (enqueue_run _ y r Hy).
    set (r1 := with_queue (r_queue r ++ [cancel_message]) r).
    assert (sinv (n + holds MAIN cancel_message) r1) as Hi1 by by apply queued_inv.
    apply wp_bind. eapply wp_mono; [by apply (await_evolves fuel exited (n + holds MAIN cancel_message) _ r1)| |done].
    intros l y2 (r2 & [Hu Hy2 Hi2 Hl _] & Hx). unfold exited in Hx.
    pose proof (inv_thread _ _ Hi2) as Ht. destruct (r_thread r2); simplify_eq/=.
    apply wp_bind, wp_modify, wp_modify. destruct Hu as (Ha & _ & _ & Hlog & Hw). split_and!; [done..|].
    exists (r_log r2). split_and!; [by simpl; rewrite Hlog|done|split_and!; [apply Ht|apply Ht|apply Hi2]]. }
  destruct (r_thread r) eqn:Hr; [exact Hgo| |exact Hgo].
  apply wp_bind, wp_modify, wp_modify. pose proof (inv_thread _ _ Hi) as Ht. rewrite Hr in Ht.
  split_and!; [done..|apply rtc_refl|]. exists (r_log r). split_and!; [done..|split_and!; [apply Ht|apply Ht|apply Hi]].
Qed.

(** * One attempt *)

Lemma wp_on_out {A} (f : O → A * O) (Q : A → Sys → Prop) R y :
  (∀ o, Q (f (w_out (y_world y))).1 (set_out o y)) → wp (on_out f) Q R y.
Proof. intros HQ. unfold wp, on_out. specialize (HQ (f (w_out (y_world y))).2). by destruct (f _). Qed.
Lemma wp_on_o {E A} (g : E → stop) (c : ST O E A) (Q : A → Sys → Prop) R y :
  (∀ a o, Q a (set_out o y)) → (∀ e o, R (g e) (set_out o y)) → wp (on_o g c) Q R y.
Proof. intros HQ HR. unfold wp, on_o. destruct (c _) as [[a|e] o]; simpl; auto. Qed.
Lemma wp_on_world {A} (c : ST (World P O) stop A) (Q : A → Sys → Prop) R y :
  (∀ a w, Q a (set_world w y)) → (∀ e w, R e (set_world w y)) → wp (on_world c) Q R y.
Proof. intros HQ HR. unfold wp, on_world. destruct (c _) as [[a|e] w]; auto. Qed.

(** Before the worker is started. *)
Definition frame y y' : Prop :=
  y_server y' = y_server y ∧ y_account y' = y_account y ∧ y_log y' = y_log y ∧
  rtc wifi_step (y_wifi y) (y_wifi y').
Lemma frame_trans y1 y2 y3 : frame y1 y2 → frame y2 y3 → frame y1 y3.
Proof. intros (?&?&?&?) (?&?&?&?). split_and!; [congruence..|by etrans]. Qed.
Lemma frame_world w y y' : frame y y' → frame y (set_world w y').
Proof. done. Qed.
Lemma frame_out o y y' : frame y y' → frame y (set_out o y').
Proof. done. Qed.
Lemma frame_refl y : frame y y.
Proof. by split_and!; try apply rtc_refl. Qed.
Lemma frame_obs b y y' : frame y y' → rtc wifi_step (y_wifi y') (ob_wifi b) → frame y (set_obs b y').
Proof. intros (?&?&?&?) Hb. split_and!; [done..|by etrans]. Qed.
#[local] Hint Resolve frame_refl frame_out frame_world frame_obs : core.
Lemma wp_interfere (Q : () → Sys → Prop) R y :
  (∀ o b, rtc wifi_step (y_wifi y) (ob_wifi b) → Q tt (set_obs b (set_out o y))) →
  wp interfere Q R y.
Proof.
  intros HQ. unfold wp, interfere. pose proof (observe_steps (w_out (y_world y)) (y_obs y)) as Hst.
  destruct (observe _ _). by apply HQ.
Qed.
Lemma wp_fail_closed {A} (Q : A → Sys → Prop) R y :
  (∀ o, R (Failed_io link_err) (set_out o y)) → wp fail_closed Q R y.
Proof. intros HR. apply wp_bind, wp_on_out. intros o. by apply wp_throw. Qed.

Lemma uuid_spec config y : wp (provisioning_uuid config) (λ _, frame y) (λ _, frame y) y.
Proof.
  apply wp_bind, wp_on_o; [|auto]. intros _ o1. apply wp_bind, wp_interfere. intros o2 b2 H2'.
  apply wp_bind, wp_on_o; [|auto]. intros x o3. apply wp_bind, wp_interfere. intros o4 b4 H4'.
  match goal with |- wp _ _ _ ?z => assert (frame y z) as Hz end.
  { apply frame_obs; [apply frame_out, frame_out, frame_obs; auto|exact H4']. }
  destruct x as [[]|e]; try (apply wp_fail_closed; auto).
  destruct (ProvisioningUuid_decode _); [by apply wp_ret|apply wp_fail_closed; auto].
Qed.

(** The QR code holds the public half of [keys]. *)
Definition shows (uri : Url) (keys : IdentityKeyPair) : Prop :=
  ∃ uuid b, b64_decode URL_SAFE_NO_PAD (djb_identity_key keys) = Some b ∧ length b = 33 ∧
    link_uri uuid (b64_encode STANDARD_NO_PAD b) = Ok uri.
Lemma code_spec uuid y :
  wp (link_code uuid) (λ c y', frame y y' ∧ shows c.1 c.2) (λ _, frame y) y.
Proof.
  apply wp_bind, wp_on_world; [|auto]. intros keys w. simpl.
  destruct (b64_decode URL_SAFE_NO_PAD (djb_identity_key keys)) as [b|] eqn:Hb; simpl;
    [|apply wp_fail_closed; auto].
  case_bool_decide as Hlen; [|apply wp_fail_closed; auto]. simpl.
  destruct (link_uri uuid _) as [uri|e] eqn:Hu; [|apply wp_fail_closed; auto].
  apply wp_ret. split; [auto|]. by exists uuid, b.
Qed.

Lemma start_queue d (w : Srv Hst) R :
  wp (worker_start d) (λ _ w', same_queue (sv_out w) (sv_out w')) R w.
Proof.
  unfold worker_start. apply wp_bind, wp_out. simpl. unfold lift_host.
  destruct (ws_set_read_timeout _ _) as [x o1]. apply wp_bind, wp_out. simpl. unfold lift_host. simpl.
  destruct (ticktimer_new o1) as [[] o2]; simpl; [|by apply wp_ret].
  apply wp_bind, wp_out. simpl. unfold lift_host. simpl. destruct (elapsed_ms o2) as [t3 o3].
  apply wp_bind, wp_out. simpl. unfold lift_host. simpl. by destruct (elapsed_ms o3) as [t4 o4].
Qed.
(** A new server is in a good state. *)
Lemma start_thread_spec d cid flag y :
  wp (start_thread d cid flag) (λ srv y', unchanged y y' ∧ ∃ r, y_server y' = Some r ∧ sinv 0 r)
    (λ _ _, False) y.
Proof.
  unfold wp, start_thread. set (srv := MkServer NoTimer cid flag [] []).
  pose proof (start_fresh d (MkSrv (hst_of y srv) []) (λ _ _, False)) as Hf.
  pose proof (start_queue d (MkSrv (hst_of y srv) []) (λ _ _, False)) as Hq. unfold wp in *.
  destruct (worker_start _ _) as [[[s|]|[]] w]; [| |done]; destruct Hf as [Hl Hf], Hq as [Hq Ho];
    unfold logs in Hl; simpl in Hl, Hq, Ho;
    (split; [apply unchanged_put; rewrite Ho; apply rtc_refl|]); eexists; (split; [done|]);
    split; simpl; rewrite ?Hq, ?Hl; try done.
  exists s. split; [done|constructor].
Qed.
Lemma spawn_spec d y :
  wp (SignalWsServer_spawn d) (λ x y', y_account y' = y_account y ∧ y_log y' = y_log y ∧
      rtc wifi_step (y_wifi y) (y_wifi y') ∧
      match x with
      | Ok srv => ∃ r, y_server y' = Some r ∧ sinv 0 r
      | Err _ => y_server y' = y_server y
      end) (λ e _, e = Panicked_main) y.
Proof.
  apply wp_bind, wp_on_o; [|done]. intros sid o1. apply wp_bind, wp_on_o; [|done]. intros cid o2.
  apply wp_bind, wp_on_out. intros o3. destruct (spawn_thread _ _) as [[[]|e] o]; simpl;
    [|apply wp_ret; split_and!; try done; apply rtc_refl].
  apply wp_bind. set (y3 := set_out o3 _). apply wp_bind.
  eapply wp_mono; [apply start_thread_spec| |done].
  intros srv y4 [Hu (r & Hr & Hi)]. apply wp_ret. destruct Hu as (Ha & _ & _ & Hl & Hw).
  split_and!; [done..| |by exists r]. eapply rtc_l; [apply step_token|exact Hw].
Qed.

(** What an attempt leaves in the log: nothing but its mark when it fails before
    the QR code, and otherwise a worker that was shut down. *)
Inductive attempted : list link_event → Prop :=
  | att_early : attempted [Attempt]
  | att_shown uri keys l : shows uri keys → shut_down l → attempted [Attempt; QrShown uri keys; Stopped l].
Definition delivered (v : bytes * IdentityKeyPair) (evs : list link_event) : Prop :=
  ∃ uri l, evs = [Attempt; QrShown uri v.2; Stopped l] ∧ shows uri v.2 ∧ shut_down l ∧
    WsRead (Ok (Binary v.1)) ∈ l.
Definition no_worker (p : list link_event → Prop) y y' : Prop :=
  y_server y' = None ∧ y_account y' = y_account y ∧ rtc wifi_step (y_wifi y) (y_wifi y') ∧
  ∃ evs, y_log y' = y_log y ++ evs ∧ p evs.
(** The errors a call returns, as opposed to a panic or a blocked caller. *)
Definition fails (p : Sys → Prop) (e : stop) (y' : Sys (P := P) (O := O)) : Prop :=
  match e with Failed_io _ => p y' | _ => True end.

Lemma result_spec x keys (Q : _ → Sys → Prop) (R : Sys → Prop) y :
  (∀ b, x = RBinary b → Q (b, keys) y) → R y → wp (attempt_result x keys) Q (fails R) y.
Proof. intros HQ HR. destruct x; simpl; [by apply wp_ret, HQ|by apply wp_throw..]. Qed.

Lemma modal_spec fuel uri keys srv token y y1 r :
  shows uri keys → y_server y1 = Some r → sinv 0 r → y_account y1 = y_account y →
  y_log y1 = y_log y ++ [Attempt] → rtc wifi_step (y_wifi y) (y_wifi y1) →
  wp (modify (λ y, set_wifi (FlapWatcher_new [ACancel token; AFlap (cancel_handle srv)]
        (y_wifi y)) y);;
      note (QrShown uri keys);;
      shown ← on_out (show_notification "sigchat.account.link.scan"%bs (Some (as_str uri)));
      turns ← on_out modal_turns;
      server_turns turns;;
      if negb shown then cancel fuel;; throw (Failed_io link_err)
      else result ← wait_and_take_binary fuel; cancel fuel;; attempt_result result keys)
    (λ v, no_worker (delivered v) y) (fails (no_worker attempted y)) y1.
Proof.
  intros Hsh Hy1 Hi Ha Hl Hw. apply wp_bind, wp_modify, wp_bind, wp_modify.
  apply wp_bind, wp_on_out. intros o1. set (shown := (show_notification _ _ _).1). clearbody shown.
  apply wp_bind, wp_on_out. intros o2. set (k := (modal_turns _).1). clearbody k.
  match goal with |- wp _ _ _ ?z => set (y2 := z) end.
  assert (y_log y2 = y_log y ++ [Attempt; QrShown uri keys]) as Hl2.
  { simpl. by rewrite Hl, <- app_assoc. }
  assert (rtc wifi_step (y_wifi y) (y_wifi y2)) as Hw2.
  { eapply rtc_r; [exact Hw|]. apply step_watch. }
  assert (y_server y2 = Some r ∧ y_account y2 = y_account y) as [Hy2 Ha2] by done.
  clearbody y2. clear Hy1 Ha Hl Hw. apply wp_bind.
  destruct (turns_evolve 0 k y2 r Hy2 Hi) as (y3 & r3 & Ht3 & [Hu3 Hy3 Hi3 _ _]).
  unfold wp at 1. rewrite Ht3. destruct Hu3 as (Ha3 & _ & _ & Hl3 & Hw3).
  assert (∀ n r4 y4 y5, evolves n y3 r3 y4 r4 → stopped_from y4 r4 y5 →
    ∃ l, r_log r4 `prefix_of` l ∧ shut_down l ∧
      ∀ p, p [Attempt; QrShown uri keys; Stopped l] → no_worker p y y5) as Hdone.
  { intros n r4 y4 y5 [Hu _ _ _ _] (Hn & Ha5 & Hw5 & l & Hl5 & Hpre & Hsd).
    destruct Hu as (Ha4 & _ & _ & Hl4 & Hw4). exists l. split_and!; [done..|]. intros p Hp.
    split_and!; [done|congruence|by do 3 (etrans; [eassumption|])|]. eexists. split; [|exact Hp].
    by rewrite Hl5, Hl4, Hl3, Hl2, <- app_assoc. }
  assert (∀ n r4 y4, evolves n y3 r3 y4 r4 → wp (cancel fuel) (λ _, stopped_from y4 r4)
    (fails (no_worker attempted y)) y4) as Hcancel.
  { intros n r4 y4 [_ Hy4 Hi4 _ _]. eapply wp_mono; [by eapply cancel_spec|done|by intros e ? ->]. }
  destruct shown; simpl.
  - apply wp_bind. eapply wp_mono; [by apply (wait_spec fuel y3 r3)| |by intros e ? ->].
    intros x y4 (n & r4 & He & Hx). apply wp_bind. eapply wp_mono; [by eapply Hcancel| |done].
    intros [] y5 Hs5. destruct (Hdone n r4 y4 y5 He Hs5) as (l & Hpre & Hsd & Hend).
    apply result_spec; [|apply Hend; by constructor].
    intros b ->. apply Hend. exists uri, l. split_and!; [done..|].
    destruct Hpre as [l' ->]. apply elem_of_app. left. by apply Hx.
  - pose proof (evolves_refl 0 y3 r3 Hy3 Hi3) as He. apply wp_bind.
    eapply wp_mono; [by apply (Hcancel 0 r3 y3)| |done]. intros [] y5 Hs5. apply wp_throw. simpl.
    destruct (Hdone 0 r3 y3 y5 He Hs5) as (l & _ & Hsd & Hend). apply Hend. by constructor.
Qed.

Lemma one_attempt_spec fuel config token y :
  y_server y = None →
  wp (provision_one_attempt fuel config token)
    (λ v, no_worker (delivered v) y) (fails (no_worker attempted y)) y.
Proof.
  intros Hy. unfold provision_one_attempt. apply wp_bind, wp_modify.
  set (y0 := MkSys _ _ _ _ _).
  assert (∀ e y', frame y0 y' → fails (no_worker attempted y) e y') as Hearly.
  { intros [e| |] y' (Hs & Ha & Hl & Hw); simpl; try done. split_and!; [by rewrite Hs|done..|].
    exists [Attempt]. split; [done|constructor]. }
  apply wp_bind. eapply wp_mono; [apply uuid_spec| |apply Hearly]. intros uuid y1 Hf1.
  apply wp_bind. eapply wp_mono; [apply code_spec| |].
  2: { intros e y' Hf. exact (Hearly _ _ (frame_trans _ _ _ Hf1 Hf)). }
  intros [uri keys] y2 (Hf2 & Hsh). simpl in Hsh. pose proof (frame_trans _ _ _ Hf1 Hf2) as Hf.
  apply wp_bind, wp_on_out. intros o3. destruct (_.1); simpl; [|apply wp_fail_closed; intros; by apply Hearly].
  apply wp_bind, wp_on_out. intros o4. destruct (_.1); simpl; [|apply wp_fail_closed; intros; by apply Hearly].
  apply wp_bind. eapply wp_mono; [apply spawn_spec| |by intros e ? ->].
  intros x y5 (Ha5 & Hl5 & Hw5 & Hs5). destruct Hf as (Hs & Ha & Hl & Hw).
  destruct x as [srv|e]; [destruct Hs5 as (r & Hr & Hi)|].
  - eapply (modal_spec _ _ _ _ _ _ _ r); [exact Hsh|exact Hr|exact Hi|..|by etrans].
    + rewrite Ha5. exact Ha.
    + rewrite Hl5. exact Hl.
  - apply wp_throw, Hearly. split_and!; [by rewrite Hs5|by rewrite Ha5|by rewrite Hl5|by etrans].
Qed.

(** * The retry *)

Lemma delivered_attempted v evs : delivered v evs → attempted evs.
Proof. intros (uri & l & -> & Hsh & Hsd & _). by constructor. Qed.

(** One attempt, or two when the link was lost during the first. *)
Definition tries (lost : bool) (evs : list link_event) : Prop :=
  attempted evs ∨ lost = true ∧ ∃ e1 e2, evs = e1 ++ e2 ∧ attempted e1 ∧ attempted e2.
Definition provisioned (t : CancellationToken) (v : option (bytes * IdentityKeyPair)) y y' : Prop :=
  y_server y' = None ∧ y_account y' = y_account y ∧ rtc wifi_step (y_wifi y) (y_wifi y') ∧
  ∃ evs, y_log y' = y_log y ++ evs ∧
    tries (CancellationToken_is_cancelled t (w_mem (y_wifi y'))) evs ∧
    from_option (λ v, ∃ pre last, evs = pre ++ last ∧ delivered v last) True v.

Lemma wp_try_io {A} (c : ST Sys stop A) (Q : result io_error A → Sys → Prop) R y :
  wp c (λ a, Q (Ok a)) (λ e y', match e with Failed_io e => Q (Err e) y' | _ => R e y' end) y →
  wp (try_io c) Q R y.
Proof. unfold wp, try_io. by destruct (c y) as [[a|[]] y']. Qed.
Lemma wait_link_spec fuel y : wp (wait_link fuel) (λ _, frame y) (λ e _, e = Stuck) y.
Proof.
  unfold wp, wait_link. destruct (wait_for_connection _ _ _) as [[x [o w]]|] eqn:Hw; [|done].
  split_and!; [done..|]. by eapply wait_steps.
Qed.

Lemma wp_new_token (Q : CancellationToken → Sys → Prop) R y :
  (∀ y', frame y y' → Q (CancellationToken_new (w_mem (y_wifi y))).1 y') → wp new_token Q R y.
Proof.
  intros HQ. apply HQ. split_and!; [done..|]. apply rtc_once, (step_token (y_wifi y)).
Qed.

(** The second attempt, after the first left [evs] in the log. *)
Lemma retry_spec fuel config t y y3 evs :
  y_server y3 = None → y_account y3 = y_account y → y_log y3 = y_log y ++ evs → attempted evs →
  synced (y_wifi y) → rtc wifi_step (y_wifi y) (y_wifi y3) →
  CancellationToken_is_cancelled t (w_mem (y_wifi y3)) = true →
  wp (token2 ← new_token;
      retry ← try_io (provision_one_attempt fuel config (CancellationToken_handle token2));
      match retry with Ok v => mret v | Err _ => throw (Failed_io link_err) end)
    (λ v, provisioned t (Some v) y) (fails (provisioned t None y)) y3.
Proof.
  intros Hn Ha Hl Hatt Hsy Hw Hc. apply wp_bind, wp_new_token. intros y4 (Hn4 & Ha4 & Hl4 & Hw4).
  assert (∀ v y5, no_worker (λ l, attempted l ∧ from_option (λ v, delivered v l) True v) y4 y5 →
    provisioned t v y y5) as Htwo.
  { intros v y5 (Hn5 & Ha5 & Hw5 & evs2 & Hl5 & Hd5 & Hv). split_and!; [done|congruence|..].
    { do 2 (etrans; [eassumption|]). done. }
    exists (evs ++ evs2). split_and!; [by rewrite Hl5, Hl4, Hl, <- app_assoc| |].
    - right. split; [|by exists evs, evs2]. destruct (steps_stay _ _ t Hsy Hw) as [Hsy3 _].
      eapply (steps_stay (y_wifi y3)); [done|by etrans|done].
    - destruct v as [v|]; [by exists evs, evs2|done]. }
  apply wp_bind, wp_try_io. eapply wp_mono; [apply one_attempt_spec; congruence| |].
  - intros v y5 (Hn5 & Ha5 & Hw5 & evs2 & Hl5 & Hd5). apply wp_ret. apply Htwo.
    split_and!; [done..|]. exists evs2. split_and!; [done|by eapply delivered_attempted|done].
  - intros [e2| |] y5; [|done..]. intros (Hn5 & Ha5 & Hw5 & evs2 & Hl5 & Hd5).
    apply wp_throw. apply (Htwo None). split_and!; [done..|]. by exists evs2.
Qed.

Lemma provision_spec fuel config y :
  y_server y = None → synced (y_wifi y) →
  let t := (CancellationToken_new (w_mem (y_wifi y))).1 in
  wp (provision fuel config) (λ v, provisioned t (Some v) y) (fails (provisioned t None y)) y.
Proof.
  intros Hy Hsy t. unfold provision. apply wp_bind, wp_new_token. intros y1 (Hn1 & Ha1 & Hl1 & Hw1).
  apply wp_bind, wp_try_io. eapply wp_mono; [apply one_attempt_spec; congruence| |].
  - intros v y2 (Hn & Ha & Hw & evs & Hl & Hd). apply wp_ret.
    split_and!; [done|congruence|by etrans|]. exists evs.
    split_and!; [by rewrite Hl, Hl1|left; by eapply delivered_attempted|]. by exists [], evs.
  - intros [e| |] y2; [|done..]. intros (Hn & Ha & Hw & evs & Hl & Hd).
    assert (∀ e y3, frame y2 y3 → fails (provisioned t None y) e y3) as Hone.
    { intros [e3| |] y3 (Hs3 & Ha3 & Hl3 & Hw3); [|done..]. split_and!; [congruence..| |].
      { do 2 (etrans; [eassumption|]). done. }
      exists evs. split_and!; [by rewrite Hl3, Hl, Hl1|by left|done]. }
    apply wp_bind, wp_gets. destruct (CancellationToken_is_cancelled _ _) eqn:Hc;
      [|apply wp_throw, Hone, frame_refl].
    apply wp_bind. eapply wp_mono; [apply wait_link_spec| |by intros ? ? ->].
    intros [[]|e'] y3 Hf3; [|apply wp_throw; by apply Hone]. destruct Hf3 as (Hs3 & Ha3 & Hl3 & Hw3).
    assert (rtc wifi_step (y_wifi y) (y_wifi y2)) as Hw2 by by etrans.
    destruct (steps_stay _ _ t Hsy Hw2) as [Hsy2 _].
    apply (retry_spec fuel config t y y3 evs); [congruence..|done|done|by etrans|].
    by eapply (steps_stay (y_wifi y2)).
Qed.

(** * Linking *)

Definition first_token : CancellationToken := {| token_inner := 0 |}.
(** The log of [link], up to the drop of the observer. *)
Definition link_trace y' (evs : list link_event) : Prop :=
  y_server y' = None ∧ tries (CancellationToken_is_cancelled first_token (w_mem (y_wifi y'))) evs ∧
  ∃ d, y_log y' = evs ++ [ObserverDropped d].
Definition link_done name y (ok : bool) y' : Prop :=
  ∃ evs pre last v msg w, link_trace y' evs ∧ evs = pre ++ last ∧ delivered v last ∧
    ProvisionMessage_decode_frame v.2 v.1 = Ok msg ∧
    (ok = true → Account.link name msg (y_account y, w) = (Ok true, (y_account y', y_world y'))).

Lemma make_observer_spec y (Q : () → Sys → Prop) R :
  (∀ y', y_server y' = y_server y → y_account y' = y_account y → y_log y' = y_log y →
     synced (y_wifi y') → w_mem (y_wifi y') = MkMem [] [] [] → Q tt y') →
  wp make_observer Q R y.
Proof.
  intros HQ. unfold wp, make_observer. destruct (wifi_now _) as [now o].
  destruct (WifiObserver_new now (MkMem [] [] []) o) as [[[h x]|e] o'] eqn:Hnew; apply HQ; try done.
  - simpl. unfold WifiObserver_new in Hnew. repeat (apply bind_Ok in Hnew as (? & ? & _ & Hnew)).
    injection Hnew as _ <-. split; [constructor|]. by intros l ?%not_elem_of_nil.
  - simpl. unfold WifiObserver_new in Hnew. repeat (apply bind_Ok in Hnew as (? & ? & _ & Hnew)).
    by injection Hnew as _ <-.
  - split; [constructor|]. by intros l ?%not_elem_of_nil.
Qed.

Lemma scoped_spec {A} (c : ST Sys stop A) (Q : A → Sys → Prop) (R : Sys → Prop) y :
  let dropped y' := (note (ObserverDropped (WifiObserver_drop (ob_handle (y_obs y')))) y').2 in
  wp c (λ a y', Q a (dropped y')) (fails (λ y', R (dropped y'))) y → wp (scoped c) Q (fails R) y.
Proof. unfold wp, scoped. by destruct (c y) as [[a|[]] y']. Qed.

Lemma manager_link_spec fuel config name y :
  y_server y = None → y_log y = [] →
  wp (link fuel config name) (link_done name y) (fails (λ y', ∃ evs, link_trace y' evs)) y.
Proof.
  intros Hy Hlog. apply wp_bind, make_observer_spec. intros y1 Hy1 Ha1 Hl1 Hs1 Hm1.
  apply scoped_spec, wp_bind.
  pose proof (provision_spec fuel config y1 ltac:(congruence) Hs1) as Hp. cbv zeta in Hp.
  rewrite Hm1 in Hp. eapply wp_mono; [exact Hp| |].
  2: { intros [e| |] y2; [|done..]. intros (Hn & _ & _ & evs & Hl & Ht & _).
       exists evs. split_and!; [done..|]. eexists. simpl. by rewrite Hl, Hl1, Hlog. }
  intros v y2 (Hn & Ha & _ & evs & Hl & Ht & pre & last & Hevs & Hd). rewrite Hl1, Hlog in Hl. simpl in Hl.
  unfold link_with. destruct (ProvisionMessage_decode_frame v.2 v.1) as [msg|e] eqn:Hmsg.
  2: { apply wp_throw. exists evs. split_and!; [done..|]. eexists. simpl. by rewrite Hl. }
  apply wp_bind. unfold wp at 1, account_link.
  destruct (Account.link name msg (y_account y2, y_world y2)) as [x [a w]] eqn:Hlink.
  rewrite Ha, Ha1 in Hlink.
  assert (∀ ok, (ok = true → x = Ok true) → link_done name y ok (note (ObserverDropped
    (WifiObserver_drop (ob_handle (y_obs y2)))) (MkSys a w (y_obs y2) (y_server y2) (y_log y2))).2) as Hdone.
  { intros ok Hok. exists evs, pre, last, v, msg, (y_world y2). split_and!; [|done..|].
    - split_and!; [done..|]. eexists. simpl. by rewrite Hl.
    - intros Ht'. simpl. by rewrite Hlink, Hok. }
  destruct x as [b|[e|]]; [..|done]; apply wp_ret, Hdone; [by intros ->|done].
Qed.

(** The trace seen from the outside. *)
Definition attempts_in (l : list link_event) : nat :=
  length (omap (λ e, match e with Attempt => Some tt | _ => None end) l).
Lemma attempted_once evs : attempted evs → attempts_in evs = 1.
Proof. by intros []. Qed.
Lemma attempts_app l l' : attempts_in (l ++ l') = attempts_in l + attempts_in l'.
Proof. unfold attempts_in. by rewrite omap_app, length_app. Qed.
Lemma attempted_stopped evs l : attempted evs → Stopped l ∈ evs → shut_down l.
Proof. intros [|uri keys l' _ Hsd] Hin; set_solver. Qed.
(** Every QR code is followed by the end of its worker. *)
Definition paired (evs : list link_event) : Prop :=
  ∀ i uri keys, evs !! i = Some (QrShown uri keys) → ∃ l, evs !! S i = Some (Stopped l).
Lemma attempted_paired evs : attempted evs → paired evs.
Proof. intros [|uri keys l _ _] [|[|[|i]]] uri' keys' Hi; simplify_eq/=; eauto. Qed.
Lemma paired_app e1 e2 : paired e1 → paired e2 → paired (e1 ++ e2).
Proof.
  intros Hp1 Hp2 i uri keys Hi. destruct (decide (i < length e1)) as [Hlt|Hge].
  - rewrite lookup_app_l in Hi by done. destruct (Hp1 _ _ _ Hi) as [l Hl]. exists l.
    rewrite lookup_app_l; [done|]. by eapply lookup_lt_Some.
  - rewrite lookup_app_r in Hi by lia. destruct (Hp2 _ _ _ Hi) as [l Hl]. exists l.
    rewrite lookup_app_r by lia. by replace (S i - length e1) with (S (i - length e1)) by lia.
Qed.
Lemma link_returns fuel config name y x y' :
  y_server y = None → y_log y = [] → link fuel config name y = (x, y') →
  x ≠ Err Stuck → x ≠ Err Panicked_main → ∃ evs, link_trace y' evs.
Proof.
  intros Hy Hl Hlink Hs Hp. pose proof (manager_link_spec fuel config name y Hy Hl) as Hspec.
  unfold wp in Hspec. rewrite Hlink in Hspec. destruct x as [b|[e| |]]; [|done..].
  destruct Hspec as (evs & pre & last & v & msg & w & Ht & _). eauto.
Qed.


(** Linking retries at most once, and only after a flap.  [link] makes at
    most two attempts, and two only if the token handed to the first attempt's flap
    watcher was cancelled. *)
Theorem link_retries_once fuel config name y x y' :
  y_server y = None → y_log y = [] → link fuel config name y = (x, y') →
  x ≠ Err Stuck → x ≠ Err Panicked_main →
  1 ≤ attempts_in (y_log y') ≤ 2 ∧
  (attempts_in (y_log y') = 2 →
   CancellationToken_is_cancelled first_token (w_mem (y_wifi y')) = true).
Proof.
  intros Hy Hl Hlink Hs Hp.
  destruct (link_returns fuel config name y x y' Hy Hl Hlink Hs Hp) as (evs & Hn & Ht & d & ->).
  rewrite attempts_app. change (attempts_in [ObserverDropped d]) with 0.
  destruct Ht as [Ha|(Hc & e1 & e2 & -> & Ha1 & Ha2)].
  - rewrite (attempted_once _ Ha). lia.
  - rewrite attempts_app, (attempted_once _ Ha1), (attempted_once _ Ha2). split; [lia|done].
Qed.

End spec.
