(* ===== verification/ManagerLive.v ===== *)
(** Linking ends.

    Under a clock that advances whenever the timer is read, a wait for the
    worker's result ends by the deadline, the shutdown handshake ends once the
    messages ahead of it are served, and the wait for the link ends by its
    timeout.  [settles c y]: with enough turns the call returns, and more turns
    make no difference. *)

From S2P Require Import Prelude Hoare RustStd Wire Base64 Json Pddb Signal Stores World Outgoing Send.
From S2P Require Import WsServer WsServerSpec Wifi WifiSpec Keys Rest Prekeys Provision Account SignalWs.
From S2P Require Import Manager ManagerSpec.

Section live.
Context `{UrlHost, !UrlLib, !UrlMore, IpcBufferLaws, ComRs}.
Context `{KeyOps, !Base64, !WireFormat, !Crypto, !SerdeJson, !UreqText}.
Context {P O : Type} `{!Pddb P, !Host O, !OsRng O, !WsHost O, !WsDial O, !NetHost O, !WifiHost O}.
Context `{!LinkHost O, !Modals O}.
Implicit Types (y : Sys (P := P) (O := O)) (r : Server) (s : worker) (h : Hst (O := O)).

(** The tick timer exists, and reading it takes time. *)
Class OutClock := {
  unit_ms : Z;
  unit_pos : (0 < unit_ms)%Z;
  now_fine : O → Z;
  timer_exists o : (ticktimer_new o).1 = true;
  now_elapsed o : (elapsed_ms o).1 = (now_fine o `div` unit_ms)%Z;
  now_later o : (now_fine o < now_fine (elapsed_ms o).2)%Z;
  now_send (f : ws_message) o : (now_fine o ≤ now_fine (ws_send f o).2)%Z;
  now_read o : (now_fine o ≤ now_fine (ws_read o).2)%Z;
  now_messages o : (now_fine o ≤ now_fine (net_messages o).2)%Z;
}.
Context `{!OutClock} `{!WaitLaws (O := O)}.

#[local] Instance hst_clock : ClockLaws (O := Hst (O := O)).
Proof.
  refine {| tick := unit_ms; fine h := now_fine (h_out h) |}; simpl; unfold lift_host.
  - apply unit_pos.
  - intros h. pose proof (now_elapsed (h_out h)). by destruct (elapsed_ms (h_out h)).
  - intros h. pose proof (now_later (h_out h)). by destruct (elapsed_ms (h_out h)).
  - intros f h. pose proof (now_send f (h_out h)). by destruct (ws_send f (h_out h)).
  - intros h. pose proof (now_read (h_out h)). by destruct (ws_read (h_out h)).
  - intros h. unfold observe. destruct (_ && _).
    + pose proof (now_messages (h_out h)). destruct (net_messages (h_out h)) as [msgs o].
      destruct (observer_loop _ _) as [b x]. by destruct (h_queue h ++ _).
    + by destruct (h_queue h ++ _).
Defined.

(** * Enough turns *)

Definition settles {A} (c : nat → ST Sys stop A) y : Prop :=
  ∃ n x y', (∀ fuel, n ≤ fuel → c fuel y = (x, y')) ∧ x ≠ Err Stuck.

Lemma settles_const {A} (c : ST Sys stop A) y : (c y).1 ≠ Err Stuck → settles (λ _, c) y.
Proof. intros Hc. exists 0. destruct (c y) as [x y']. by exists x, y'. Qed.
Lemma settles_bind {A B} (c : nat → ST Sys stop A) (f : nat → A → ST Sys stop B) y :
  settles c y →
  (∀ n a y', c n y = (Ok a, y') → settles (λ fuel, f fuel a) y') →
  settles (λ fuel, a ← c fuel; f fuel a) y.
Proof.
  intros (n & x & y1 & Hc & Hx) Hf. destruct x as [a|e].
  - destruct (Hf n a y1 (Hc n ltac:(done))) as (n2 & x2 & y2 & Hc2 & Hx2).
    exists (n `max` n2), x2, y2. split; [|done]. intros fuel Hfuel. unfold mbind, ST_bind.
    rewrite Hc by lia. apply Hc2. lia.
  - exists n, (Err e), y1. split; [|congruence]. intros fuel Hfuel. unfold mbind, ST_bind.
    by rewrite Hc.
Qed.
Lemma settles_try {A} (c : nat → ST Sys stop A) y : settles c y → settles (λ fuel, try_io (c fuel)) y.
Proof.
  intros (n & x & y1 & Hc & Hx). exists n. destruct x as [a|[e| |]].
  - exists (Ok (Ok a)), y1. split; [|done]. intros. unfold try_io. by rewrite Hc.
  - exists (Ok (Err e)), y1. split; [|done]. intros. unfold try_io. by rewrite Hc.
  - exists (Err Panicked_main), y1. split; [|done]. intros. unfold try_io. by rewrite Hc.
  - done.
Qed.

Lemma await_more {A} n m (f : Server → option A) y a y' :
  n ≤ m → await n f y = (Ok a, y') → await m f y = (Ok a, y').
Proof.
  revert m y. induction n as [|n IH]; intros m y Hm Ha.
  - simpl in Ha. destruct (y_server y ≫= f) as [b|] eqn:Hf; [|done].
    destruct m; simpl; by rewrite Hf.
  - destruct m as [|m]; [lia|]. simpl in *. destruct (y_server y ≫= f) as [b|]; [done|].
    unfold mbind, ST_bind in *. destruct (server_turn y) as [[[]|e] y1]; [|done].
    apply IH; [lia|done].
Qed.
Lemma await_settles {A} n (f : Server → option A) y a y' :
  await n f y = (Ok a, y') → settles (λ fuel, await fuel f) y.
Proof. intros Ha. exists n, (Ok a), y'. split; [|done]. intros. by eapply await_more. Qed.

Lemma await_now {A} n (f : Server → option A) y r a :
  y_server y = Some r → f r = Some a → await n f y = (Ok a, y).
Proof. intros Hy Hf. destruct n; simpl; by rewrite Hy; simpl; rewrite Hf. Qed.
Lemma await_step {A} n (f : Server → option A) y r y' :
  y_server y = Some r → f r = None → server_turn y = (Ok tt, y') →
  await (S n) f y = await n f y'.
Proof. intros Hy Hf Ht. simpl. rewrite Hy. simpl. rewrite Hf. unfold mbind, ST_bind. by rewrite Ht. Qed.

(** * The shutdown handshake *)

Lemma queue_moves {A} (l q extra q' : list A) k m :
  l ++ q' = q ++ extra → (length l = 1 ∨ q ++ extra = []) → q !! S k = Some m → q' !! k = Some m.
Proof.
  intros E [Hl|Hn] Hk; [|by apply app_nil in Hn as [-> _]].
  assert ((q ++ extra) !! S k = Some m) as Hm by (by apply lookup_app_l_Some).
  rewrite <- E in Hm. by destruct l as [|x [|]].
Qed.
Lemma cancel_reached n k y r :
  y_server y = Some r → sinv n r → r_thread r ≠ NoTimer →
  (∃ m, r_queue r !! k = Some m ∧ op_of m = Some Cancel) →
  ∃ j l y', await j exited y = (Ok l, y').
Proof.
  revert y r. induction k as [|k IH]; intros y r Hy Hi Hlive (m & Hm & Hop);
    destruct (r_thread r) as [s| |] eqn:Hr; try done;
    try (exists 0, (r_log r), y; apply (await_now 0 _ y r); [done|unfold exited; by rewrite Hr]);
    destruct (turn_spec y r s Hy Hr (sinv_running _ _ _ Hi Hr))
      as (y' & r' & l & extra & Ht & Hu & Hy' & Hl & Hq & Hex & Hn & Hth);
    destruct (turn_evolves n y r Hy Hi) as (y1 & r1 & Ht1 & He1);
    rewrite Ht in Ht1; injection Ht1 as <-; rewrite (ev_server _ _ _ _ _ He1) in Hy'; injection Hy' as ->;
    pose proof (ev_server _ _ _ _ _ He1) as Hy'.
  - destruct (r_thread r') as [s'| |] eqn:Hr'; [|exists 1, (r_log r'), y'|done].
    + destruct Hth as [Hs _]. apply wsteps_no_cancel in Hs.
      destruct (r_queue r) as [|m0 q]; [done|]. injection Hm as ->.
      destruct Hn as [Hn|]; [|done]. destruct (received l) as [|m1 [|]]; try done.
      injection Hq as -> _. by apply Forall_cons in Hs as [Hs _].
    + rewrite (await_step 0 _ y r y') by (done || unfold exited; by rewrite Hr).
      apply (await_now 0 _ y' r'); [done|]. unfold exited. by rewrite Hr'.
  - destruct (IH y' r' Hy' (ev_inv _ _ _ _ _ He1)) as (j & l' & y2 & Hj).
    + apply He1. by rewrite Hr.
    + exists m. split; [|done]. by eapply queue_moves.
    + exists (S j), l', y2. rewrite (await_step j _ y r y'); [done..| |done].
      unfold exited. by rewrite Hr.
Qed.

Lemma cancel_settles n y r :
  y_server y = Some r → sinv n r → r_thread r ≠ NoTimer → settles cancel y.
Proof.
  intros Hy Hi Hlive. unfold cancel. apply settles_bind; [by apply settles_const|].
  intros k a y' [= <- <-]. rewrite Hy. destruct (r_thread r) as [s| |] eqn:Hr; [|by apply settles_const|done].
  apply settles_bind; [by apply settles_const|]. intros k2 [] y2 Henq.
  rewrite (enqueue_run _ y r Hy) in Henq. injection Henq as <-.
  set (r1 := with_queue (r_queue r ++ [cancel_message]) r).
  destruct (cancel_reached (n + holds MAIN cancel_message) (length (r_queue r)) (queued cancel_message y r) r1)
    as (j & l & y3 & Hj).
  - done.
  - by apply queued_inv.
  - simpl. by rewrite Hr.
  - exists cancel_message. split; [|done]. simpl. by rewrite lookup_app_r, Nat.sub_diag.
  - apply settles_bind; [by eapply await_settles|]. intros ? l' y4 _. by apply settles_const.
Qed.

(** * Waiting for the result *)

Lemma main_pages_length l : length (main_pages l) = returned MAIN l.
Proof.
  induction l as [|e l IH]; [done|]. unfold main_pages, returned in *. simpl.
  destruct e as [|t p| | | | |]; try exact IH. case_bool_decide as Ht.
  - rewrite (proj2 (Z.eqb_eq t MAIN) Ht). simpl. f_equal. exact IH.
  - rewrite (proj2 (Z.eqb_neq t MAIN) Ht). exact IH.
Qed.
(** The call stops once a page is back, when none was before it. *)
Lemma page_back l0 r :
  returned MAIN l0 = 0 → 0 < returned MAIN (r_log r) → is_Some (page_or_gone l0 r).
Proof.
  intros Hl0 Hr. unfold page_or_gone, page_since. rewrite <- main_pages_length in Hl0, Hr.
  rewrite Hl0. destruct (main_pages (r_log r)) as [|p l]; [simpl in Hr; lia|]. simpl. eauto.
Qed.
Lemma gone l0 r : r_thread r = Exited → is_Some (page_or_gone l0 r).
Proof. intros Hr. unfold page_or_gone. rewrite Hr. destruct (page_since l0 r); eauto. Qed.
(** Until then the page is with the worker or in the queue. *)
Lemma page_held n r s :
  sinv n r → r_thread r = Running s →
  returned MAIN (r_log r) + held MAIN (waiter s) + qpages (r_queue r) = n.
Proof.
  intros Hi Hr. pose proof (inv_thread _ _ Hi) as Ht. rewrite Hr in Ht.
  destruct Ht as (s0 & (_ & Hw & _) & Hs). apply (wsteps_pages MAIN) in Hs. rewrite Hw in Hs.
  pose proof (inv_pages _ _ Hi). simpl in Hs. lia.
Qed.

(** A turn that leaves the caller waiting began before the deadline, and takes
    time. *)
Lemma turn_waits y r s y' r' s' :
  y_server y = Some r → r_thread r = Running s → ok_state s →
  server_turn y = (Ok tt, y') → y_server y' = Some r' → r_thread r' = Running s' →
  waiter s' = None ∨
  (now_fine (w_out (y_world y)) < deadline_ms s * unit_ms)%Z ∧
  (now_fine (w_out (y_world y)) < now_fine (w_out (y_world y')))%Z ∧ deadline_ms s' = deadline_ms s.
Proof.
  intros Hy Hr Hok Ht Hy' Hr'.
  destruct (turn_spec y r s Hy Hr Hok) as (y1 & r1 & l & extra & Ht1 & _ & Hy1 & _ & _ & _ & _ & Hth).
  rewrite Ht in Ht1. injection Ht1 as <-. rewrite Hy' in Hy1. injection Hy1 as <-. rewrite Hr' in Hth.
  destruct Hth as (Hs & w' & Hturn & Ho & _). set (w := MkSrv (hst_of y r) (r_log r)) in *.
  pose proof (turn_timed s w (λ _ _, False) Hok) as Htime. unfold wp in Htime. rewrite Hturn in Htime.
  destruct Htime as [Hnone|Hlt]; [by left|]. simpl in Hlt. rewrite Ho.
  destruct (decide (deadline_ms s * unit_ms ≤ now_fine (w_out (y_world y)))%Z) as [Hd|Hd].
  - left. apply (turn_past_deadline s w s' w' Hok); [|done]. simpl.
    apply Z.div_le_lower_bound; [apply unit_pos|]. lia.
  - right. split_and!; [lia|done|by eapply wsteps_deadline].
Qed.

Lemma page_by_deadline l0 k y r s :
  returned MAIN l0 = 0 → y_server y = Some r → sinv 1 r → r_thread r = Running s →
  qpages (r_queue r) = 0 →
  (deadline_ms s * unit_ms - now_fine (w_out (y_world y)) < Z.of_nat k)%Z →
  ∃ j a y', await j (page_or_gone l0) y = (Ok a, y').
Proof.
  intros Hl0. revert y r s. induction k as [|k IH]; intros y r s Hy Hi Hr Hq Hk;
    (destruct (page_or_gone l0 r) as [a|] eqn:Hstop; [exists 0, a, y; by apply (await_now 0 _ y r)|]);
    destruct (turn_evolves 1 y r Hy Hi) as (y' & r' & Ht & He); pose proof (ev_server _ _ _ _ _ He) as Hy';
    pose proof (ev_inv _ _ _ _ _ He) as Hi';
    destruct (turn_spec y r s Hy Hr (sinv_running _ _ _ Hi Hr))
      as (y1 & r1 & l & extra & Ht1 & _ & Hy1 & _ & Hq1 & Hex & _ & Hth);
    rewrite Ht in Ht1; injection Ht1 as <-; rewrite Hy' in Hy1; injection Hy1 as <-;
    (assert (qpages (r_queue r') = 0) as Hq';
      [apply (f_equal qpages) in Hq1; rewrite !qpages_app, (qpages_none _ Hex) in Hq1; lia|]);
    (assert (∀ a, page_or_gone l0 r' = Some a →
       ∃ j b y2, await j (page_or_gone l0) y = (Ok b, y2)) as Hnow;
      [intros a Ha; exists 1, a, y'; rewrite (await_step 0 _ y r y') by done; by apply (await_now 0 _ y' r')|]);
    (destruct (r_thread r') as [s'| |] eqn:Hr'; [|by destruct (gone l0 r' Hr') as [a Ha]; eapply Hnow|done]);
    (destruct (turn_waits y r s y' r' s' Hy Hr (sinv_running _ _ _ Hi Hr) Ht Hy' Hr')
      as [Hnone|(Hd & Hlt & Hds)];
      [pose proof (page_held 1 r' s' Hi' Hr') as Hh; rewrite Hnone in Hh; simpl in Hh;
       destruct (page_back l0 r' Hl0 ltac:(lia)) as [a Ha]; by eapply Hnow|]).
  - lia.
  - destruct (IH y' r' s' Hy' Hi' Hr' Hq') as (j & a & y2 & Hj); [rewrite Hds; lia|].
    exists (S j), a, y2. by rewrite (await_step j _ y r y').
Qed.

(** All pages are among the first [k] messages of the queue. *)
Lemma queue_drops (l q extra q' : list Envelope) k :
  l ++ q' = q ++ extra → (length l = 1 ∨ q ++ extra = []) →
  Forall (λ m, memory m = None) extra → qpages (drop (S k) q) = 0 → qpages (drop k q') = 0.
Proof.
  intros E Hl Hex Hd. destruct Hl as [Hl|Hn].
  - assert (drop k q' = drop (S k) (q ++ extra)) as ->.
    { rewrite <- E. by destruct l as [|x [|]]. }
    rewrite drop_app, qpages_app, Hd. apply qpages_none. by apply Forall_drop.
  - rewrite Hn in E. apply app_nil in E as [_ ->]. by rewrite drop_nil.
Qed.
Lemma page_reached l0 k y r :
  returned MAIN l0 = 0 → y_server y = Some r → sinv 1 r → r_thread r ≠ NoTimer →
  qpages (drop k (r_queue r)) = 0 → ∃ j a y', await j (page_or_gone l0) y = (Ok a, y').
Proof.
  intros Hl0. revert y r. induction k as [|k IH]; intros y r Hy Hi Hlive Hq;
    (destruct (r_thread r) as [s| |] eqn:Hr; [|destruct (gone l0 r Hr) as [a Ha]; exists 0, a, y;
      by apply (await_now 0 _ y r)|done]).
  { eapply (page_by_deadline l0 (S (Z.to_nat (deadline_ms s * unit_ms - now_fine (w_out (y_world y)))))
      y r s); [done..|lia]. }
  destruct (page_or_gone l0 r) as [a|] eqn:Hstop; [exists 0, a, y; by apply (await_now 0 _ y r)|].
  destruct (turn_evolves 1 y r Hy Hi) as (y' & r' & Ht & He).
  destruct (turn_spec y r s Hy Hr (sinv_running _ _ _ Hi Hr))
    as (y1 & r1 & l & extra & Ht1 & _ & Hy1 & _ & Hq1 & Hex & Hn & _).
  rewrite Ht in Ht1. injection Ht1 as <-. rewrite (ev_server _ _ _ _ _ He) in Hy1. injection Hy1 as <-.
  destruct (IH y' r') as (j & a & y2 & Hj).
  - apply He.
  - apply He.
  - apply He. by rewrite Hr.
  - by eapply queue_drops.
  - exists (S j), a, y2. by rewrite (await_step j _ y r y').
Qed.

Lemma wait_settles y r :
  y_server y = Some r → sinv 0 r → r_thread r ≠ NoTimer → settles wait_and_take_binary y.
Proof.
  intros Hy Hi Hlive. unfold wait_and_take_binary.
  destruct (into_buf WsResultBuf_empty) as [page|e] eqn:Hp; [|by apply settles_const].
  apply settles_bind; [by apply settles_const|]. intros k a y' [= <- <-]. rewrite Hy.
  destruct (r_thread r) as [s| |] eqn:Hr; [|by apply settles_const|done].
  apply settles_bind; [by apply settles_const|]. intros k2 [] y2 Henq.
  rewrite (enqueue_run _ y r Hy) in Henq. injection Henq as <-.
  set (r1 := with_queue (r_queue r ++ [wait_message page]) r).
  assert (sinv 1 r1) as Hi1.
  { rewrite <- (wait_message_holds page). apply (queued_inv 0); [done|].
    intros p [= <-]. by apply to_original_into_buf. }
  destruct (page_reached (r_log r) (S (length (r_queue r))) (queued (wait_message page) y r) r1)
    as (j & a & y3 & Hj).
  - pose proof (page_held 0 r s Hi Hr). lia.
  - done.
  - done.
  - simpl. by rewrite Hr.
  - simpl. rewrite drop_ge; [done|]. rewrite length_app. simpl. lia.
  - apply settles_bind; [by eapply await_settles|]. intros ? x y4 _. by apply settles_const.
Qed.

(** * The calls that do not wait *)

Definition unstuck {A} (c : ST Sys stop A) : Prop := ∀ y, (c y).1 ≠ Err Stuck.
Lemma unstuck_bind {A B} (c : ST Sys stop A) (f : A → ST Sys stop B) :
  unstuck c → (∀ a, unstuck (f a)) → unstuck (c ≫= f).
Proof.
  intros Hc Hf y. specialize (Hc y). unfold mbind, ST_bind. destruct (c y) as [[a|e] y'].
  - apply Hf.
  - simpl in *. congruence.
Qed.
Lemma unstuck_ret {A} (a : A) : unstuck (mret a).
Proof. done. Qed.
Lemma unstuck_throw {A} e : unstuck (throw (A := A) (Failed_io e)).
Proof. done. Qed.
Lemma unstuck_modify f : unstuck (modify f).
Proof. done. Qed.
Lemma unstuck_out {A} (f : O → A * O) : unstuck (on_out f).
Proof. intros y. unfold on_out. by destruct (f _). Qed.
Lemma unstuck_o {E A} (g : E → stop) (c : ST O E A) : (∀ e, g e ≠ Stuck) → unstuck (on_o g c).
Proof.
  intros Hg y. unfold on_o. destruct (c _) as [[a|e] o]; simpl; [done|]. intros [= E']. by apply (Hg e).
Qed.
Lemma unstuck_mem {A} (f : Mem → A * Mem) : unstuck (on_mem_sys f).
Proof. intros y. unfold on_mem_sys. by destruct (f _). Qed.
Lemma unstuck_interfere : unstuck interfere.
Proof. intros y. unfold interfere. by destruct (observe _ _). Qed.
Lemma unstuck_fail_closed {A} : unstuck (fail_closed (A := A)).
Proof. apply unstuck_bind; [apply unstuck_out|]. intros []. apply unstuck_throw. Qed.
Create HintDb unstuck.
#[local] Hint Resolve unstuck_bind unstuck_ret unstuck_throw unstuck_modify unstuck_out unstuck_o
  unstuck_mem unstuck_interfere unstuck_fail_closed : unstuck.

Lemma unstuck_uuid config : unstuck (provisioning_uuid config).
Proof.
  apply unstuck_bind; [apply unstuck_o; by intros []|]. intros _.
  apply unstuck_bind; [auto with unstuck|]. intros _.
  apply unstuck_bind.
  { intros y. unfold on_o, try. simpl. by destruct (read_once 5000 _). }
  intros x. apply unstuck_bind; [auto with unstuck|]. intros _.
  destruct x as [[]|]; auto with unstuck. destruct (ProvisioningUuid_decode _); auto with unstuck.
Qed.
Lemma unstuck_code uuid : unstuck (link_code uuid).
Proof.
  apply unstuck_bind.
  { intros y. unfold on_world, generate_identity_key_pair, mbind, ST_bind, draw_entropy, World.on_out.
    by destruct (os_entropy _). }
  intros keys. simpl. destruct (negb _); auto with unstuck. destruct (link_uri _ _); auto with unstuck.
Qed.
Lemma unstuck_start d cid flag : unstuck (start_thread d cid flag).
Proof. intros y. unfold start_thread. by destruct (worker_start _ _) as [[[s|]|] w]. Qed.
Lemma unstuck_spawn d : unstuck (SignalWsServer_spawn d).
Proof.
  apply unstuck_bind; [by apply unstuck_o|]. intros sid. apply unstuck_bind; [by apply unstuck_o|].
  intros cid. apply unstuck_bind; [auto with unstuck|]. intros [|e]; auto with unstuck.
  apply unstuck_bind; [auto with unstuck|]. intros flag.
  apply unstuck_bind; [apply unstuck_start|auto with unstuck].
Qed.

(** The thread of a new server is in its loop. *)
Lemma start_runs d cid flag y srv y' :
  start_thread d cid flag y = (Ok srv, y') →
  ∃ r, y_server y' = Some r ∧ sinv 0 r ∧ r_thread r ≠ NoTimer.
Proof.
  intros Hst. pose proof (start_thread_spec d cid flag y) as Hspec. unfold wp in Hspec.
  rewrite Hst in Hspec. destruct Hspec as (_ & r & Hr & Hi). exists r. split_and!; [done..|].
  revert Hst. unfold start_thread.
  assert (∀ w : Srv (Hst (O := O)), match worker_start d w with (Ok (Some _), _) => True | _ => False end) as Hsome.
  { intros w. unfold worker_start, mbind, ST_bind, out. simpl. unfold lift_host.
    destruct (ws_set_read_timeout _ _) as [x o1]. simpl. unfold lift_host. simpl.
    pose proof (timer_exists o1) as Ht. destruct (ticktimer_new o1) as [b o2]. simpl in *. subst b.
    unfold lift_host. simpl. destruct (elapsed_ms o2) as [t3 o3]. simpl. unfold lift_host. simpl.
    by destruct (elapsed_ms o3) as [t4 o4]. }
  set (w := MkSrv _ _). specialize (Hsome w). destruct (worker_start d w) as [[[s|]|] w']; [|done..].
  intros [= _ <-]. by injection Hr as <-.
Qed.
Lemma spawn_runs d y srv y' :
  SignalWsServer_spawn d y = (Ok (Ok srv), y') →
  ∃ r, y_server y' = Some r ∧ sinv 0 r ∧ r_thread r ≠ NoTimer.
Proof.
  intros (sid & y1 & _ & Hs)%bind_Ok. apply bind_Ok in Hs as (cid & y2 & _ & Hs).
  apply bind_Ok in Hs as (x & y3 & _ & Hs). destruct x as [|e]; [|done].
  apply bind_Ok in Hs as (flag & y4 & _ & Hs). apply bind_Ok in Hs as (srv' & y5 & Hs & Hret).
  injection Hret as _ <-. by eapply start_runs.
Qed.

(** * The attempts *)

Lemma settles_then {A B} (c : ST Sys stop A) (f : nat → A → ST Sys stop B) y :
  (c y).1 ≠ Err Stuck → (∀ a y', c y = (Ok a, y') → settles (λ fuel, f fuel a) y') →
  settles (λ fuel, a ← c; f fuel a) y.
Proof. intros Hc Hf. apply (settles_bind (λ _, c)); [by apply settles_const|]. intros _. apply Hf. Qed.

Lemma attempt_settles config token y :
  settles (λ fuel, provision_one_attempt fuel config token) y.
Proof.
  unfold provision_one_attempt. apply settles_then; [done|]. intros [] y1 _.
  apply settles_then; [apply unstuck_uuid|]. intros uuid y2 _.
  apply settles_then; [apply unstuck_code|]. intros code y3 _.
  apply settles_then; [apply unstuck_out|]. intros xns y4 _.
  destruct (negb xns); [apply settles_const, unstuck_fail_closed|].
  apply settles_then; [apply unstuck_out|]. intros modals y5 _.
  destruct (negb modals); [apply settles_const, unstuck_fail_closed|].
  apply settles_then; [apply unstuck_spawn|]. intros x y6 Hspawn.
  destruct x as [srv|e]; [|by apply settles_const].
  apply spawn_runs in Hspawn as (r & Hy6 & Hi & Hlive).
  apply settles_then; [done|]. intros [] y7 [= <-]. apply settles_then; [done|]. intros [] y8 [= <-].
  apply settles_then; [apply unstuck_out|]. intros shown y9 Hshown.
  apply settles_then; [apply unstuck_out|]. intros k y10 Hk.
  assert (y_server y10 = Some r) as Hy10.
  { unfold on_out in *. simpl in *. destruct (show_notification _ _ _). injection Hshown as _ <-.
    destruct (modal_turns _). by injection Hk as _ <-. }
  destruct (turns_evolve 0 k y10 r Hy10 Hi) as (y11 & r11 & Hturns & He).
  apply settles_then; [by rewrite Hturns|]. intros [] y12 Heq. rewrite Hturns in Heq. injection Heq as <-.
  pose proof (ev_live _ _ _ _ _ He Hlive) as Hlive11.
  pose proof (ev_server _ _ _ _ _ He) as Hy11. pose proof (ev_inv _ _ _ _ _ He) as Hi11.
  destruct (negb shown).
  - apply settles_bind; [by eapply cancel_settles|]. intros ? [] y13 _. by apply settles_const.
  - apply settles_bind; [by eapply wait_settles|]. intros n res y13 Hwait.
    pose proof (wait_spec n y11 r11 Hy11 Hi11) as Hspec. unfold wp in Hspec. rewrite Hwait in Hspec.
    destruct Hspec as (m & r13 & He13 & _).
    apply settles_bind; [eapply cancel_settles; [apply He13..|by apply He13]|].
    intros ? [] y14 _. apply settles_const. by destruct res.
Qed.

Lemma wait_link_settles y : settles wait_link y.
Proof.
  destruct (wait_for_connection_ends RECONNECT_WAIT (w_out (y_world y)) (y_wifi y))
    as (x & [o w] & Hw & _); [done|].
  exists (S (S (Z.to_nat RECONNECT_WAIT))), (Ok x), (set_wifi w (set_out o y)). split; [|done]. intros fuel Hfuel. unfold wait_link.
  enough (wait_for_connection fuel RECONNECT_WAIT (w_out (y_world y), y_wifi y) = Some (x, (o, w))) as ->
    by done.
  revert Hw. unfold wait_for_connection. destruct (is_connected _); [done|].
  destruct (on_host _ _) as [[now|e] s1]; [|done]. intros Hw. exact (iter_mono _ _ _ _ _ _ Hw Hfuel).
Qed.
Lemma provision_settles config y : settles (λ fuel, provision fuel config) y.
Proof.
  unfold provision. apply settles_then; [apply unstuck_mem|]. intros token y1 _.
  apply settles_bind; [apply settles_try, attempt_settles|]. intros _ attempt y2 _.
  destruct attempt as [v|e]; [by apply settles_const|]. apply settles_then; [done|].
  intros cancelled y3 _. destruct cancelled; [|by apply settles_const].
  apply settles_bind; [apply wait_link_settles|]. intros _ [[]|e'] y4 _; [|by apply settles_const].
  apply settles_then; [apply unstuck_mem|]. intros token2 y5 _.
  apply settles_bind; [apply settles_try, attempt_settles|]. intros _ [v|e2] y6 _; by apply settles_const.
Qed.

End live.
