(* ===== verification/ManagerDemo.v ===== *)
(** Linking at a concrete device.

    A scripted outside: the frames the socket yields, the messages the net
    service sends, and a clock.  In [smooth] the primary device answers the first
    QR code; in [flapping] the WiFi drops while the first code is up, and the
    second attempt is answered. *)

From S2P Require Import Prelude Hoare RustStd Wire Base64 Json Pddb Signal Stores World Outgoing Send.
From S2P Require Import SendWorld WsServer WsServerSpec Wifi WifiSpec Keys Rest Prekeys Provision.
From S2P Require Import ProvisionSpec Account AccountSpec SignalWs Manager ManagerSpec ManagerLive.
Import ToyIpc ToyLink.

Module ToyScene.
Record scene := Scene {
  sc_sim : sim;
  sc_reads : list (result ws_error ws_message);
  sc_net : list (list (result bytes observer_msg * Z));
  sc_time : Z;
  sc_choice : Z;
}.
Definition on_sim {A} (f : sim → A * sim) (o : scene) : A * scene :=
  let '(a, m) := f (sc_sim o) in (a, Scene m (sc_reads o) (sc_net o) (sc_time o) (sc_choice o)).
Definition later (d : Z) (o : scene) : scene :=
  Scene (sc_sim o) (sc_reads o) (sc_net o) (sc_time o + d) (sc_choice o).

#[global] Instance scene_host : Host scene := {|
  instant_now := on_sim instant_now;
  system_now := on_sim system_now;
  os_entropy := on_sim os_entropy;
  host_sleep ms o := later ms o;
  ureq_call r := on_sim (ureq_call r);
  env_var k o := env_var k (sc_sim o);
|}.
#[global] Instance scene_rng : OsRng scene := {|
  rng_try_fill n := on_sim (rng_try_fill n);
  rng_next_u32 := on_sim rng_next_u32;
|}.
#[global] Instance scene_ws : WsHost scene := {|
  ws_connect _ _ o := (Ok tt, o);
  ws_set_read_timeout _ o := (Ok tt, o);
  ws_send _ o := (Ok tt, o);
  ws_read o :=
    match sc_reads o with
    | r :: l => (r, Scene (sc_sim o) l (sc_net o) (sc_time o) (sc_choice o))
    | [] => (Err (WsIo (IoError WouldBlock [])), o)
    end;
  ws_close o := o;
  ticktimer_new o := (true, o);
  elapsed_ms o := (sc_time o, later 1 o);
|}.
#[global] Instance toy_url : UrlMore (H := JsonText.url) := {|
  set_scheme _ u := Some u;
  path_extend l u := Some (u.1, u.2 ++ concat l) : option (@Url JsonText.url);
  host_str u := Some u.1;
  parse_with_params s ps := Ok (s, concat ((λ p, p.1 ++ "="%bs ++ p.2) <$> ps)) : result bytes (@Url JsonText.url);
|}.
#[global] Instance scene_dial : WsDial scene := {|
  tcp_connect _ _ o := (Ok tt, o);
  tls_stream _ o := (Ok tt, o);
  generate_key o := ("key"%bs : bytes, o);
  build_request := Ok;
  ws_client _ o := (Ok tt, o);
|}.
#[global] Instance scene_net : NetHost scene := {|
  create_server o := (Ok 5%Z, o);
  connect_sid s o := (Ok 7%Z, o);
  wifi_state_subscribe _ _ o := (Ok tt, o);
  spawn_thread _ o := (Ok tt, o);
|}.
#[global] Instance scene_wifi : WifiHost scene := {|
  wifi_now o := (sc_time o, o);
  cvar_wait_timeout d o := ((false, [up (sc_time o + 1)]), later (Z.max 1 d) o);
|}.
#[global] Instance scene_link : LinkHost scene := {|
  xous_names_new o := (true, o);
  net_messages o :=
    match sc_net o with
    | m :: l => (m, Scene (sc_sim o) (sc_reads o) l (sc_time o) (sc_choice o))
    | [] => ([], o)
    end;
  modal_turns o := (1, o);
|}.
#[global] Instance scene_modals : Modals scene := {|
  modals_new o := (true, o);
  show_notification _ _ o := (true, o);
  add_list_item _ o := (true, o);
  get_radiobutton t o := (Some t, o);
  get_radio_index o := (Some (sc_choice o), o);
  alert_field _ d o := (Some d, o);
|}.
#[global] Instance scene_clock : OutClock (O := scene).
Proof.
  refine {| unit_ms := 1; now_fine := sc_time |}; intros; simpl; try done; try lia.
  - by rewrite Z.div_1_r.
  - by destruct (sc_reads o).
  - by destruct (sc_net o).
Defined.
#[global] Instance scene_waits : WaitLaws (O := scene).
Proof. refine {| wait_clock := sc_time |}; intros; simpl; [done|lia]. Defined.

(** A frame the server sends, and the two of a link. *)
Definition frame_of (body : bytes) : bytes :=
  pb_encode (put_len 2 (Some (pb_encode (put_len 3 (Some body))))).
Definition uuid_frame : bytes := frame_of (pb_encode (put_len 1 (Some ("session"%bs : bytes)))).
Definition key : option bytes := Some [Byte.x05; Byte.x01].
Definition link_proto : ProvisionMessageProto :=
  {| aci_identity_key_public := key; aci_identity_key_private := key;
     pm_number := Some ("+15550100"%bs : bytes); pm_provisioning_code := Some ("code"%bs : bytes);
     pm_profile_key := Some (replicate 32 Byte.x01); read_receipts := Some true;
     pm_aci := Some ("alice"%bs : bytes); pm_pni := Some ("alice"%bs : bytes);
     pni_identity_key_public := key; pni_identity_key_private := key;
     pm_account_entropy_pool := None |}.
Definition envelope_frame : bytes := frame_of (default []
  (seal_envelope (KeyPair_generate [Byte.x02]) (KeyPair_generate []).1 demo_iv
    (pb_encode (ProvisionMessage_fields link_proto)))).
Definition link_message (code : Z) : result bytes observer_msg :=
  Ok {| om_id := 0; om_memory := Some (Ok code) |}.

Definition smooth : scene :=
  Scene link_sim [Ok (Binary uuid_frame); Ok (Ping []); Ok (Binary envelope_frame)] [] 0 0.
Definition flapping : scene :=
  Scene link_sim [Ok (Binary uuid_frame); Ok (Binary uuid_frame); Ok (Binary envelope_frame)]
    [[(link_message 3, 1%Z)]; []; [(link_message 1, 2%Z)]] 0 0.
Definition demo_config : Config :=
  {| cfg_host := demo_host; cfg_env := Live; cfg_url := ("https://chat.signal.org"%bs : bytes, [] : bytes) |}.
Definition system (o : scene) : Sys (P := flash) (O := scene) :=
  let '(h, x) := WifiObserver_for_test 0 (MkMem [] [] []) in
  MkSys (fresh_account ACCOUNT_DICT demo_host Live) (MkWorld ∅ o []) (MkObs h false x) None [].
End ToyScene.
Import ToyScene.
Abbreviation run o := (Manager.link 20 demo_config "phone"%bs (system o)).

Example smooth_links : (run smooth).1 = Ok true.
Proof. by vm_compute. Qed.
Example flapping_links : (run flapping).1 = Ok true ∧ attempts_in (y_log (run flapping).2) = 2.
Proof. by vm_compute. Qed.


Lemma link_retries_once_witness :
  match run flapping with
  | (x, y') => attempts_in (y_log y') = 2 ∧
      CancellationToken_is_cancelled first_token (w_mem (y_wifi y')) = true
  end.
Proof.
  assert (match (run flapping).1 with Ok b => b | _ => false end &&
          bool_decide (attempts_in (y_log (run flapping).2) = 2) = true) as Hok
    by (vm_compute; reflexivity).
  apply andb_prop in Hok as [Hok Hn]. apply bool_decide_eq_true_1 in Hn.
  destruct (run flapping) as [[[]|e] y'] eqn:E; [|discriminate Hok..].
  destruct (link_retries_once 20 demo_config "phone"%bs (system flapping) (Ok true) y')
    as [_ Hc]; [reflexivity|reflexivity|exact E|discriminate|discriminate|].
  split; [exact Hn|exact (Hc Hn)].
Defined.


