(* ===== verification/AppSpec.v ===== *)
(** What the application guarantees. *)

From S2P Require Import Prelude Hoare RustStd Wire Base64 Json Pddb Signal Stores World Outgoing Send.
From S2P Require Import SendSpec SendWorld Peers WsServer Wifi Keys Rest Prekeys Provision Account.
From S2P Require Import SignalWs Manager App.

Section spec.
Context `{UrlHost, !UrlLib, !UrlMore, IpcBuffer, ComRs, ChatLib}.
Context `{Libsignal} `{!Protocol, !KeyOps, !Base64, !WireFormat, !Crypto, !SerdeJson, !UreqText}.
Context {P O : Type} `{!Pddb P, !Host O, !OsRng O, !WsHost O, !WsDial O, !NetHost O, !WifiHost O}.
Context `{!LinkHost O, !Modals O, !AppHost O}.
Variables (hosted : bool) (fuel : nat).
Implicit Types a : SigChat (P := P) (O := O).

(** * The threads started *)

Definition same_threads a a' : Prop := ap_threads a' = ap_threads a.
#[local] Instance same_threads_preorder : PreOrder same_threads.
Proof. split; [done|]. intros a b c E1 E2. exact (eq_trans E2 E1). Qed.

Lemma on_w_threads {E A} (f : E → stop) (c : ST (World P O) E A) : preserved same_threads (on_w f c).
Proof. intros a. unfold on_w. by destruct (c _). Qed.
Lemma try_w_threads {E A} (c : ST (World P O) E A) : preserved same_threads (try_w c).
Proof. intros a. unfold try_w. by destruct (c _). Qed.
Lemma manager_threads m : preserved same_threads (set_manager m).
Proof. done. Qed.
Lemma run_link_threads m name : preserved same_threads (run_link fuel m name).
Proof. intros a. unfold run_link. by destruct (Manager_link _ _ _ _) as [[b|[]] y]. Qed.
Lemma store_number_threads acc n : preserved same_threads (store_number acc n).
Proof.
  intros a. unfold store_number. destruct (set_number _ _) as [[b|[]] [x w]]; try done.
  unfold mbind, ST_bind, lift. by destruct (map_err _ _).
Qed.
Lemma run_loop_threads {S A} n e (body : S → ST SigChat stop (S + A)) s :
  (∀ s, preserved same_threads (body s)) → preserved same_threads (run_loop n e body s).
Proof.
  intros Hb a. unfold run_loop.
  pose proof (iter_inv body (λ _, same_threads a) (λ _, same_threads a) (λ _, same_threads a) n s a
    (reflexivity a)) as Hi.
  destruct (iter n body s a) as [[[x|x] a']|]; simpl; try done; apply Hi; clear Hi; intros s' a1 H1';
    specialize (Hb s' a1); unfold wp; destruct (body s' a1) as [[[s2|x2]|x2] a2]; simpl in *; by etrans.
Qed.

Create HintDb threads discriminated.
#[local] Hint Resolve same_threads_preorder on_w_threads try_w_threads manager_threads run_link_threads store_number_threads
  preserved_ret preserved_throw preserved_lift preserved_gets : threads.
(** Frames of a composite call: bind by bind, branch by branch. *)
Ltac threads :=
  repeat first
    [ solve [auto with threads]
    | apply preserved_bind; [exact same_threads_preorder| |intros ?]
    | apply preserved_for_each; [exact same_threads_preorder|intros ?]
    | apply run_loop_threads; intros ?
    | match goal with |- preserved _ (match ?x with _ => _ end) => destruct x end ].

Lemma call_threads {A} (f : O → A * O) : preserved same_threads (call f).
Proof. apply on_w_threads. Qed.
Lemma ui_threads u : preserved same_threads (ui u).
Proof. apply on_w_threads. Qed.
#[local] Hint Resolve call_threads ui_threads : threads.
Lemma expect_threads f : preserved same_threads (expect f).
Proof. unfold expect. threads. Qed.
Lemma notify_threads t : preserved same_threads (expect_notify t).
Proof. unfold expect_notify, notify. threads. Qed.
Lemma io_threads {A} (r : result failure A) : preserved same_threads (io_result r).
Proof. unfold io_result. threads. Qed.
#[local] Hint Resolve expect_threads notify_threads io_threads : threads.

Lemma wifi_wait_threads n t : preserved same_threads (wifi_wait n t).
Proof. revert t. induction n as [|n IH]; intros t; simpl; threads. Qed.
#[local] Hint Resolve wifi_wait_threads : threads.
Lemma wifi_threads : preserved same_threads (wifi hosted fuel).
Proof. unfold wifi, wifi_turn, wifi_try_modal. threads. Qed.
Lemma probe_threads u : preserved same_threads (probe_host u).
Proof. unfold probe_host, set_status_text, set_busy_state. threads. Qed.
Lemma config_threads : preserved same_threads signal_config.
Proof. unfold signal_config. threads. Qed.
Lemma account_link_threads c : preserved same_threads (account_link fuel c).
Proof. unfold account_link, link_outcome, name_modal, set_status_text, set_busy_state. threads. Qed.
Lemma account_register_threads c : preserved same_threads (account_register c).
Proof. unfold account_register, number_modal. threads. Qed.
#[local] Hint Resolve wifi_threads probe_threads config_threads account_link_threads
  account_register_threads : threads.
Lemma setup_threads : preserved same_threads (account_setup fuel).
Proof. unfold account_setup. threads. Qed.
Lemma stored_threads : preserved same_threads stored_account.
Proof. unfold stored_account. threads. Qed.
#[local] Hint Resolve setup_threads stored_threads : threads.
Lemma connect_threads : preserved same_threads (connect hosted fuel).
Proof. unfold connect, set_status_text, set_busy_state. threads. Qed.
Lemma dialogue_threads k : preserved same_threads (dialogue_set k).
Proof. unfold dialogue_set. threads. Qed.
#[local] Hint Resolve connect_threads dialogue_threads : threads.
Lemma f1_threads : preserved same_threads on_f1.
Proof. unfold on_f1, show_peer_picker, open_peer, notify. threads. Qed.
Lemma post_threads t : preserved same_threads (post t).
Proof. unfold post, set_busy_state, set_status_text, now_ms. threads. Qed.
#[local] Hint Resolve f1_threads post_threads : threads.

(** ** Receive workers *)

Definition is_receive (t : started) : bool :=
  match t with ReceiveThread _ _ _ _ _ => true | ReplenishThread _ _ _ _ => false end.
Definition receivers (ts : list started) : nat := length (List.filter is_receive ts).
Lemma receivers_app ts ts' : receivers (ts ++ ts') = receivers ts + receivers ts'.
Proof. unfold receivers. by rewrite List.filter_app, length_app. Qed.

Lemma spawn_threads name t (st : O * list started) :
  ∃ l, (spawn name t st).2.2 = st.2 ++ l ∧ receivers l ≤ receivers [t].
Proof.
  unfold spawn. destruct (spawn_thread _ _) as [[]]; simpl.
  - by exists [t].
  - exists []. rewrite app_nil_r. split; [done|]. unfold receivers. simpl. lia.
Qed.
Lemma manager_receivers mgr cid st :
  receivers (Manager_start_receive mgr cid st).2.2 ≤ receivers st.2 + 1.
Proof.
  unfold Manager_start_receive, mbind, ST_bind, lift.
  destruct (ok_or _ _) as [aci|e]; [|simpl; lia]. destruct (ok_or _ _) as [pw|e]; [|simpl; lia].
  set (c := match url_parse _ with Ok _ => _ | Err _ => _ end).
  assert (∃ st', c st = (Ok tt, st') ∧ receivers st'.2 = receivers st.2) as (st1 & -> & <-).
  { unfold c. destruct (url_parse _) as [url|e]; [|by exists st].
    eexists. split; [done|].
    destruct (spawn_threads "xsc-prekey-replenish"%bs
      (ReplenishThread url aci (acc_device_id (mgr_account mgr)) pw) st) as (l & Hl & Hr).
    rewrite Hl, receivers_app. change (receivers [ReplenishThread _ _ _ _]) with 0 in Hr.
    lia. }
  unfold with_err, MainWsWorker_spawn, mbind, ST_bind.
  match goal with |- context [spawn ?n ?t st1] =>
    destruct (spawn_threads n t st1) as (l & Hl & Hr); destruct (spawn n t st1) as [[x|x] st2] end;
    simpl in *; rewrite Hl, receivers_app; unfold receivers in *; simpl in *; lia.
Qed.

(** One more worker at most. *)
Definition one_more a a' : Prop := receivers (ap_threads a') ≤ receivers (ap_threads a) + 1.
Lemma start_receive_one cid a : one_more a (start_receive cid a).2.
Proof.
  unfold start_receive, one_more. destruct (ap_manager a) as [mgr|]; [|simpl; lia].
  pose proof (manager_receivers mgr cid (w_out (ap_world a), ap_threads a)) as Hr.
  by destruct (Manager_start_receive _ _ _) as [r [o ts]].
Qed.
Lemma bind_one {A B} (c : ST SigChat stop A) (f : A → ST SigChat stop B) :
  preserved same_threads c → (∀ x, preserved one_more (f x)) → preserved one_more (c ≫= f).
Proof.
  intros Hc Hf a. specialize (Hc a). unfold mbind, ST_bind. destruct (c a) as [[x|e] a'].
  - specialize (Hf x a'). unfold one_more in *. simpl in Hc. by rewrite <- Hc.
  - unfold one_more. simpl in *. rewrite Hc. lia.
Qed.
Lemma same_one {A} (c : ST SigChat stop A) : preserved same_threads c → preserved one_more c.
Proof. intros Hc a. unfold one_more. rewrite (Hc a). lia. Qed.
Lemma connected_one l : preserved one_more (connected l).
Proof.
  unfold connected. apply bind_one; [auto with threads|]. intros _.
  apply bind_one; [auto with threads|]. intros _. apply bind_one; [auto with threads|]. intros _ a.
  unfold mbind, ST_bind. pose proof (start_receive_one (chat_cid l) a) as Hs.
  by destruct (start_receive (chat_cid l) a) as [[x|e] a'].
Qed.

(** The loop once the client has connected, or has given up. *)
Lemma turn_idle msg l a :
  first_focus l = false → same_threads a (main_turn hosted fuel msg l a).2 ∧
  ∀ l', (main_turn hosted fuel msg l a).1 = Ok (inl l') → first_focus l' = false.
Proof.
  intros Hl. split.
  - enough (preserved same_threads (main_turn hosted fuel msg l)) as Hp by apply Hp.
    unfold main_turn, on_focus. rewrite Hl. threads.
  - intros l' Ht. destruct (main_turn hosted fuel msg l a) as [r a'] eqn:E. simpl in Ht. subst r.
    unfold main_turn in E. destruct (SigchatOp_from (am_id msg)) as [[]|];
      try (by injection E as <- _); try discriminate E.
    + destruct (am_scalar msg ≫= Event_from) as [[]|]; try (by injection E as <- _).
      * apply bind_Ok in E as (l2 & a2 & E & [= <- _]). unfold on_focus in E. rewrite Hl in E.
        apply bind_Ok in E as (l3 & a3 & [= <- _] & E). by apply bind_Ok in E as (? & a4 & _ & [= <- _]).
      * by apply bind_Ok in E as (? & a2 & _ & [= <- _]).
    + apply bind_Ok in E as (x & a2 & _ & E). apply bind_Ok in E as (y & a3 & _ & E).
      by apply bind_Ok in E as (? & a4 & _ & [= <- _]).
Qed.
Lemma loop_idle msgs l a :
  first_focus l = false → same_threads a (main_loop hosted fuel msgs l a).2.
Proof.
  revert l a. induction msgs as [|msg msgs IH]; intros l a Hl; simpl; [done|].
  destruct (turn_idle msg l a Hl) as [Hs Hf]. unfold mbind, ST_bind.
  destruct (main_turn hosted fuel msg l a) as [[[l'|[]]|e] a']; simpl in *; [|done..].
  etrans; [exact Hs|]. by apply IH, Hf.
Qed.
(** Before that. *)
Lemma focus_turn l a :
  first_focus l = true →
  match on_focus hosted fuel l a with
  | (Ok l', a') => if first_focus l' then same_threads a a' else one_more a a'
  | (Err _, a') => one_more a a'
  end.
Proof.
  intros Hl. unfold on_focus. rewrite Hl. unfold mbind, ST_bind.
  pose proof (connect_threads a) as Hc. destruct (connect hosted fuel a) as [[r|e] a1]; simpl in Hc.
  2: { unfold one_more. rewrite Hc. lia. }
  assert (∀ (l1 : locals) a2, ui Redraw a2 = (Ok tt, MkSigChat (ap_manager a2)
    (ap_world (ui Redraw a2).2) (ap_threads a2))) as Hui by done.
  destruct r as [[]|e].
  - pose proof (connected_one l a1) as Ho. destruct (connected l a1) as [[[]|e] a2]; simpl in *.
    + unfold one_more in *. simpl. by rewrite <- Hc.
    + unfold one_more in *. by rewrite <- Hc.
  - simpl. rewrite Hl. exact Hc.
  - simpl. rewrite Hl. exact Hc.
Qed.
(** Only a focus event does more than leave the locals and the threads alone. *)
Lemma turn_not_focus msg l :
  preserved same_threads (main_turn hosted fuel msg l) ∧
    (∀ a l' a', main_turn hosted fuel msg l a = (Ok (inl l'), a') → l' = l) ∨
  SigchatOp_from (am_id msg) = Some OpEvent ∧ am_scalar msg ≫= Event_from = Some Focus.
Proof.
  unfold main_turn. destruct (SigchatOp_from (am_id msg)) as [[]|].
  - destruct (am_scalar msg ≫= Event_from) as [[]|]; [by right| |left..]; [left| |];
      (split; [threads|]); intros a l' a' Ht; try (by injection Ht as <- _).
    by apply bind_Ok in Ht as (u & a1 & _ & [= <- _]).
  - left. split; [threads|]. intros a l' a' Ht. by injection Ht as <- _.
  - left. split; [threads|]. intros a l' a' (x & a1 & _ & Ht)%bind_Ok.
    apply bind_Ok in Ht as (y & a2 & _ & Ht). by apply bind_Ok in Ht as (u & a3 & _ & [= <- _]).
  - left. split; [threads|]. intros a l' a' Ht. by injection Ht as <- _.
  - left. split; [threads|]. intros a l' a' Ht. discriminate Ht.
  - left. split; [threads|]. intros a l' a' Ht. by injection Ht as <- _.
Qed.
Lemma loop_once msgs l a : receivers (ap_threads (main_loop hosted fuel msgs l a).2) ≤ receivers (ap_threads a) + 1.
Proof.
  revert l a. induction msgs as [|msg msgs IH]; intros l a; simpl; [lia|].
  destruct (first_focus l) eqn:Hl.
  2: { pose proof (loop_idle (msg :: msgs) l a Hl) as Hs. unfold same_threads in Hs. simpl in Hs.
       rewrite Hs. lia. }
  destruct (turn_not_focus msg l) as [[Hp _]|[Ho He]].
  - specialize (Hp a). unfold mbind, ST_bind. destruct (main_turn hosted fuel msg l a) as [[[l'|[]]|e] a'];
      unfold same_threads in Hp; simpl in *; rewrite <- Hp; [apply IH|lia|lia].
  - unfold main_turn. rewrite Ho, He. pose proof (focus_turn l a Hl) as Hf. unfold mbind, ST_bind.
    destruct (on_focus hosted fuel l a) as [[l'|e] a']; simpl; [|exact Hf].
    destruct (first_focus l') eqn:Hl'.
    + rewrite <- Hf. apply IH.
    + pose proof (loop_idle msgs l' a' Hl') as Hs. unfold same_threads, one_more in *. by rewrite Hs.
Qed.

Lemma wp_on_w {E A} (f : E → stop) (c : ST (World P O) E A) (Q : A → SigChat → Prop) R a :
  (∀ x w, Q x (MkSigChat (ap_manager a) w (ap_threads a))) →
  (∀ e w, R (f e) (MkSigChat (ap_manager a) w (ap_threads a))) → wp (on_w f c) Q R a.
Proof. intros HQ HR. unfold wp, on_w. destruct (c _) as [[x|e] w]; simpl; auto. Qed.
Lemma wp_try_w {E A} (c : ST (World P O) E A) (Q : result E A → SigChat → Prop) R a :
  (∀ x w, Q x (MkSigChat (ap_manager a) w (ap_threads a))) → wp (try_w c) Q R a.
Proof. intros HQ. unfold wp, try_w. destruct (c _) as [x w]. auto. Qed.
Lemma wp_preserved {A} (c : ST SigChat stop A) (Rl : SigChat → SigChat → Prop) a :
  preserved Rl c → wp c (λ _, Rl a) (λ _, Rl a) a.
Proof. intros Hc. specialize (Hc a). unfold wp. by destruct (c a) as [[x|e] a']. Qed.
Lemma same_then_one a a1 a2 : same_threads a a1 → one_more a1 a2 → one_more a a2.
Proof. unfold same_threads, one_more. by intros <-. Qed.
Lemma one_of_same a a1 : same_threads a a1 → one_more a a1.
Proof. unfold same_threads, one_more. intros ->. lia. Qed.

(** The start: a client that is not ready waits for the first focus. *)
Lemma startup_spec cid a :
  wp (startup hosted fuel cid)
    (λ l a', first_focus l = negb (is_ready a) ∧
       if is_ready a then one_more a a' else same_threads a a') (λ _, one_more a) a.
Proof.
  unfold startup. apply wp_bind, wp_try_w. intros _ w1. apply wp_bind, wp_on_w.
  2: { intros e w. by apply one_of_same. }
  intros f w2. apply wp_bind, wp_gets. change (is_ready (MkSigChat _ _ _)) with (is_ready a).
  destruct (is_ready a); [|by apply wp_ret]. set (l := MkLocals _ _ _). apply wp_bind.
  eapply wp_mono; [apply wp_preserved, connect_threads| |].
  2: { intros e a1 H1'. by apply one_of_same. }
  intros r a1 H1'. apply wp_bind.
  apply (wp_mono _ (λ _, one_more a) _ (λ _, one_more a)); [|by intros [] a2 H2'; apply wp_ret|done].
  assert (same_threads a a1) as Hs by exact H1'. destruct r as [[]|e];
    [|apply wp_ret; by apply one_of_same..].
  eapply wp_mono; [apply wp_preserved, connected_one|..]; intros ? a2 H2'; by eapply same_then_one.
Qed.
Lemma new_threads w : ap_threads (SigChat_new w).2 = [].
Proof.
  unfold SigChat_new. match goal with |- context [?c (MkSigChat None w [])] =>
    assert (preserved same_threads c) as Hp by threads; apply Hp end.
Qed.

(** The receive worker is started at most once.  Over the whole run of the
    program, whatever messages the user interface sends and however often the
    screen gets the focus, at most one thread that receives from the server is
    started, so no message is fetched and acknowledged twice. *)
Theorem receive_started_at_most_once cid msgs (w : World P O) :
  receivers (ap_threads (wrapped_main hosted fuel cid msgs w).2) ≤ 1.
Proof.
  unfold wrapped_main. pose proof (new_threads w) as Hn. destruct (SigChat_new w) as [[[]|e] a].
  2: { simpl in *. rewrite Hn. unfold receivers. simpl. lia. }
  simpl in Hn. pose proof (startup_spec cid a) as Hs. unfold wp in Hs. unfold mbind, ST_bind.
  assert (receivers (ap_threads a) = 0) as H0' by by rewrite Hn.
  destruct (startup hosted fuel cid a) as [[l|e] a1]; [|unfold one_more in Hs; simpl; lia].
  destruct Hs as [Hf Hs]. destruct (is_ready a).
  - pose proof (loop_idle msgs l a1 Hf) as Hl. unfold same_threads, one_more in *. rewrite Hl. lia.
  - pose proof (loop_once msgs l a1) as Hl. unfold same_threads in Hs. rewrite Hs in Hl. lia.
Qed.

(** A failed start is final.  When an account is stored and the program cannot
    connect at its start, no message of the user interface ever starts the receive
    worker: the first focus is used up before the connection is tried, unlike on
    the focus path, where a failed connection leaves it for the next focus. *)
Theorem failed_start_is_final cid a l a1 :
  is_ready a = true → startup hosted fuel cid a = (Ok l, a1) →
  ap_threads a1 = [] → ∀ msgs, ap_threads (main_loop hosted fuel msgs l a1).2 = [].
Proof.
  intros Hr Hst Hn msgs. pose proof (startup_spec cid a) as Hs. unfold wp in Hs.
  rewrite Hst, Hr in Hs. destruct Hs as [Hf _]. by rewrite (loop_idle msgs l a1 Hf).
Qed.

(** * The conversation picker *)

Lemma mapM_elem {A B} (f : A → option B) l k x :
  mapM f l = Some k → x ∈ l → is_Some (f x).
Proof. intros Hm%mapM_Some Hx. apply list_elem_of_lookup in Hx as [i Hi].
  destruct (Forall2_lookup_l _ _ _ _ _ Hm Hi) as (y & _ & Hy). eauto.
Qed.
Lemma clip_off n s : n < length s → is_char_boundary s n = false → clip n s = None.
Proof. intros Hn Hb. unfold clip, slice_to. by rewrite bool_decide_true, Hb. Qed.

(** Pressing F1 can crash the program.  If a stored conversation has a snippet
    longer than 32 bytes whose 32nd byte is inside a character, the picker panics
    before it shows anything, whatever the other conversations are. *)
Theorem picker_panics_inside_character a peers p w :
  on_pddb (E := ()) list_sorted (ap_world a) = (Ok peers, w) → p ∈ peers →
  32 < length (last_snippet p) → is_char_boundary (last_snippet p) 32 = false →
  show_peer_picker a = (Err Panicked_main, MkSigChat (ap_manager a) w (ap_threads a)).
Proof.
  intros Hl Hp Hlen Hb. unfold show_peer_picker. unfold mbind at 1, ST_bind at 1, on_w at 1. rewrite Hl.
  simpl. destruct peers as [|p0 peers]; [by apply not_elem_of_nil in Hp|].
  unfold mbind at 1, ST_bind at 1, lift at 1.
  destruct (mapM label (p0 :: peers)) as [labels|] eqn:Hm; [|done].
  destruct (mapM_elem _ _ _ p Hm Hp) as [x Hx]. unfold label in Hx.
  rewrite (clip_off 32 _ Hlen Hb) in Hx. by destruct (clip 12 _).
Qed.

(** What is picked has the chosen row, and is the only one if rows differ. *)
Lemma pick_label peers labels c p :
  mapM label peers = Some labels → pick peers labels c = Some p → p ∈ peers ∧ label p = Some c.
Proof.
  intros Hm%mapM_Some. unfold pick. destruct (list_find _ labels) as [[i l]|] eqn:Hf; [|done].
  simpl. intros Hp. apply list_find_Some in Hf as (Hi & -> & _).
  split; [by eapply list_elem_of_lookup_2|]. by destruct (Forall2_lookup_lr _ _ _ _ _ _ Hm Hp Hi).
Qed.
Lemma pick_unique peers labels c p :
  mapM label peers = Some labels → NoDup labels → p ∈ peers → label p = Some c →
  pick peers labels c = Some p.
Proof.
  intros Hm%mapM_Some Hnd [i Hi]%list_elem_of_lookup Hc.
  destruct (Forall2_lookup_l _ _ _ _ _ Hm Hi) as (l & Hl & Hpl). rewrite Hc in Hpl. injection Hpl as <-.
  unfold pick. assert (list_find (λ l, l = c) labels = Some (i, c)) as ->; [|done].
  apply list_find_Some. split_and!; [done..|]. intros j y Hj Hlt ->.
  pose proof (NoDup_lookup _ _ _ _ Hnd Hj Hl). lia.
Qed.

(** * Setting up *)

(** Any manager counts as a connected account, also one that a setup left behind
    when it failed. *)
Theorem manager_counts_as_connected a m :
  hosted = true → ap_manager a = Some m →
  ∃ a', connect hosted fuel a = (Ok (Ok true), a') ∧
    w_log (ap_world a') = w_log (ap_world a) ++ [EvUi (StatusText "sigchat.status.online"%bs)].
Proof.
  intros -> Hm. unfold connect, wifi. unfold mbind, ST_bind, gets. simpl. rewrite Hm. simpl.
  unfold mret, ST_ret. rewrite Hm. simpl. by eexists.
Qed.
End spec.

(** * Posting *)
Section posting.
Context `{ProtocolLaws, !LibsignalLaws, !WireFormat, Base64Laws, !SerdeJson, !UrlLib}.
Context `{UrlHost, !UrlMore, IpcBuffer, ComRs, !KeyOps}.
Context {P O : Type} `{PddbLaws P, !Host O}.
Implicit Types a : SigChat (P := P) (O := O).

Lemma recipient_keeps : preserved (keeps_sessions (P := P)) current_recipient.
Proof.
  assert (PreOrder (keeps_sessions (P := P))) as Hp by apply keeps_preorder.
  unfold current_recipient. pose proof @get_string_keeps as Hg.
  apply preserved_bind; [done|auto|]. intros [raw|]; [by apply preserved_lift|].
  apply preserved_bind; [done|auto|]. intros d. apply preserved_bind; [done|by apply preserved_lift|].
  intros raw. by apply preserved_lift.
Qed.

(** What [post_send] does, and what it adds to the log. *)
Definition post_result text ts (w w' : World P O) (l : list event) : Prop :=
  match (current_recipient (w_pddb w)).1 with
  | Err _ => l = []
  | Ok to => ∃ w1 r w2, submit_with_retry text ts to w1 = (r, w2) ∧
      match r with
      | Ok _ => w_pddb w' = (record_outbound (addr_name to) ts text (w_pddb w2)).2 ∧
          ∃ account es ans e, submission account ts (addr_name to) es ans e ∧
            outcome_of ans = Ok tt ∧ e ∈ l
      | Err _ => w_pddb w' = w_pddb w2
      end
  end.
Lemma post_send_spec text ts (w : World P O) :
  sessions_wf session_store (w_pddb w) →
  ∃ w' l, post_send text ts w = (Ok tt, w') ∧ w_log w' = w_log w ++ l ∧ post_result text ts w w' l.
Proof.
  intros Hwf. unfold post_send, post_result. unfold mbind at 1, ST_bind at 1, try at 1, on_pddb at 1.
  pose proof (recipient_keeps (w_pddb w)) as Hk.
  destruct (current_recipient (w_pddb w)) as [[to|e] p1]; simpl in *.
  2: { eexists _, []. split_and!; [done|by rewrite app_nil_r|done]. }
  set (w1 := MkWorld p1 (w_out w) (w_log w)).
  assert (sessions_wf session_store (w_pddb w1)) as Hwf1 by exact (keeps_wf _ _ Hk Hwf).
  unfold mbind at 1, ST_bind at 1, try at 1.
  destruct (submit_with_retry text ts to w1) as [r w2] eqn:Hs.
  destruct (production_log text ts to w1 w2 r Hwf1 Hs) as [l Hl].
  destruct r as [[]|e].
  - destruct (production_send_spec text ts to w1 w2 Hwf1 Hs)
      as (account & l0 & e & es & ans & l1 & _ & Hl' & Hsub & Hout & _).
    unfold mbind at 1, ST_bind at 1, try at 1, on_pddb at 1.
    destruct (record_outbound (addr_name to) ts text (w_pddb w2)) as [x p3] eqn:Hrec.
    eexists _, l. split_and!; [done|exact Hl|]. exists w1, (Ok tt), w2. split_and!; [done|by rewrite Hrec|].
    exists account, es, ans, e. split_and!; [done..|]. rewrite Hl in Hl'. simplify_list_eq. set_solver.
  - eexists _, l. split_and!; [done|exact Hl|]. by exists w1, (Err e), w2.
Qed.

(** A post is echoed first and leaves the screen usable.  [post] never fails:
    it marks the screen busy, shows the text as the user's own, then sends, and
    clears the busy mark whatever the send did.  Without a recipient nothing is
    sent; the conversation summary is updated exactly when the server accepted a
    submission to the recipient among the requests made. *)
Theorem post_echoes_first text a :
  sessions_wf session_store (w_pddb (ap_world a)) →
  ∃ ts w w' l a', post text a = (Ok tt, a') ∧ w_pddb w = w_pddb (ap_world a) ∧
    w_log (ap_world a') = w_log (ap_world a) ++
      [EvUi (BusyState true); EvUi (StatusText "sending..."%bs); EvUi (PostAdd "me"%bs ts text);
       EvUi Redraw] ++ l ++ [EvUi (BusyState false)] ∧
    w_pddb (ap_world a') = w_pddb w' ∧ post_result text ts w w' l.
Proof.
  intros Hwf. unfold post, now_ms, set_busy_state, set_status_text, ui, call, on_w, mbind, ST_bind, mret, ST_ret.
  simpl. unfold World.on_out. simpl. destruct (system_now _) as [t o]. simpl.
  set (ts := (_ mod _)%Z). set (w := MkWorld _ o _).
  destruct (post_send_spec text ts w) as (w' & l & -> & Hl & Hr); [done|]. simpl.
  exists ts, w, w', l. eexists. split_and!; [done|done| |done|done].
  simpl. rewrite Hl. simpl. by rewrite <- !app_assoc.
Qed.
End posting.
