(* ===== verification/EffectSpec.v ===== *)
(** The whole client's use of the store.

    Sending, receiving, linking, replenishing and the application change the
    PDDB only by the writes of [client_write] (StoreEffect.v), from every state and
    whatever the network, the user and libsignal do; the address of every session,
    identity and recipient pointer they write has a device id in 1..=127.  The
    consequences are invariants of the store that no run can break. *)

From S2P Require Import Prelude Hoare RustStd Wire Base64 Json Pddb Signal Stores World Outgoing.
From S2P Require Import Send SendWorld Peers Receive Keys Rest Prekeys Provision Account AccountSpec.
From S2P Require Import StoreEffect WsServer Wifi SignalWs Manager App.

(** A sender certificate carries a [DeviceId]. *)
Class SenderLaws `{Protocol} : Prop :=
  sender_device_range c d : sender_device_id c = Ok d → (1 ≤ d ≤ 127)%Z.
#[global] Instance toy_sender_laws : SenderLaws (H := Toy.libsignal).
Proof. by intros c d [= <-]. Qed.

(** * Sending *)
Section send.
Context `{LibsignalLaws} `{!KeyOps} `{!Protocol} `{!ProtocolLaws} `{Base64Laws}.
Context `{WireFormat, SerdeJson, UrlLib} {P O : Type} `{PddbLaws P, Host O}.
Abbreviation W := (World P O).

Lemma session_effect a : dev_ok a → session_calls (W := W) weffect a.
Proof. intros Ha. split; intros; apply on_pddb_effect; auto with effect. Qed.
Lemma identity_effect a : dev_ok a → identity_calls (W := W) weffect a.
Proof. intros Ha. unfold identity_calls. split_and!; intros; apply on_pddb_effect; auto with effect. Qed.
Lemma prekey_effect : prekey_calls (W := W) weffect.
Proof. unfold prekey_calls. split_and!; intros; apply on_pddb_effect; auto with effect. Qed.
Hint Resolve session_effect identity_effect prekey_effect : effect.

Lemma address_ok e u d a : ok_or e (device_protocol_address u d) = Ok (E := SendError) a → dev_ok a.
Proof.
  unfold device_protocol_address. destruct (u8_try_from d) as [x|]; [|done]. simpl.
  destruct (DeviceId_new x) as [y|] eqn:Ed; [|done]. intros [= <-].
  by apply DeviceId_new_range in Ed as [-> ?].
Qed.
Lemma checked_ok e d d' : checked_device e d = Ok d' → (1 ≤ d' ≤ 127)%Z.
Proof. intros (x & _ & Hx)%result_bind_Ok. by eapply checked_new. Qed.
Lemma checked_addr_ok e d d' u : checked_device e d = Ok d' → dev_ok (Addr u d').
Proof. apply checked_ok. Qed.
Hint Resolve address_ok checked_addr_ok : effect.

Lemma now_effect {E} : preserved (weffect (P := P) (O := O)) (now (E := E)).
Proof. apply on_out_effect. Qed.
Lemma system_time_effect {E} : preserved (weffect (P := P) (O := O)) (system_time (E := E)).
Proof. apply on_out_effect. Qed.
Lemma os_rng_effect {E} : preserved (weffect (P := P) (O := O)) (os_rng (E := E)).
Proof. apply on_out_effect. Qed.
Hint Resolve now_effect system_time_effect os_rng_effect : effect.

Lemma encrypt_effect c ts a l :
  dev_ok a → preserved (weffect (P := P) (O := O)) (encrypt_padded_for_recipient c ts a l).
Proof.
  intros Ha. unfold encrypt_padded_for_recipient.
  pose proof (session_effect a Ha) as [Hl Hs]. pose proof (identity_effect a Ha) as Hi.
  apply preserved_bind; [exact _|by apply preserved_with_err|]. intros s.
  eff. apply encrypt_frame; [exact _|by split|done].
Qed.
Lemma process_effect c a b :
  dev_ok a → preserved (weffect (P := P) (O := O)) (process_bundle c a b).
Proof.
  intros Ha. unfold process_bundle. eff. apply process_frame; auto with effect.
Qed.
Hint Resolve encrypt_effect process_effect : effect.
Lemma get_json_effect u a : preserved (weffect (P := P) (O := O)) (get_json u a).
Proof. change (get_json u a) with (ureq_get_json (P := P) (O := O) u a). unfold ureq_get_json. eff. Qed.
Lemma put_json_effect u a b : preserved (weffect (P := P) (O := O)) (put_json u a b).
Proof. change (put_json u a b) with (ureq_put_json (P := P) (O := O) u a b). unfold ureq_put_json. eff. Qed.
Lemma ids_effect {E} u : preserved (weffect (P := P) (O := O)) (device_ids_for (E := E) u).
Proof. apply on_pddb_effect, device_ids_effect. Qed.
Lemma delete_at_effect {E} a : preserved (weffect (P := P) (O := O)) (delete_at (E := E) a).
Proof. apply on_pddb_effect, ignore_effect, delete_key_effect, session_deletable. Qed.
Lemma sleeper_effect {E} ms : preserved (weffect (P := P) (O := O)) (sleeper (E := E) ms).
Proof. apply sleep_effect. Qed.
Lemma drop_sessions_effect u ids : preserved (weffect (P := P) (O := O)) (drop_sessions u ids).
Proof. unfold drop_sessions. eff. apply delete_at_effect. Qed.
Hint Resolve get_json_effect put_json_effect ids_effect delete_at_effect sleeper_effect
  drop_sessions_effect : effect.

Variable account : AccountInfo.
Lemma fetch_effect r id : preserved (weffect (P := P) (O := O)) (fetch_missing_device account r id).
Proof. unfold fetch_missing_device, process_one_prekey_bundle. eff. Qed.
Lemma establish_effect u x ik es : preserved (weffect (P := P) (O := O)) (establish_devices u x ik es).
Proof. induction es; simpl; eff. Qed.
Hint Resolve fetch_effect establish_effect : effect.
Lemma discover_effect u x :
  preserved (weffect (P := P) (O := O)) (discover_and_establish_account_devices account u x).
Proof. unfold discover_and_establish_account_devices. eff. Qed.
Lemma entity_effect c ts u l d :
  preserved (weffect (P := P) (O := O)) (encrypt_entity c ts u l d).
Proof. unfold encrypt_entity. eff. Qed.
Lemma submit_messages_effect u es ts :
  preserved (weffect (P := P) (O := O)) (submit_messages account u es ts).
Proof. unfold submit_messages. eff. Qed.
Lemma after_submit_effect n h r : preserved (weffect (P := P) (O := O)) (after_submit account n h r).
Proof. unfold after_submit, handle_mismatched_devices, handle_stale_devices. eff. Qed.
Hint Resolve discover_effect entity_effect submit_messages_effect after_submit_effect : effect.
Lemma attempt_effect c ts u f x l s n :
  preserved (weffect (P := P) (O := O)) (send_attempt account c ts u f x l s n).
Proof. unfold send_attempt, submit_to. eff. Qed.
Lemma submit_padded_effect c ts u f x l :
  preserved (weffect (P := P) (O := O)) (submit_padded_with_retry_generic account c ts u f x l).
Proof.
  unfold submit_padded_with_retry_generic. apply preserved_bind; [exact _|apply now_effect|].
  intros s. apply preserved_run_loop; [exact _|]. intros. apply attempt_effect.
Qed.
Hint Resolve submit_padded_effect : effect.
Lemma submit_stores_effect t ts r l :
  preserved (weffect (P := P) (O := O)) (submit_with_retry_with_stores account t ts r l).
Proof.
  unfold submit_with_retry_with_stores, submit_with_retry_generic, submit_sync_transcript_generic. eff.
Qed.
End send.

Section submit.
Context `{LibsignalLaws} `{!KeyOps} `{!Protocol} `{!ProtocolLaws} `{Base64Laws}.
Context `{WireFormat, SerdeJson, UrlLib} {P O : Type} `{PddbLaws P, Host O}.
Lemma read_from_pddb_effect : preserved (effect (P := P)) read_from_pddb.
Proof. unfold read_from_pddb. eff. Qed.
Lemma submit_effect t ts r : preserved (weffect (P := P) (O := O)) (submit_with_retry t ts r).
Proof.
  unfold submit_with_retry. apply preserved_bind; [exact _| |intros account].
  - apply on_pddb_effect, read_from_pddb_effect.
  - apply preserved_lift_bind; [exact _|]. intros d _. apply submit_stores_effect.
Qed.
Lemma seed_effect `{!StrDebug} : preserved (weffect (P := P) (O := O)) seed_demo_recipient_from_env.
Proof. unfold seed_demo_recipient_from_env. eff. Qed.
End submit.

(** * Receiving *)
Section receive.
Context `{LibsignalLaws} `{!KeyOps} `{!Protocol} `{!ProtocolLaws} `{!SenderLaws} `{Base64Laws}.
Context `{WireFormat} {P O : Type} `{PddbLaws P, Host O, WsHost O}.

Lemma post_dialogue_effect u a ts t f :
  preserved (weffect (P := P) (O := O)) (post_to_peer_dialogue u a ts t f).
Proof. unfold post_to_peer_dialogue, cf_post_add, cf_dialogue_set. eff. Qed.
Hint Resolve post_dialogue_effect : effect.
Lemma deliver_effect pt remote ts :
  dev_ok remote → preserved (weffect (P := P) (O := O)) (deliver_content pt remote ts).
Proof.
  intros Hr. unfold deliver_content, deliver_data_message, deliver_sync_message, cf_redraw. eff.
Qed.
Hint Resolve deliver_effect : effect.
Lemma plaintext_effect remote ts o :
  dev_ok remote → preserved (weffect (P := P) (O := O)) (deliver_plaintext remote ts o).
Proof. intros Hr. unfold deliver_plaintext. eff. Qed.
Lemma decrypt_prekey_effect raw r l :
  dev_ok r → preserved (weffect (P := P) (O := O)) (decrypt_prekey_bundle raw r l).
Proof.
  intros Hr. unfold decrypt_prekey_bundle, draw_entropy. eff.
  apply decrypt_prekey_frame; [exact _|by apply session_effect|by apply identity_effect|apply prekey_effect].
Qed.
Lemma decrypt_whisper_effect raw r :
  dev_ok r → preserved (weffect (P := P) (O := O)) (decrypt_whisper raw r).
Proof.
  intros Hr. unfold decrypt_whisper, draw_entropy. eff.
  apply decrypt_signal_frame; [exact _|by apply session_effect|by apply identity_effect].
Qed.
Hint Resolve plaintext_effect decrypt_prekey_effect decrypt_whisper_effect : effect.

Lemma sender_ok u c d : sender_device_id c = Ok d → dev_ok (Addr u d).
Proof. apply sender_device_range. Qed.
Lemma source_ok u d d' : DeviceId_new d = Ok d' → dev_ok (Addr u d').
Proof. by intros [-> ?]%DeviceId_new_range. Qed.
Hint Resolve sender_ok source_ok : effect.

Lemma dispatch_effect raw local : preserved (weffect (P := P) (O := O)) (dispatch_envelope raw local).
Proof.
  unfold dispatch_envelope, dispatch_sealed. eff.
  apply sealed_sender_frame; [exact _|]. apply on_pddb_effect, key_pair_effect.
Qed.
Hint Resolve dispatch_effect : effect.
Lemma send_ws_effect m : preserved (weffect (P := P) (O := O)) (send_ws m).
Proof. unfold send_ws. eff. Qed.
Hint Resolve send_ws_effect : effect.
Lemma handle_request_effect req local : preserved (weffect (P := P) (O := O)) (handle_request req local).
Proof. unfold handle_request, send_ack. eff. Qed.
Hint Resolve handle_request_effect : effect.
Lemma session_turn_effect local s : preserved (weffect (P := P) (O := O)) (session_turn local s).
Proof. unfold session_turn, ping_step, app_keepalive_step, Receive.read_step, tick. eff. Qed.
Lemma session_start_effect : preserved (weffect (P := P) (O := O)) session_start.
Proof. unfold session_start, tick. eff. Qed.
Lemma close_ws_effect : preserved (weffect (P := P) (O := O)) Receive.close_ws.
Proof. unfold Receive.close_ws. eff. Qed.
Lemma reconnect_sleep_effect ms : preserved (weffect (P := P) (O := O)) (reconnect_sleep ms).
Proof. unfold reconnect_sleep. eff. Qed.
End receive.
#[export] Hint Resolve session_turn_effect session_start_effect close_ws_effect
  reconnect_sleep_effect submit_effect seed_effect : effect.

(** * Linking

    Everything but [Account::link] leaves the account and the store alone. *)
Section link.
Context `{UrlHost, !UrlLib, !UrlMore, IpcBuffer, ComRs}.
Context `{LibsignalLaws} `{!KeyOps} `{!KeyLaws} `{Base64Laws} `{!WireFormat, !Crypto, !SerdeJson, !UreqText}.
Context {P O : Type} `{!Pddb P} `{!PddbLaws P}.
Context `{!Host O, !OsRng O, !OsRngLaws O, !WsHost O, !WsDial O, !NetHost O, !WifiHost O}.
Context `{!LinkHost O, !Modals O}.
Implicit Types y : Sys (P := P) (O := O).

Definition yeffect y y' : Prop := aeffect (y_account y, y_world y) (y_account y', y_world y').
#[local] Instance yeffect_preorder : PreOrder yeffect.
Proof. split; [intros y; apply aeffect_preorder|]. intros y1 y2 y3. apply aeffect_preorder. Qed.
Lemma yeffect_same y y' :
  y_account y' = y_account y → w_pddb (y_world y') = w_pddb (y_world y) → yeffect y y'.
Proof.
  intros Ha Hw. split; simpl; [by rewrite Ha|]. intros _. unfold weffect. rewrite Hw. reflexivity.
Qed.
Lemma out_yeffect {A} (f : O → A * O) : preserved yeffect (Manager.on_out f).
Proof. intros y. unfold Manager.on_out. destruct (f _). by apply yeffect_same. Qed.
Lemma o_yeffect {E A} (g : E → stop) (c : ST O E A) : preserved yeffect (on_o g c).
Proof. intros y. unfold on_o. destruct (c _). by apply yeffect_same. Qed.
Lemma mem_yeffect {A} (f : Mem → A * Mem) : preserved yeffect (on_mem_sys f).
Proof. intros y. unfold on_mem_sys. destruct (f _). by apply yeffect_same. Qed.
Lemma note_yeffect e : preserved yeffect (note e).
Proof. intros y. by apply yeffect_same. Qed.
Lemma server_yeffect r : preserved (E := stop) yeffect (modify (set_server r)).
Proof. intros y. by apply yeffect_same. Qed.
Lemma interfere_yeffect : preserved yeffect interfere.
Proof. intros y. unfold interfere. destruct (observe _ _). by apply yeffect_same. Qed.
Lemma turn_yeffect : preserved yeffect server_turn.
Proof.
  intros y. unfold server_turn. destruct (y_server y) as [r|]; [|reflexivity].
  destruct (r_thread r); [|reflexivity..]. destruct (turn _ _) as [[[]|[]] w]; by apply yeffect_same.
Qed.
Hint Resolve yeffect_preorder out_yeffect o_yeffect mem_yeffect note_yeffect server_yeffect
  interfere_yeffect turn_yeffect preserved_gets : effect.
Lemma turns_yeffect n : preserved yeffect (server_turns n).
Proof. induction n; simpl; eff. Qed.
Lemma await_yeffect {A} n (f : Server → option A) : preserved yeffect (await n f).
Proof.
  induction n as [|n IH]; intros y; simpl; destruct (_ ≫= _); try reflexivity.
  by apply (preserved_bind yeffect server_turn (λ _, await n f) turn_yeffect (λ _, IH)).
Qed.
Lemma start_yeffect d c flag : preserved yeffect (start_thread d c flag).
Proof.
  intros y. unfold start_thread. destruct (worker_start _ _) as [[[]|] w]; by apply yeffect_same.
Qed.
Lemma enqueue_yeffect m : preserved yeffect (enqueue m).
Proof. intros y. by apply yeffect_same. Qed.
Hint Resolve turns_yeffect await_yeffect start_yeffect enqueue_yeffect : effect.
Lemma spawn_yeffect d : preserved yeffect (SignalWsServer_spawn d).
Proof. unfold SignalWsServer_spawn. eff. Qed.
Lemma wait_yeffect n : preserved yeffect (wait_and_take_binary n).
Proof. unfold wait_and_take_binary. eff. Qed.
Lemma cancel_yeffect n : preserved yeffect (Manager.cancel n).
Proof. unfold Manager.cancel. eff. Qed.
Lemma fail_closed_yeffect {A} : preserved yeffect (fail_closed (A := A)).
Proof. unfold fail_closed, Manager.close_ws. eff. Qed.
Hint Resolve spawn_yeffect wait_yeffect cancel_yeffect fail_closed_yeffect : effect.
Lemma uuid_yeffect c : preserved yeffect (provisioning_uuid c).
Proof. unfold provisioning_uuid. eff. Qed.
Lemma code_yeffect u : preserved yeffect (link_code u).
Proof.
  unfold link_code. apply preserved_bind; [exact _| |intros; eff].
  intros y. unfold on_world, generate_identity_key_pair, draw_entropy, World.on_out, mbind, ST_bind.
  destruct (os_entropy _). by apply yeffect_same.
Qed.
Lemma result_yeffect r k : preserved yeffect (attempt_result r k).
Proof. unfold attempt_result. eff. Qed.
Hint Resolve uuid_yeffect code_yeffect result_yeffect : effect.
Lemma attempt_yeffect n c t : preserved yeffect (provision_one_attempt n c t).
Proof. unfold provision_one_attempt. eff. intros y. by apply yeffect_same. Qed.
Lemma try_io_yeffect {A} (c : ST Sys stop A) : preserved yeffect c → preserved yeffect (try_io c).
Proof. intros Hc y. specialize (Hc y). unfold try_io. by destruct (c y) as [[|[]] y']. Qed.
Lemma wait_link_yeffect n : preserved yeffect (wait_link n).
Proof.
  intros y. unfold wait_link. destruct (wait_for_connection _ _ _) as [[r [o x]]|]; by apply yeffect_same.
Qed.
Hint Resolve attempt_yeffect try_io_yeffect wait_link_yeffect : effect.
Lemma provision_yeffect n c : preserved yeffect (provision n c).
Proof. unfold provision, new_token. eff. Qed.
Lemma account_link_yeffect name msg : preserved yeffect (Manager.account_link name msg).
Proof.
  intros y. unfold Manager.account_link.
  pose proof (link_effect name msg (y_account y, y_world y)) as Hl.
  by destruct (Account.link _ _ _) as [[|[]] [a w]].
Qed.
Hint Resolve account_link_yeffect provision_yeffect : effect.
Lemma scoped_yeffect {A} (c : ST Sys stop A) : preserved yeffect c → preserved yeffect (scoped c).
Proof.
  intros Hc y. specialize (Hc y). unfold scoped. destruct (c y) as [[b|[]] y1]; try done;
    (etrans; [exact Hc|apply note_yeffect]).
Qed.
Lemma manager_link_yeffect n c name : preserved yeffect (Manager.link n c name).
Proof.
  unfold Manager.link. apply preserved_bind; [exact _| |intros _].
  - intros y. unfold make_observer. destruct (wifi_now _) as [t o].
    destruct (WifiObserver_new _ _ _) as [[[h x]|] o1]; [by apply yeffect_same|].
    destruct (WifiObserver_for_test _ _). by apply yeffect_same.
  - apply scoped_yeffect. unfold link_with. eff.
Qed.
End link.

(** * The application *)
Section app.
Context `{UrlHost, !UrlLib, !UrlMore, IpcBuffer, ComRs, ChatLib}.
Context `{LibsignalLaws} `{!KeyOps} `{!KeyLaws} `{!Protocol} `{!ProtocolLaws} `{Base64Laws}.
Context `{!WireFormat, !Crypto, !SerdeJson, !UreqText}.
Context {P O : Type} `{!Pddb P} `{!PddbLaws P}.
Context `{!Host O, !OsRng O, !OsRngLaws O, !WsHost O, !WsDial O, !NetHost O, !WifiHost O}.
Context `{!LinkHost O, !Modals O, !AppHost O}.
Variables (hosted : bool) (fuel : nat).
Implicit Types a : SigChat (P := P) (O := O).

Definition app_effect a a' : Prop := weffect (ap_world a) (ap_world a').
#[export] Instance app_effect_preorder : PreOrder app_effect.
Proof. split; [intros a; apply weffect_preorder|]. intros a1 a2 a3. unfold app_effect. by etrans. Qed.

Lemma on_w_effect {E A} (f : E → stop) (c : ST (World P O) E A) :
  preserved weffect c → preserved app_effect (on_w f c).
Proof. intros Hc a. unfold on_w. specialize (Hc (ap_world a)). by destruct (c _). Qed.
Lemma try_w_effect {E A} (c : ST (World P O) E A) :
  preserved weffect c → preserved app_effect (try_w c).
Proof. intros Hc a. unfold try_w. specialize (Hc (ap_world a)). by destruct (c _). Qed.
Lemma set_manager_effect m : preserved app_effect (set_manager m).
Proof. intros a. apply weffect_preorder. Qed.
Lemma call_effect {A} (f : O → A * O) : preserved app_effect (call f).
Proof. apply on_w_effect, on_out_effect. Qed.
Lemma ui_effect u : preserved app_effect (ui u).
Proof. apply on_w_effect, emit_effect. Qed.
Hint Resolve app_effect_preorder on_w_effect try_w_effect set_manager_effect call_effect ui_effect : effect.
Lemma expect_effect f : preserved app_effect (expect f).
Proof. unfold expect. eff. Qed.
Lemma notify_effect t : preserved app_effect (notify t).
Proof. unfold notify. eff. Qed.
Hint Resolve expect_effect notify_effect : effect.
Lemma expect_notify_effect t : preserved app_effect (expect_notify t).
Proof. unfold expect_notify. eff. Qed.
Lemma io_effect {A} (r : result failure A) : preserved app_effect (io_result r).
Proof. unfold io_result. eff. Qed.
Hint Resolve expect_notify_effect io_effect : effect.
Lemma wifi_wait_effect n t : preserved app_effect (wifi_wait n t).
Proof. revert t. induction n as [|n IH]; intros t; simpl; eff. Qed.
Hint Resolve wifi_wait_effect : effect.
Lemma wifi_effect : preserved app_effect (wifi hosted fuel).
Proof.
  unfold wifi. eff. apply preserved_run_loop; [exact _|]. intros u. unfold wifi_turn, wifi_try_modal. eff.
Qed.
Lemma config_effect : preserved app_effect signal_config.
Proof. unfold signal_config. eff. Qed.
Lemma probe_effect u : preserved app_effect (probe_host u).
Proof. unfold probe_host, set_status_text, set_busy_state. eff. Qed.
Hint Resolve wifi_effect config_effect probe_effect : effect.

(** An account of the client's dictionary, where one was read or created. *)
Definition ours (r : result failure Account) : Prop :=
  ∀ acc, r = Ok acc → pddb_dict acc = ACCOUNT_DICT.
Definition ours_io (r : result io_error Account) : Prop :=
  ∀ acc, r = Ok acc → pddb_dict acc = ACCOUNT_DICT.
Lemma try_yields {A} (c : ST P failure A) (Q : A → Prop) :
  yields c Q → yields (try_w (O := O) (on_pddb c)) (λ r, ∀ x, r = Ok x → Q x).
Proof.
  intros Hc a r a' Hr x ->. unfold try_w, on_pddb in Hr.
  destruct (c (w_pddb (ap_world a))) as [r p] eqn:Er. injection Hr as -> _. by eapply Hc.
Qed.
Lemma io_yields (r : result failure Account) : ours r → yields (io_result (P := P) (O := O) r) ours_io.
Proof.
  intros Hr. destruct r as [x|[e|]]; simpl; [|by apply yields_ret|by apply yields_throw].
  apply yields_ret. intros y [= <-]. by apply Hr.
Qed.
Lemma run_link_effect m name :
  pddb_dict (mgr_account m) = ACCOUNT_DICT → preserved app_effect (run_link fuel m name).
Proof.
  intros Hm a. unfold run_link, Manager_link.
  pose proof (manager_link_yeffect fuel (mgr_config m) name (sys_of m (ap_world a))) as [_ Hy].
  specialize (Hy Hm). by destruct (Manager.link _ _ _ _) as [[|[]] y].
Qed.
Lemma store_number_effect acc n :
  pddb_dict acc = ACCOUNT_DICT → preserved app_effect (store_number acc n).
Proof.
  intros Hd a. unfold store_number. pose proof (set_number_effect n (acc, ap_world a)) as [_ Hs].
  specialize (Hs Hd). destruct (set_number _ _) as [[u|[]] [acc' w]]; [|done..].
  unfold mbind, ST_bind, lift. by destruct (map_err _ _).
Qed.
Lemma link_outcome_effect r : preserved app_effect (link_outcome r).
Proof.
  pose proof (read_account_effect (P := P) SIGCHAT_ACCOUNT).
  pose proof (delete_account_effect (P := P) : preserved _ (delete_account SIGCHAT_ACCOUNT)).
  unfold link_outcome, set_busy_state. eff.
Qed.
Lemma manager_dict acc t m : map_err of_failure (Manager_new acc t) = Ok m → mgr_account m = acc.
Proof. intros Hm%map_err_Ok. by apply result_bind_Ok in Hm as (c & _ & [= <-]). Qed.

Lemma account_link_effect c : preserved app_effect (App.account_link fuel c).
Proof.
  unfold App.account_link, set_status_text, set_busy_state.
  apply preserved_bind; [exact _|eff|intros _]. apply preserved_bind; [exact _|eff|intros _].
  eapply preserved_yields; [exact _| |apply try_yields, new_yields|].
  { apply try_w_effect, on_pddb_effect, new_effect. }
  intros r Hr. eapply preserved_yields; [exact _|eff|by apply io_yields|]. intros [acc|e] Ha; [|eff].
  apply preserved_lift_bind; [exact _|]. intros m Hm%manager_dict.
  unfold name_modal. eff; [|apply link_outcome_effect].
  apply run_link_effect. rewrite Hm. by apply Ha.
Qed.
Lemma account_register_effect c : preserved app_effect (account_register c).
Proof.
  unfold account_register, number_modal. apply preserved_bind; [exact _|eff|intros _].
  apply preserved_bind; [exact _|eff|]. intros [n|e]; [|eff].
  apply preserved_bind; [exact _| |intros _; eff].
  eapply preserved_yields; [exact _| |apply try_yields, new_yields|].
  { apply try_w_effect, on_pddb_effect, new_effect. }
  intros r Hr. eapply preserved_yields; [exact _|eff|by apply io_yields|]. intros [acc|e] Ha; [|eff].
  by apply store_number_effect, Ha.
Qed.
Hint Resolve account_link_effect account_register_effect read_account_effect : effect.
Lemma setup_effect : preserved app_effect (account_setup fuel).
Proof. unfold account_setup. eff. Qed.
Lemma stored_effect : preserved app_effect stored_account.
Proof. unfold stored_account. eff. Qed.
Hint Resolve setup_effect stored_effect : effect.
Lemma connect_effect : preserved app_effect (connect hosted fuel).
Proof. unfold connect, set_status_text, set_busy_state. eff. Qed.
Lemma start_receive_effect cid : preserved app_effect (start_receive cid).
Proof.
  intros a. unfold start_receive. destruct (ap_manager a) as [m|]; [|reflexivity].
  destruct (Manager_start_receive _ _ _) as [r [o ts]]. apply effect_preorder.
Qed.
Lemma dialogue_effect k : preserved app_effect (dialogue_set k).
Proof. unfold dialogue_set. eff. Qed.
Hint Resolve connect_effect start_receive_effect dialogue_effect : effect.
Lemma open_peer_effect u d : preserved app_effect (open_peer u d).
Proof.
  unfold open_peer. eff. apply try_w_effect, on_pddb_effect, set_focused_effect. by eapply source_ok.
Qed.
Lemma f1_effect : preserved app_effect on_f1.
Proof. unfold on_f1, show_peer_picker. eff. apply open_peer_effect. Qed.
Lemma post_send_effect t ts : preserved (weffect (P := P) (O := O)) (post_send t ts).
Proof. unfold post_send. eff. Qed.
Hint Resolve post_send_effect : effect.
Lemma post_effect t : preserved app_effect (post t).
Proof. unfold post, set_busy_state, set_status_text, now_ms. eff. Qed.
Hint Resolve f1_effect post_effect : effect.
Lemma connected_effect l : preserved app_effect (connected l).
Proof. unfold connected. eff. Qed.
Hint Resolve connected_effect : effect.
Lemma main_turn_effect msg l : preserved app_effect (main_turn hosted fuel msg l).
Proof. unfold main_turn, on_focus. eff. Qed.
Lemma startup_effect cid : preserved app_effect (startup hosted fuel cid).
Proof. unfold startup. eff. Qed.
Lemma new_app_effect w : weffect w (ap_world (SigChat_new w).2).
Proof.
  unfold SigChat_new. match goal with |- context [(?c) (MkSigChat None w [])] =>
    assert (preserved app_effect c) as Hc; [|exact (Hc (MkSigChat None w []))] end.
  eff.
Qed.
End app.
