(* ===== verification/System.v ===== *)
(** The client as a system of threads over one store.

    The main loop (main.rs) answers one message of the user interface at a time;
    beside it run the threads [start_receive] started (manager.rs): the receive
    worker (main_ws.rs) and the one-shot replenishment.  [thread_turn] cuts a thread
    at the points where it goes round a loop, [receive_turns_follow_loop] shows that
    the cut is the loop of Receive.v, and [system_step] interleaves the turns in any
    order.  A turn is atomic: two threads do not interleave inside one.

    The theorems hold of every state any interleaving reaches, whatever the network,
    the user and the peers do.  The store follows the abstract specification
    [client_write]; every entry of the client's own dictionaries has its type, so
    nothing it reads back fails to decode and the well-formedness the send path
    assumes always holds; what must not be forgotten is never deleted; the
    dictionaries of other programs are not touched. *)

From S2P Require Import Prelude Hoare RustStd Wire Base64 Json Pddb Signal Stores World Outgoing.
From S2P Require Import Send SendWorld Peers Receive Keys Rest Prekeys Provision Account AccountSpec.
From S2P Require Import StoreEffect WsServer Wifi SignalWs Manager App AppSpec EffectSpec.

(** Where a thread is between two turns. *)
Inductive phase :=
  | Starting
  | Connecting (local : ProtocolAddress) (backoff_ms : Z)
  | InSession (local : ProtocolAddress) (s : session_state)
  | Ended.

(** * The threads *)
Section threads.
Context `{UrlLib} `{Libsignal} `{!Protocol, !KeyOps, !Base64, !WireFormat, !SerdeJson, !UreqText}.
Context {P O : Type} `{!Pddb P, !Host O, !OsRng O, !WsHost O}.
Abbreviation handler := (ST (World P O) panic).

(** The end of a turn of [worker_loop]: sleep, then double the backoff. *)
Definition reconnect (local : ProtocolAddress) (backoff_ms : Z) : handler phase :=
  reconnect_sleep backoff_ms;;
  mret (Connecting local (Z.min (backoff_ms * 2) RECONNECT_BACKOFF_MAX_MS)).
Definition end_session (local : ProtocolAddress) : handler phase :=
  Receive.close_ws;; reconnect local RECONNECT_BACKOFF_INITIAL_MS.

Definition receive_turn (aci : bytes) (device_id : Z) (password host : bytes) (ph : phase) :
    handler phase :=
  match ph with
  | Starting =>
      if (device_id =? 0)%Z || (127 <? device_id)%Z then mret Ended
      else match DeviceId_new device_id with
           | Err _ => mret Ended
           | Ok d => mret (Connecting (Addr aci d) RECONNECT_BACKOFF_INITIAL_MS)
           end
  | Connecting local backoff_ms =>
      r ← World.on_out (ws_connect (message_ws_url host) (message_ws_auth aci device_id password));
      match r with
      | Ok _ =>
          s ← session_start;
          match s with
          | Some s => mret (InSession local s)
          | None => end_session local
          end
      | Err _ => reconnect local backoff_ms
      end
  | InSession local s =>
      r ← session_turn local s;
      match r with
      | inl s => mret (InSession local s)
      | inr _ => end_session local
      end
  | Ended => mret Ended
  end.

Definition thread_turn (t : started) (ph : phase) : handler phase :=
  match t with
  | ReceiveThread aci device_id password host _ => receive_turn aci device_id password host ph
  | ReplenishThread url aci device_id password =>
      match ph with
      | Starting => replenish_aci_one_time_prekeys url aci device_id password;; mret Ended
      | _ => mret Ended
      end
  end.
Fixpoint thread_turns (n : nat) (t : started) (ph : phase) : handler phase :=
  match n with
  | 0 => mret ph
  | S n => ph ← thread_turn t ph; thread_turns n t ph
  end.

Lemma thread_turns_app n m t ph :
  ∀ w, thread_turns (n + m) t ph w = (thread_turns n t ph ≫= thread_turns m t) w.
Proof.
  revert ph. induction n as [|n IH]; intros ph w; [done|]. simpl. unfold mbind, ST_bind.
  destruct (thread_turn t ph w) as [[ph'|e] w1]; [|done]. by rewrite IH.
Qed.
Lemma thread_turns_ended n t w : thread_turns n t Ended w = (Ok Ended, w).
Proof. induction n as [|n IH]; [done|]. destruct t; exact IH. Qed.

Variables (aci password host : bytes) (device_id cid : Z) (local : ProtocolAddress).
Abbreviation T := (ReceiveThread aci device_id password host cid).

(** A session that ended is a number of turns inside it. *)
Lemma session_turns n s w r w' :
  iter n (session_turn local) s w = Some (r, w') →
  ∃ k, thread_turns k T (InSession local s) w =
    match r with Ok _ => end_session local w' | Err e => (Err e, w') end.
Proof.
  revert s w. induction n as [|n IH]; intros s w Hi; [done|]. simpl in Hi.
  destruct (session_turn local s w) as [[[s1|[]]|e] w1] eqn:Et.
  - destruct (IH s1 w1 Hi) as [k Hk]. exists (S k). simpl. unfold mbind, ST_bind. by rewrite Et.
  - injection Hi as <- <-. exists 1. simpl. unfold mbind, ST_bind. rewrite Et.
    by destruct (end_session local w1) as [[]].
  - injection Hi as <- <-. exists 1. simpl. unfold mbind, ST_bind. by rewrite Et.
Qed.
(** A turn of the worker is a connection and, if it stands, a session. *)
Lemma worker_turn_turns fuel b w r w' :
  worker_turn fuel aci device_id password host local b w = Some (r, w') →
  ∃ k, thread_turns k T (Connecting local b) w = (Connecting local <$> r, w').
Proof.
  assert (∀ b w r w', (reconnect_sleep b;; mret (Z.min (b * 2) RECONNECT_BACKOFF_MAX_MS)) w = (r, w') →
    reconnect local b w = (Connecting local <$> r, w')) as Hnext.
  { intros b1 w1 r1 w2. unfold reconnect, mbind, ST_bind.
    destruct (reconnect_sleep b1 w1) as [[[]|e] w3]; by intros [= <- <-]. }
  unfold worker_turn. destruct (World.on_out (ws_connect _ _) w) as [[[u|e]|e] w1] eqn:Ec; intros Hw.
  - unfold run_session in Hw. destruct (session_start w1) as [[[s|]|e] w2] eqn:Es.
    + destruct (iter fuel (session_turn local) s w2) as [[r1 w3]|] eqn:Ei; [|done].
      destruct (session_turns fuel s w2 r1 w3 Ei) as [k Hk]. exists (S k).
      simpl. unfold mbind at 1, ST_bind at 1. simpl. unfold mbind at 1 2, ST_bind at 1 2. rewrite Ec, Es.
      unfold mret at 1, ST_ret at 1. rewrite Hk. destruct r1 as [u1|e]; [|by simplify_eq/=].
      simpl in Hw. injection Hw as Hw. apply Hnext in Hw. exact Hw.
    + exists 1. simpl. unfold mbind, ST_bind. rewrite Ec, Es. simpl in Hw. injection Hw as Hw.
      apply Hnext in Hw. unfold end_session, mbind, ST_bind. simpl. rewrite Hw. by destruct r.
    + exists 1. simpl. unfold mbind, ST_bind. rewrite Ec, Es. by simplify_eq/=.
  - exists 1. injection Hw as Hw. apply Hnext in Hw. simpl. unfold mbind, ST_bind. rewrite Ec, Hw.
    by destruct r.
  - exists 1. simpl. unfold mbind, ST_bind. rewrite Ec. by simplify_eq/=.
Qed.
Lemma worker_turns_turns n fuel b w r w' :
  worker_turns n fuel aci device_id password host local b w = Some (r, w') →
  ∃ k, thread_turns k T (Connecting local b) w = (Connecting local <$> r, w').
Proof.
  revert b w. induction n as [|n IH]; intros b w Hw; simpl in Hw.
  { injection Hw as <- <-. by exists 0. }
  destruct (worker_turn fuel aci device_id password host local b w) as [[[b1|e] w1]|] eqn:Et; [| |done].
  - destruct (worker_turn_turns fuel b w _ w1 Et) as [k1 Hk1]. destruct (IH b1 w1 Hw) as [k2 Hk2].
    exists (k1 + k2). rewrite thread_turns_app. unfold mbind, ST_bind. by rewrite Hk1.
  - injection Hw as <- <-. by apply (worker_turn_turns fuel b w _ w1).
Qed.

(** More turns for a session change nothing once it has ended. *)
Lemma run_session_mono n m w r :
  run_session n local w = Some r → n ≤ m → run_session m local w = Some r.
Proof.
  unfold run_session. destruct (session_start w) as [[[s|]|e] w1]; [|done..]. intros Hr Hle.
  destruct (iter n (session_turn local) s w1) as [x|] eqn:Ei; [|done].
  by rewrite (iter_mono _ n m s w1 x Ei Hle).
Qed.
Lemma worker_turns_mono n f g b w r :
  worker_turns n f aci device_id password host local b w = Some r → f ≤ g →
  worker_turns n g aci device_id password host local b w = Some r.
Proof.
  intros Hw Hle. revert b w Hw. induction n as [|n IH]; intros b w; [done|]. simpl.
  intros Hw. assert (∀ x, worker_turn f aci device_id password host local b w = Some x →
    worker_turn g aci device_id password host local b w = Some x) as Hm.
  { intros x. unfold worker_turn. destruct (World.on_out _ w) as [[[u|e]|e] w1]; [|done..].
    destruct (run_session f local w1) as [y|] eqn:Er; [|done].
    by rewrite (run_session_mono f g w1 y Er Hle). }
  destruct (worker_turn f aci device_id password host local b w) as [x|]; [|done].
  rewrite (Hm x eq_refl). destruct x as [[b1|e] w1]; [by apply IH|done].
Qed.

(** Turns that leave a session ran it to its end. *)
Lemma session_ends k s w b w' :
  thread_turns k T (InSession local s) w = (Ok (Connecting local b), w') →
  ∃ f w1 k', k' < k ∧ iter f (session_turn local) s w = Some (Ok tt, w1) ∧
    (end_session local ≫= thread_turns k' T) w1 = (Ok (Connecting local b), w').
Proof.
  revert s w. induction k as [|k IH]; intros s w Ht; [done|]. simpl in Ht.
  apply bind_Ok in Ht as (ph & w2 & Ht & Hk). apply bind_Ok in Ht as (x & w1 & Hs & Hx).
  destruct x as [s1|[]].
  - injection Hx as <- <-. destruct (IH s1 w1 Hk) as (f & w3 & k' & Hlt & Hi & He).
    exists (S f), w3, k'. split; [lia|]. split; [|done]. simpl. by rewrite Hs.
  - exists 1, w1, k. split; [lia|]. split; [simpl; by rewrite Hs|].
    unfold mbind, ST_bind. by rewrite Hx.
Qed.
Lemma turns_worker k b w b' w' :
  thread_turns k T (Connecting local b) w = (Ok (Connecting local b'), w') →
  ∃ n f, worker_turns n f aci device_id password host local b w = Some (Ok b', w').
Proof.
  revert b w. induction (lt_wf k) as [k _ IH]. intros b w Ht.
  destruct k as [|k]; [injection Ht as <- <-; by exists 0, 0|].
  (* what follows a reconnect *)
  assert (∀ b1 w1 k', k' ≤ k → (reconnect local b1 ≫= thread_turns k' T) w1 = (Ok (Connecting local b'), w') →
    ∃ b2 w2 n f, (reconnect_sleep b1;; mret (Z.min (b1 * 2) RECONNECT_BACKOFF_MAX_MS)) w1 = (Ok b2, w2) ∧
      worker_turns n f aci device_id password host local b2 w2 = Some (Ok b', w')) as Hre.
  { intros b1 w1 k' Hle Hr. apply bind_Ok in Hr as (ph & w2 & Hr & Hk).
    apply bind_Ok in Hr as (u & w3 & Hr & [= <- <-]). destruct (IH k' ltac:(lia) _ _ Hk) as (n & f & Hn).
    eexists _, w3, n, f. split; [|exact Hn]. unfold mbind, ST_bind. by rewrite Hr. }
  simpl in Ht. apply bind_Ok in Ht as (ph & w2 & Ht & Hk).
  apply bind_Ok in Ht as ([u|e] & w1 & Hc & Ht).
  - assert (∀ f w3 k', k' ≤ k → run_session f local w1 = Some (Receive.close_ws w3) →
      (end_session local ≫= thread_turns k' T) w3 = (Ok (Connecting local b'), w') →
      ∃ n f, worker_turns n f aci device_id password host local b w = Some (Ok b', w')) as Hend.
    { intros f w3 k' Hle Hrun He. apply bind_Ok in He as (ph1 & w4 & He & Hk1).
      apply bind_Ok in He as (u1 & w5 & Hcl & He).
      destruct (Hre RECONNECT_BACKOFF_INITIAL_MS w5 k' Hle) as (b2 & w6 & n & f' & Hn & Hw).
      { unfold mbind, ST_bind. unfold mbind, ST_bind in He. by rewrite He. }
      exists (S n), (Nat.max f f'). simpl. unfold worker_turn. rewrite Hc.
      rewrite (run_session_mono f (Nat.max f f') w1 _ Hrun ltac:(lia)), Hcl, Hn.
      by apply (worker_turns_mono n f'); [|lia]. }
    apply bind_Ok in Ht as ([s|] & w3 & Hs & Ht).
    + injection Ht as <- <-. destruct (session_ends k s w3 b' w' Hk) as (f & w4 & k' & Hlt & Hi & He).
      apply (Hend f w4 k'); [lia| |done]. unfold run_session. by rewrite Hs, Hi.
    + apply (Hend 0 w3 k); [done| |unfold mbind, ST_bind; by rewrite Ht].
      unfold run_session. by rewrite Hs.
  - destruct (Hre b w1 k) as (b2 & w3 & n & f & Hn & Hw); [done|unfold mbind, ST_bind; by rewrite Ht|].
    exists (S n), f. simpl. unfold worker_turn. rewrite Hc. by rewrite Hn.
Qed.

End threads.

Section loop.
Context `{UrlLib} `{Libsignal} `{!Protocol, !KeyOps, !Base64, !WireFormat, !SerdeJson, !UreqText}.
Context {P O : Type} `{!Pddb P, !Host O, !OsRng O, !WsHost O}.

End loop.

(** * The system *)
Section system.
Context `{UrlHost, !UrlLib, !UrlMore, IpcBuffer, ComRs, ChatLib}.
Context `{Libsignal} `{!Protocol, !KeyOps, !Base64, !WireFormat, !Crypto, !SerdeJson, !UreqText}.
Context {P O : Type} `{!Pddb P, !Host O, !OsRng O, !WsHost O, !WsDial O, !NetHost O, !WifiHost O}.
Context `{!LinkHost O, !Modals O, !AppHost O}.
Variables (hosted : bool) (fuel : nat).

(** The application with its world, the locals of the main loop ([None] once it has
    quit or panicked), and the phase of each thread it started. *)
Record client := MkClient {
  cl_app : SigChat (P := P) (O := O);
  cl_main : option locals;
  cl_phases : list phase;
}.
Definition cl_store (c : client) : P := w_pddb (ap_world (cl_app c)).

(** After a step of the main thread: threads it started are at their beginning. *)
Definition main_stepped (phases : list phase) (r : result stop (locals + ())) (a : SigChat) : client :=
  MkClient a (match r with Ok (inl l) => Some l | _ => None end)
    (phases ++ replicate (length (ap_threads a) - length phases) Starting).
Definition client_start (cid : Z) (w : World P O) : client :=
  match SigChat_new w with
  | (Ok _, a) => let '(r, a) := startup hosted fuel cid a in main_stepped [] (inl <$> r) a
  | (Err _, a) => MkClient a None []
  end.

(** Who moves next: the main loop with a message, or one of the threads.  The
    process ends with the main loop. *)
Inductive choice := MainTurn (msg : app_msg) | ThreadTurn (i : nat).
Definition client_turn (c : choice) (s : client) : option client :=
  l ← cl_main s;
  match c with
  | MainTurn msg =>
      let '(r, a) := main_turn hosted fuel msg l (cl_app s) in Some (main_stepped (cl_phases s) r a)
  | ThreadTurn i =>
      t ← ap_threads (cl_app s) !! i;
      ph ← cl_phases s !! i;
      let '(r, w) := thread_turn t ph (ap_world (cl_app s)) in
      Some (MkClient (MkSigChat (ap_manager (cl_app s)) w (ap_threads (cl_app s))) (cl_main s)
        (<[i := match r with Ok ph => ph | Err _ => Ended end]> (cl_phases s)))
  end.
Definition system_step (s s' : client) : Prop := ∃ c, client_turn c s = Some s'.
(** The turns in [cs], one after the other. *)
Definition client_run (cs : list choice) (s : client) : option client :=
  foldl (λ o c, o ≫= client_turn c) (Some s) cs.
Lemma client_run_steps cs s s' : client_run cs s = Some s' → rtc system_step s s'.
Proof.
  unfold client_run. revert s. induction cs as [|c cs IH]; intros s; simpl; [by intros [= ->]|].
  destruct (client_turn c s) as [s1|] eqn:E; [intros Hr; eapply rtc_l; [by exists c|auto]|].
  assert (foldl (λ o c, o ≫= client_turn c) None cs = None) as ->; [|done].
  clear. by induction cs.
Qed.
End system.

(** * The threads of the system *)
Section workers.
Context `{UrlHost, !UrlLib, !UrlMore, IpcBuffer, ComRs, ChatLib}.
Context `{Libsignal} `{!Protocol, !KeyOps, !Base64, !WireFormat, !Crypto, !SerdeJson, !UreqText}.
Context {P O : Type} `{!Pddb P, !Host O, !OsRng O, !WsHost O, !WsDial O, !NetHost O, !WifiHost O}.
Context `{!LinkHost O, !Modals O, !AppHost O}.
Variables (hosted : bool) (fuel : nat).
Implicit Types (a : SigChat (P := P) (O := O)) (s : client (P := P) (O := O)).

(** Threads are only added, at the end. *)
Definition grows a a' : Prop := ap_threads a `prefix_of` ap_threads a'.
#[local] Instance grows_preorder : PreOrder grows.
Proof. split; [intros a; unfold grows; done|]. intros a b c. unfold grows. by etrans. Qed.
Lemma same_grows {A} (c : ST SigChat stop A) : preserved same_threads c → preserved grows c.
Proof. intros Hc a. unfold grows. by rewrite (Hc a). Qed.
Lemma manager_start_grows mgr cid (st : O * list started) :
  st.2 `prefix_of` (Manager_start_receive mgr cid st).2.2.
Proof.
  assert (∀ n t (st : O * list started), st.2 `prefix_of` (Manager.spawn n t st).2.2) as Hsp.
  { intros n t st0. unfold Manager.spawn. destruct (spawn_thread n st0.1) as [[u|e] o]; simpl; [|done].
    by apply prefix_app_r. }
  set (R := λ st st' : O * list started, st.2 `prefix_of` st'.2).
  assert (PreOrder R) as HR by (split; [intros x; unfold R; done|intros x y z; unfold R; by etrans]).
  enough (preserved R (Manager_start_receive mgr cid)) as Hp by apply Hp.
  unfold Manager_start_receive, MainWsWorker_spawn.
  do 2 (apply preserved_bind; [exact HR|by apply preserved_lift|intros ?]).
  apply preserved_bind; [exact HR| |intros _].
  - destruct (url_parse _); [|by apply preserved_ret]. intros x. apply Hsp.
  - apply preserved_with_err, preserved_bind; [exact HR| |intros; by apply preserved_lift].
    intros x. apply Hsp.
Qed.
Lemma start_receive_grows cid : preserved grows (start_receive cid).
Proof.
  intros a. unfold start_receive. destruct (ap_manager a) as [m|]; [|unfold grows; done].
  pose proof (manager_start_grows m cid (w_out (ap_world a), ap_threads a)) as Hm.
  by destruct (Manager_start_receive _ _ _) as [r [o ts]].
Qed.
Lemma connected_grows l : preserved grows (connected l).
Proof.
  unfold connected. apply preserved_bind; [exact _|apply same_grows, dialogue_threads|intros _].
  apply preserved_bind; [exact _|apply same_grows, ui_threads|intros _].
  apply preserved_bind; [exact _|apply same_grows, call_threads|intros _].
  apply preserved_bind; [exact _|apply start_receive_grows|intros _]. apply preserved_ret, _.
Qed.
Lemma on_focus_grows l : preserved grows (on_focus hosted fuel l).
Proof.
  unfold on_focus. apply preserved_bind; [exact _| |intros l1].
  - destruct (first_focus l); [|apply preserved_ret, _].
    apply preserved_bind; [exact _|apply same_grows, connect_threads|].
    intros [[]|e]; [|apply preserved_ret, _..].
    apply preserved_bind; [exact _|apply connected_grows|intros; apply preserved_ret, _].
  - apply preserved_bind; [exact _|apply same_grows, ui_threads|intros; apply preserved_ret, _].
Qed.

(** What the main loop knows of the receive workers: none before the client first
    connected, at most one after. *)
Definition workers_ok (main : option locals) a : Prop :=
  match main with
  | Some l => receivers (ap_threads a) ≤ if first_focus l then 0 else 1
  | None => receivers (ap_threads a) ≤ 1
  end.
Definition main_after (r : result stop (locals + ())) : option locals :=
  match r with Ok (inl l) => Some l | _ => None end.

Lemma main_turn_workers msg l a :
  workers_ok (Some l) a →
  workers_ok (main_after (main_turn hosted fuel msg l a).1) (main_turn hosted fuel msg l a).2 ∧
  grows a (main_turn hosted fuel msg l a).2.
Proof.
  intros Hw. destruct (first_focus l) eqn:Hl.
  2: { destruct (turn_idle hosted fuel msg l a Hl) as [Hs Hf]. unfold same_threads in Hs. split.
       - unfold workers_ok in *. rewrite Hl in Hw. rewrite Hs.
         destruct (main_turn hosted fuel msg l a) as [[[l'|[]]|e] a']; simpl in *; [|done..].
         by rewrite (Hf l' eq_refl).
       - unfold grows. by rewrite Hs. }
  unfold workers_ok in Hw. rewrite Hl in Hw.
  destruct (turn_not_focus hosted fuel msg l) as [[Hp Hf]|[Ho He]].
  - pose proof (Hp a) as Hs. split; [|unfold grows; by rewrite Hs]. unfold workers_ok. rewrite Hs.
    destruct (main_turn hosted fuel msg l a) as [[[l'|[]]|e] a'] eqn:Et; simpl; [|lia..].
    rewrite (Hf a l' a' Et), Hl. done.
  - unfold main_turn. rewrite Ho, He. pose proof (focus_turn hosted fuel l a Hl) as Hf.
    pose proof (on_focus_grows l a) as Hg. unfold mbind, ST_bind.
    destruct (on_focus hosted fuel l a) as [[l'|e] a']; simpl in *; (split; [|done]); unfold workers_ok; simpl.
    + destruct (first_focus l'); [by rewrite Hf|]. unfold one_more in Hf. lia.
    + unfold one_more in Hf. lia.
Qed.

Lemma main_stepped_length phases r a :
  length phases ≤ length (ap_threads a) →
  length (cl_phases (main_stepped phases r a)) = length (ap_threads a).
Proof. intros Hle. simpl. rewrite length_app, length_replicate. lia. Qed.

Definition client_ok s : Prop :=
  workers_ok (cl_main s) (cl_app s) ∧ length (cl_phases s) = length (ap_threads (cl_app s)).
Lemma turn_client_ok c s s' : client_turn hosted fuel c s = Some s' → client_ok s → client_ok s'.
Proof.
  unfold client_turn. destruct (cl_main s) as [l|] eqn:Em; [|done]. simpl. intros Ht [Hw Hlen].
  rewrite Em in Hw. destruct c as [msg|i].
  - destruct (main_turn_workers msg l (cl_app s) Hw) as [Hw' Hg].
    destruct (main_turn hosted fuel msg l (cl_app s)) as [r a]. injection Ht as <-. split; [exact Hw'|].
    apply main_stepped_length. rewrite Hlen. by apply prefix_length.
  - apply bind_Some in Ht as (t & _ & Ht). apply bind_Some in Ht as (ph & _ & Ht).
    destruct (thread_turn t ph (ap_world (cl_app s))) as [r w]. injection Ht as <-.
    split; simpl; [exact Hw|by rewrite length_insert].
Qed.
Lemma startup_grows cid : preserved grows (startup hosted fuel cid).
Proof.
  unfold startup. apply preserved_bind; [exact _|apply same_grows, try_w_threads|intros _].
  apply preserved_bind; [exact _|apply same_grows, on_w_threads|intros f].
  apply preserved_bind; [exact _|apply preserved_gets, _|intros ready].
  destruct ready; [|apply preserved_ret, _].
  apply preserved_bind; [exact _|apply same_grows, connect_threads|intros r].
  apply preserved_bind; [exact _| |intros; apply preserved_ret, _].
  destruct r as [[]|e]; [apply connected_grows|apply preserved_ret, _..].
Qed.
Lemma start_client_ok cid (w : World P O) : client_ok (client_start hosted fuel cid w).
Proof.
  unfold client_start. pose proof (new_threads w) as Hn. destruct (SigChat_new w) as [[u|e] a]; simpl in Hn.
  2: { split; simpl; rewrite Hn; [unfold receivers; simpl; lia|done]. }
  pose proof (startup_spec hosted fuel cid a) as Hs. unfold wp in Hs.
  assert (receivers (ap_threads a) = 0) as H0' by by rewrite Hn.
  destruct (startup hosted fuel cid a) as [[l|e] a1].
  - split; [|apply main_stepped_length; simpl; lia]. destruct Hs as [Hf Hs]. simpl. rewrite Hf.
    unfold one_more, same_threads in Hs. destruct (is_ready a); simpl; [lia|rewrite Hs; lia].
  - split; [|apply main_stepped_length; simpl; lia]. unfold one_more in Hs. simpl. lia.
Qed.

(** One receive worker, over all interleavings.  At every state the main loop and
    the threads can reach, in any order of their turns, at most one of the threads
    started receives from the server, so no message is fetched and acknowledged
    twice; and none is running before the client first connected. *)
Theorem one_receive_worker cid (w : World P O) s :
  rtc (system_step hosted fuel) (client_start hosted fuel cid w) s →
  receivers (ap_threads (cl_app s)) ≤ 1 ∧ length (cl_phases s) = length (ap_threads (cl_app s)) ∧
  ∀ l, cl_main s = Some l → first_focus l = true → receivers (ap_threads (cl_app s)) = 0.
Proof.
  intros Hs. assert (client_ok s) as [Hw Hlen].
  { pose proof (start_client_ok cid w) as H0'. revert H0'. generalize (client_start hosted fuel cid w), Hs.
    clear Hs. induction 1 as [s1|s1 s2 s3 [c Hc] _ IH]; [done|]. intros Hok. by eapply IH, turn_client_ok. }
  split_and!; [|done|].
  - unfold workers_ok in Hw. destruct (cl_main s) as [l|]; [destruct (first_focus l)|]; lia.
  - intros l Hl Hf. rewrite Hl in Hw. simpl in Hw. rewrite Hf in Hw. lia.
Qed.
End workers.

(** * What holds of the store *)
Section invariants.
Context `{UrlHost, !UrlLib, !UrlMore, IpcBuffer, ComRs, ChatLib}.
Context `{LibsignalLaws} `{!KeyOps} `{!KeyLaws} `{!Protocol} `{!ProtocolLaws} `{!SenderLaws} `{Base64Laws}.
Context `{!WireFormat, !Crypto, !SerdeJson, !UreqText}.
Context {P O : Type} `{!Pddb P} `{!PddbLaws P}.
Context `{!Host O, !OsRng O, !OsRngLaws O, !WsHost O, !WsDial O, !NetHost O, !WifiHost O}.
Context `{!LinkHost O, !Modals O, !AppHost O}.
Variables (hosted : bool) (fuel : nat).
Implicit Types s : client (P := P) (O := O).

Lemma thread_turn_effect t ph : preserved (weffect (P := P) (O := O)) (thread_turn t ph).
Proof.
  pose proof (replenish_effect (P := P) (O := O) (F := panic)).
  unfold thread_turn, receive_turn, end_session, reconnect. eff.
Qed.
Lemma client_turn_effect c s s' :
  client_turn hosted fuel c s = Some s' → effect (cl_store s) (cl_store s').
Proof.
  unfold client_turn. destruct (cl_main s) as [l|]; [|done]. simpl. destruct c as [msg|i].
  - pose proof (main_turn_effect hosted fuel msg l (cl_app s)) as Hm.
    destruct (main_turn hosted fuel msg l (cl_app s)) as [r a]. intros [= <-]. exact Hm.
  - intros (t & _ & (ph & _ & Hs)%bind_Some)%bind_Some.
    pose proof (thread_turn_effect t ph (ap_world (cl_app s))) as Ht.
    destruct (thread_turn t ph (ap_world (cl_app s))) as [r w]. injection Hs as <-. exact Ht.
Qed.
Lemma start_effect cid (w : World P O) : effect (w_pddb w) (cl_store (client_start hosted fuel cid w)).
Proof.
  unfold client_start. pose proof (new_app_effect w) as Hn. destruct (SigChat_new w) as [[u|e] a]; [|done].
  pose proof (startup_effect hosted fuel cid a) as Hs. destruct (startup hosted fuel cid a) as [r a1].
  etrans; [exact Hn|exact Hs].
Qed.
Lemma steps_effect s s' : rtc (system_step hosted fuel) s s' → effect (cl_store s) (cl_store s').
Proof.
  induction 1 as [s|s1 s2 s3 [c Hc] _ IH]; [reflexivity|]. etrans; [by eapply client_turn_effect|done].
Qed.
Lemma reachable_effect cid (w : World P O) s :
  rtc (system_step hosted fuel) (client_start hosted fuel cid w) s → effect (w_pddb w) (cl_store s).
Proof. intros Hs. etrans; [apply start_effect|by apply steps_effect]. Qed.


(** A property of stores that every write keeps holds at every reachable state. *)
Lemma reachable_invariant (I : gmap (bytes * bytes) bytes → Prop) cid (w : World P O) s :
  (∀ m m', client_write m m' → I m → I m') → I (contents (w_pddb w)) →
  rtc (system_step hosted fuel) (client_start hosted fuel cid w) s → I (contents (cl_store s)).
Proof.
  intros HI H0' Hs%reachable_effect. unfold effect in Hs. revert H0'. by induction Hs; eauto.
Qed.
Lemma later_invariant (I : gmap (bytes * bytes) bytes → Prop) s s' :
  (∀ m m', client_write m m' → I m → I m') → I (contents (cl_store s)) →
  rtc (system_step hosted fuel) s s' → I (contents (cl_store s')).
Proof.
  intros HI H0' Hs%steps_effect. unfold effect in Hs. revert H0'. by induction Hs; eauto.
Qed.



(** Other programs' data is untouched.  No reachable state differs from the
    start in a dictionary that is not one of the client's eight. *)
Theorem foreign_dicts_untouched cid (w : World P O) s d k :
  d ∉ DIALOGUE_DICT :: CLIENT_DICTS →
  rtc (system_step hosted fuel) (client_start hosted fuel cid w) s →
  contents (cl_store s) !! (d, k) = contents (w_pddb w) !! (d, k).
Proof.
  intros Hd Hs. eapply (reachable_invariant (λ m, m !! (d, k) = contents (w_pddb w) !! (d, k)));
    [|done|exact Hs]. intros m m' Hw <-. by eapply write_elsewhere.
Qed.

End invariants.
