(* ===== verification/AppDemo.v ===== *)
(** The application at a concrete device: the witnesses of AppSpec.v, and a run
    that shows an abandoned registration passing for a connected account. *)

From S2P Require Import Prelude Hoare RustStd Wire Base64 Json Pddb Signal Stores World Outgoing Send.
From S2P Require Import SendSpec SendWorld Peers WsServer WsServerSpec Wifi WifiSpec Keys Rest Prekeys.
From S2P Require Import Provision Account AccountSpec SignalWs Manager ManagerDemo App AppSpec.
Import ToyIpc ToyLink ToyScene.

#[global] Instance toy_chat : ChatLib :=
  {| Event_from z := match z with 0%Z => Some Focus | 1%Z => Some F1 | _ => Some OtherEvent end |}.
(** The WiFi is down; the server's certificate is trusted. *)
#[global] Instance scene_app : AppHost scene := {|
  dhcp_bound o := (false, o);
  wifi_on_and_run o := (true, o);
  start_progress o := (true, o);
  update_progress _ o := (true, o);
  finish_progress o := (true, o);
  tls_accessible _ o := (true, o);
  chat_dialogue_set _ _ o := (true, o);
  chat_set_author_flags _ o := (true, o);
|}.
(** The user picks the second entry of every list. *)
Definition second : scene := Scene link_sim [] [] 0 1.
Definition focus : app_msg := {| am_id := 0; am_scalar := Some 0%Z; am_memory := None |}.

(** A device with a registered account. *)
Definition ready_flash : flash :=
  <[(ACCOUNT_DICT, REGISTERED_KEY) := "true"%bs : bytes]> (new ACCOUNT_DICT demo_host Live ∅).2.
Definition ready_app : SigChat (P := flash) (O := scene) :=
  (SigChat_new (MkWorld ready_flash second [])).2.
Lemma failed_start_is_final_witness :
  match startup false 9 11 ready_app with
  | (Ok l, a1) => ap_threads (main_loop false 9 [focus; focus] l a1).2 = []
  | _ => False
  end.
Proof.
  assert (match startup false 9 11 ready_app with
          | (Ok l, a1) => bool_decide (length (ap_threads a1) = 0)
          | _ => false end = true) as Hok by (vm_compute; reflexivity).
  destruct (startup false 9 11 ready_app) as [[l|e] a1] eqn:E; [|discriminate Hok].
  apply bool_decide_eq_true_1 in Hok. apply nil_length_inv in Hok.
  apply (failed_start_is_final false 9 11 ready_app l a1); [vm_compute; reflexivity|exact E|exact Hok].
Defined.

(** A conversation whose last message is one letter and twenty accented ones. *)
Definition accented : bytes := "x"%bs ++ concat (replicate 20 [Byte.xc3; Byte.xa9]).
Definition picker_flash : flash := (record_inbound "bob"%bs 5 accented false ∅).2.
Definition picker_app : SigChat (P := flash) (O := scene) :=
  MkSigChat None (MkWorld picker_flash second []) [].
Definition picker_row : PeerSummary :=
  {| uuid := "bob"%bs; display_name := "bob"%bs; last_ts := 5; last_snippet := accented; unread := 1 |}.
Lemma picker_panics_inside_character_witness : (show_peer_picker picker_app).1 = Err Panicked_main.
Proof.
  destruct (on_pddb (E := ()) list_sorted (ap_world picker_app)) as [r w] eqn:E.
  assert (r = Ok [picker_row]) as -> by (apply (f_equal fst) in E; vm_compute in E; exact (eq_sym E)).
  rewrite (picker_panics_inside_character picker_app [picker_row] picker_row w);
    [reflexivity|exact E|by left|vm_compute; lia|vm_compute; reflexivity].
Defined.

(** Alice posts to Bob. *)
Definition post_app : SigChat (P := flash) (O := scene) :=
  MkSigChat None (MkWorld (<[(DIALOGUE_DICT, DEFAULT_PEER_KEY) := peer_json bob]> demo_flash)
    (Scene (Sim 0 [ok_200; ok_200] []) [] [] 0 0) []) [].
Lemma post_echoes_first_witness :
  ∃ ts w w' l a', post "hi"%bs post_app = (Ok tt, a') ∧ w_pddb w = w_pddb (ap_world post_app) ∧
    w_log (ap_world a') = w_log (ap_world post_app) ++
      [EvUi (BusyState true); EvUi (StatusText "sending..."%bs); EvUi (PostAdd "me"%bs ts "hi"%bs);
       EvUi Redraw] ++ l ++ [EvUi (BusyState false)] ∧
    w_pddb (ap_world a') = w_pddb w' ∧ post_result "hi"%bs ts w w' l.
Proof.
  apply (post_echoes_first "hi"%bs post_app).
  apply sessions_wf_insert; [by vm_compute|]. exact (demo_wf []).
Defined.
(** Both requests went out between the echo and the end. *)
Example post_requests :
  length (w_log (ap_world (post "hi"%bs post_app).2)) = 7 ∧
  is_ok (current_recipient (w_pddb (ap_world post_app))).1 = true.
Proof. by vm_compute. Qed.

(** The user registers, which is not implemented, and comes back. *)
Definition register_run : result stop (locals + ()) * SigChat (P := flash) (O := scene) :=
  wrapped_main true 9 11 [focus; focus] (MkWorld ∅ second []).
Example abandoned_registration :
  match register_run with
  | (Ok (inl l), a) =>
      first_focus l = false ∧ (is_registered ∘ mgr_account <$> ap_manager a) = Some false ∧
      EvUi (StatusText "sigchat.status.online"%bs) ∈ w_log (ap_world a)
  | _ => False
  end.
Proof.
  assert (match register_run with
    | (Ok (inl l), a) => negb (first_focus l) &&
        bool_decide ((is_registered ∘ mgr_account <$> ap_manager a) = Some false) &&
        existsb (λ e, match e with EvUi (StatusText t) => bool_decide (t = "sigchat.status.online"%bs)
                     | _ => false end) (w_log (ap_world a))
    | _ => false end = true) as Hok by (vm_compute; reflexivity).
  destruct register_run as [[[l|]|] a]; [|discriminate Hok..].
  apply andb_prop in Hok as [Hok Hs]. apply andb_prop in Hok as [Hf Hm].
  split; [by apply negb_true_iff|]. split; [by apply bool_decide_eq_true_1 in Hm|].
  apply existsb_exists in Hs as (e & He & Ht). destruct e as [| |u| |]; try done. destruct u; try done.
  apply bool_decide_eq_true_1 in Ht as ->. by apply list_elem_of_In.
Qed.
