(* ===== verification/SystemDemo.v ===== *)
(** The whole client at a concrete device.

    [life] starts on an empty store: the user gets the focus and links the device,
    which starts both threads; the replenishment uploads its batch; the receive
    worker connects and a message of Bob's comes in as a pre-key message; the user
    answers it; Bob's message is then the summary's last but one. *)

From S2P Require Import Prelude Hoare RustStd Wire Base64 Json Pddb Signal Stores World Outgoing Send.
From S2P Require Import SendSpec SendWorld Peers Receive WsServer WsServerSpec Wifi WifiSpec Keys Rest.
From S2P Require Import Prekeys Provision Account AccountSpec StoreEffect SignalWs Manager ManagerDemo.
From S2P Require Import App AppSpec AppDemo EffectSpec System.
Import ToyIpc ToyLink ToyScene.

#[global] Instance scene_rng_laws : OsRngLaws scene.
Proof.
  split.
  - intros n o b o'. pose proof (rng_fill_length n (sc_sim o) b) as Hr.
    unfold rng_try_fill at 1, scene_rng, on_sim. destruct (rng_try_fill n (sc_sim o)) as [r m].
    intros E. apply (Hr m). injection E as <- _. reflexivity.
  - intros o. unfold rng_next_u32 at 1, scene_rng, on_sim. pose proof (rng_u32_range (sc_sim o)) as Hr.
    by destruct (rng_next_u32 (sc_sim o)).
Qed.

(** Bob's first message, as the server delivers it. *)
Definition hello_envelope : bytes :=
  pb_encode [(1%Z, WVarint 3); (2%Z, WLen "bob"%bs); (7%Z, WVarint 1); (5%Z, WVarint 1000);
             (8%Z, WLen (Byte.x09 :: build_padded_data_message_content "hello"%bs 1000))].
Definition hello_frame : bytes := Receive.WsMessage_encode
  {| Receive.ws_type := Some Receive.WS_TYPE_REQUEST;
     Receive.ws_request := Some {| rq_verb := Some ("PUT"%bs : bytes); rq_path := Some ("/api/v1/message"%bs : bytes);
                           rq_body := Some hello_envelope; rq_id := Some 7%Z; rq_headers := [] |};
     Receive.ws_response := None |}.
Definition no_devices : ureq_result := UreqStatus 404 (Ok []).
Definition life_scene : scene :=
  Scene (Sim 0 [UreqStatus 403 (Ok []); link_ok; ok_200; low_stock; ok_200; ok_200; no_devices] [])
    [Ok (Binary uuid_frame); Ok (Ping []); Ok (Binary envelope_frame); Ok (Binary hello_frame)] [] 0 0.
Definition new_device : World flash scene := MkWorld ∅ life_scene [].
Definition say (t : bytes) : app_msg := {| am_id := 2; am_scalar := None; am_memory := Some (Ok t) |}.
Definition schedule : list choice :=
  [MainTurn focus; ThreadTurn 1; ThreadTurn 0; ThreadTurn 1; ThreadTurn 1; MainTurn (say "hi Bob"%bs)].
Definition life (cs : list choice) : option (client (P := flash) (O := scene)) :=
  client_run true 20 cs (client_start true 20 11 new_device).

(** What the user saw: Bob's message, and the answer as the user's own. *)
Definition posts (c : client (P := flash) (O := scene)) : list (bytes * bytes) :=
  omap (λ e, match e with EvUi (PostAdd a _ t) => Some (a, t) | _ => None end)
    (w_log (ap_world (cl_app c))).
Example life_posts : posts <$> life schedule =
  Some [("bob"%bs : bytes, "hello"%bs : bytes); ("me"%bs : bytes, "hi Bob"%bs : bytes)].
Proof. by vm_compute. Qed.
Example life_store : (λ c, (bool_decide (is_Some (cl_store c !! (SESSION_DICT, address_key bob))),
    cl_store c !! (ACCOUNT_DICT, ACI_NEXT_PREKEY_ID_KEY))) <$> life schedule =
  Some (true, Some ("343"%bs : bytes)).
Proof. by vm_compute. Qed.

Abbreviation begun := (client_start true 20 11 new_device).
Lemma empty_well_typed : well_typed (∅ : flash).
Proof. intros d k v _ Hv. by rewrite lookup_empty in Hv. Qed.



Lemma one_receive_worker_witness :
  match life schedule with
  | Some s => receivers (ap_threads (cl_app s)) ≤ 1 ∧ length (cl_phases s) = length (ap_threads (cl_app s)) ∧
      ∀ l, cl_main s = Some l → first_focus l = true → receivers (ap_threads (cl_app s)) = 0
  | None => False
  end.
Proof.
  assert (match life schedule with Some _ => true | None => false end = true) as Hok by (vm_compute; reflexivity).
  destruct (life schedule) as [s|] eqn:E; [|discriminate Hok].
  exact (one_receive_worker true 20 11 new_device s (client_run_steps true 20 schedule begun s E)).
Defined.

Definition wlan : bytes := "wlan.networks"%bs.
Lemma foreign_dicts_untouched_witness :
  match life schedule with
  | Some s => ∀ k, contents (cl_store s) !! (wlan, k) = contents (w_pddb new_device) !! (wlan, k)
  | None => False
  end.
Proof.
  assert (match life schedule with Some _ => true | None => false end = true) as Hok by (vm_compute; reflexivity).
  destruct (life schedule) as [s|] eqn:E; [|discriminate Hok]. intros k.
  apply (foreign_dicts_untouched true 20 11 new_device s wlan k).
  - apply (bool_decide_unpack _). vm_compute. exact I.
  - exact (client_run_steps true 20 schedule begun s E).
Defined.

(** A device that has recorded a use of its last-resort key. *)
Definition used_client : client (P := flash) (O := scene) :=
  MkClient (MkSigChat None (MkWorld {[(KYBER_PREKEY_DICT, dedup_key 1 2 Stores.demo_base) := [Byte.x01]]}
    life_scene []) []) (Some (MkLocals true "default"%bs 11)) [].

