(* ===== verification/UnitTests.v ===== *)
(** The unit tests of the other modules and tests/wifi_flap_recovery.rs, run on the model.

    Each test of the repository that speaks of the modelled code is a function here that
    returns whether its assertions hold, at the concrete libraries of the development;
    [repository_tests_pass] runs them all, with those of manager/send.rs (SendTests.v) and the
    encryption tests of manager/outgoing.rs (OutgoingTests.v).
    A link state other than connected is any other value of the toy enumeration, and an
    error kind the client does not tell apart is [Other].

    Left out: tests that need real cryptography (known answers, lengths of signatures,
    whether a keystream advances, two draws of the generator), wall-clock time or
    sockets, or closures a listener of the model does not have. *)

From S2P Require Import Prelude RustStd Wire Base64 Json Pddb Signal Stores World Outgoing Server Send SendWorld Peers Receive WsServer Wifi WifiSpec Keys StoreTests SendTests OutgoingTests Rest Prekeys Provision Account AccountSpec SignalWs ManagerDemo.
Import ToyLink ToyScene.

(** * manager/main_ws.rs *)
Definition bytes_eqb (a b : bytes) : bool := bool_decide (a = b).
Definition zeros (n : nat) : bytes := replicate n Byte.x00.
Definition strip_returns_plaintext_unchanged_when_no_padding : bool :=
  bytes_eqb (strip_signal_padding "hello"%bs) "hello"%bs.
Definition strip_removes_trailing_zeros_then_marker : bool :=
  let padded := "hi"%bs ++ [Byte.x80] ++ zeros 157 in
  bool_decide (length padded = 160) && bytes_eqb (strip_signal_padding padded) "hi"%bs.
Definition strip_handles_marker_at_end_with_no_zero_fill : bool :=
  bytes_eqb (strip_signal_padding ("x"%bs ++ [Byte.x80])) "x"%bs.
Definition strip_does_not_eat_payload_zeros : bool :=
  let padded := "a"%bs ++ [Byte.x00] ++ "b"%bs ++ [Byte.x80] ++ zeros 156 in
  bool_decide (length padded = 160) &&
  bytes_eqb (strip_signal_padding padded) ("a"%bs ++ [Byte.x00] ++ "b"%bs).
Definition strip_is_idempotent_on_already_stripped_input : bool :=
  let plain : bytes := "already clean"%bs in
  bytes_eqb (strip_signal_padding (strip_signal_padding plain)) plain.
Definition strip_handles_empty_input : bool := bytes_eqb (strip_signal_padding []) [].

Definition io_of (k : ErrorKind) : ws_error := WsIo (IoError k "x"%bs).
Definition is_timeout_recognises_would_block : bool := is_timeout (io_of WouldBlock).
Definition is_timeout_recognises_timed_out : bool := is_timeout (io_of TimedOut).
Definition is_timeout_does_not_treat_unexpected_eof_as_timeout : bool := negb (is_timeout (io_of Other)).
Definition is_timeout_does_not_treat_protocol_error_as_timeout : bool :=
  negb (is_timeout (WsOther "Connection reset without closing handshake"%bs)).

(** [ContentProto::encode] of the receiver's own types *)
Definition RDataMessage_fields (m : RDataMessageProto) : list field :=
  put_len 1 (rdm_body m) ++ put_varint 7 (rdm_timestamp m).
Definition RSent_fields (m : RSentMessageProto) : list field :=
  put_len 1 (rsent_destination_service_id m) ++ put_varint 2 (rsent_timestamp m) ++
  put_len 3 ((λ d, pb_encode (RDataMessage_fields d)) <$> rsent_message m).
Definition RSync_fields (m : RSyncMessageProto) : list field :=
  put_len 1 ((λ s, pb_encode (RSent_fields s)) <$> rsync_sent m).
Definition RContent_encode (m : RContentProto) : bytes :=
  pb_encode (put_len 1 ((λ d, pb_encode (RDataMessage_fields d)) <$> rcontent_data_message m) ++
             put_len 2 ((λ s, pb_encode (RSync_fields s)) <$> rcontent_sync_message m)).
Definition is_data (body : bytes) (dm : option RDataMessageProto) : bool :=
  match dm with
  | Some d => bool_decide (rdm_body d = Some body) && bool_decide (rdm_timestamp d = Some 1700000000000%Z)
  | None => false
  end.
Definition content_data_message_round_trips_body_and_timestamp : bool :=
  let content := {| rcontent_data_message :=
      Some {| rdm_body := Some ("hello"%bs : bytes); rdm_timestamp := Some 1700000000000%Z |};
    rcontent_sync_message := None |} in
  match RContent_decode (RContent_encode content) with
  | Some decoded => is_data "hello"%bs (rcontent_data_message decoded)
  | None => false
  end.
Definition content_sync_sent_round_trips_destination_and_inner_message : bool :=
  let content := {| rcontent_data_message := None; rcontent_sync_message := Some {| rsync_sent := Some
    {| rsent_destination_service_id := Some ("uuid-1234"%bs : bytes); rsent_timestamp := Some 1700000000000%Z;
       rsent_message := Some {| rdm_body := Some ("sync body"%bs : bytes);
                                rdm_timestamp := Some 1700000000000%Z |} |} |} |} in
  match (decoded ← RContent_decode (RContent_encode content); s ← rcontent_sync_message decoded; rsync_sent s) with
  | Some sent =>
      bool_decide (rsent_destination_service_id sent = Some ("uuid-1234"%bs : bytes)) &&
      bool_decide (rsent_timestamp sent = Some 1700000000000%Z) && is_data "sync body"%bs (rsent_message sent)
  | None => false
  end.

(** * manager/peers.rs *)
Definition summary_eqb (a b : PeerSummary) : bool :=
  bytes_eqb (uuid a) (uuid b) && bytes_eqb (display_name a) (display_name b) &&
  (last_ts a =? last_ts b)%Z && bytes_eqb (last_snippet a) (last_snippet b) && (unread a =? unread b)%Z.
Definition json_round_trips (s : PeerSummary) : bool :=
  match from_json (uuid s) (to_json s) with Some back => summary_eqb s back | None => false end.
Definition json_round_trip_preserves_fields : bool :=
  json_round_trips {| uuid := "uuid-x"%bs; display_name := "Alice"%bs; last_ts := 1700000000000;
                      last_snippet := "hello"%bs; unread := 3 |}.
Definition json_round_trip_handles_quotes_and_backslashes : bool :=
  json_round_trips {| uuid := "u"%bs; display_name := "Carol "%bs ++ dq ++ "C."%bs ++ dq ++ " \ Whitfield"%bs;
                      last_ts := 0; last_snippet := "line"%bs ++ [Byte.x0a] ++ "break"%bs; unread := 0 |}.
Definition from_json_tolerates_missing_fields : bool :=
  match from_json "u"%bs ("{"%bs ++ dq ++ "last_ts"%bs ++ dq ++ ":42}"%bs) with
  | Some back => (last_ts back =? 42)%Z && (unread back =? 0)%Z && bytes_eqb (display_name back) []
  | None => false
  end.
Definition ellipsis : bytes := [Byte.xe2; Byte.x80; Byte.xa6].
(** [out.ends_with('…')] *)
Definition ends_with (suffix s : bytes) : bool := bytes_eqb (drop (length s - length suffix) s) suffix.
Definition truncate_snippet_keeps_short_strings : bool :=
  match truncate_snippet "hi"%bs with Some out => bytes_eqb out "hi"%bs | None => false end.
Definition truncate_snippet_clips_at_byte_budget : bool :=
  match truncate_snippet (replicate 200 "a"%byte) with
  | Some out => ends_with ellipsis out && bool_decide (length out ≤ SNIPPET_MAX_BYTES + 3)
  | None => false
  end.
Definition truncate_snippet_does_not_split_utf8 : bool :=
  match truncate_snippet (replicate (SNIPPET_MAX_BYTES - 1) "a"%byte ++
                          [Byte.xf0; Byte.x9f; Byte.xa6; Byte.x80] ++ "!"%bs) with
  | Some out => ends_with ellipsis out
  | None => false
  end.

(** * manager/libsignal.rs *)
Definition aes256_ctr_encrypt_rejects_short_keys : bool := negb (is_ok (aes256_ctr_encrypt (zeros 31) "x"%bs)).
Definition aes256_ctr_encrypt_rejects_long_keys : bool := negb (is_ok (aes256_ctr_encrypt (zeros 33) "x"%bs)).
Definition aes256_ctr_encrypt_accepts_exact_32_byte_key : bool := is_ok (aes256_ctr_encrypt (zeros 32) "x"%bs).
Definition aes256_ctr_encrypt_preserves_plaintext_length : bool :=
  forallb (λ len, match aes256_ctr_encrypt (zeros 32) (replicate len Byte.xff) with
                  | Ok ct => bool_decide (length ct = len)
                  | Err _ => false
                  end) [0; 1; 15; 16; 17; 31; 32; 33; 100].
Definition aes256_ctr_encrypt_round_trip_self_decrypts : bool :=
  let key := replicate 32 Byte.x33 in
  match aes256_ctr_encrypt key "round-trip me, twice"%bs ≫= aes256_ctr_encrypt key with
  | Ok pt => bytes_eqb pt "round-trip me, twice"%bs
  | Err _ => false
  end.

(** * The enumerations *)
Definition round_trips_text {A} (from_str : bytes → option A) (to_string : A → bytes) (s : bytes) : bool :=
  match from_str s with Some x => bytes_eqb (to_string x) s | None => false end.
Definition rejects {A} (from_str : bytes → option A) (s : bytes) : bool :=
  match from_str s with Some _ => false | None => true end.
Definition TrustMode_display_matches_variant_name : bool :=
  bytes_eqb (TrustMode_to_string OnFirstUse) "OnFirstUse"%bs &&
  bytes_eqb (TrustMode_to_string Always) "Always"%bs && bytes_eqb (TrustMode_to_string Never) "Never"%bs.
Definition TrustMode_parse_then_display_round_trips_every_variant : bool :=
  forallb (round_trips_text TrustMode_from_str TrustMode_to_string)
    ["OnFirstUse"%bs : bytes; "Always"%bs : bytes; "Never"%bs : bytes].
Definition TrustMode_unknown_input_errors : bool :=
  forallb (rejects TrustMode_from_str) ["Sometimes"%bs : bytes; []; "onfirstuse"%bs : bytes].
Definition LinkState_parse_display_round_trip : bool :=
  forallb (round_trips_text GroupLinkState_from_str GroupLinkState_to_string)
    ["Enabled"%bs : bytes; "EnabledWithApproval"%bs : bytes; "Disabled"%bs : bytes].
Definition LinkState_unknown_input_errors : bool :=
  forallb (rejects GroupLinkState_from_str) ["enabled"%bs : bytes; "Disable"%bs : bytes; []].
Definition GroupPermission_parse_display_round_trip : bool :=
  forallb (round_trips_text GroupPermission_from_str GroupPermission_to_string)
    ["EveryMember"%bs : bytes; "OnlyAdmins"%bs : bytes].
Definition GroupPermission_unknown_input_errors : bool :=
  forallb (rejects GroupPermission_from_str) ["everymember"%bs : bytes; "Admins"%bs : bytes].
Definition ServiceEnvironment_parse_display_round_trip : bool :=
  forallb (round_trips_text ServiceEnvironment_from_str ServiceEnvironment_to_string)
    ["Live"%bs : bytes; "Staging"%bs : bytes].
Definition ServiceEnvironment_unknown_input_errors : bool :=
  forallb (rejects ServiceEnvironment_from_str) ["Production"%bs : bytes; "live"%bs : bytes].

(** * manager/config.rs *)
Definition config_url (env : ServiceEnvironment) : option bytes :=
  host ← ok (host_parse "signal.org"%bs);
  cfg ← ok (Config_new host env);
  Some (as_str (cfg_url cfg)).
Definition live_environment_uses_chat_subdomain : bool :=
  bool_decide (config_url Live = Some ("https://chat.signal.org/"%bs : bytes)) &&
  match host_parse "signal.org"%bs with
  | Ok host => match Config_new host Live with
               | Ok cfg => bytes_eqb (host_to_string (cfg_host cfg)) "signal.org"%bs
               | Err _ => false
               end
  | Err _ => false
  end.
Definition staging_environment_uses_chat_staging_subdomain : bool :=
  bool_decide (config_url Staging = Some ("https://chat.staging.signal.org/"%bs : bytes)).

(** * manager/signal_ws.rs: a URL with the host chat.signal.org *)
Definition upgrade_request (auth : option bytes) : option ws_request :=
  ok (build_ws_upgrade_request (O := scene)
    (("chat.signal.org"%bs : bytes, "/v1/websocket/"%bs : bytes) : @Url JsonText.url) auth
    (Scene (Sim 0 [] []) [] [] 0 0)).1.
Definition header (name : bytes) (r : ws_request) : option bytes :=
  snd <$> (snd <$> list_find (λ h, h.1 = name) (wr_headers r)).
Definition header_is (name value : bytes) (r : ws_request) : bool := bool_decide (header name r = Some value).
Definition on_request (auth : option bytes) (P : ws_request → bool) : bool :=
  match upgrade_request auth with Some r => P r | None => false end.
Definition upgrade_request_does_not_request_story_envelopes : bool :=
  on_request None (header_is "X-Signal-Receive-Stories"%bs "false"%bs).
Definition upgrade_request_sets_websocket_upgrade_headers : bool :=
  on_request None (λ r,
    header_is "Connection"%bs "Upgrade"%bs r && header_is "Upgrade"%bs "websocket"%bs r &&
    header_is "Sec-WebSocket-Version"%bs "13"%bs r &&
    bool_decide (header "Sec-WebSocket-Key"%bs r ≠ None) && header_is "Host"%bs "chat.signal.org"%bs r).
Definition upgrade_request_omits_authorization_when_unauthenticated : bool :=
  on_request None (λ r, bool_decide (header "Authorization"%bs r = None)).
Definition upgrade_request_includes_basic_auth_when_credentials_provided : bool :=
  on_request (Some ("user:pass-base64-already"%bs : bytes))
    (header_is "Authorization"%bs "Basic user:pass-base64-already"%bs).

(** * manager/account_attrs.rs *)
Definition attrs_world : World flash sim := MkWorld ∅ (Sim 0 [] []) [].
Definition password_is_24_ascii_chars : bool :=
  match generate_link_password attrs_world with
  | (Ok p, _) => bool_decide (length p = 24) && forallb (λ b, (byteZ b <? 128)%Z) p
  | (Err _, _) => false
  end.
Definition registration_id_in_range : bool :=
  match collect (λ _ : nat, generate_registration_id (E := io_error)) (seq 0 32) attrs_world with
  | (Ok ids, _) => forallb (λ id, (1 <=? id)%Z && (id <=? 16380)%Z) ids
  | (Err _, _) => false
  end.
Definition uak_requires_32_byte_profile_key : bool :=
  negb (is_ok (derive_unidentified_access_key (zeros 16))) && is_ok (derive_unidentified_access_key (zeros 32)).
Definition attrs_json (name : bytes) (id pni_id : Z) : option json :=
  AccountAttributes_json <$> ok (build_account_attributes name (zeros 32) id pni_id).
Definition on_attrs (P : json → bool) : bool :=
  match attrs_json "ZGV2aWNlLW5hbWU="%bs 42 43 with Some j => P j | None => false end.
Definition keys_of (j : json) : list bytes := match j with JObj l => l.*1 | _ => [] end.
(** [json.get(key).is_some()] *)
Definition has_key (j : json) (key : bytes) : bool := bool_decide (key ∈ keys_of j).
Definition is_null (j : json) : bool := match j with JNull => true | _ => false end.
Definition MODERN_FIELDS : list bytes :=
  ["capabilities"%bs : bytes; "discoverableByPhoneNumber"%bs : bytes; "fetchesMessages"%bs : bytes;
   "name"%bs : bytes; "pniRegistrationId"%bs : bytes; "recoveryPassword"%bs : bytes;
   "registrationId"%bs : bytes; "registrationLock"%bs : bytes; "unidentifiedAccessKey"%bs : bytes;
   "unrestrictedUnidentifiedAccess"%bs : bytes].
Definition attributes_serialize_with_expected_field_names : bool :=
  on_attrs (λ j,
    forallb (has_key j) MODERN_FIELDS &&
    forallb (λ key, bool_is true (index key (index "capabilities"%bs j)))
      ["storage"%bs : bytes; "versionedExpirationTimer"%bs : bytes; "attachmentBackfill"%bs : bytes;
       "ssre2"%bs : bytes; "spqr"%bs : bytes] &&
    is_null (index "registrationLock"%bs j) && is_null (index "recoveryPassword"%bs j) &&
    int_is 42 (index "registrationId"%bs j) && int_is 43 (index "pniRegistrationId"%bs j)).
Definition attributes_omit_legacy_signaling_key : bool := on_attrs (λ j, negb (has_key j "signalingKey"%bs)).
Definition attributes_omit_legacy_voice_video_top_level : bool :=
  on_attrs (λ j, negb (has_key j "voice"%bs) && negb (has_key j "video"%bs)).
(** Both lists are sorted in the test: they have the same elements. *)
Definition attributes_payload_contains_only_modern_fields : bool :=
  on_attrs (λ j, bool_decide (length (keys_of j) = length MODERN_FIELDS) &&
                 forallb (has_key j) MODERN_FIELDS && bool_decide (NoDup (keys_of j))).

(** * manager/outgoing.rs *)
Definition signal_pad_appends_marker_and_pads_to_160 : bool :=
  let v := signal_pad (replicate 50 Byte.xaa) in
  bool_decide (length v = 160) && bool_decide (v !! 50 = Some Byte.x80) &&
  forallb (λ b, bool_decide (b = Byte.x00)) (drop 51 v).
Definition signal_pad_at_exact_multiple_pads_to_next : bool :=
  let v := signal_pad (replicate 160 Byte.xcc) in
  bool_decide (length v = 320) && bool_decide (v !! 160 = Some Byte.x80).
Definition pad_then_strip_round_trips : bool :=
  let original := [Byte.x01; Byte.x02; Byte.x03; Byte.x04; Byte.x05; Byte.x80; Byte.x06; Byte.x07] in
  let padded := signal_pad original in
  negb (bool_decide (length padded = length original)) && bytes_eqb (strip_signal_padding padded) original.
Definition peer_literal (uuid dev : bytes) : bytes :=
  "{"%bs ++ dq ++ "uuid"%bs ++ dq ++ ":"%bs ++ dq ++ uuid ++ dq ++ ","%bs ++ dq ++ "device_id"%bs ++ dq ++
  ":"%bs ++ dev ++ "}"%bs.
Definition parse_peer_json_minimal : bool :=
  match parse_peer_json (peer_literal "abcd-1234"%bs "2"%bs) with
  | Ok addr => bytes_eqb (addr_name addr) "abcd-1234"%bs && (addr_device addr =? 2)%Z
  | Err _ => false
  end.
Definition parse_peer_json_rejects_bad_device_id : bool :=
  match parse_peer_json (peer_literal "x"%bs "0"%bs), parse_peer_json (peer_literal "x"%bs "999"%bs) with
  | Err (BadDeviceId a), Err (BadDeviceId b) => (a =? 0)%Z && (b =? 999)%Z
  | _, _ => false
  end.
Definition no_session_returns_no_session_error : bool :=
  match (build_encrypted_message_with_stores "no session"%bs 1 (Addr "bob-uuid"%bs 2) (Addr "alice-uuid"%bs 1)
           (tracking (MockHttp_new []) (fresh_lib_store 0) [])).1 with
  | Err NoSession => true
  | _ => false
  end.

Definition VALID_UUID : bytes := "00000000-0000-4000-8000-000000000001"%bs.
Definition demo_peer_fails (uuid : bytes) (dev : option bytes) (part : bytes) : bool :=
  match parse_demo_peer uuid dev with Err err => contains err part | Ok _ => false end.
Definition parse_demo_peer_default_device_is_1 : bool :=
  match parse_demo_peer VALID_UUID None with
  | Ok addr => bytes_eqb (addr_name addr) VALID_UUID && (addr_device addr =? 1)%Z
  | Err _ => false
  end.
Definition parse_demo_peer_explicit_device : bool :=
  match parse_demo_peer VALID_UUID (Some ("2"%bs : bytes)) with
  | Ok addr => (addr_device addr =? 2)%Z
  | Err _ => false
  end.
Definition parse_demo_peer_rejects_short_uuid : bool := demo_peer_fails "00000000"%bs None "UUID"%bs.
Definition parse_demo_peer_rejects_misplaced_hyphens : bool :=
  let bad : bytes := "000000000-0000-4000-8000-000000000001"%bs in
  bool_decide (length bad = 37) && demo_peer_fails (take 36 bad) None "UUID"%bs.
Definition parse_demo_peer_rejects_non_hex : bool :=
  demo_peer_fails "zz000000-0000-4000-8000-000000000001"%bs None "UUID"%bs.
Definition parse_demo_peer_rejects_device_id_zero : bool :=
  demo_peer_fails VALID_UUID (Some ("0"%bs : bytes)) "out of range"%bs.
Definition parse_demo_peer_rejects_device_id_too_large : bool :=
  demo_peer_fails VALID_UUID (Some ("128"%bs : bytes)) "out of range"%bs.
Definition parse_demo_peer_rejects_non_numeric_device_id : bool :=
  demo_peer_fails VALID_UUID (Some ("abc"%bs : bytes)) "parse"%bs.

(** * manager/rest.rs *)
Definition credentials_decode (h : bytes) : option bytes :=
  strip_prefix "Basic "%bs h ≫= b64_decode STANDARD.
Definition basic_auth_matches_reference_encoding : bool :=
  bool_decide (credentials_decode (basic_auth_header "+14155552671.-1"%bs "hunter2hunter2hunter2hh"%bs) =
               Some ("+14155552671.-1:hunter2hunter2hunter2hh"%bs : bytes)).
Definition basic_auth_supports_aci_dot_device_id_format : bool :=
  bool_decide (credentials_decode (basic_auth_header "12345678-1234-1234-1234-123456789abc.42"%bs
                                     "hunter2hunter2hunter2hh"%bs) =
               Some ("12345678-1234-1234-1234-123456789abc.42:hunter2hunter2hunter2hh"%bs : bytes)).
Definition field_text (key value : bytes) : bytes := dq ++ key ++ dq ++ ":"%bs ++ value.
Definition device_id_string_parses_to_u32 : bool :=
  let raw := "{"%bs ++ field_text "uuid"%bs (dq ++ "u"%bs ++ dq) ++ ","%bs ++
    field_text "pni"%bs (dq ++ "p"%bs ++ dq) ++ ","%bs ++ field_text "deviceId"%bs (dq ++ "2"%bs ++ dq) ++ "}"%bs in
  match from_slice raw ≫= de_link_response with
  | Some r => (resp_device_id r =? 2)%Z && bytes_eqb (resp_uuid r) "u"%bs && bytes_eqb (resp_pni r) "p"%bs
  | None => false
  end.
Definition link_body : option json :=
  attrs ← ok (build_account_attributes "name"%bs (zeros 32) 1 2);
  prekeys ← ok (generate_prekeys (KeyPair_generate (draw 1)).2 (KeyPair_generate (draw 2)).2 attrs_world).1;
  Some (LinkDeviceRequestBody_json (from_parts "VC"%bs attrs prekeys)).
Definition body_serializes_with_expected_keys : bool :=
  match link_body with
  | Some j =>
      forallb (has_key j)
        ["verificationCode"%bs : bytes; "accountAttributes"%bs : bytes; "aciSignedPreKey"%bs : bytes;
         "pniSignedPreKey"%bs : bytes; "aciPqLastResortPreKey"%bs : bytes; "pniPqLastResortPreKey"%bs : bytes] &&
      negb (has_key j "gcmToken"%bs) &&
      match index "verificationCode"%bs j with JStr s => bytes_eqb s "VC"%bs | _ => false end &&
      match as_u64 (index "keyId"%bs (index "aciSignedPreKey"%bs j)) with
      | Some id => (1 <=? id)%Z && (id <=? 16777215)%Z
      | None => false
      end &&
      match as_string (index "publicKey"%bs (index "aciSignedPreKey"%bs j)) with
      | Some pk => bool_decide (length pk = 44)
      | None => false
      end
  | None => false
  end.
Definition prekey_count_parses_camel_case : bool :=
  match parse_prekey_count ("{"%bs ++ field_text "count"%bs "42,"%bs ++ field_text "pqCount"%bs "7"%bs ++ "}"%bs) with
  | Ok p => (count p =? 42)%Z && (pq_count p =? 7)%Z
  | Err _ => false
  end.
Definition prekey_count_rejects_bad_shape : bool :=
  negb (is_ok (parse_prekey_count "not json"%bs)) &&
  negb (is_ok (parse_prekey_count ("{"%bs ++ field_text "count"%bs "1"%bs ++ "}"%bs))).
Definition set_keys_request_with_only_pre_keys_omits_other_fields : bool :=
  let j := SetKeysRequest_json {|
    pre_keys := [{| ote_key_id := 100; ote_public_key := "AAA"%bs |}; {| ote_key_id := 101; ote_public_key := "BBB"%bs |}];
    sk_signed_pre_key := sk_signed_pre_key SetKeysRequest_default;
    pq_pre_keys := pq_pre_keys SetKeysRequest_default;
    pq_last_resort_pre_key := pq_last_resort_pre_key SetKeysRequest_default |} in
  match as_array (index "preKeys"%bs j) with
  | Some [first; _] =>
      int_is 100 (index "keyId"%bs first) &&
      match as_string (index "publicKey"%bs first) with Some k => bytes_eqb k "AAA"%bs | None => false end
  | _ => false
  end &&
  negb (has_key j "signedPreKey"%bs) && negb (has_key j "pqPreKeys"%bs) && negb (has_key j "pqLastResortPreKey"%bs).
Definition set_keys_request_empty_serializes_to_object : bool :=
  match to_vec (SetKeysRequest_json SetKeysRequest_default) with Ok s => bytes_eqb s "{}"%bs | Err _ => false end.

(** * manager/prekey_replenish.rs: callbacks that count their calls and keep the body *)
Record Callbacks := { gen_called : nat; put_bodies : list SetKeysRequest }.
Definition dummy_jsons (n : Z) : list OneTimePreKeyJson :=
  (λ i, {| otj_key_id := 1000 + Z.of_nat i; otj_public_key := "pk"%bs ++ show_u (Z.of_nat i) |})
    <$> seq 0 (Z.to_nat n).
Definition generate_ok (n : Z) : ST Callbacks io_error (list OneTimePreKeyJson) :=
  modify (λ c, {| gen_called := S (gen_called c); put_bodies := put_bodies c |});; mret (dummy_jsons n).
Definition put_with (r : result io_error ()) (body : SetKeysRequest) : ST Callbacks io_error () :=
  modify (λ c, {| gen_called := gen_called c; put_bodies := put_bodies c ++ [body] |});; lift r.
Definition status_of (n pq : Z) : ST Callbacks io_error PreKeyCount := mret {| count := n; pq_count := pq |}.
Definition replenish_with (batch : Z) (get_status : ST Callbacks io_error PreKeyCount)
    (generate : Z → ST Callbacks io_error (list OneTimePreKeyJson))
    (put : SetKeysRequest → ST Callbacks io_error ()) (P : ReplenishOutcome → Callbacks → bool) : bool :=
  match run_replenish (F := io_error) 10 batch get_status generate put {| gen_called := 0; put_bodies := [] |} with
  | (Ok outcome, c) => P outcome c
  | (Err _, _) => false
  end.
Definition skipped_at (n : Z) (o : ReplenishOutcome) : bool := match o with Skipped c => (c =? n)%Z | _ => false end.
Definition replenished_by (n : Z) (o : ReplenishOutcome) : bool :=
  match o with Replenished c => (c =? n)%Z | _ => false end.
Definition failed_in (part : bytes) (o : ReplenishOutcome) : bool :=
  match o with Failed reason => contains reason part | _ => false end.
Definition not_put (c : Callbacks) : bool := bool_decide (length (put_bodies c) = 0).

Definition skips_when_server_count_above_threshold : bool :=
  replenish_with 100 (status_of 11 0) generate_ok (put_with (Ok tt))
    (λ o c, skipped_at 11 o && bool_decide (gen_called c = 0) && not_put c).
Definition skips_at_exact_threshold : bool :=
  replenish_with 100 (status_of 10 0) generate_ok (put_with (Ok tt)) (λ o c, skipped_at 10 o && not_put c).
Definition replenishes_when_server_count_below_threshold : bool :=
  replenish_with 100 (status_of 3 0) generate_ok (put_with (Ok tt)) (λ o c,
    replenished_by 100 o &&
    match put_bodies c with
    | [body] =>
        bool_decide (length (pre_keys body) = 100) &&
        bool_decide (ote_key_id <$> (pre_keys body !! 0) = Some 1000%Z) &&
        bool_decide (ote_key_id <$> (pre_keys body !! 99) = Some 1099%Z) &&
        match sk_signed_pre_key body, pq_pre_keys body, pq_last_resort_pre_key body with
        | None, [], None => true
        | _, _, _ => false
        end
    | _ => false
    end).
Definition server_count_zero_triggers_replenish : bool :=
  replenish_with 100 (status_of 0 1) generate_ok (put_with (Ok tt)) (λ o _, replenished_by 100 o).
Definition get_status_failure_returns_failed_without_calling_put : bool :=
  replenish_with 100 (throw (IoError ConnectionAborted "no route"%bs)) generate_ok (put_with (Ok tt))
    (λ o c, failed_in "get_keys_status"%bs o && not_put c).
Definition generate_failure_returns_failed_without_calling_put : bool :=
  replenish_with 100 (status_of 0 0) (λ _, throw (IoError Other "pddb wedged"%bs)) (put_with (Ok tt))
    (λ o c, failed_in "generate_one_time_prekeys"%bs o && not_put c).
Definition put_failure_returns_failed_after_local_persistence : bool :=
  replenish_with 100 (status_of 0 0) generate_ok (put_with (Err (IoError Other "503 from server"%bs)))
    (λ o _, failed_in "put_keys"%bs o).
Definition batch_size_zero_still_calls_put_with_empty_body : bool :=
  replenish_with 0 (status_of 0 0) generate_ok (put_with (Ok tt)) (λ o c, replenished_by 0 o && negb (not_put c)).

(** * manager/prekeys.rs *)
Definition advance_prekey_counter (start : Z) (count : nat) : Z := Nat.iter count advance start.
Definition advance_counter_basic_increment : bool :=
  (advance_prekey_counter 1 5 =? 6)%Z && (advance_prekey_counter 100 100 =? 200)%Z.
Definition advance_counter_wraps_at_medium_max : bool := (advance_prekey_counter (MEDIUM_MAX - 1) 3 =? 2)%Z.
Definition advance_counter_at_max_wraps_immediately : bool :=
  (advance_prekey_counter MEDIUM_MAX 1 =? 1)%Z && (advance_prekey_counter MEDIUM_MAX 2 =? 2)%Z.
Definition advance_counter_zero_count_is_noop : bool := (advance_prekey_counter 42 0 =? 42)%Z.

(** * manager/cancellation.rs *)
Definition fresh_mem : Mem := MkMem [] [] [].
(** A test observer; updates come at increasing times. *)
Definition observed (states : list LinkState) (x : Wifi) : Wifi :=
  foldl (λ x l, inject_for_test l (last_change (w_state x) + 1) x) x states.
Definition for_test : Wifi := (WifiObserver_for_test 0 fresh_mem).2.
Definition new_token (x : Wifi) : CancellationToken * Wifi :=
  let '(t, m) := CancellationToken_new (w_mem x) in (t, on_mem (λ _, m) x).
Definition DISCONNECTED : LinkState := 1%Z.
Definition CONNECTING : LinkState := 2%Z.
Definition NOT_CONNECTED : list LinkState := [Unknown; DISCONNECTED; CONNECTING; 4; 5; 6; 7]%Z.

Definition token_starts_uncancelled : bool :=
  let '(t, m) := CancellationToken_new fresh_mem in
  negb (CancellationToken_is_cancelled t m) &&
  negb (CancellationHandle_is_cancelled (CancellationToken_handle t) m).
Definition cancel_visible_via_token_and_handle : bool :=
  let '(t, m) := CancellationToken_new fresh_mem in
  let h := CancellationToken_handle t in
  let m' := CancellationToken_cancel t m in
  negb (CancellationToken_is_cancelled t m) && negb (CancellationHandle_is_cancelled h m) &&
  CancellationToken_is_cancelled t m' && CancellationHandle_is_cancelled h m'.
Definition handle_cancel_visible_via_token : bool :=
  let '(t, m) := CancellationToken_new fresh_mem in
  CancellationToken_is_cancelled t (CancellationHandle_cancel (CancellationToken_handle t) m).

(** A token watched after [before], and whether it is cancelled after [later]. *)
Definition watched (before later : list LinkState) : bool * bool :=
  let '(t, x) := new_token (observed before for_test) in
  let x := FlapWatcher_for_handle (CancellationToken_handle t) x in
  (CancellationToken_is_cancelled t (w_mem x),
   CancellationToken_is_cancelled t (w_mem (observed later x))).
Definition flap_watcher_cancels_on_connected_to_disconnected : bool :=
  bool_decide (watched [Connected] [DISCONNECTED] = (false, true)).
Definition flap_watcher_cancels_on_connected_to_any_non_connected : bool :=
  forallb (λ terminal, (watched [Connected] [terminal]).2) NOT_CONNECTED.
Definition flap_watcher_does_not_cancel_on_repeated_connected : bool :=
  negb (watched [Connected] [Connected; Connected]).2.
Definition flap_watcher_does_not_cancel_when_starting_disconnected : bool :=
  negb (watched [] [CONNECTING; Connected]).2.
Definition flap_watcher_re_arms_after_reconnect : bool :=
  let '(t1, x) := new_token (observed [Connected] for_test) in
  let x := observed [DISCONNECTED] (FlapWatcher_for_handle (CancellationToken_handle t1) x) in
  let first := CancellationToken_is_cancelled t1 (w_mem x) in
  let '(t2, x) := new_token (observed [Connected] x) in
  let x := observed [DISCONNECTED] (FlapWatcher_for_handle (CancellationToken_handle t2) x) in
  first && CancellationToken_is_cancelled t2 (w_mem x).

(** * manager/wifi_observer.rs *)
Definition current_returns_most_recent_state : bool :=
  let shows (l : LinkState) (x : Wifi) : bool := bool_decide (link_state (w_state x) = l) in
  shows Unknown for_test && shows CONNECTING (observed [CONNECTING] for_test) &&
  shows Connected (observed [CONNECTING; Connected] for_test) &&
  shows DISCONNECTED (observed [CONNECTING; Connected; DISCONNECTED] for_test).
Definition last_change_is_monotonic : bool :=
  let t0 := last_change (w_state for_test) in
  let t1 := last_change (w_state (observed [CONNECTING] for_test)) in
  let t2 := last_change (w_state (observed [CONNECTING; Connected] for_test)) in
  (t0 <? t1)%Z && (t1 <? t2)%Z.
Definition is_connected_matches_link_state_predicate : bool :=
  forallb (λ ls, negb (is_connected (observed [ls] for_test))) NOT_CONNECTED &&
  is_connected (observed (NOT_CONNECTED ++ [Connected]) for_test).
(** The waiting thread's clock, and the updates each wait sees. *)
Definition waits (ups : list (list WifiState)) (timeout : Z) (x : Wifi) : option (result io_error () * Z) :=
  '(r, s) ← wait_for_connection 10 timeout (Clocked 0 ups, x);
  Some (r, ck_now s.1).
Definition state_at (l : LinkState) (t : Z) : WifiState := {| link_state := l; last_change := t |}.
Definition wait_for_connection_returns_immediately_when_already_connected : bool :=
  match waits [] 1000 (observed [Connected] for_test) with
  | Some (Ok _, t) => (t <? 50)%Z
  | _ => false
  end.
Definition wait_for_connection_returns_ok_when_event_fires : bool :=
  match waits [[state_at Connected 50]] 2000 for_test with Some (Ok _, _) => true | _ => false end.
Definition wait_for_connection_times_out_when_no_event_fires : bool :=
  match waits [] 75 for_test with
  | Some (Err e, t) => bool_decide (kind e = TimedOut) && (75 <=? t)%Z
  | _ => false
  end.
Definition wait_for_connection_keeps_waiting_on_non_connected_events : bool :=
  match waits [[state_at CONNECTING 20]; [state_at Connected 40]] 2000 for_test with
  | Some (Ok _, _) => true
  | _ => false
  end.

(** * manager/ws_server.rs *)
Definition is_timeout_matches_wouldblock_and_timedout : bool :=
  ws_is_timeout (WsIo (IoError WouldBlock [])) && ws_is_timeout (WsIo (IoError TimedOut [])).
Definition is_timeout_rejects_non_timeout_errors : bool :=
  negb (ws_is_timeout (WsOther "Connection closed normally"%bs)) &&
  negb (ws_is_timeout (WsOther "Trying to work with closed connection"%bs)) &&
  negb (ws_is_timeout (WsIo (IoError Other []))).
Definition ws_result_buf_empty_is_sentinel : bool :=
  let b := WsResultBuf_empty in
  (buf_status b =? 255)%Z && (buf_len b =? 0)%Z && forallb (λ x, bool_decide (x = Byte.x00)) (buf_bytes b).

(** * manager/stores.rs: each test on a device of its own *)
Definition on_flash {E A} (c : ST flash E A) (P : A → bool) : bool :=
  match c ∅ with (Ok a, _) => P a | (Err _, _) => false end.
Definition test_prekey_store : PddbPreKeyStore := {| prekey_dict := "sigchat.test.prekey"%bs |}.
Definition test_signed_prekey_store : PddbSignedPreKeyStore := {| signed_dict := "sigchat.test.signed_prekey"%bs |}.
Definition test_kyber_prekey_store : PddbKyberPreKeyStore := {| kyber_dict := "sigchat.test.kyber_prekey"%bs |}.
Definition test_session_store : PddbSessionStore := {| session_dict := "sigchat.test.session"%bs |}.
Definition test_identity_store : PddbIdentityStore :=
  {| account_dict := "sigchat.account"%bs; identity_dict := "sigchat.test.identity"%bs |}.
(** [a.serialize().unwrap() == b.serialize().unwrap()] *)
Definition same_bytes {A} `{Codec A} (a b : A) : bool :=
  match serialize a, serialize b with Ok x, Ok y => bytes_eqb x y | _, _ => false end.

Definition prekey_round_trip : bool :=
  let record := PreKeyRecord_new 1 (KeyPair_generate (draw 1)) in
  on_flash (PreKey_save_pre_key test_prekey_store 1 record;;
            loaded ← PreKey_get_pre_key test_prekey_store 1;
            PreKey_remove_pre_key test_prekey_store 1;; mret loaded) (same_bytes record).
Definition prekey_missing_returns_invalid_id : bool :=
  on_flash (try (E := SignalProtocolError) (PreKey_get_pre_key test_prekey_store 99999))
    (λ r, match r with Err InvalidPreKeyId => true | _ => false end).
Definition signed_prekey_round_trip : bool :=
  let kp := KeyPair_generate (draw 1) in
  match calculate_signature kp.2 (public_serialize kp.1) (draw 2) with
  | Ok signature =>
      let record := SignedPreKeyRecord_new 1 0 kp signature in
      on_flash (SignedPreKey_save_signed_pre_key test_signed_prekey_store 1 record;;
                SignedPreKey_get_signed_pre_key test_signed_prekey_store 1) (same_bytes record)
  | Err _ => false
  end.
Definition signed_prekey_missing_returns_invalid_id : bool :=
  on_flash (try (E := SignalProtocolError) (SignedPreKey_get_signed_pre_key test_signed_prekey_store 88888))
    (λ r, match r with Err InvalidSignedPreKeyId => true | _ => false end).
Definition kyber_prekey_round_trip : bool :=
  match KyberPreKeyRecord_generate 1 (KeyPair_generate (draw 1)).2 (draw 2) with
  | Ok record =>
      on_flash (KyberPreKey_save_kyber_pre_key test_kyber_prekey_store 1 record;;
                KyberPreKey_get_kyber_pre_key test_kyber_prekey_store 1) (same_bytes record)
  | Err _ => false
  end.
Definition kyber_prekey_missing_returns_error : bool :=
  on_flash (try (E := SignalProtocolError) (KyberPreKey_get_kyber_pre_key test_kyber_prekey_store 77777))
    (λ r, negb (is_ok r)).
Definition mark_used (kyber_id ec_id : Z) (base : nat) : ST flash SignalProtocolError () :=
  KyberPreKey_mark_kyber_pre_key_used test_kyber_prekey_store kyber_id ec_id (KeyPair_generate (draw base)).1.
Definition rejected (r : result SignalProtocolError ()) : bool :=
  match r with Err InvalidKyberPreKeyId => true | _ => false end.
Definition kyber_prekey_mark_used_first_call_succeeds : bool :=
  on_flash (try (E := SignalProtocolError) (mark_used 101 11 1)) is_ok.
Definition kyber_prekey_mark_used_reuse_rejected : bool :=
  on_flash (mark_used 102 12 1;; try (mark_used 102 12 1)) rejected.
Definition kyber_prekey_mark_used_different_tuples_independent : bool :=
  on_flash (mark_used 103 20 1;; mark_used 103 21 1;; mark_used 103 20 2;; try (mark_used 103 20 1)) rejected.
Definition session_missing_returns_none : bool :=
  on_flash (Session_load_session test_session_store (Addr "test-peer-missing"%bs 1))
    (λ r, match r with None => true | Some _ => false end).
Definition identity_missing_returns_none : bool :=
  on_flash (Identity_get_identity test_identity_store (Addr "test-peer-identity-missing"%bs 1))
    (λ r, match r with None => true | Some _ => false end).
Definition identity_tofu_first_use_trusted : bool :=
  on_flash (Identity_is_trusted_identity test_identity_store (Addr "test-peer-tofu"%bs 1)
              (IdentityKey_new (KeyPair_generate (draw 1)).1) Receiving) id.

(** * tests/wifi_flap_recovery.rs

    Each poll of the operation is followed by a sleep, in which the observer thread may
    apply updates: [during] are the updates of each sleep. *)
Fixpoint mock_long_op (handle : CancellationHandle) (during : list (list LinkState)) (value : Z)
    (x : Wifi) : result bytes Z * Wifi :=
  match during with
  | [] => (Ok value, x)
  | ups :: during =>
      if CancellationHandle_is_cancelled handle (w_mem x) then (Err ("cancelled"%bs : bytes), x)
      else mock_long_op handle during value (observed ups x)
  end.
(** The same with a counter of completed steps; the error carries the step's index. *)
Fixpoint counting_op (handle : CancellationHandle) (during : list (list LinkState)) (i counter : nat)
    (x : Wifi) : result nat () * nat :=
  match during with
  | [] => (Ok tt, counter)
  | ups :: during =>
      if CancellationHandle_is_cancelled handle (w_mem x) then (Err i, counter)
      else counting_op handle during (S i) (S counter) (observed ups x)
  end.
Definition quiet_steps (n : nat) : list (list LinkState) := replicate n [].
Definition is_cancelled_err (r : result bytes Z) : bool :=
  match r with Err e => bytes_eqb e "cancelled"%bs | Ok _ => false end.
Definition is_value (v : Z) (r : result bytes Z) : bool := match r with Ok z => (z =? v)%Z | Err _ => false end.
(** Token, watcher, operation. *)
Definition one_attempt (during : list (list LinkState)) (value : Z) (x : Wifi) :
    result bytes Z * CancellationToken * Wifi :=
  let '(token, x) := new_token x in
  let x := FlapWatcher_for_handle (CancellationToken_handle token) x in
  let '(r, x) := mock_long_op (CancellationToken_handle token) during value x in
  (r, token, x).
Definition flap_after (n rest : nat) : list (list LinkState) := quiet_steps n ++ [[DISCONNECTED]] ++ quiet_steps rest.

Definition cancellation_propagates_to_long_op : bool :=
  let '(r, token, x) := one_attempt (flap_after 4 95) 42 (observed [Connected] for_test) in
  is_cancelled_err r && CancellationToken_is_cancelled token (w_mem x).
Definition no_flap_lets_op_complete_normally : bool :=
  let '(r, token, x) := one_attempt (quiet_steps 5) 7 (observed [Connected] for_test) in
  is_value 7 r && negb (CancellationToken_is_cancelled token (w_mem x)).
Definition retry_after_simulated_flap_succeeds : bool :=
  let '(r1, token1, x) := one_attempt (flap_after 4 95) 1 (observed [Connected] for_test) in
  let reconnect := [[state_at Connected (last_change (w_state x) + 30)]] in
  match wait_for_connection 10 2000 (Clocked 0 reconnect, x) with
  | Some (Ok _, (_, x')) =>
      let '(r2, token2, x'') := one_attempt (quiet_steps 5) 2 x' in
      is_cancelled_err r1 && CancellationToken_is_cancelled token1 (w_mem x) && is_value 2 r2 &&
      negb (CancellationToken_is_cancelled token2 (w_mem x''))
  | _ => false
  end.
Definition no_corruption_after_cancel_during_simulated_pddb_writes : bool :=
  let '(token, x) := new_token (observed [Connected] for_test) in
  let x := FlapWatcher_for_handle (CancellationToken_handle token) x in
  match counting_op (CancellationToken_handle token) (flap_after 6 93) 0 0 x with
  | (Err attempted_at_cancel, final_count) =>
      bool_decide (final_count = attempted_at_cancel) && bool_decide (0 < final_count) &&
      bool_decide (final_count < 100)
  | (Ok _, _) => false
  end.

(** * All of them *)
Definition unit_tests : list bool :=
  [strip_returns_plaintext_unchanged_when_no_padding; strip_removes_trailing_zeros_then_marker;
   strip_handles_marker_at_end_with_no_zero_fill; strip_does_not_eat_payload_zeros;
   strip_is_idempotent_on_already_stripped_input; strip_handles_empty_input;
   is_timeout_recognises_would_block; is_timeout_recognises_timed_out;
   is_timeout_does_not_treat_unexpected_eof_as_timeout; is_timeout_does_not_treat_protocol_error_as_timeout;
   content_data_message_round_trips_body_and_timestamp; content_sync_sent_round_trips_destination_and_inner_message;
   json_round_trip_preserves_fields; json_round_trip_handles_quotes_and_backslashes;
   from_json_tolerates_missing_fields; truncate_snippet_keeps_short_strings;
   truncate_snippet_clips_at_byte_budget; truncate_snippet_does_not_split_utf8;
   aes256_ctr_encrypt_rejects_short_keys; aes256_ctr_encrypt_rejects_long_keys;
   aes256_ctr_encrypt_accepts_exact_32_byte_key; aes256_ctr_encrypt_preserves_plaintext_length;
   aes256_ctr_encrypt_round_trip_self_decrypts; TrustMode_display_matches_variant_name;
   TrustMode_parse_then_display_round_trips_every_variant; TrustMode_unknown_input_errors;
   LinkState_parse_display_round_trip; LinkState_unknown_input_errors;
   GroupPermission_parse_display_round_trip; GroupPermission_unknown_input_errors;
   ServiceEnvironment_parse_display_round_trip; ServiceEnvironment_unknown_input_errors;
   live_environment_uses_chat_subdomain; staging_environment_uses_chat_staging_subdomain;
   upgrade_request_does_not_request_story_envelopes; upgrade_request_sets_websocket_upgrade_headers;
   upgrade_request_omits_authorization_when_unauthenticated; upgrade_request_includes_basic_auth_when_credentials_provided;
   password_is_24_ascii_chars; registration_id_in_range;
   uak_requires_32_byte_profile_key; attributes_serialize_with_expected_field_names;
   attributes_omit_legacy_signaling_key; attributes_omit_legacy_voice_video_top_level;
   attributes_payload_contains_only_modern_fields; signal_pad_appends_marker_and_pads_to_160;
   signal_pad_at_exact_multiple_pads_to_next; pad_then_strip_round_trips;
   parse_peer_json_minimal; parse_peer_json_rejects_bad_device_id;
   no_session_returns_no_session_error; parse_demo_peer_default_device_is_1;
   parse_demo_peer_explicit_device; parse_demo_peer_rejects_short_uuid;
   parse_demo_peer_rejects_misplaced_hyphens; parse_demo_peer_rejects_non_hex;
   parse_demo_peer_rejects_device_id_zero; parse_demo_peer_rejects_device_id_too_large;
   parse_demo_peer_rejects_non_numeric_device_id; basic_auth_matches_reference_encoding;
   basic_auth_supports_aci_dot_device_id_format; device_id_string_parses_to_u32;
   body_serializes_with_expected_keys; prekey_count_parses_camel_case;
   prekey_count_rejects_bad_shape; set_keys_request_with_only_pre_keys_omits_other_fields;
   set_keys_request_empty_serializes_to_object; skips_when_server_count_above_threshold;
   skips_at_exact_threshold; replenishes_when_server_count_below_threshold;
   server_count_zero_triggers_replenish; get_status_failure_returns_failed_without_calling_put;
   generate_failure_returns_failed_without_calling_put; put_failure_returns_failed_after_local_persistence;
   batch_size_zero_still_calls_put_with_empty_body; advance_counter_basic_increment;
   advance_counter_wraps_at_medium_max; advance_counter_at_max_wraps_immediately;
   advance_counter_zero_count_is_noop; token_starts_uncancelled;
   cancel_visible_via_token_and_handle; handle_cancel_visible_via_token;
   flap_watcher_cancels_on_connected_to_disconnected; flap_watcher_cancels_on_connected_to_any_non_connected;
   flap_watcher_does_not_cancel_on_repeated_connected; flap_watcher_does_not_cancel_when_starting_disconnected;
   flap_watcher_re_arms_after_reconnect; current_returns_most_recent_state;
   last_change_is_monotonic; is_connected_matches_link_state_predicate;
   wait_for_connection_returns_immediately_when_already_connected; wait_for_connection_returns_ok_when_event_fires;
   wait_for_connection_times_out_when_no_event_fires; wait_for_connection_keeps_waiting_on_non_connected_events;
   is_timeout_matches_wouldblock_and_timedout; is_timeout_rejects_non_timeout_errors;
   ws_result_buf_empty_is_sentinel; prekey_round_trip;
   prekey_missing_returns_invalid_id; signed_prekey_round_trip;
   signed_prekey_missing_returns_invalid_id; kyber_prekey_round_trip;
   kyber_prekey_missing_returns_error; kyber_prekey_mark_used_first_call_succeeds;
   kyber_prekey_mark_used_reuse_rejected; kyber_prekey_mark_used_different_tuples_independent;
   session_missing_returns_none; identity_missing_returns_none;
   identity_tofu_first_use_trusted;
   cancellation_propagates_to_long_op; no_flap_lets_op_complete_normally;
   retry_after_simulated_flap_succeeds; no_corruption_after_cancel_during_simulated_pddb_writes].

